(* ===== verification/_CoqProject ===== *)
-Q . S2P
Prelude.v
Effects.v
Heap.v
Ring.v
Window.v
CString.v
Umalloc.v
Ata.v
Boot.v
Mmu.v
Mp.v
State.v
Disk.v
Mkfs.v
Image.v
Spinlock.v
Kalloc.v
Vm.v
Bytes.v
Space.v
User.v
Kbd.v
Apic.v
Print.v
Proc.v
Sleeplock.v
Bio.v
Ide.v
Log.v
Inode.v
Console.v
Fs.v
Pipe.v
File.v
Lifecycle.v
Fork.v
Exec.v
Syscall.v
Trap.v
Sched.v
Grep.v
Ulib.v
Printf.v
Userland.v
Workload.v
Sh.v
