(* ===== verification/Prelude.v ===== *)
(** * Verification of the CS 537 xv6 kernel with a stride scheduler

    The program is xv6 for x86 with a second scheduler: the boot loader, the
    kernel, the builder of the disk image and the user programs, in
    [src/solution].  This library translates its C code into executable
    definitions and proves what the code guarantees; where the code does not
    do what it is meant to do, a theorem says what it does instead.

    ** How code is modelled

    - Integers are [Z], with the wrap-around of their width written out
      ([u8], [u16], [u32], [i16], [i32] below), for signed counters too; the
      theorems ask that the depth of [pushcli] and the reference counts stay
      below it ([Spinlock.cpu_room], [Fork.open_files]).  Memory is a map from addresses
      to bytes ([CString]); a word is four of them, little endian.
    - Kernel code is a computation [M S A] (below).  It returns, or it ends in
      one of the other outcomes: [Panic] for a call of [panic] (without what it
      prints), [Suspend] for a switch to another thread, with the code that
      goes on after it as a function of the state it finds then, [Spin] for a
      lock that is taken, [Loop] for fuel that ran out, [Fault] for an access
      that C leaves undefined.
    - The global variables of the kernel are the record [State.kernel].
      Pointers are modelled by what they point to: slots of tables, addresses
      of pages, names of locks.
    - User programs and drivers are trees of calls ([Effects.prog]): system
      calls for the former, accesses to ports and registers for the latter.
      What answers the calls is a parameter.

    ** The files

    Foundations:
    - [Prelude]: integers, lists, record update, the computations and the rules
      for them, the hint database and the tactics.
    - [Effects]: programs that talk to an environment.
    - [Ring], [Window]: circular linked lists; windows of ring buffers.
    - [CString]: [string.c] and the string instructions of [x86.h].
    - [Mmu]: [mmu.h], [memlayout.h].  [State]: [proc.h], [param.h], [traps.h]
      and the structures of the kernel.  [Disk]: [fs.h], [buf.h], [stat.h].

    Machine:
    - [Ata]: port accesses of [x86.h]; the class [Ata] of disks that behave as
      the ATA standard says, which promises nothing for accesses to a disk that
      is busy; the class [PromptWrites] of disks that are not busy between a
      write command and its data, on which [ide.c] relies; and the instance
      [Toy] of both, which loses what it is sent while it is busy.
    - [Boot]: [bootmain.c].  [Mp]: [mp.c].  [Apic]: [picirq.c], [ioapic.c],
      [lapic.c], [uartinit] of [uart.c].  [Ide]: [ide.c], on any disk of [Ata].

    Memory and processes:
    - [Heap]: the heap of [proc.c], [strideheap.c] and [heaptest.c]; the class
      [MinQueue] is what the scheduler relies on.
    - [Spinlock]: [spinlock.c].  [Sleeplock]: [sleeplock.c].
    - [Kalloc]: [kalloc.c].  [Vm], [Bytes], [Space], [User]: [vm.c], that memory
      stays bytes, the copy of an address space, and memory as the kernel sees
      it through a page directory.
    - [Proc]: allocation, sleeping, waking and killing in [proc.c];
      [Lifecycle], [Fork]: from the first process over [fork], [exit] and [wait];
      [Sched]: both schedulers.
    - [Exec]: [exec.c].  [Syscall]: [syscall.c], [sysproc.c], [sysfile.c].
      [Trap]: [trap.c].

    Files and devices:
    - [Bio]: [bio.c], with any driver of the class [DriverLaws]; [memide.c] is
      one.  [Log]: [log.c].  [Inode], [Fs]: [fs.c].  [File]: [file.c].
      [Pipe]: [pipe.c].
    - [Kbd]: [kbd.c], [kbd.h].  [Print], [Console]: [console.c], [uart.c].
    - [Mkfs], [Image]: [mkfs.c], and reading back the image it builds.

    User space:
    - [Umalloc]: [umalloc.c].  [Ulib]: [ulib.c].  [Printf]: [printf.c].
    - [Userland]: [cat], [wc], [grep], [echo], [kill], [ln], [mkdir], [rm], [ls],
      [zombie], [stressfs], [forktest] and [init].  [Grep]: the matcher of
      [grep.c].  [Workload]: [workload.c], [pstat.h].  [Sh]: [sh.c].

    ** What is proved

    - Scheduling: a round of round robin runs every process that is runnable
      when it starts and does not panic; a round of the stride scheduler runs a
      least process in the order of pass, runtime and pid, but on a copy of
      it: the scheduler and the process record in the copy, not in the table,
      what they do, and a process that is first in the order and only yields is
      chosen again in every round.  The heap keeps its order and its elements;
      the one of [strideheap.c] takes 64 and then leaves its array.
    - Processes: [allocproc], [fork], [wait], [growproc], [sleep] on every
      branch, with what is undone when memory or slots run out.  A sleep lock
      is waited for until it is free.  [pushcli] and [popcli] nest.
    - Memory: the page allocator refines a stack of pages; [allocuvm] and
      [copyuvm] give private pages or leave everything as it was, the former
      only when the free pages do not suffice; system calls accept exactly the
      arguments inside the process; [malloc] and [free] refine a
      set of disjoint objects.
    - Disk: the buffer cache refines the disk alone; a commit is atomic for a
      crash at every access of the disk, recovery included; the driver's
      queue is served in order by one interrupt for each request, and the
      sleeping processes are woken; a read that fails still marks its buffer
      valid.  Files given to [mkfs] can be read back from the image.
    - Streams: bytes go through a pipe in order, whatever happens while one
      side sleeps; the keyboard handler edits lines as their specification
      says; [cprintf] and [printf] print what the format says, and [atoi] reads
      their digits back.
    - Start: the boot loader puts every segment at its address and writes
      nothing outside of their sectors and the header; the search
      for processors records them, and hangs on an entry it does not know;
      the interrupt controller routes what is enabled and nothing else.
    - Programs: the matcher of [grep] agrees with the language of the pattern;
      the shell's parser ends on every line and splits it into the words it
      should; [wc] counts, however its input is divided.

    ** Bounds

    Loops with a bound of their own use it (the size of a table, the length of
    a list).  A loop that waits for another process or a device has none:
    the class [Turns] and the arguments [spins], [turns] and [fuel] give the
    number of turns the model follows it for.  Theorems either hold for every
    such number, or ask for one that is large enough and say which: more than
    [Ata.slow] polls of a disk that is busy for at most [Ata.slow] of them, a
    turn for every sector or program header in [Boot], a unit for each
    character of the line at each of the four levels of the parser in [Sh], a
    unit for each chunk of a file in [Userland].  With that much, the results
    are returned.  The waiting loops of [acquiresleep] and [iderw] are described
    by [Sleeplock.waits] for every number of turns: whether the process sleeps
    again or returns depends only on the state in which it gets the CPU back.

    ** Not modelled

    - [main.c], which calls the set-up operations of the parts one after the
      other: each is modelled on the state of its own part, and the processors
      it starts run assembly code first.  For the same reason the driver of
      [Ide] has the kernel inside its state and is not an instance of
      [Bio.DriverLaws]; the cache is instantiated with [memide.c].
    - The assembly files, [vectors.pl], the linker script: [swtch] is [Suspend],
      and trap frames are records.  [seginit] and [idtinit] only load registers;
      [getcallerpcs] only records return addresses and is an argument where
      they are printed.
    - Other processors run between the [Suspend] points and at the points that
      the theorems on crashes and on sleeping observe, not between any two
      instructions.
    - The heap of the stride scheduler is on the stack of each CPU; the model
      has that of the CPU that runs.
    - Null arguments that no caller passes: the lock of [sleep], the format of
      [cprintf].  A null result of [malloc] in [sh.c].
    - Messages the kernel prints in [vm.c], [proc.c] and the schedulers, errors
      of the host's files in [mkfs.c] other than the end of the file.
    - [simple.c] and [filterproc.c], which are not built; [usertests.c] and the
      programs in [src/tests], which only test; the scripts. *)

From stdpp Require Import base list gmap strings numbers.
From Stdlib Require Import ZArith Lia FunctionalExtensionality.
#[local] Open Scope Z_scope.

(** ** Machine integers *)

(** The width-[w] unsigned value of an integer. *)
Definition wrapu (w x : Z) : Z := x mod 2 ^ w.

(** The width-[w] two's complement value of an integer. *)
Definition wraps (w x : Z) : Z := (x + 2 ^ (w - 1)) mod 2 ^ w - 2 ^ (w - 1).

(** C [uint]. *)
Definition u32 (x : Z) : Z := wrapu 32 x.

(** C [int]. *)
Definition i32 (x : Z) : Z := wraps 32 x.

(** C [uchar]. *)
Definition u8 (x : Z) : Z := wrapu 8 x.

(** C [char], signed as on x86. *)
Definition i8 (x : Z) : Z := wraps 8 x.

(** C [ushort]. *)
Definition u16 (x : Z) : Z := wrapu 16 x.

(** C [short]. *)
Definition i16 (x : Z) : Z := wraps 16 x.

(** C's truth value of a comparison. *)
Definition c_bool (b : bool) : Z := if b then 1 else 0.

(** ** Outcomes of kernel code *)

(** A run of kernel code in a state of type [S].  [Ret] returns a value;
    [Panic] is a call of [panic] (the machine stops); [Suspend] is a
    [swtch] away from the running kernel thread: it leaves the state [s] to
    whoever runs next, and [k] is the rest of the thread, which starts in the
    state the next [swtch] to it finds; [Spin] is an [xchg] loop that finds
    the lock taken; [Loop] is a loop that goes on after the number of turns
    its model allows; [Fault] is an access outside the accessed object, which
    C leaves undefined. *)
Inductive outcome (S A : Type) : Type :=
| Ret (a : A) (s : S)
| Panic (msg : string)
| Suspend (s : S) (k : S → outcome S A)
| Spin
| Loop
| Fault.

Arguments Ret {S A} a s.
Arguments Panic {S A} msg.
Arguments Suspend {S A} s k.
Arguments Spin {S A}.
Arguments Loop {S A}.
Arguments Fault {S A}.

(** Kernel code: a state transformer with the outcomes above. *)
Definition M (S A : Type) : Type := S → outcome S A.

Definition ret {S A} (a : A) : M S A := λ s, Ret a s.

(** Continue a run: the rest of a suspended thread is continued when it
    is resumed. *)
Fixpoint obind {S A B} (o : outcome S A) (f : A → M S B) : outcome S B :=
  match o with
  | Ret a s => f a s
  | Panic msg => Panic msg
  | Suspend s k => Suspend s (λ s', obind (k s') f)
  | Spin => Spin
  | Loop => Loop
  | Fault => Fault
  end.

Definition bind {S A B} (m : M S A) (f : A → M S B) : M S B := λ s, obind (m s) f.

(** [swtch] to another thread; the call returns when some thread switches
    back. *)
Definition suspend {S} : M S unit := λ s, Suspend s (ret tt).

Definition panic {S A} (msg : string) : M S A := λ _, Panic msg.

Definition fault {S A} : M S A := λ _, Fault.

Definition gets {S A} (f : S → A) : M S A := λ s, Ret (f s) s.

Definition modify {S} (f : S → S) : M S unit := λ s, Ret tt (f s).

(** Reading an array cell or a pointed-to object. *)
Definition get_some {S A} (o : option A) : M S A :=
  match o with Some a => ret a | None => fault end.

Declare Scope kernel_scope.
Delimit Scope kernel_scope with kern.
Notation "'let!' x ':=' m 'in' k" := (bind m (λ x, k))
  (at level 10, x binder, m at level 100, k at level 200,
   format "'[v' 'let!'  x  ':='  m  'in' '/' k ']'") : kernel_scope.
Notation "m1 ';;;' m2" := (bind m1 (λ _ : unit, m2))
  (at level 100, m2 at level 200, right associativity,
   format "'[v' m1 ';;;' '/' m2 ']'") : kernel_scope.
Notation "'when' b 'do' m" := (if b then m else ret tt)
  (at level 99, b at level 99, m at level 99) : kernel_scope.
#[global] Open Scope kernel_scope.

(** ** Record update *)

(** A record type with its surjective pairing written out. *)
Class Eta (R : Type) := eta : R → R.

(** The update of one field; [derive_update] finds the instances from the
    surjective pairing of the record. *)
Class Update {R T : Type} (proj : R → T) := {
  update : (T → T) → R → R;
  proj_update : ∀ f r, proj (update f r) = f (proj r)
}.
Arguments update {R T} proj {_} f r : simpl never.

Ltac derive_update :=
  lazymatch goal with
  | |- @Update ?R ?T ?proj =>
      let h := constr:(_ : Eta R) in
      let h' := eval red in h in
      refine (@Build_Update R T proj (λ (g : T → T) (r : R),
        ltac:(let body := eval cbv beta in (h' r) in
              let body' := eval pattern (proj r) in body in
              match body' with
              | ?ctx (proj r) => let t := eval cbv beta in (ctx (g (proj r))) in exact t
              end)) (λ _ _, eq_refl))
  end.

#[global] Hint Extern 1 (Update _) => derive_update : typeclass_instances.

Notation "r '<|' f '::=' g '|>'" := (update f g r)
  (at level 1, left associativity, format "r  '<|' f  '::='  g '|>'") : kernel_scope.
Notation "r '<|' f ':=' v '|>'" := (update f (λ _, v) r)
  (at level 1, left associativity, format "r  '<|' f  ':='  v '|>'") : kernel_scope.

(** Reduce projections of updated records. *)
Ltac rsimpl_step :=
  match goal with
  | |- context [?p (@update ?R ?T ?q ?I ?f ?r)] =>
      first [change (p (@update R T q I f r)) with (f (p r)); cbv beta
            |change (p (@update R T q I f r)) with (p r)]
  | H : context [?p (@update ?R ?T ?q ?I ?f ?r)] |- _ =>
      first [change (p (@update R T q I f r)) with (f (p r)) in H; cbv beta in H
            |change (p (@update R T q I f r)) with (p r) in H]
  end.
Ltac rsimpl := repeat rsimpl_step.

(** Drop the hypotheses that are not integer arithmetic. *)
Ltac keep_arith :=
  repeat match goal with
  | H : ?T |- _ =>
      lazymatch type of T with
      | Prop =>
          lazymatch T with
          | @eq Z _ _ => fail
          | @eq nat _ _ => fail
          | ¬ (@eq Z _ _) => fail
          | (_ <= _)%Z => fail
          | (_ < _)%Z => fail
          | (_ ≤ _)%nat => fail
          | (_ < _)%nat => fail
          | _ ∧ _ => fail
          | _ ∨ _ => fail
          | _ => clear H
          end
      end
  end.

(** [lia] with the equations of division and remainder. *)
Ltac zdiv := keep_arith; Z.to_euclidean_division_equations; lia.

(** ** Generic lemmas *)

Create HintDb kern discriminated.
Create Rewrite HintDb kern.

Lemma wrapu_range w x : 0 <= w → 0 <= wrapu w x < 2 ^ w.
Proof. intros Hw. apply Z.mod_pos_bound. apply Z.pow_pos_nonneg; lia. Qed.

Lemma wrapu_small w x : 0 <= x < 2 ^ w → wrapu w x = x.
Proof. apply Z.mod_small. Qed.

Lemma wraps_small w x : - 2 ^ (w - 1) <= x < 2 ^ (w - 1) → 1 <= w → wraps w x = x.
Proof.
  intros Hx Hw. unfold wraps.
  assert (2 ^ w = 2 * 2 ^ (w - 1)) as E
    by (rewrite <- Z.pow_succ_r by lia; f_equal; lia).
  rewrite Z.mod_small; lia.
Qed.

Lemma i32_small x : - 2 ^ 31 <= x < 2 ^ 31 → i32 x = x.
Proof. intros H. apply wraps_small; lia. Qed.

Lemma u32_range x : 0 <= u32 x < 2 ^ 32.
Proof. apply wrapu_range; lia. Qed.

Lemma u32_small x : 0 <= x < 2 ^ 32 → u32 x = x.
Proof. apply wrapu_small. Qed.

Lemma u32_idemp x : u32 (u32 x) = u32 x.
Proof. apply u32_small, u32_range. Qed.

#[export] Hint Rewrite u32_idemp : kern.
#[export] Hint Resolve u32_range : kern.

Section bind_laws.
Context {S A B C : Type}.
Implicit Types (m : M S A) (f : A → M S B) (g : B → M S C).

Lemma bind_ret_l a f s : bind (ret a) f s = f a s.
Proof. reflexivity. Qed.

Lemma bind_gets (h : S → A) f s : bind (gets h) f s = f (h s) s.
Proof. reflexivity. Qed.

Lemma bind_modify (h : S → S) (m : M S B) s : bind (modify h) (λ _, m) s = m (h s).
Proof. reflexivity. Qed.

Lemma bind_ext m f f' s : (∀ a s', f a s' = f' a s') → bind m f s = bind m f' s.
Proof.
  intros H. replace f with f'; [done|]. extensionality a. extensionality s'. by rewrite H.
Qed.

Lemma obind_assoc (o : outcome S A) f g :
  obind (obind o f) g = obind o (λ a, bind (f a) g).
Proof.
  induction o as [a s|msg|s k IH| | |]; cbn; try done. f_equal.
  apply functional_extensionality. intros s'. apply IH.
Qed.

Lemma bind_assoc m f g s : bind (bind m f) g s = bind m (λ a, bind (f a) g) s.
Proof. apply obind_assoc. Qed.

Lemma bind_Ret m f s a s' : m s = Ret a s' → bind m f s = f a s'.
Proof. unfold bind. by intros ->. Qed.

Lemma bind_Ret_inv m f s b s' :
  bind m f s = Ret b s' → ∃ a s1, m s = Ret a s1 ∧ f a s1 = Ret b s'.
Proof. unfold bind. destruct (m s); cbn; intros; simplify_eq; eauto. Qed.

Lemma bind_Suspend m f s s1 (k : M S A) :
  m s = Suspend s1 k → bind m f s = Suspend s1 (bind k f).
Proof. unfold bind. by intros ->. Qed.
End bind_laws.

Lemma bind_ret_tt {S} (m : M S unit) s : (m;;; ret tt) s = m s.
Proof.
  unfold bind. induction (m s) as [[] s1|msg|s1 k IH| | |]; cbn; try done. f_equal.
  apply functional_extensionality. intros s'. apply IH.
Qed.

(** *** Contracts of code that gives up the CPU

    [wp Q m s]: run from [s], [m] neither stops the machine nor faults nor
    spins; whenever it switches away the state satisfies the guarantee [G],
    and if every switch back finds a state that the rely [R] allows, [m] ends
    in a state that satisfies [Q].  [L] says whether a loop may go on past
    its bound: with [L := False] the contract includes termination, with
    [L := True] it holds for every number of turns of the loop. *)
Section contracts.
Context {S : Type} (L : Prop) (G : S → Prop) (R : S → S → Prop).

Fixpoint owp {A} (Q : A → S → Prop) (o : outcome S A) : Prop :=
  match o with
  | Ret a s => Q a s
  | Suspend s k => G s ∧ ∀ s', R s s' → owp Q (k s')
  | Loop => L
  | _ => False
  end.

Definition wp {A} (Q : A → S → Prop) (m : M S A) (s : S) : Prop := owp Q (m s).

Lemma owp_mono {A} (Q Q' : A → S → Prop) o :
  (∀ a s, Q a s → Q' a s) → owp Q o → owp Q' o.
Proof.
  intros H. induction o as [| |s k IH| | |]; cbn; try done; [by apply H|].
  intros [HG Hk]. split; [done|]. intros s' Hs. by apply IH, Hk.
Qed.

Lemma wp_bind {A B} (Q : B → S → Prop) (m : M S A) (f : A → M S B) s :
  wp (λ a, wp Q (f a)) m s → wp Q (bind m f) s.
Proof.
  unfold wp, bind. induction (m s) as [| |s1 k IH| | |]; cbn; try done.
  intros [HG Hk]. split; [done|]. intros s' Hs. by apply IH, Hk.
Qed.

Lemma wp_Ret {A} (Q : A → S → Prop) (m : M S A) s a s' :
  m s = Ret a s' → Q a s' → wp Q m s.
Proof. unfold wp. by intros ->. Qed.

Lemma wp_mono {A} (Q Q' : A → S → Prop) (m : M S A) s :
  (∀ a s, Q a s → Q' a s) → wp Q m s → wp Q' m s.
Proof. apply owp_mono. Qed.

Lemma wp_suspend (Q : unit → S → Prop) s :
  G s → (∀ s', R s s' → Q tt s') → wp Q suspend s.
Proof. by split. Qed.
End contracts.

(** A contract that includes termination holds for bounded loops too. *)
Lemma wp_total {S A} (m : M S A) (L : Prop) G R (Q : A → S → Prop) s :
  wp False G R Q m s → wp L G R Q m s.
Proof.
  unfold wp. induction (m s) as [| |s1 k IH| | |]; cbn; try done.
  intros [HG Hk]. split; [done|]. intros s' Hs. by apply IH, Hk.
Qed.

(** Split a hypothesis that says a sequence of calls returned. *)
Ltac inv_bind :=
  repeat match goal with
  | H : bind _ _ _ = Ret _ _ |- _ =>
      let a := fresh "r" in let s := fresh "s" in let H1 := fresh "Hm" in
      apply bind_Ret_inv in H as (a & s & H1 & H)
  | H : ret _ _ = Ret _ _ |- _ => unfold ret in H; simplify_eq
  | H : gets _ _ = Ret _ _ |- _ => unfold gets in H; simplify_eq
  | H : modify _ _ = Ret _ _ |- _ => unfold modify in H; simplify_eq
  | H : panic _ _ = Ret _ _ |- _ => discriminate H
  | H : fault _ = Ret _ _ |- _ => discriminate H
  end.

(** Case analysis on the integer and boolean tests of the code. *)
Ltac btests :=
  repeat match goal with
  | H : context [?a =? ?b] |- _ => destruct (Z.eqb_spec a b)
  | H : context [?a <? ?b] |- _ => destruct (Z.ltb_spec a b)
  | H : context [?a <=? ?b] |- _ => destruct (Z.leb_spec a b)
  | |- context [?a =? ?b] => destruct (Z.eqb_spec a b)
  | |- context [?a <? ?b] => destruct (Z.ltb_spec a b)
  | |- context [?a <=? ?b] => destruct (Z.leb_spec a b)
  end.

Section list_lemmas.
Context {A : Type}.
Implicit Types (l : list A) (x y : A).
#[local] Open Scope nat_scope.

Lemma list_lookup_lt l i : i < length l → ∃ x, l !! i = Some x.
Proof. intros H. by apply lookup_lt_is_Some. Qed.

Lemma list_insert_lookup l i j x :
  i < length l → <[i:=x]> l !! j = if decide (i = j) then Some x else l !! j.
Proof.
  intros H. case_decide; subst.
  - by apply list_lookup_insert_eq.
  - by apply list_lookup_insert_ne.
Qed.
End list_lemmas.

Lemma list_alter_insert {A} (f : A → A) (i : nat) (l : list A) x :
  l !! i = Some x → alter f i l = <[i:=f x]> l.
Proof.
  revert l. induction i as [|i IH]; intros [|y l] H; simplify_eq/=; [done|]. f_equal. by apply IH.
Qed.

Lemma map_alter_insert `{Countable K} {A} (f : A → A) (i : K) (m : gmap K A) x :
  m !! i = Some x → alter f i m = <[i:=f x]> m.
Proof.
  intros H1. apply map_eq. intros j. rewrite lookup_alter, lookup_insert.
  case_decide; subst; [by rewrite H1|done].
Qed.

Lemma list_alter_at {A} (f g : A → A) (i : nat) (l : list A) x :
  l !! i = Some x → f x = g x → alter f i l = alter g i l.
Proof. intros H E. by rewrite !(list_alter_insert _ _ _ _ H), E. Qed.

(** The number of turns that a loop that waits for other processes or for a
    device is followed for.  Such a loop has no bound of its own; the theorems
    hold for every number. *)
Class Turns := turns : nat.

(** *** Runs that are observed

    [runs o obs a s]: resumed at each switch in the state it left, the run [o]
    returns [a] in state [s], and the states it left were [obs]. *)
Section runs.
Context {S : Type}.

Inductive runs {A} : outcome S A → list S → A → S → Prop :=
| runs_done a s : runs (Ret a s) [] a s
| runs_switch s k obs a s' : runs (k s) obs a s' → runs (Suspend s k) (s :: obs) a s'.

Lemma runs_Ret {A} (m : M S A) s a s' : m s = Ret a s' → runs (m s) [] a s'.
Proof. intros ->. constructor. Qed.

Lemma runs_obind {A B} (o : outcome S A) (f : A → M S B) obs a s obs' b s' :
  runs o obs a s → runs (f a s) obs' b s' → runs (obind o f) (obs ++ obs') b s'.
Proof. intros H H'. induction H; cbn; [done|]. constructor. by apply IHruns. Qed.

Lemma runs_bind {A B} (m : M S A) (f : A → M S B) s obs a s1 obs' b s2 :
  runs (m s) obs a s1 → runs (f a s1) obs' b s2 → runs (bind m f s) (obs ++ obs') b s2.
Proof. apply runs_obind. Qed.

Lemma runs_bind_Ret {A B} (m : M S A) (f : A → M S B) s a s1 obs b s2 :
  m s = Ret a s1 → runs (f a s1) obs b s2 → runs (bind m f s) obs b s2.
Proof. intros E H. by rewrite (bind_Ret _ _ _ _ _ E). Qed.

(** Nothing after the last observation. *)
Lemma runs_bind_ret {A B} (m : M S A) (f : A → M S B) s obs a s1 b s2 :
  runs (m s) obs a s1 → f a s1 = Ret b s2 → runs (bind m f s) obs b s2.
Proof.
  intros H E. rewrite <- (app_nil_r obs). eapply runs_bind; [exact H|]. rewrite E. constructor.
Qed.

Lemma runs_nil {A} (o : outcome S A) a s : runs o [] a s → o = Ret a s.
Proof. by inversion 1. Qed.
End runs.
