(* ===== verification/Effects.v ===== *)
(** Programs that talk to an environment: a tree of calls with, for each
    reply, what follows.  User programs call the kernel in this way, and
    drivers call the hardware.

    There are two ways to look at such a program: the runs it has for given
    replies ([does]), and its result against an environment that answers
    from a state ([prun]). *)

From stdpp Require Import base list.
From S2P Require Import Prelude.

(** [PExit] is the end of the program; [PStuck] says that the bound on a loop
    is used up, or that an argument is missing. *)
Inductive prog (C R A : Type) := PRet (a : A) | PExit | PCall (c : C) (k : R → prog C R A) | PStuck.
Arguments PRet {C R A}.
Arguments PExit {C R A}.
Arguments PCall {C R A}.
Arguments PStuck {C R A}.

Fixpoint pbind {C R A B} (p : prog C R A) (f : A → prog C R B) : prog C R B :=
  match p with
  | PRet a => f a
  | PExit => PExit
  | PCall c k => PCall c (λ r, pbind (k r) f)
  | PStuck => PStuck
  end.

Definition pcall {C R} (c : C) : prog C R R := PCall c PRet.

Declare Scope prog_scope.
Notation "'let*' x ':=' m 'in' k" := (pbind m (λ x, k))
  (at level 10, x binder, m at level 100, k at level 200,
   format "'[v' 'let*'  x  ':='  m  'in' '/' k ']'") : prog_scope.
Notation "m1 ';;*' m2" := (pbind m1 (λ _, m2))
  (at level 100, m2 at level 200, right associativity,
   format "'[v' m1 ';;*' '/' m2 ']'") : prog_scope.
#[global] Open Scope prog_scope.

(** ** Runs *)

(** The calls and replies of a run, and how it ends: with a value, or by
    [PExit]. *)
Inductive does {C R A} : prog C R A → list (C * R) → option A → Prop :=
  | does_ret a : does (PRet a) [] (Some a)
  | does_exit : does PExit [] None
  | does_call c k r t o : does (k r) t o → does (PCall c k) ((c, r) :: t) o.

Lemma does_bind {C R A B} (p : prog C R A) (f : A → prog C R B) t a t' o :
  does p t (Some a) → does (f a) t' o → does (pbind p f) (t ++ t') o.
Proof.
  remember (Some a) as oa eqn:E. intros H H'. induction H; simplify_eq; cbn; [done|]. constructor. auto.
Qed.

Lemma does_bind_exit {C R A B} (p : prog C R A) (f : A → prog C R B) t :
  does p t None → does (pbind p f) t None.
Proof.
  remember None as oa eqn:E. intros H. induction H; simplify_eq; cbn; constructor. auto.
Qed.

Lemma does_call_bind {C R A} c r (f : R → prog C R A) t o :
  does (f r) t o → does (pbind (pcall c) f) ((c, r) :: t) o.
Proof. intros H. by constructor. Qed.

(** A program does one thing for given replies. *)
Lemma does_det {C R A} (p : prog C R A) t o t' o' :
  does p t o → does p t' o' → t.*2 `prefix_of` t'.*2 ∨ t'.*2 `prefix_of` t.*2 → t = t' ∧ o = o'.
Proof.
  intros H. revert t' o'. induction H as [a| |c k r t o H IH]; intros t' o' H' Hp; inversion H'; subst; [done..|].
  cbn in Hp. assert (r0 = r) as -> by (destruct Hp as [Hp|Hp]; by apply prefix_cons_inv_1 in Hp).
  destruct (IH t0 o') as [-> ->]; [done| |done].
  destruct Hp as [Hp|Hp]; [left|right]; by apply prefix_cons_inv_2 in Hp.
Qed.

(** ** Environments with a state *)

Section prun.
Context {C R S : Type} (answer : C → S → R * S).

Fixpoint prun {A} (p : prog C R A) (s : S) : option (A * S) :=
  match p with
  | PRet a => Some (a, s)
  | PExit | PStuck => None
  | PCall c k => let '(r, s) := answer c s in prun (k r) s
  end.

Lemma prun_bind {A B} (p : prog C R A) (f : A → prog C R B) s :
  prun (pbind p f) s = match prun p s with Some (a, s) => prun (f a) s | None => None end.
Proof.
  revert s. induction p as [a| |c k IH|]; intros s; cbn; [done..| |done].
  destruct (answer c s) as [r s']. apply IH.
Qed.

Lemma prun_assoc {A B D} (p : prog C R A) (f : A → prog C R B) (g : B → prog C R D) s :
  prun (pbind (pbind p f) g) s = prun (pbind p (λ a, pbind (f a) g)) s.
Proof. rewrite !prun_bind. destruct (prun p s) as [[a s']|]; [|done]. by rewrite prun_bind. Qed.

Lemma prun_call {A} c (f : R → prog C R A) s r s' :
  answer c s = (r, s') → prun (pbind (pcall c) f) s = prun (f r) s'.
Proof. intros E. cbn. by rewrite E. Qed.

Lemma prun_Some {A B} (p : prog C R A) (f : A → prog C R B) s a s' :
  prun p s = Some (a, s') → prun (pbind p f) s = prun (f a) s'.
Proof. intros E. by rewrite prun_bind, E. Qed.
End prun.
