(* ===== verification/Heap.v ===== *)
(** The minimum heap of the stride scheduler.

    [proc.c] (lines 399-443) keeps the runnable processes of one scheduling
    round in a binary min-heap of [struct proc] values; [strideheap.c] and
    [heaptest.c] are the stand-alone programs in which the same heap was
    developed, with [heapify], [pop] and [getsorted] on top.  The routines
    they share are defined once, over any element type with the three keys
    the order looks at; the modules [KernelHeap], [StrideHeap] and
    [HeapTest] hold what the three files do differently.

    An array is a list of fixed length; an access outside it is [None].
    The theorems show that the routines stay inside the array, keep the
    heap order, keep the elements, find the least element under the
    (pass, runtime, pid) order, and that [getsorted] sorts. *)

From stdpp Require Import base list numbers sorting strings.
From Stdlib Require Import ZArith Lia.
From S2P Require Import Prelude.

(** ** Definitions *)

(** The fields of [struct proc] that [compare] reads. *)
Class Keyed (A : Type) := {
  pass : A → Z;
  runtime : A → Z;
  pid : A → Z
}.

Section heap.
Context {A : Type} `{Keyed A}.

Record minheap := MkHeap { arr : list A; hsize : nat }.

(** [int parent(int idx)]; natural subtraction and division give C's
    truncated [(idx - 1)/2] on every non-negative [idx]. *)
Definition parent (idx : nat) : nat := (idx - 1) / 2.

Definition compare (p1 p2 : A) : Z :=
  if negb (pass p1 =? pass p2)%Z then if (pass p1 <? pass p2)%Z then -1 else 1
  else if negb (runtime p1 =? runtime p2)%Z then if (runtime p1 <? runtime p2)%Z then -1 else 1
  else if negb (pid p1 =? pid p2)%Z then if (pid p1 <? pid p2)%Z then -1 else 1
  else 0.

Definition greater (p1 p2 : A) : bool := (compare p1 p2 >? 0)%Z.

(** [swap(&a[i], &a[j])]: read both cells, then store [a[i]] and [a[j]]. *)
Definition swap (a : list A) (i j : nat) : option (list A) :=
  temp ← a !! i;
  y ← a !! j;
  Some (<[j:=temp]> (<[i:=y]> a)).

(** [a[i] = x]. *)
Definition store (a : list A) (i : nat) (x : A) : option (list A) :=
  if decide (i < length a) then Some (<[i:=x]> a) else None.

(** The [while] loop of [push]; [fuel] bounds the number of iterations and
    [sift_up_total] shows that [S idx] is enough. *)
Fixpoint sift_up (fuel : nat) (a : list A) (idx : nat) : option (list A) :=
  match fuel with
  | O => None
  | S fuel =>
      if decide (idx = 0) then Some a else
      x ← a !! parent idx;
      y ← a !! idx;
      if greater x y then
        a' ← swap a idx (parent idx);
        sift_up fuel a' (parent idx)
      else Some a
  end.

(** [push] after its capacity check. *)
Definition push_body (h : minheap) (p : A) : option (Z * minheap) :=
  a ← store (arr h) (hsize h) p;
  a' ← sift_up (S (hsize h)) a (hsize h);
  Some (0%Z, MkHeap a' (S (hsize h))).

(** [int push(minheap* h, struct proc* p)] with capacity [cap]. *)
Definition push (cap : nat) (h : minheap) (p : A) : option (Z * minheap) :=
  if decide (hsize h = cap) then Some ((-1)%Z, h) else push_body h p.

(** [getmin]: the cell [arr[0]]. *)
Definition getmin (h : minheap) : option A := arr h !! 0.

(** The first two tests of [heapify]: the index of the least of a node and
    its children. *)
Definition smallest_child (a : list A) (n idx : nat) : option nat :=
  let left := 2 * idx + 1 in
  let right := left + 1 in
  s1 ← (if decide (left < n) then
          x ← a !! idx; y ← a !! left;
          Some (if greater x y then left else idx)
        else Some idx);
  if decide (right < n) then
    x ← a !! s1; y ← a !! right;
    Some (if greater x y then right else s1)
  else Some s1.

(** [heapify(h, idx)] on the first [n] cells; the recursion goes to a child,
    so [fuel] of [n] is enough ([sift_down_total]). *)
Fixpoint sift_down (fuel : nat) (a : list A) (n idx : nat) : option (list A) :=
  match fuel with
  | O => None
  | S fuel =>
      s ← smallest_child a n idx;
      if decide (s = idx) then Some a else
      a' ← swap a idx s;
      sift_down fuel a' n s
  end.

Definition heapify (h : minheap) (idx : nat) : option minheap :=
  a ← sift_down (S (hsize h)) (arr h) (hsize h) idx;
  Some (MkHeap a (hsize h)).

(** [pop]; on an empty heap the code indexes [arr[-1]]. *)
Definition pop (h : minheap) : option minheap :=
  match hsize h with
  | O => None
  | S n =>
      a ← swap (arr h) 0 n;
      heapify (MkHeap a n) 0
  end.

(** The first loop of [getsorted]: [n] times, copy the minimum and pop. *)
Fixpoint drain (n : nat) (h : minheap) : option (list A * minheap) :=
  match n with
  | O => Some ([], h)
  | S n =>
      x ← getmin h;
      h' ← pop h;
      r ← drain n h';
      Some (x :: r.1, r.2)
  end.

(** The second loop of [getsorted]: push the copies back. *)
Fixpoint refill (pushf : minheap → A → option (Z * minheap)) (xs : list A)
    (h : minheap) : option minheap :=
  match xs with
  | [] => Some h
  | x :: xs => r ← pushf h x; refill pushf xs r.2
  end.

Definition getsorted (pushf : minheap → A → option (Z * minheap)) (h : minheap) :
    option (list A * minheap) :=
  r ← drain (hsize h) h;
  h' ← refill pushf r.1 r.2;
  Some (r.1, h').
End heap.

Arguments minheap A : clear implicits.
Arguments parent : simpl never.
Arguments greater : simpl never.

(** *** Specification *)

Section spec.
Context {A : Type} `{Keyed A}.

(** The order of the heap: [x] need not come after [y]. *)
Definition pref (x y : A) : Prop := greater x y = false.

(** The lexicographic order on (pass, runtime, pid) that the assignment asks
    for. *)
Definition lexle (x y : A) : Prop :=
  (pass x < pass y ∨
   pass x = pass y ∧ (runtime x < runtime y ∨
   runtime x = runtime y ∧ pid x ≤ pid y))%Z.

(** The elements of the heap. *)
Definition contents (h : minheap A) : list A := take (hsize h) (arr h).

(** Every cell of the first [n] is preferred by its parent. *)
Definition heap_ordered (a : list A) (n : nat) : Prop :=
  ∀ i x y, 0 < i < n → a !! parent i = Some x → a !! i = Some y → pref x y.

Record heap_ok (h : minheap A) : Prop := {
  heap_size : hsize h ≤ length (arr h);
  heap_order : heap_ordered (arr h) (hsize h)
}.
End spec.

(** ** The order *)

Section order.
Context {A : Type} `{Keyed A}.
Implicit Types x y z : A.

Lemma pref_lexle x y : pref x y ↔ lexle x y.
Proof.
  unfold pref, lexle, greater, compare.
  destruct (Z.eqb_spec (pass x) (pass y)), (Z.ltb_spec (pass x) (pass y)),
    (Z.eqb_spec (runtime x) (runtime y)), (Z.ltb_spec (runtime x) (runtime y)),
    (Z.eqb_spec (pid x) (pid y)), (Z.ltb_spec (pid x) (pid y));
    cbn; intuition (discriminate || lia || congruence).
Qed.

#[global] Instance lexle_dec x y : Decision (lexle x y).
Proof. unfold lexle. apply _. Defined.

#[global] Instance pref_preorder : PreOrder (pref (A:=A)).
Proof.
  split.
  - intros x. apply pref_lexle. unfold lexle. lia.
  - intros x y z ?%pref_lexle ?%pref_lexle. apply pref_lexle. unfold lexle in *. lia.
Qed.

#[global] Instance pref_total : Total (pref (A:=A)).
Proof. intros x y. rewrite !pref_lexle. unfold lexle. lia. Qed.

#[global] Instance pref_dec x y : Decision (pref x y).
Proof. unfold pref. apply _. Defined.

Lemma greater_pref x y : greater x y = true → pref y x.
Proof. intros E. destruct (total pref x y) as [E'|]; [|done]. unfold pref in E'. congruence. Qed.
End order.

(** ** Array lemmas *)

Lemma parent_lt i : 0 < i → parent i < i.
Proof. intros. apply Nat.Div0.div_lt_upper_bound. lia. Qed.

Lemma parent_children i j : 0 < i → parent i = j ↔ i = 2 * j + 1 ∨ i = 2 * j + 2.
Proof.
  intros Hi. unfold parent. split.
  - intros <-. pose proof (Nat.div_mod_eq (i - 1) 2).
    pose proof (Nat.mod_upper_bound (i - 1) 2). lia.
  - intros [->| ->].
    + replace (2 * j + 1 - 1) with (j * 2) by lia. by apply Nat.div_mul.
    + replace (2 * j + 2 - 1) with (1 + j * 2) by lia. by rewrite Nat.div_add.
Qed.

(** The model of [parent] is C's integer division. *)
Lemma parent_int (i : nat) : Z.of_nat (parent i) = Z.quot (Z.of_nat i - 1) 2.
Proof.
  destruct i as [|i]; [done|]. unfold parent.
  replace (S i - 1) with i by lia. replace (Z.of_nat (S i) - 1)%Z with (Z.of_nat i) by lia.
  rewrite Nat2Z.inj_div, Z.quot_div_nonneg by lia. done.
Qed.

Section arrays.
Context {A : Type} `{Keyed A}.
Implicit Types (a : list A) (x y : A).

(** The exchange of two indices. *)
Definition transp (i j k : nat) : nat :=
  if decide (k = i) then j else if decide (k = j) then i else k.

#[global] Instance transp_inj i j : Inj (=) (=) (transp i j).
Proof. intros k k'. unfold transp. repeat case_decide; lia. Qed.

Lemma transp_lt n i j k : i < n → j < n → transp i j k < n ↔ k < n.
Proof. intros. unfold transp. repeat case_decide; lia. Qed.

Lemma swap_Some a i j :
  i < length a → j < length a → ∃ a', swap a i j = Some a' ∧
    length a' = length a ∧ ∀ k, a' !! k = a !! transp i j k.
Proof.
  intros Hi Hj. destruct (list_lookup_lt a i Hi) as [x Hx], (list_lookup_lt a j Hj) as [y Hy].
  exists (<[j:=x]> (<[i:=y]> a)). unfold swap. rewrite Hx, Hy.
  split_and!; [done|by rewrite !length_insert|]. intros k. unfold transp.
  rewrite !list_insert_lookup by (rewrite ?length_insert; lia).
  repeat case_decide; subst; congruence.
Qed.

Lemma transp_perm a a' i j n :
  i < n → j < n → length a' = length a → (∀ k, a' !! k = a !! transp i j k) →
  take n a' ≡ₚ take n a.
Proof.
  intros Hi Hj Hl Hk. apply Permutation_inj. split; [by rewrite !length_take, Hl|].
  exists (transp i j). split; [apply _|]. intros k.
  destruct (decide (k < n)).
  - rewrite !lookup_take_lt, Hk; [done| |lia]. by apply transp_lt.
  - rewrite !lookup_take_ge; [done| |lia]. assert (¬ transp i j k < n); [|lia].
    by rewrite transp_lt.
Qed.

Lemma store_Some a i x : i < length a → store a i x = Some (<[i:=x]> a).
Proof. intros. unfold store. by rewrite decide_True. Qed.

Lemma store_None a i x : length a ≤ i → store a i x = None.
Proof. intros. unfold store. rewrite decide_False by lia. done. Qed.
End arrays.

(** ** Sifting up *)

Section sift_up.
Context {A : Type} `{Keyed A}.
Implicit Types (a : list A) (x y : A).

(** The heap order holds except perhaps between [idx] and its parent. *)
Definition up_ordered (a : list A) (n idx : nat) : Prop :=
  (∀ i x y, 0 < i < n → i ≠ idx → a !! parent i = Some x → a !! i = Some y → pref x y) ∧
  (∀ i x y, 0 < i < n → 0 < idx → parent i = idx →
     a !! parent idx = Some x → a !! i = Some y → pref x y).

Lemma up_ordered_swap a a' n idx x y :
  up_ordered a n idx → 0 < idx < n →
  a !! parent idx = Some x → a !! idx = Some y → greater x y = true →
  (∀ k, a' !! k = a !! transp idx (parent idx) k) → up_ordered a' n (parent idx).
Proof.
  intros [Ho Hc] Hidx Hx Hy Hg Hk. apply greater_pref in Hg.
  pose proof (parent_lt idx ltac:(lia)) as Hp. unfold transp in Hk. split.
  - intros i u v Hi Hne. rewrite !Hk. destruct (decide (i = idx)) as [->|Hni].
    { rewrite (decide_False (P:=parent idx = idx)), !decide_True by lia. intros; by simplify_eq. }
    rewrite (decide_False (P:=i = parent idx)) by done. case_decide as E1; [|case_decide as E2].
    + intros. simplify_eq. by eapply (Hc i); eauto; lia.
    + intros. simplify_eq. transitivity x; [done|]. eapply (Ho i); eauto; congruence.
    + eapply (Ho i); eauto; lia.
  - intros i u v Hi Hp0 Hpi. rewrite !Hk. pose proof (parent_lt (parent idx) Hp0).
    rewrite (decide_False (P:=parent (parent idx) = idx)),
      (decide_False (P:=parent (parent idx) = parent idx)) by lia.
    assert (i ≠ parent idx) by (pose proof (parent_lt i); lia).
    destruct (decide (i = idx)) as [->|Hni].
    + intros. simplify_eq. eapply (Ho (parent idx)); eauto; lia.
    + rewrite decide_False by done. intros. transitivity x.
      * eapply (Ho (parent idx)); eauto; lia.
      * eapply (Ho i); eauto; congruence.
Qed.

(** The loop ends within [S idx] iterations, inside the array, with the heap
    order restored and the elements kept. *)
Lemma sift_up_ok fuel a n idx :
  idx < fuel → idx < n → n ≤ length a → up_ordered a n idx →
  ∃ a', sift_up fuel a idx = Some a' ∧ length a' = length a ∧
    heap_ordered a' n ∧ take n a' ≡ₚ take n a ∧ drop n a' = drop n a.
Proof.
  revert a idx. induction fuel as [|fuel IH]; intros a idx Hf Hn Hl Hu; [lia|]. cbn.
  case_decide as E0.
  { subst. exists a. split_and!; try done. intros i x y Hi. apply (proj1 Hu); lia. }
  pose proof (parent_lt idx ltac:(lia)) as Hp.
  destruct (list_lookup_lt a (parent idx) ltac:(lia)) as [x Hx]. rewrite Hx. cbn.
  destruct (list_lookup_lt a idx ltac:(lia)) as [y Hy]. rewrite Hy. cbn.
  destruct (greater x y) eqn:Hg.
  - destruct (swap_Some a idx (parent idx)) as (a1 & -> & Hl1 & Hk1); [lia..|]. cbn.
    destruct (IH a1 (parent idx)) as (a' & -> & Hl' & Ho & HP & Hd); [lia..| |].
    { eapply up_ordered_swap; eauto; lia. }
    exists a'. split_and!; [done|congruence|done|..].
    + rewrite HP. eapply (transp_perm _ _ idx (parent idx)); eauto; lia.
    + rewrite Hd. apply list_eq. intros k. rewrite !lookup_drop, Hk1. unfold transp.
      repeat case_decide; [lia..|done].
  - exists a. split_and!; try done. intros i u v Hi Hu' Hv.
    destruct (decide (i = idx)) as [->|]; [|by eapply (proj1 Hu i)].
    simplify_eq. done.
Qed.
End sift_up.

(** ** Sifting down *)

Section sift_down.
Context {A : Type} `{Keyed A}.
Implicit Types (a : list A) (x y : A).

(** The heap order holds except perhaps between [idx] and its children. *)
Definition down_ordered (a : list A) (n idx : nat) : Prop :=
  (∀ i x y, 0 < i < n → parent i ≠ idx → a !! parent i = Some x → a !! i = Some y → pref x y) ∧
  (∀ i x y, 0 < i < n → 0 < idx → parent i = idx →
     a !! parent idx = Some x → a !! i = Some y → pref x y).

(** [s] is the index of the least of [idx] and its children below [n]. *)
Definition least_of (a : list A) (n idx s : nat) (m : A) : Prop :=
  s < n ∧ (s = idx ∨ 0 < s ∧ parent s = idx) ∧ a !! s = Some m ∧
  (∀ z, a !! idx = Some z → pref m z) ∧
  (∀ i y, 0 < i < n → parent i = idx → a !! i = Some y → pref m y).

(** One of the two tests of [heapify]: [s] is the least so far of [idx] and
    the children below [c], and [c] is the next child. *)
Lemma least_step a n idx c s m y :
  least_of a c idx s m → c < n → n ≤ length a → parent c = idx → 0 < c →
  a !! c = Some y →
  least_of a (S c) idx (if greater m y then c else s) (if greater m y then y else m).
Proof.
  intros (Hs & Hd & Hm & Hz & Hi) Hc Hn Hp H0 Hy.
  destruct (greater m y) eqn:Hg.
  - apply greater_pref in Hg. split_and!; [lia|by right|done|..].
    + intros z Hzz. transitivity m; auto.
    + intros i u Hi0 Hpi Hu. destruct (decide (i = c)) as [->|]; [by simplify_eq|].
      transitivity m; [done|]. eapply Hi; eauto; lia.
  - split_and!; try done; [lia|].
    intros i u Hi0 Hpi Hu. destruct (decide (i = c)) as [->|]; [by simplify_eq|].
    eapply Hi; eauto; lia.
Qed.

Lemma least_weaken a n n' idx s m :
  least_of a n idx s m → n ≤ n' →
  (∀ i, n ≤ i < n' → 0 < i → parent i ≠ idx) → least_of a n' idx s m.
Proof.
  intros (Hs & Hd & Hm & Hz & Hi) Hn Hno. split_and!; try done; [lia|].
  intros i y Hi0 Hp Hy. destruct (decide (i < n)); [eapply Hi; eauto; lia|].
  by edestruct (Hno i); [lia..|].
Qed.

Lemma smallest_child_ok a n idx :
  idx < n → n ≤ length a → ∃ s m, smallest_child a n idx = Some s ∧ least_of a n idx s m.
Proof.
  intros Hi Hn. unfold smallest_child.
  destruct (list_lookup_lt a idx ltac:(lia)) as [x Hx].
  assert (least_of a (S idx) idx idx x) as L0.
  { split_and!; [lia|by left|done|by intros; simplify_eq|].
    intros i y Hi0 Hp. pose proof (parent_lt i ltac:(lia)). lia. }
  destruct (decide (2 * idx + 1 < n)) as [Hl|Hl]; cycle 1.
  { cbn [mbind option_bind]. rewrite decide_False by lia. exists idx, x. split; [done|].
    eapply least_weaken; [done|lia|]. intros i Hi0 H0 Hp%parent_children; lia. }
  destruct (list_lookup_lt a (2 * idx + 1) ltac:(lia)) as [y Hy].
  assert (least_of a (2 * idx + 1) idx idx x) as L1.
  { eapply least_weaken; [done|lia|]. intros i Hi0 H0 Hp%parent_children; lia. }
  rewrite Hx. cbn [mbind option_bind]. rewrite Hy. cbn [mbind option_bind].
  eapply (least_step _ n _ (2 * idx + 1) _ _ y) in L1;
    [|lia..|apply parent_children; lia|lia|done].
  set (s1 := if greater x y then _ else idx) in *.
  set (m1 := if greater x y then y else x) in *.
  destruct (decide (2 * idx + 1 + 1 < n)) as [Hr|Hr]; cycle 1.
  { exists s1, m1. split; [done|]. eapply least_weaken; [done|lia|].
    intros i Hi0 H0 Hp%parent_children; lia. }
  destruct (list_lookup_lt a (2 * idx + 1 + 1) ltac:(lia)) as [z Hz].
  rewrite (proj1 (proj2 (proj2 L1))). cbn [mbind option_bind]. rewrite Hz. cbn [mbind option_bind].
  replace (S (2 * idx + 1)) with (2 * idx + 1 + 1) in L1 by lia.
  eapply (least_step _ n _ (2 * idx + 1 + 1) _ _ z) in L1;
    [|lia..|apply parent_children; lia|lia|done].
  eexists _, _. split; [done|]. eapply least_weaken; [done|lia|].
  intros i Hi0 H0 Hp%parent_children; lia.
Qed.

Lemma down_ordered_swap a a' n idx s m :
  down_ordered a n idx → idx < n → n ≤ length a → least_of a n idx s m → s ≠ idx →
  (∀ k, a' !! k = a !! transp idx s k) → down_ordered a' n s.
Proof.
  intros [Ho Hc] Hidx Hn (Hs & Hd & Hm & Hz & Hch) Hne Hk.
  destruct Hd as [|[Hs0 Hps]]; [done|].
  pose proof (parent_lt s Hs0) as Hlt. unfold transp in Hk. split.
  - intros i u v Hi Hp. rewrite !Hk. pose proof (parent_lt i ltac:(lia)).
    rewrite (decide_False (P:=parent i = s)) by done.
    destruct (decide (i = idx)) as [->|].
    { rewrite decide_False by lia. intros. eapply (Hc s); eauto; lia. }
    destruct (decide (i = s)) as [->|].
    { rewrite decide_True by done. intros. simplify_eq. auto. }
    case_decide; intros; simplify_eq; [eapply Hch|eapply Ho]; eauto; lia.
  - intros i u v Hi _ Hp. rewrite !Hk. pose proof (parent_lt i ltac:(lia)).
    rewrite Hps, decide_True, (decide_False (P:=i = idx)), (decide_False (P:=i = s)) by lia.
    intros. simplify_eq. eapply (Ho i); eauto; lia.
Qed.

(** [heapify] ends, inside the array, with the heap order restored. *)
Lemma sift_down_ok fuel a n idx :
  n - idx < fuel → idx < n → n ≤ length a → down_ordered a n idx →
  ∃ a', sift_down fuel a n idx = Some a' ∧ length a' = length a ∧
    heap_ordered a' n ∧ take n a' ≡ₚ take n a ∧ drop n a' = drop n a.
Proof.
  revert a idx. induction fuel as [|fuel IH]; intros a idx Hf Hn Hl Hu; [lia|]. simpl.
  destruct (smallest_child_ok a n idx) as (s & m & -> & Hs); [done..|]. simpl.
  pose proof Hs as (Hsn & Hd & Hm & Hz & Hi).
  case_decide as E.
  { exists a. split_and!; try done. intros i x y Hi0 Hx Hy.
    destruct (decide (parent i = idx)); [|by eapply (proj1 Hu i)].
    transitivity m; [|by eapply Hi]. subst. simplify_eq. done. }
  destruct Hd as [|[Hs0 Hp]]; [done|]. pose proof (parent_lt s Hs0).
  destruct (swap_Some a idx s) as (a1 & -> & Hl1 & Hk1); [lia..|]. simpl.
  destruct (IH a1 s) as (a' & -> & Hl' & Ho & HP & Hdr); [lia..| |].
  { by eapply down_ordered_swap. }
  exists a'. split_and!; [done|congruence|done|..].
  - rewrite HP. by eapply (transp_perm _ _ idx s).
  - rewrite Hdr. apply list_eq. intros k. rewrite !lookup_drop, Hk1. unfold transp.
    repeat case_decide; [lia..|done].
Qed.
End sift_down.

(** ** The heap operations *)

Section operations.
Context {A : Type} `{Keyed A}.
Implicit Types (h : minheap A) (x y p : A).

Lemma contents_length h : heap_ok h → length (contents h) = hsize h.
Proof. intros [Hs _]. unfold contents. rewrite length_take. lia. Qed.

Lemma push_body_ok h p :
  heap_ok h → hsize h < length (arr h) →
  ∃ h', push_body h p = Some (0%Z, h') ∧ heap_ok h' ∧ hsize h' = S (hsize h) ∧
    length (arr h') = length (arr h) ∧ contents h' ≡ₚ p :: contents h.
Proof.
  intros [Hs Ho] Hc. destruct h as [a n]; unfold push_body, contents; cbn [arr hsize] in *.
  rewrite store_Some by lia. cbn [mbind option_bind].
  destruct (sift_up_ok (S n) (<[n:=p]> a) (S n) n) as (a' & -> & Hl & Ho' & HP & _).
  - lia.
  - lia.
  - rewrite length_insert. lia.
  - split.
    + intros i x y Hi Hne. pose proof (parent_lt i ltac:(lia)).
      rewrite !list_lookup_insert_ne by lia. apply Ho. lia.
    + intros i x y Hi _ Hp. pose proof (parent_lt i ltac:(lia)). lia.
  - rewrite length_insert in Hl. eexists. split; [done|]. simpl. split_and!; try done.
    + split; simpl; [lia|done].
    + rewrite HP, (take_S_r _ _ p), take_insert_ge by (lia || (apply list_lookup_insert_eq; lia)).
      by rewrite Permutation_app_comm.
Qed.

Lemma heap_head_least h m i x :
  heap_ok h → arr h !! 0 = Some m → i < hsize h → arr h !! i = Some x → pref m x.
Proof.
  intros [Hs Ho] Hm. revert x. induction i as [i IH] using lt_wf_ind. intros x Hi Hx.
  destruct (decide (i = 0)) as [->|]; [by simplify_eq|].
  pose proof (parent_lt i ltac:(lia)).
  destruct (list_lookup_lt (arr h) (parent i) ltac:(lia)) as [y Hy].
  transitivity y; [eapply IH; eauto; lia|]. eapply (Ho i); eauto; lia.
Qed.

Lemma getmin_ok h :
  heap_ok h → 0 < hsize h →
  ∃ m, getmin h = Some m ∧ m ∈ contents h ∧ ∀ x, x ∈ contents h → pref m x.
Proof.
  intros Hok Hp. pose proof (heap_size _ Hok).
  destruct (list_lookup_lt (arr h) 0 ltac:(lia)) as [m Hm]. exists m. split_and!; [done|..].
  - apply list_elem_of_lookup. exists 0. unfold contents. by rewrite lookup_take_lt.
  - intros x [i Hi]%list_elem_of_lookup. unfold contents in Hi.
    apply lookup_take_Some in Hi as [Hx Hi]. by eapply heap_head_least.
Qed.

Lemma heapify_root_ok h :
  hsize h ≤ length (arr h) → down_ordered (arr h) (hsize h) 0 →
  ∃ h', heapify h 0 = Some h' ∧ heap_ok h' ∧ hsize h' = hsize h ∧
    length (arr h') = length (arr h) ∧ contents h' ≡ₚ contents h ∧
    drop (hsize h) (arr h') = drop (hsize h) (arr h).
Proof.
  destruct h as [a [|n]]; unfold heapify, contents; simpl; intros Hl Hd.
  { exists (MkHeap a 0). split_and!; try done. split; simpl; [lia|]. intros i x y Hi. lia. }
  destruct (sift_down_ok (S (S n)) a (S n) 0) as (a' & E & Hl' & Ho & HP & Hdr); [lia..|done|].
  simpl in E. rewrite E. simpl. eexists. split; [done|]. simpl.
  split_and!; try done. split; simpl; [lia|done].
Qed.

(** [pop] removes the head; the rest of the elements stay, in heap order. *)
Lemma pop_ok h :
  heap_ok h → 0 < hsize h →
  ∃ m h', getmin h = Some m ∧ pop h = Some h' ∧ heap_ok h' ∧ hsize h' = hsize h - 1 ∧
    length (arr h') = length (arr h) ∧ contents h ≡ₚ m :: contents h'.
Proof.
  intros Hok Hp. pose proof Hok as [Hs Ho].
  destruct h as [a [|n]]; unfold getmin, pop; simpl in *; [lia|].
  destruct (swap_Some a 0 n) as (a1 & -> & Hl1 & Hk1); [lia..|]. cbn [mbind option_bind].
  destruct (list_lookup_lt a 0 ltac:(lia)) as [m Hm].
  destruct (heapify_root_ok (MkHeap a1 n)) as (h' & -> & Hok' & Hsz & Hl' & HP & _); simpl in *.
  - lia.
  - split; [|lia]. intros i x y Hi Hpi. rewrite !Hk1. unfold transp.
    pose proof (parent_lt i ltac:(lia)). rewrite !decide_False by lia. apply Ho. lia.
  - exists m, h'. split_and!; try done; [lia|congruence|].
    unfold contents in *; simpl in *. rewrite HP.
    rewrite <- (transp_perm a a1 0 n (S n)) by (done || lia).
    rewrite (take_S_r _ _ m) by (rewrite Hk1; unfold transp; repeat case_decide; congruence).
    by rewrite Permutation_app_comm.
Qed.

Lemma drain_ok n h :
  heap_ok h → hsize h = n →
  ∃ xs h', drain n h = Some (xs, h') ∧ hsize h' = 0 ∧ heap_ok h' ∧
    length (arr h') = length (arr h) ∧ StronglySorted pref xs ∧ xs ≡ₚ contents h.
Proof.
  revert h. induction n as [|n IH]; intros h Hok Hn; simpl.
  { exists [], h. split_and!; try done; [constructor|]. unfold contents. by rewrite Hn. }
  destruct (pop_ok h) as (m & h1 & Hmin & Hpop & Hok1 & Hs1 & Hl1 & HP); [done|lia|].
  destruct (getmin_ok h) as (m' & Hm' & _ & Hleast); [done|lia|]. simplify_eq.
  rewrite Hmin. simpl. rewrite Hpop. simpl.
  destruct (IH h1) as (xs & h' & -> & Hs' & Hok' & Hl' & Hso & HP'); [done|lia|]. simpl.
  exists (m :: xs), h'. split_and!; try done; [congruence|..].
  - constructor; [done|]. apply Forall_forall. intros x Hx. apply Hleast.
    rewrite HP, <- HP'. by right.
  - by rewrite HP, HP'.
Qed.

(** [pushf] pushes whenever there is room in an array of [n] cells. *)
Definition push_like (pushf : minheap A → A → option (Z * minheap A)) (n : nat) : Prop :=
  ∀ h p, length (arr h) = n → hsize h < n → pushf h p = push_body h p.

Lemma refill_ok (pushf : minheap A → A → option (Z * minheap A)) xs h :
  push_like pushf (length (arr h)) →
  heap_ok h → hsize h + length xs ≤ length (arr h) →
  ∃ h', refill pushf xs h = Some h' ∧ heap_ok h' ∧ hsize h' = hsize h + length xs ∧
    length (arr h') = length (arr h) ∧ contents h' ≡ₚ xs ++ contents h.
Proof.
  revert h. induction xs as [|x xs IH]; intros h Hpush Hok Hl; simpl in *.
  { exists h. split_and!; done || lia. }
  rewrite Hpush by (done || lia).
  destruct (push_body_ok h x) as (h1 & -> & Hok1 & Hs1 & Hl1 & HP1); [done|lia|]. simpl.
  destruct (IH h1) as (h' & -> & Hok' & Hs' & Hl' & HP'); [by rewrite Hl1|done|lia|].
  exists h'. split_and!; try done; [lia|congruence|].
  rewrite HP', HP1. symmetry. apply Permutation_middle.
Qed.

(** [getsorted] with a [push] that has room: the result is sorted and holds
    the elements of the heap, which is left with the same elements. *)
Lemma getsorted_ok (pushf : minheap A → A → option (Z * minheap A)) h :
  push_like pushf (length (arr h)) → heap_ok h →
  ∃ xs h', getsorted pushf h = Some (xs, h') ∧ StronglySorted lexle xs ∧
    xs ≡ₚ contents h ∧ heap_ok h' ∧ contents h' ≡ₚ contents h ∧ hsize h' = hsize h.
Proof.
  intros Hpush Hok. pose proof (heap_size _ Hok). unfold getsorted.
  destruct (drain_ok (hsize h) h) as (xs & h1 & -> & Hs1 & Hok1 & Hl1 & Hso & HP); [done..|].
  cbn [mbind option_bind fst snd]. pose proof (contents_length h Hok) as Hlen.
  rewrite <- HP in Hlen.
  destruct (refill_ok pushf xs h1) as (h' & -> & Hok' & Hs' & Hl' & HP');
    [by rewrite Hl1|done|lia|].
  exists xs, h'. split_and!; try done.
  - clear -Hso. induction Hso as [|x xs Hso IH Hx]; constructor; [done|].
    eapply Forall_impl; [done|]. intros y. apply pref_lexle.
  - rewrite HP'. unfold contents at 1. by rewrite Hs1, app_nil_r, HP.
  - lia.
Qed.
End operations.

(** The heap order as a test. *)
Definition heap_orderedb {A} `{Keyed A} (a : list A) (n : nat) : bool :=
  forallb (λ i, match a !! parent i, a !! i with
                | Some x, Some y => negb (greater x y)
                | _, _ => true
                end) (seq 1 (n - 1)).

Lemma heap_orderedb_spec {A} `{Keyed A} (a : list A) n :
  heap_orderedb a n = true → heap_ordered a n.
Proof.
  unfold heap_orderedb. rewrite forallb_forall. intros Hall i x y Hi Hx Hy.
  specialize (Hall i). rewrite Hx, Hy in Hall. unfold pref.
  destruct (greater x y); [|done]. discriminate Hall. apply in_seq. lia.
Qed.

(** ** The interface the scheduler uses *)

(** A bounded priority queue of capacity [cap]: [q_rep q l] says that [q]
    holds exactly the elements [l], in no particular order. *)
Class MinQueue (A Q : Type) `{Keyed A} (cap : nat) := {
  q_rep : Q → list A → Prop;
  q_push : Q → A → option (Z * Q);
  q_min : Q → option A;
  q_rep_perm : ∀ q l l', l ≡ₚ l' → q_rep q l → q_rep q l';
  q_push_ok : ∀ q l x, q_rep q l → length l < cap →
    ∃ q', q_push q x = Some (0%Z, q') ∧ q_rep q' (x :: l);
  q_push_full : ∀ q l x, q_rep q l → length l = cap → q_push q x = Some ((-1)%Z, q);
  q_min_ok : ∀ q l, q_rep q l → l ≠ [] →
    ∃ m, q_min q = Some m ∧ m ∈ l ∧ ∀ x, x ∈ l → lexle m x
}.

(** A heap whose array has [cap] cells represents its contents. *)
Definition heap_rep {A} `{Keyed A} (cap : nat) (h : minheap A) (l : list A) : Prop :=
  heap_ok h ∧ length (arr h) = cap ∧ contents h ≡ₚ l.

#[export, refine] Instance heap_queue {A} `{Keyed A} cap : MinQueue A (minheap A) cap := {
  q_rep := heap_rep cap;
  q_push := push cap;
  q_min := getmin
}.
Proof.
  - intros q l l' Hp (? & ? & HP). split_and!; [done..|]. by rewrite HP.
  - intros q l x (Hok & Hc & HP) Hl. pose proof (contents_length q Hok) as Hn.
    rewrite HP in Hn. unfold push. rewrite decide_False by lia.
    destruct (push_body_ok q x) as (q' & -> & Hok' & Hs & Hc' & HP'); [done|lia|].
    exists q'. split; [done|]. split_and!; [done|congruence|]. by rewrite HP', HP.
  - intros q l x (Hok & Hc & HP) Hl. pose proof (contents_length q Hok) as Hn.
    rewrite HP in Hn. unfold push. by rewrite decide_True by lia.
  - intros q l (Hok & Hc & HP) Hl. pose proof (contents_length q Hok) as Hn.
    rewrite HP in Hn. destruct l; [done|]. simpl in Hn.
    destruct (getmin_ok q) as (m & Hm & Hin & Hleast); [done|lia|].
    exists m. split_and!; [done|by rewrite <- HP|].
    intros y Hy. apply pref_lexle, Hleast. by rewrite HP.
Defined.

(** ** [strideheap.c] *)

Module StrideHeap.

Record proc := MkProc { p_pid : Z; p_pass : Z; p_runtime : Z }.

#[global] Instance proc_keyed : Keyed proc :=
  { pass := p_pass; runtime := p_runtime; pid := p_pid }.

(** [struct proc arr[64]]. *)
Definition ARRSIZE : nat := 64.

Definition makeproc (pid pass rtime : Z) : proc := MkProc pid pass rtime.

(** The [push] of this file has no capacity check. *)
Definition push (h : minheap proc) (p : proc) : option (Z * minheap proc) := push_body h p.

Definition getsorted (h : minheap proc) : option (list proc * minheap proc) :=
  Heap.getsorted push h.

(** One round of [main]: an empty heap, then ten pushes. *)
Definition main_round (garbage ps : list proc) : option proc :=
  h ← refill push ps (MkHeap garbage 0);
  getmin h.

End StrideHeap.

(** ** [heaptest.c] *)

Module HeapTest.

Record proc := MkProc {
  p_pid : Z; p_name : string; p_tickets : Z; p_stride : Z; p_pass : Z; p_remain : Z;
  p_last_scheduled : Z; p_last_interrupted : Z; p_runtime : Z
}.

#[global] Instance proc_keyed : Keyed proc :=
  { pass := p_pass; runtime := p_runtime; pid := p_pid }.

(** A heap with its [maxsize]. *)
Record heap := MkBounded { body : minheap proc; maxsize : nat }.

(** [init]: [malloc] gives an array of [maxsize] cells of unspecified
    content [fresh]. *)
Definition init (fresh : list proc) : heap :=
  MkBounded (MkHeap fresh 0) (length fresh).

Definition push (h : heap) (p : proc) : option (Z * heap) :=
  r ← Heap.push (maxsize h) (body h) p;
  Some (r.1, MkBounded r.2 (maxsize h)).

Definition getsorted (h : heap) : option (list proc * heap) :=
  r ← Heap.getsorted (Heap.push (maxsize h)) (body h);
  Some (r.1, MkBounded r.2 (maxsize h)).

End HeapTest.

(** ** Properties *)

(** C21: [push] on a heap in heap order.  A full heap is left as it is and -1
    is returned; otherwise 0 is returned and the result is again in heap
    order, one larger, over the same array, and holds exactly the pushed
    element and the old ones.  No access leaves the array. *)
Theorem push_correct {A} `{Keyed A} (h : minheap A) (p : A) :
  heap_ok h →
  (hsize h = length (arr h) → push (length (arr h)) h p = Some ((-1)%Z, h)) ∧
  (hsize h < length (arr h) →
   ∃ h', push (length (arr h)) h p = Some (0%Z, h') ∧ heap_ok h' ∧
     hsize h' = S (hsize h) ∧ length (arr h') = length (arr h) ∧
     contents h' ≡ₚ p :: contents h).
Proof.
  intros Hok. unfold push. split; intros Hs; [by rewrite decide_True|].
  rewrite decide_False by lia. by apply push_body_ok.
Qed.

(** [pop] on a non-empty heap in heap order removes the element that
    [getmin] shows, which comes first in the (pass, runtime, pid) order,
    keeps all others, and leaves a heap in heap order. *)
Theorem pop_correct {A} `{Keyed A} (h : minheap A) :
  heap_ok h → 0 < hsize h →
  ∃ m h', getmin h = Some m ∧ pop h = Some h' ∧ heap_ok h' ∧
    contents h ≡ₚ m :: contents h' ∧ ∀ x, x ∈ contents h → lexle m x.
Proof.
  intros Hok Hp. destruct (pop_ok h Hok Hp) as (m & h' & Hm & Hpop & Hok' & _ & _ & HP).
  destruct (getmin_ok h Hok Hp) as (m' & Hm' & _ & Hl). simplify_eq.
  exists m, h'. split_and!; try done. intros x Hx. by apply pref_lexle, Hl.
Qed.

(** [getsorted] of [heaptest.c] returns the elements of the heap sorted
    by (pass, runtime, pid) and leaves a heap with the same elements. *)
Theorem getsorted_correct (h : HeapTest.heap) :
  heap_ok (HeapTest.body h) → length (arr (HeapTest.body h)) = HeapTest.maxsize h →
  ∃ xs h', HeapTest.getsorted h = Some (xs, h') ∧ StronglySorted lexle xs ∧
    xs ≡ₚ contents (HeapTest.body h) ∧ heap_ok (HeapTest.body h') ∧
    contents (HeapTest.body h') ≡ₚ contents (HeapTest.body h).
Proof.
  intros Hok Hm. unfold HeapTest.getsorted.
  destruct h as [b mx]; cbn [HeapTest.body HeapTest.maxsize] in *.
  destruct (getsorted_ok (push mx) b) as (xs & h' & -> & Hso & HP & Hok' & HP' & _); [|done|].
  - intros h p Hl Hs. unfold push. by rewrite decide_False by lia.
  - cbn. eauto 10.
Qed.

(** A round of [main] in [strideheap.c], on at most as many processes as
    the array has cells, finds a process that comes first in the (pass,
    runtime, pid) order, whatever the array held before. *)
Theorem main_round_least (garbage ps : list StrideHeap.proc) :
  length garbage = StrideHeap.ARRSIZE → 0 < length ps ≤ StrideHeap.ARRSIZE →
  ∃ m, StrideHeap.main_round garbage ps = Some m ∧ m ∈ ps ∧ ∀ x, x ∈ ps → lexle m x.
Proof.
  intros Hg Hp. unfold StrideHeap.main_round.
  destruct (refill_ok StrideHeap.push ps (MkHeap garbage 0)) as (h & -> & Hok & Hs & _ & HP).
  - by intros h p Hl Hs.
  - split; simpl; [lia|]. intros i x y Hi. lia.
  - simpl. lia.
  - simpl in *. destruct (getmin_ok h) as (m & Hm & Hin & Hl); [done|lia|].
    rewrite app_nil_r in HP. exists m. split_and!; [done|by rewrite <- HP|].
    intros x Hx. apply pref_lexle, Hl. by rewrite HP.
Qed.

Lemma refill_app {A} (pushf : minheap A → A → option (Z * minheap A)) xs ys h :
  refill pushf (xs ++ ys) h = h' ← refill pushf xs h; refill pushf ys h'.
Proof. revert h. induction xs as [|x xs IH]; intros h; [done|]. cbn. destruct (pushf h x) as [r|]; [|done]. apply IH. Qed.

(** C39: The [push] of [strideheap.c] has no capacity check.  Any 64 pushes on
    the array of 64 cells stay inside and keep every process, in heap order,
    whatever the array held before; the next one stores into the cell after
    the last. *)
Theorem strideheap_capacity (garbage ps : list StrideHeap.proc) (Hlen : length garbage = StrideHeap.ARRSIZE) :
  if decide (length ps ≤ StrideHeap.ARRSIZE) then
    ∃ h, refill StrideHeap.push ps (MkHeap garbage 0) = Some h ∧ heap_ok h ∧ hsize h = length ps ∧ contents h ≡ₚ ps
  else
    ∃ h p, refill StrideHeap.push (take StrideHeap.ARRSIZE ps) (MkHeap garbage 0) = Some h ∧
      ps !! StrideHeap.ARRSIZE = Some p ∧ hsize h = length (arr h) ∧ store (arr h) (hsize h) p = None ∧
      StrideHeap.push h p = None ∧ refill StrideHeap.push ps (MkHeap garbage 0) = None.
Proof.
  assert (∀ qs, length qs ≤ StrideHeap.ARRSIZE →
    ∃ h, refill StrideHeap.push qs (MkHeap garbage 0) = Some h ∧ heap_ok h ∧ hsize h = length qs ∧
      length (arr h) = StrideHeap.ARRSIZE ∧ contents h ≡ₚ qs) as Hfill.
  { intros qs Hq. destruct (refill_ok StrideHeap.push qs (MkHeap garbage 0)) as (h & E & Hok & Hs & Hl & HP).
    - by intros h p Hl Hs.
    - split; simpl; [lia|]. intros i x y Hi. lia.
    - simpl. lia.
    - exists h. rewrite app_nil_r in HP. cbn in Hl. split_and!; try done. by rewrite Hl. }
  destruct (decide (length ps ≤ StrideHeap.ARRSIZE)) as [Hle|Hgt].
  { destruct (Hfill ps Hle) as (h & E & Hok & Hs & _ & HP). by exists h. }
  destruct (lookup_lt_is_Some_2 ps StrideHeap.ARRSIZE) as [p Hp]; [lia|].
  destruct (Hfill (take StrideHeap.ARRSIZE ps)) as (h & E & _ & Hs & Hl & _); [rewrite length_take; lia|].
  rewrite length_take_le in Hs by lia. assert (store (arr h) (hsize h) p = None) as Hst by (apply store_None; lia).
  assert (StrideHeap.push h p = None) as Hpush by (unfold StrideHeap.push, push_body; by rewrite Hst).
  exists h, p. split_and!; try done; [by rewrite Hl|].
  rewrite <- (take_drop_middle ps _ p Hp), refill_app, E. cbn. by rewrite Hpush.
Qed.

(** *** Witnesses *)

Definition empty_proc : StrideHeap.proc := StrideHeap.MkProc 0 0 0.

(** The pushes of [main] in [heaptest.c]. *)
Definition heaptest_procs : list HeapTest.proc :=
  let mk pid name pass rt := HeapTest.MkProc pid name 0 0 pass 0 0 0 rt in
  [mk 8 "P8" 1 5; mk 7 "P7" 7 4; mk 1 "P1" 7 5; mk 2 "P2" 7 3; mk 4 "P3" 6 2; mk 3 "P4" 6 2;
   mk 5 "P5" 6 3; mk 6 "P6" 6 3; mk 9 "P9" 9 5; mk 10 "P10" 10 2; mk 11 "P11" 11 0;
   mk 12 "P12" 12 5]%Z.

Definition heaptest_heap : HeapTest.heap :=
  HeapTest.MkBounded
    (default (MkHeap [] 0) (refill (push 12) heaptest_procs (MkHeap heaptest_procs 0))) 12.

Example heaptest_main_output :
  option_map (λ r, map HeapTest.p_name r.1) (HeapTest.getsorted heaptest_heap) =
  Some ["P8"; "P4"; "P3"; "P5"; "P6"; "P2"; "P7"; "P1"; "P9"; "P10"; "P11"; "P12"]%string.
Proof. reflexivity. Qed.

Definition three_procs : minheap StrideHeap.proc :=
  MkHeap [StrideHeap.MkProc 3 0 1; StrideHeap.MkProc 1 0 2; StrideHeap.MkProc 2 5 0; empty_proc] 3.

Lemma three_procs_ok : heap_ok three_procs.
Proof. split; [cbn; lia|]. apply heap_orderedb_spec. reflexivity. Defined.

Lemma push_correct_witness :
  ∃ h', push 4 three_procs (StrideHeap.MkProc 9 0 0) = Some (0%Z, h') ∧
    contents h' ≡ₚ StrideHeap.MkProc 9 0 0 :: contents three_procs.
Proof.
  destruct (push_correct three_procs (StrideHeap.MkProc 9 0 0) three_procs_ok) as [_ Hpush].
  destruct Hpush as (h' & Hpush & _ & _ & _ & HP); [cbn; lia|]. exists h'. split; assumption.
Defined.

Lemma pop_correct_witness :
  ∃ m h', getmin three_procs = Some m ∧ pop three_procs = Some h' ∧ heap_ok h'.
Proof.
  destruct (pop_correct three_procs three_procs_ok) as (m & h' & Hm & Hp & Hok & _);
    [cbn; lia|].
  exists m, h'. split; [|split]; assumption.
Defined.

Lemma getsorted_correct_witness :
  ∃ xs h', HeapTest.getsorted heaptest_heap = Some (xs, h') ∧ StronglySorted lexle xs.
Proof.
  destruct (getsorted_correct heaptest_heap) as (xs & h' & E & Hs & _).
  - split; [vm_compute; lia|]. apply heap_orderedb_spec. reflexivity.
  - reflexivity.
  - exists xs, h'. split; assumption.
Defined.

Lemma main_round_least_witness :
  ∃ m, StrideHeap.main_round (replicate 64 empty_proc)
         [StrideHeap.MkProc 3 7 1; StrideHeap.MkProc 5 7 1] = Some m ∧ StrideHeap.p_pid m = 3%Z.
Proof.
  destruct (main_round_least (replicate 64 empty_proc)
    [StrideHeap.MkProc 3 7 1; StrideHeap.MkProc 5 7 1]) as (m & E & _).
  - reflexivity.
  - vm_compute. lia.
  - exists m. split; [exact E|]. vm_compute in E. injection E as <-. reflexivity.
Defined.

Lemma strideheap_capacity_witness :
  ∃ h p, hsize h = length (arr h) ∧ store (arr h) (hsize h) p = None ∧ StrideHeap.push h p = None ∧
    refill StrideHeap.push (replicate 65 empty_proc) (MkHeap (replicate 64 empty_proc) 0) = None.
Proof.
  destruct (strideheap_capacity (replicate 64 empty_proc) (replicate 65 empty_proc) eq_refl)
    as (h & p & _ & _ & H1 & H2 & H3 & H4). exists h, p. exact (conj H1 (conj H2 (conj H3 H4))).
Defined.
