(* ===== verification/Ring.v ===== *)
(** Circular doubly linked lists, as a pair of link functions: the list of
    nodes between two visits of the head, and what unlinking a node and
    linking it in at the front does to that list. *)

From stdpp Require Import base functions list.

Section ring.
Context {N : Type} `{EqDecision N}.
Implicit Types (nx pv : N → N) (a b h i : N) (w l : list N).

(** From [a], the links lead along [w], and back. *)
Fixpoint walk nx pv a w : Prop :=
  match w with
  | [] => True
  | b :: w => nx a = b ∧ pv b = a ∧ walk nx pv b w
  end.

(** The nodes of the ring with head [h] are [l], in order. *)
Definition ring nx pv h l : Prop := NoDup (h :: l) ∧ walk nx pv h (l ++ [h]).

(** Take [i] out: [i->next->prev = i->prev; i->prev->next = i->next]. *)
Definition unlink i nx pv : (N → N) * (N → N) :=
  let pv' := <[nx i:=pv i]> pv in
  (<[pv' i:=nx i]> nx, pv').

(** Put [i] after the head. *)
Definition relink h i nx pv : (N → N) * (N → N) :=
  let nx1 := <[i:=nx h]> nx in
  let pv1 := <[i:=h]> pv in
  let pv2 := <[nx1 h:=i]> pv1 in
  (<[h:=i]> nx1, pv2).

Lemma walk_app nx pv a w1 b w2 :
  walk nx pv a (w1 ++ b :: w2) ↔ walk nx pv a (w1 ++ [b]) ∧ walk nx pv b w2.
Proof.
  revert a. induction w1 as [|c w1 IH]; intros a; cbn; [tauto|]. rewrite IH. tauto.
Qed.

(** A walk depends on the links of its nodes: forward for all but the last,
    backward for all but the first. *)
Lemma walk_ext nx pv nx' pv' a w b :
  (∀ x, x ∈ a :: w → nx' x = nx x) → (∀ x, x ∈ w ++ [b] → pv' x = pv x) →
  walk nx pv a (w ++ [b]) → walk nx' pv' a (w ++ [b]).
Proof.
  revert a. induction w as [|c w IH]; intros a Hn Hp; cbn.
  - intros (H1 & H2 & _). rewrite Hn, Hp by (by left). done.
  - intros (H1 & H2 & H3). rewrite Hn, Hp by (by left). split_and!; [done..|].
    apply IH; [|by intros x Hx; apply Hp; right|done]. intros x Hx. apply Hn. by right.
Qed.

(** The same walk backwards. *)
Lemma walk_rev nx pv a w b : walk nx pv a (w ++ [b]) → walk pv nx b (reverse w ++ [a]).
Proof.
  revert a. induction w as [|c w IH]; intros a; cbn [app walk]; [cbn; tauto|].
  intros (H1 & H2 & H3). rewrite reverse_cons, <- app_assoc. cbn [app]. rewrite walk_app. split; [by apply IH|done].
Qed.

(** The node before [i] in a walk from [a] along [l1]. *)
Definition before a l1 : N := default a (last l1).

Lemma walk_last nx pv a l1 b : walk nx pv a (l1 ++ [b]) → nx (before a l1) = b ∧ pv b = before a l1.
Proof.
  unfold before. destruct l1 as [|c l1 _] using rev_ind; cbn; [tauto|].
  rewrite last_snoc, <- app_assoc. cbn. rewrite walk_app. cbn. tauto.
Qed.

Lemma before_in a l1 : before a l1 ∈ a :: l1.
Proof.
  unfold before. destruct l1 as [|c l1 _] using rev_ind; cbn; [by left|].
  rewrite last_snoc. cbn. right. apply elem_of_app. right. by left.
Qed.

(** Redirect the end of a walk. *)
Lemma walk_redirect nx pv a l1 b c :
  NoDup (a :: l1) → c ∉ l1 → walk nx pv a (l1 ++ [b]) →
  walk (<[before a l1:=c]> nx) (<[c:=before a l1]> pv) a (l1 ++ [c]).
Proof.
  revert a. induction l1 as [|d l1 IH]; intros a Hnd Hc; cbn.
  - intros _. unfold before. cbn. by rewrite !fn_lookup_insert.
  - intros (H1 & H2 & H3). apply not_elem_of_cons in Hc as [Hcd Hc].
    apply NoDup_cons in Hnd as [Had Hnd].
    assert (before a (d :: l1) = before d l1) as ->.
    { unfold before. rewrite last_cons. by destruct (last l1). }
    rewrite !fn_lookup_insert_ne; [|done|].
    + split_and!; [done..|]. by apply IH.
    + intros E. apply Had. rewrite <- E. apply before_in.
Qed.

Lemma ring_unlink nx pv h l1 i l2 :
  ring nx pv h (l1 ++ i :: l2) →
  let r := unlink i nx pv in
  ring r.1 r.2 h (l1 ++ l2) ∧ r.1 i = nx i ∧ r.2 i = pv i.
Proof.
  intros [Hnd Hw] r. rewrite <- app_assoc in Hw. cbn in Hw. rewrite walk_app in Hw.
  destruct Hw as [Hw1 Hw2]. pose proof (walk_last _ _ _ _ _ Hw1) as [Hn Hp].
  pose proof Hnd as Hnd0. rewrite app_comm_cons in Hnd. apply NoDup_app in Hnd as (N1 & N2 & N3).
  apply NoDup_cons in N3 as [Hi2 N3].
  assert (h ≠ i) as Hhi by (intros ->; apply (N2 i); [by left|by left]).
  set (P := before h l1) in *. assert (P ∈ h :: l1) as HP by apply before_in. assert (P ≠ i) as HPi.
  { intros E. apply (N2 i); [rewrite <- E; apply before_in|by left]. }
  assert (∃ n w2, l2 ++ [h] = n :: w2) as (n & w2 & En) by (destruct l2; eauto).
  rewrite En in Hw2. cbn in Hw2. destruct Hw2 as (Hn2 & Hp2 & Hw2).
  assert (n ≠ i) as Hni. { destruct l2; cbn in En; simplify_eq; [done|].
    intros E. apply Hi2. rewrite <- E. by left. }
  assert (r = (<[P:=n]> nx, <[n:=P]> pv)) as Er.
  { unfold r, unlink. rewrite Hn2, Hp. cbv zeta. rewrite fn_lookup_insert_ne by done. by rewrite Hp. }
  rewrite Er. cbn [fst snd]. rewrite !fn_lookup_insert_ne by done. split_and!; try done.
  split.
  - rewrite app_comm_cons. apply NoDup_app. split_and!; [done| |done].
    intros x Hx Hx2. apply (N2 x Hx). by right.
  - rewrite <- app_assoc, En. apply walk_app. split.
    + apply (walk_redirect nx pv h l1 i n N1); [|done].
      intros Hx. destruct l2 as [|n' l2]; cbn in En; simplify_eq; [by apply NoDup_cons in N1 as [? _]|].
      apply (N2 n); [by right|right; by left].
    + destruct l2 as [|n' l2]; cbn in En; simplify_eq; [done|].
      eapply walk_ext; [| |exact Hw2].
      * intros x Hx. apply fn_lookup_insert_ne. intros E. eapply N2; [exact HP|].
        rewrite E. by right.
      * intros x Hx. apply fn_lookup_insert_ne. intros <-. apply elem_of_app in Hx as [Hx|Hx].
        -- by apply NoDup_cons in N3 as [? _].
        -- apply list_elem_of_singleton in Hx as ->. apply (N2 h); [by left|right; by left].
Qed.

Lemma ring_relink nx pv h l i :
  ring nx pv h l → i ∉ h :: l → let r := relink h i nx pv in ring r.1 r.2 h (i :: l).
Proof.
  intros [Hnd Hw] Hi r. apply not_elem_of_cons in Hi as [Hih Hil].
  assert (∃ n w, l ++ [h] = n :: w) as (n & w & En) by (destruct l; eauto).
  rewrite En in Hw. cbn in Hw. destruct Hw as (H1 & H2 & Hw).
  assert (n ≠ i) as Hni.
  { intros E. assert (i ∈ l ++ [h]) as Hx by (rewrite En, E; by left).
    apply elem_of_app in Hx as [|Hx%list_elem_of_singleton]; done. }
  assert (r = (<[h:=i]> (<[i:=n]> nx), <[n:=i]> (<[i:=h]> pv))) as ->.
  { unfold r, relink. cbv zeta. rewrite fn_lookup_insert_ne by done. by rewrite H1. }
  cbn [fst snd]. split.
  - apply NoDup_cons in Hnd as [Hh Hnd]. constructor; [by apply not_elem_of_cons|].
    by constructor.
  - cbn. rewrite En. cbn. rewrite fn_lookup_insert.
    rewrite (fn_lookup_insert_ne _ n i) by done. rewrite fn_lookup_insert.
    rewrite (fn_lookup_insert_ne _ h i) by done. rewrite !fn_lookup_insert.
    split_and!; [done..|]. clear H1. destruct l as [|n' l]; cbn in En; injection En as <- <-; [done|].
    apply NoDup_cons in Hnd as [Hh Hnd]. apply NoDup_cons in Hnd as [Hn Hnd].
    apply not_elem_of_cons in Hh as [Hhn Hh].
    eapply walk_ext; [| |exact Hw].
    + intros x Hx. rewrite !fn_lookup_insert_ne; [done|intros <-; by apply Hil|].
      intros <-. apply elem_of_cons in Hx as [?|?]; done.
    + intros x Hx. rewrite !fn_lookup_insert_ne; [done| |].
      * intros <-. apply elem_of_app in Hx as [Hx|Hx]; [by apply Hil; right|].
        by apply list_elem_of_singleton in Hx.
      * intros <-. apply elem_of_app in Hx as [Hx|Hx]; [done|].
        by apply list_elem_of_singleton in Hx.
Qed.
End ring.
