(* ===== verification/Window.v ===== *)
(** Windows of circular buffers whose indices are counters modulo 2^32: the
    data of a pipe and the input of the console. *)

From stdpp Require Import base list.
From Stdlib Require Import ZArith Lia.
From S2P Require Import Prelude.
#[local] Open Scope Z_scope.

(** The [count] cells from counter [from] on, in a buffer of [n] cells. *)
Definition window (n : Z) (buf : list Z) (from : Z) (count : nat) : list Z :=
  (λ i : nat, nth (Z.to_nat ((from + Z.of_nat i) mod n)) buf 0) <$> seq 0 count.

Section window.
Context (n : Z) (Hn : 0 < n) (Hdiv : (n | 2 ^ 32)).
Implicit Types (buf : list Z) (from b : Z) (count : nat).

Lemma length_window buf from count : length (window n buf from count) = count.
Proof. unfold window. by rewrite length_fmap, length_seq. Qed.

Lemma window_lookup buf from count i :
  (i < count)%nat → window n buf from count !! i = Some (nth (Z.to_nat ((from + Z.of_nat i) mod n)) buf 0).
Proof. intros Hi. unfold window. by rewrite list_lookup_fmap, lookup_seq_lt. Qed.

Lemma window_mod buf from from' count :
  from mod n = from' mod n → window n buf from count = window n buf from' count.
Proof.
  intros E. unfold window. apply list_fmap_ext. intros i j _.
  by rewrite <- (Zplus_mod_idemp_l from), E, Zplus_mod_idemp_l.
Qed.

(** The counters wrap around at a multiple of the size. *)
Lemma u32_mod_window x : u32 x mod n = x mod n.
Proof. unfold u32, wrapu. apply Z.mod_mod_divide, Hdiv. Qed.

Lemma window_u32 buf from count : window n buf (u32 from) count = window n buf from count.
Proof. apply window_mod, u32_mod_window. Qed.

Lemma window_app buf from c1 c2 :
  window n buf from (c1 + c2) = window n buf from c1 ++ window n buf (from + Z.of_nat c1) c2.
Proof.
  unfold window. rewrite seq_app, fmap_app. f_equal. cbn [Nat.add].
  replace (seq c1 c2) with (Nat.add c1 <$> seq 0 c2) by (by rewrite fmap_add_seq, Nat.add_0_r).
  rewrite <- list_fmap_compose. apply list_fmap_ext. intros i j _. cbn. do 3 f_equal. lia.
Qed.

Lemma window_cons buf from count :
  window n buf from (S count) = nth (Z.to_nat (from mod n)) buf 0 :: window n buf (from + 1) count.
Proof. change (S count) with (1 + count)%nat. rewrite window_app. unfold window at 1. cbn. by rewrite Z.add_0_r. Qed.

(** A store outside the window. *)
Lemma window_insert buf from count (j : Z) b :
  Z.of_nat (length buf) = n → Z.of_nat count <= j < n →
  window n (<[Z.to_nat ((from + j) mod n):=b]> buf) from count = window n buf from count.
Proof.
  intros Hl Hj. unfold window. apply list_fmap_ext. intros i x Hx. apply lookup_seq in Hx as [-> Hi]. cbn [Nat.add].
  rewrite !nth_lookup, list_lookup_insert_ne; [done|]. intros E.
  pose proof (Z.mod_pos_bound (from + j) n Hn). pose proof (Z.mod_pos_bound (from + Z.of_nat i) n Hn).
  assert ((from + j) mod n = (from + Z.of_nat i) mod n) as E' by lia.
  assert ((j - Z.of_nat i) mod n = 0) as E0.
  { replace (j - Z.of_nat i) with ((from + j) - (from + Z.of_nat i)) by lia.
    by rewrite Zminus_mod, E', Z.sub_diag, Zmod_0_l. }
  rewrite Z.mod_small in E0; lia.
Qed.

(** A store at the end of the window makes it longer. *)
Lemma window_snoc buf from count b :
  Z.of_nat (length buf) = n → Z.of_nat count < n →
  window n (<[Z.to_nat ((from + Z.of_nat count) mod n):=b]> buf) from (S count) = window n buf from count ++ [b].
Proof.
  intros Hl Hc. replace (S count) with (count + 1)%nat by lia. rewrite window_app, window_insert by lia. f_equal.
  unfold window. cbn [seq fmap list_fmap]. rewrite Z.add_0_r, nth_lookup.
  pose proof (Z.mod_pos_bound (from + Z.of_nat count) n Hn).
  by rewrite list_lookup_insert_eq by lia.
Qed.
End window.
