(* ===== verification/CString.v ===== *)
(** The byte and string routines of the kernel, [string.c], and the [rep
    stos] helpers of [x86.h] they use, over byte-addressed memory.

    Memory maps addresses to byte values; pointers are integers.  The [uint]
    and [int] counts are integers whose loops run [Z.to_nat n] times, which is
    what [while(n-- > 0)] does for both types.  The theorems describe every
    byte of memory after a call. *)

From stdpp Require Import base gmap numbers.
From Stdlib Require Import ZArith Lia.
From S2P Require Import Prelude.
#[local] Open Scope Z_scope.

(** ** Memory *)

Definition rd (m : gmap Z Z) (a : Z) : Z := default 0 (m !! a).

Definition wr (m : gmap Z Z) (a v : Z) : gmap Z Z := <[a:=u8 v]> m.

(** ** Definitions *)

Fixpoint stosb_loop (m : gmap Z Z) (addr data : Z) (cnt : nat) : gmap Z Z :=
  match cnt with
  | O => m
  | S cnt => stosb_loop (wr m addr data) (addr + 1) data cnt
  end.

Definition stosb (m : gmap Z Z) (addr data cnt : Z) : gmap Z Z :=
  stosb_loop m addr data (Z.to_nat cnt).

(** A 32-bit store, little endian. *)
Definition wr32 (m : gmap Z Z) (a v : Z) : gmap Z Z :=
  wr (wr (wr (wr m a v) (a + 1) (Z.shiftr v 8)) (a + 2) (Z.shiftr v 16)) (a + 3) (Z.shiftr v 24).

(** A 32-bit load, little endian. *)
Definition rd32 (m : gmap Z Z) (a : Z) : Z :=
  rd m a + 2 ^ 8 * rd m (a + 1) + 2 ^ 16 * rd m (a + 2) + 2 ^ 24 * rd m (a + 3).

Fixpoint stosl_loop (m : gmap Z Z) (addr data : Z) (cnt : nat) : gmap Z Z :=
  match cnt with
  | O => m
  | S cnt => stosl_loop (wr32 m addr data) (addr + 4) data cnt
  end.

Definition stosl (m : gmap Z Z) (addr data cnt : Z) : gmap Z Z :=
  stosl_loop m addr data (Z.to_nat cnt).

Definition memset (m : gmap Z Z) (dst c n : Z) : gmap Z Z :=
  if (Z.rem (i32 dst) 4 =? 0) && (n mod 4 =? 0) then
    let c := Z.land c 0xFF in
    stosl m dst
      (Z.lor (Z.lor (Z.lor (Z.shiftl c 24) (Z.shiftl c 16)) (Z.shiftl c 8)) c) (n / 4)
  else stosb m dst c n.

Fixpoint memcmp_loop (m : gmap Z Z) (s1 s2 : Z) (n : nat) : Z :=
  match n with
  | O => 0
  | S n =>
      if negb (rd m s1 =? rd m s2) then rd m s1 - rd m s2
      else memcmp_loop m (s1 + 1) (s2 + 1) n
  end.

Definition memcmp (m : gmap Z Z) (v1 v2 n : Z) : Z := memcmp_loop m v1 v2 (Z.to_nat n).

Fixpoint copy_up (m : gmap Z Z) (d s : Z) (n : nat) : gmap Z Z :=
  match n with
  | O => m
  | S n => copy_up (wr m d (rd m s)) (d + 1) (s + 1) n
  end.

Fixpoint copy_down (m : gmap Z Z) (d s : Z) (n : nat) : gmap Z Z :=
  match n with
  | O => m
  | S n => copy_down (wr m (d - 1) (rd m (s - 1))) (d - 1) (s - 1) n
  end.

Definition memmove (m : gmap Z Z) (dst src n : Z) : gmap Z Z :=
  if (src <? dst) && (dst <? src + n) then copy_down m (dst + n) (src + n) (Z.to_nat n)
  else copy_up m dst src (Z.to_nat n).

Definition memcpy (m : gmap Z Z) (dst src n : Z) : gmap Z Z := memmove m dst src n.

Fixpoint strncmp_loop (m : gmap Z Z) (p q : Z) (n : nat) : Z :=
  match n with
  | O => 0
  | S n' =>
      if negb (rd m p =? 0) && (rd m p =? rd m q) then strncmp_loop m (p + 1) (q + 1) n'
      else rd m p - rd m q
  end.

Definition strncmp (m : gmap Z Z) (p q n : Z) : Z := strncmp_loop m p q (Z.to_nat n).

(** The two loops of [strncpy]: copy up to and including a NUL, then pad. *)
Fixpoint strncpy_loop (m : gmap Z Z) (s t : Z) (n : nat) : gmap Z Z :=
  match n with
  | O => m
  | S n =>
      let c := rd m t in
      let m := wr m s c in
      if negb (c =? 0) then strncpy_loop m (s + 1) (t + 1) n
      else stosb_loop m (s + 1) 0 n
  end.

Definition strncpy (m : gmap Z Z) (s t n : Z) : gmap Z Z := strncpy_loop m s t (Z.to_nat n).

(** The loop of [safestrcpy], with [n] the value of [--n], and the final
    store of a NUL at the end of the copied bytes. *)
Fixpoint safestrcpy_loop (m : gmap Z Z) (s t : Z) (n : nat) : gmap Z Z :=
  match n with
  | O => wr m s 0
  | S n =>
      let c := rd m t in
      let m := wr m s c in
      if negb (c =? 0) then safestrcpy_loop m (s + 1) (t + 1) n
      else wr m (s + 1) 0
  end.

Definition safestrcpy (m : gmap Z Z) (s t n : Z) : gmap Z Z :=
  if n <=? 0 then m else safestrcpy_loop m s t (Z.to_nat (n - 1)).

(** [strlen] looks at most [fuel] bytes; [None] when it has not met a NUL. *)
Fixpoint strlen_loop (fuel : nat) (m : gmap Z Z) (s n : Z) : option Z :=
  match fuel with
  | O => None
  | S fuel => if rd m (s + n) =? 0 then Some n else strlen_loop fuel m s (n + 1)
  end.

Definition strlen (fuel : nat) (m : gmap Z Z) (s : Z) : option Z := strlen_loop fuel m s 0.

(** *** Specification *)

(** Memory holds bytes. *)
Definition bytes_ok (m : gmap Z Z) : Prop := ∀ a, 0 <= rd m a < 256.

(** The C string at [a], without its NUL, cut at [n] bytes. *)
Fixpoint cstr (m : gmap Z Z) (a : Z) (n : nat) : list Z :=
  match n with
  | O => []
  | S n => if rd m a =? 0 then [] else rd m a :: cstr m (a + 1) n
  end.

(** [m'] agrees with [m] outside the [n] bytes at [a]. *)
Definition same_outside (m m' : gmap Z Z) (a n : Z) : Prop :=
  ∀ b, ¬ a <= b < a + n → rd m' b = rd m b.

(** ** Lemmas *)

Lemma u8_range x : 0 <= u8 x < 256.
Proof. apply (wrapu_range 8); lia. Qed.

Lemma u8_small x : 0 <= x < 256 → u8 x = x.
Proof. apply (wrapu_small 8). Qed.

Lemma rd_wr m a v b : rd (wr m a v) b = if decide (a = b) then u8 v else rd m b.
Proof. unfold rd, wr. rewrite lookup_insert. by case_decide. Qed.

Lemma wr_bytes_ok m a v : bytes_ok m → bytes_ok (wr m a v).
Proof. intros H b. rewrite rd_wr. case_decide; [apply u8_range|apply H]. Qed.

#[export] Hint Resolve wr_bytes_ok : kern.

Lemma stosb_loop_spec n m a d b :
  rd (stosb_loop m a d n) b = if decide (a <= b < a + Z.of_nat n) then u8 d else rd m b.
Proof.
  revert m a. induction n as [|n IH]; intros m a; cbn [stosb_loop].
  - by rewrite decide_False by lia.
  - rewrite IH, rd_wr. repeat case_decide; try lia; done.
Qed.

Lemma wr32_spec m a v b :
  rd (wr32 m a v) b =
    if decide (a <= b < a + 4) then u8 (Z.shiftr v (8 * (b - a))) else rd m b.
Proof.
  unfold wr32. rewrite !rd_wr.
  destruct (decide (a <= b < a + 4)); repeat case_decide; subst; try lia; try done.
  - by replace (8 * (a + 3 - a)) with 24 by lia.
  - by replace (8 * (a + 2 - a)) with 16 by lia.
  - by replace (8 * (a + 1 - a)) with 8 by lia.
  - by replace (8 * (b - b)) with 0 by lia.
Qed.

(** A word is the sum of its four bytes. *)
Lemma word_bytes v :
  0 <= v < 2 ^ 32 →
  u8 v + 2 ^ 8 * u8 (Z.shiftr v 8) + 2 ^ 16 * u8 (Z.shiftr v 16) + 2 ^ 24 * u8 (Z.shiftr v 24) = v.
Proof.
  intros Hv. unfold u8, wrapu. rewrite !Z.shiftr_div_pow2 by lia.
  change (2 ^ 8) with 256. change (2 ^ 16) with (256 * 256).
  change (2 ^ 24) with (256 * 256 * 256). rewrite <- !Z.div_div by lia.
  change (2 ^ 32) with (256 * 256 * 256 * 256) in Hv.
  pose proof (Z.div_mod v 256). pose proof (Z.div_mod (v / 256) 256).
  pose proof (Z.div_mod (v / 256 / 256) 256).
  assert (v / 256 / 256 / 256 < 256).
  { rewrite !Z.div_div by lia. apply Z.div_lt_upper_bound; lia. }
  assert (0 <= v / 256 / 256 / 256) by (rewrite !Z.div_div by lia; apply Z.div_pos; lia).
  rewrite (Z.mod_small (v / 256 / 256 / 256)) by lia. lia.
Qed.

Lemma rd32_wr32_same m a v : rd32 (wr32 m a v) a = u32 v.
Proof.
  unfold rd32. rewrite !wr32_spec, !decide_True by lia.
  replace (8 * (a - a)) with 0 by lia. replace (8 * (a + 1 - a)) with 8 by lia.
  replace (8 * (a + 2 - a)) with 16 by lia. replace (8 * (a + 3 - a)) with 24 by lia.
  rewrite <- (word_bytes (u32 v)) by apply u32_range.
  assert (∀ k, 0 <= k <= 24 → u8 (Z.shiftr (u32 v) k) = u8 (Z.shiftr v k)) as E.
  { intros k Hk. unfold u8, u32, wrapu. rewrite <- !Z.land_ones by lia.
    apply Z.bits_inj'. intros i Hi. rewrite !Z.land_spec, !Z.shiftr_spec, Z.land_spec by lia.
    rewrite !Z.testbit_ones by lia. destruct (decide (i < 8)).
    - replace (i + k <? 32) with true by lia. replace (0 <=? i + k) with true by lia.
      by rewrite andb_true_r.
    - replace (i <? 8) with false by lia. by rewrite !andb_false_r. }
  rewrite !E by lia. rewrite <- (E 0) by lia. rewrite !Z.shiftr_0_r. done.
Qed.

Lemma rd32_wr32_ne m a v b : a + 4 <= b ∨ b + 4 <= a → rd32 (wr32 m a v) b = rd32 m b.
Proof. intros H. unfold rd32. by rewrite !wr32_spec, !decide_False by lia. Qed.

(** The word with four equal bytes. *)
Lemma splat_bytes c i :
  0 <= c < 256 → 0 <= i < 4 →
  u8 (Z.shiftr (Z.lor (Z.lor (Z.lor (Z.shiftl c 24) (Z.shiftl c 16)) (Z.shiftl c 8)) c) (8 * i)) = c.
Proof.
  intros Hc Hi.
  set (f := λ c i, u8 (Z.shiftr (Z.lor (Z.lor (Z.lor (Z.shiftl c 24) (Z.shiftl c 16))
    (Z.shiftl c 8)) c) (8 * i)) =? c).
  assert (forallb (λ c, forallb (f c) [0; 1; 2; 3]) (map Z.of_nat (seq 0 256)) = true) as E
    by (vm_compute; reflexivity).
  rewrite forallb_forall in E. specialize (E c). rewrite forallb_forall in E.
  apply Z.eqb_eq, E.
  - apply in_map_iff. exists (Z.to_nat c). split; [lia|]. apply in_seq. lia.
  - simpl. lia.
Qed.

Lemma stosl_loop_spec n m a c b :
  0 <= c < 256 →
  rd (stosl_loop m a (Z.lor (Z.lor (Z.lor (Z.shiftl c 24) (Z.shiftl c 16)) (Z.shiftl c 8)) c) n) b =
    if decide (a <= b < a + 4 * Z.of_nat n) then c else rd m b.
Proof.
  intros Hc. revert m a. induction n as [|n IH]; intros m a; cbn [stosl_loop].
  - by rewrite decide_False by lia.
  - rewrite IH, wr32_spec. repeat case_decide; try lia; try done. by rewrite splat_bytes by lia.
Qed.

Lemma memset_spec m dst c n b :
  0 <= n → rd (memset m dst c n) b = if decide (dst <= b < dst + n) then u8 c else rd m b.
Proof.
  intros Hn. unfold memset. case_match eqn:E.
  - apply andb_prop in E as [_ E%Z.eqb_eq]. pose proof (Z.div_mod n 4).
    assert (Z.land c 255 = u8 c) as -> by apply (Z.land_ones c 8 ltac:(lia)).
    unfold stosl. rewrite stosl_loop_spec by apply u8_range.
    rewrite Z2Nat.id by (apply Z.div_pos; lia). by replace (4 * (n / 4)) with n by lia.
  - unfold stosb. rewrite stosb_loop_spec, Z2Nat.id by lia. done.
Qed.

Lemma copy_up_spec n m d s b :
  bytes_ok m → d <= s ∨ s + Z.of_nat n <= d →
  rd (copy_up m d s n) b =
    if decide (d <= b < d + Z.of_nat n) then rd m (s + (b - d)) else rd m b.
Proof.
  intros Hm Hds. revert m d s Hm Hds. induction n as [|n IH]; intros m d s Hm Hds; cbn [copy_up].
  - by rewrite decide_False by lia.
  - rewrite IH; [|auto with kern|lia]. rewrite !rd_wr.
    replace (s + 1 + (b - (d + 1))) with (s + (b - d)) by lia.
    repeat case_decide; subst; try lia; try done.
    replace (s + (b - b)) with s by lia. apply u8_small, Hm.
Qed.

Lemma copy_down_spec n m d s b :
  bytes_ok m → s <= d ∨ d + Z.of_nat n <= s →
  rd (copy_down m d s n) b =
    if decide (d - Z.of_nat n <= b < d) then rd m (s + (b - d)) else rd m b.
Proof.
  intros Hm Hds. revert m d s Hm Hds. induction n as [|n IH]; intros m d s Hm Hds; cbn [copy_down].
  - by rewrite decide_False by lia.
  - rewrite IH; [|auto with kern|lia]. rewrite !rd_wr.
    replace (s - 1 + (b - (d - 1))) with (s + (b - d)) by lia.
    repeat case_decide; subst; try lia; try done.
    replace (s + (d - 1 - d)) with (s - 1) by lia. apply u8_small, Hm.
Qed.

Lemma memmove_spec m dst src n b :
  bytes_ok m → 0 <= n →
  rd (memmove m dst src n) b = if decide (dst <= b < dst + n) then rd m (src + (b - dst)) else rd m b.
Proof.
  intros Hm Hn. unfold memmove. case_match eqn:E.
  - rewrite copy_down_spec, Z2Nat.id by (done || lia).
    replace (src + n + (b - (dst + n))) with (src + (b - dst)) by lia.
    by replace (dst + n - n) with dst by lia.
  - rewrite copy_up_spec, Z2Nat.id; [done|lia|done|].
    apply andb_false_iff in E. rewrite !Z.ltb_ge in E. lia.
Qed.

(** Between ranges that do not overlap only the source has to be bytes. *)
Lemma copy_up_apart n m d s b :
  d + Z.of_nat n <= s ∨ s + Z.of_nat n <= d → (∀ i, s <= i < s + Z.of_nat n → 0 <= rd m i < 256) →
  rd (copy_up m d s n) b =
    if decide (d <= b < d + Z.of_nat n) then rd m (s + (b - d)) else rd m b.
Proof.
  revert m d s. induction n as [|n IH]; intros m d s Hap Hb; cbn [copy_up].
  { by rewrite decide_False by lia. }
  rewrite IH; [|lia|intros i Hi; rewrite rd_wr, decide_False by lia; apply Hb; lia]. rewrite !rd_wr.
  replace (s + 1 + (b - (d + 1))) with (s + (b - d)) by lia.
  repeat case_decide; subst; try lia; try done.
  replace (s + (b - b)) with s by lia. apply u8_small, Hb. lia.
Qed.

Lemma memmove_apart m d s n b :
  0 <= n → d + n <= s ∨ s + n <= d → (∀ i, s <= i < s + n → 0 <= rd m i < 256) →
  rd (memmove m d s n) b = if decide (d <= b < d + n) then rd m (s + (b - d)) else rd m b.
Proof.
  intros Hn Hap Hb. unfold memmove.
  assert ((s <? d) && (d <? s + n) = false) as -> by (apply andb_false_iff; rewrite !Z.ltb_ge; lia).
  by rewrite copy_up_apart, Z2Nat.id by (done || rewrite Z2Nat.id; done).
Qed.

Lemma strncmp_loop_eq n m p q : strncmp_loop m p q n = 0 ↔ cstr m p n = cstr m q n.
Proof.
  revert p q. induction n as [|n IH]; intros p q; cbn [strncmp_loop cstr]; [done|].
  destruct (Z.eqb_spec (rd m p) 0) as [E0|E0]; cbn [negb andb].
  - rewrite E0. destruct (Z.eqb_spec (rd m q) 0); split; intros; (done || lia).
  - destruct (Z.eqb_spec (rd m p) (rd m q)) as [E|E].
    + rewrite E in *. destruct (Z.eqb_spec (rd m q) 0); [done|]. rewrite IH.
      split; [by intros ->|by intros [=]].
    + destruct (Z.eqb_spec (rd m q) 0); split; intros; simplify_eq; lia.
Qed.

Lemma cstr_length m a n : (length (cstr m a n) <= n)%nat.
Proof. revert a. induction n; intros a; cbn; [lia|]. case_match; cbn; [lia|]. specialize (IHn (a + 1)). lia. Qed.

Lemma cstr_ext n m m' a a' :
  (∀ i, 0 <= i < Z.of_nat n → rd m' (a' + i) = rd m (a + i)) → cstr m' a' n = cstr m a n.
Proof.
  revert a a'. induction n as [|n IH]; intros a a' E; cbn [cstr]; [done|].
  assert (rd m' a' = rd m a) as ->.
  { specialize (E 0 ltac:(lia)). by rewrite !Z.add_0_r in E. }
  case_match; [done|]. f_equal. apply IH. intros i Hi.
  specialize (E (i + 1) ltac:(lia)).
  by replace (a' + 1 + i) with (a' + (i + 1)) by lia; replace (a + 1 + i) with (a + (i + 1)) by lia.
Qed.

(** Byte [i] of a string copied with padding. *)
Definition pad_byte (m : gmap Z Z) (t : Z) (n : nat) (i : Z) : Z :=
  if i <? Z.of_nat (length (cstr m t n)) then rd m (t + i) else 0.

Lemma strncpy_loop_spec n m s t b :
  bytes_ok m → s + Z.of_nat n <= t ∨ t + Z.of_nat n <= s →
  rd (strncpy_loop m s t n) b =
    if decide (s <= b < s + Z.of_nat n) then pad_byte m t n (b - s) else rd m b.
Proof.
  revert m s t. induction n as [|n IH]; intros m s t Hm Hd; cbn [strncpy_loop].
  { by rewrite decide_False by lia. }
  unfold pad_byte. cbn [cstr]. destruct (Z.eqb_spec (rd m t) 0) as [E|E]; cbn [negb length].
  - rewrite E. rewrite stosb_loop_spec, rd_wr.
    repeat case_decide; subst; btests; try lia; done.
  - rewrite IH; [|auto with kern|lia]. unfold pad_byte.
    assert (cstr (wr m s (rd m t)) (t + 1) n = cstr m (t + 1) n) as ->.
    { apply cstr_ext. intros i Hi. rewrite rd_wr. by rewrite decide_False by lia. }
    rewrite !rd_wr. replace (t + 1 + (b - (s + 1))) with (t + (b - s)) by lia.
    pose proof (cstr_length m (t + 1) n).
    destruct (Z.ltb_spec (b - (s + 1)) (Z.of_nat (length (cstr m (t + 1) n))));
    destruct (Z.ltb_spec (b - s) (Z.of_nat (S (length (cstr m (t + 1) n)))));
    repeat case_decide; subst; try lia; try done.
    replace (t + (b - b)) with t by lia. apply u8_small, Hm.
Qed.

Lemma pad_byte_cons m t n i :
  rd m t ≠ 0 → 0 <= i → pad_byte m t (S n) (i + 1) = pad_byte m (t + 1) n i.
Proof.
  intros E Hi. unfold pad_byte. cbn [cstr]. destruct (Z.eqb_spec (rd m t) 0); [done|].
  cbn [length]. replace (t + 1 + i) with (t + (i + 1)) by lia.
  btests; try lia; done.
Qed.

(** A padded copy reads back as the string. *)
Lemma cstr_padded n m m' s t :
  (∀ i, 0 <= i < Z.of_nat n → rd m' (s + i) = pad_byte m t n i) → cstr m' s n = cstr m t n.
Proof.
  revert s t. induction n as [|n IH]; intros s t E; cbn [cstr]; [done|].
  pose proof (E 0 ltac:(lia)) as E0. rewrite Z.add_0_r in E0. rewrite E0.
  unfold pad_byte at 1 2. cbn [cstr]. rewrite Z.add_0_r.
  destruct (Z.eqb_spec (rd m t) 0) as [Z0|Z0]; cbn [length]; [done|].
  btests; try lia. f_equal. apply IH. intros i Hi.
  rewrite <- pad_byte_cons by (done || lia). rewrite <- E by lia. f_equal. lia.
Qed.

Lemma safestrcpy_loop_spec n m s t :
  bytes_ok m → s + Z.of_nat n < t ∨ t + Z.of_nat n <= s →
  cstr (safestrcpy_loop m s t n) s (S n) = cstr m t n ∧
  same_outside m (safestrcpy_loop m s t n) s (Z.of_nat n + 1).
Proof.
  revert m s t. induction n as [|n IH]; intros m s t Hm Hd; cbn [safestrcpy_loop].
  { cbn [cstr]. rewrite rd_wr, decide_True by done. split; [done|].
    intros b Hb. by rewrite rd_wr, decide_False by lia. }
  destruct (Z.eqb_spec (rd m t) 0) as [E|E]; cbn [negb].
  - split; [|intros b Hb; by rewrite !rd_wr, !decide_False by lia].
    cbn [cstr]. rewrite E. by rewrite !rd_wr, decide_False, decide_True by lia.
  - destruct (IH (wr m s (rd m t)) (s + 1) (t + 1)) as [H1 H2]; [auto with kern|lia|]. split.
    + remember (S n) as n' eqn:En. cbn [cstr]. rewrite H2, rd_wr, decide_True by (done || lia).
      rewrite u8_small by apply Hm. destruct (Z.eqb_spec (rd m t) 0); [done|].
      rewrite H1. subst n'. cbn [cstr]. destruct (Z.eqb_spec (rd m t) 0); [done|].
      f_equal. apply cstr_ext. intros i Hi. by rewrite rd_wr, decide_False by lia.
    + intros b Hb. rewrite H2, rd_wr, decide_False by lia. done.
Qed.

(** ** Properties *)

(** [memmove] copies [n] bytes from [src] to [dst], whether or not the two
    ranges overlap, and changes nothing else. *)
Theorem memmove_correct (m : gmap Z Z) (dst src n : Z) :
  bytes_ok m → 0 <= n →
  (∀ i, 0 <= i < n → rd (memmove m dst src n) (dst + i) = rd m (src + i)) ∧
  same_outside m (memmove m dst src n) dst n.
Proof.
  intros Hm Hn. split.
  - intros i Hi. rewrite memmove_spec, decide_True by (done || lia). f_equal. lia.
  - intros b Hb. by rewrite memmove_spec, decide_False by (done || lia).
Qed.

(** [memset] sets [n] bytes to the low byte of [c], by words or by bytes,
    and changes nothing else. *)
Theorem memset_correct (m : gmap Z Z) (dst c n : Z) :
  0 <= n →
  (∀ i, 0 <= i < n → rd (memset m dst c n) (dst + i) = u8 c) ∧
  same_outside m (memset m dst c n) dst n.
Proof.
  intros Hn. split.
  - intros i Hi. by rewrite memset_spec, decide_True by lia.
  - intros b Hb. by rewrite memset_spec, decide_False by lia.
Qed.

(** [strncpy] to a buffer apart from the source leaves there a string that
    [strncmp] finds equal to the source, padded with NULs, and writes only
    the [n] bytes of the buffer. *)
Theorem strncpy_strncmp (m : gmap Z Z) (s t n : Z) :
  bytes_ok m → 0 <= n → s + n <= t ∨ t + n <= s →
  strncmp (strncpy m s t n) s t n = 0 ∧
  (∀ i, Z.of_nat (length (cstr m t (Z.to_nat n))) <= i < n → rd (strncpy m s t n) (s + i) = 0) ∧
  same_outside m (strncpy m s t n) s n.
Proof.
  intros Hm Hn Hd. unfold strncmp, strncpy.
  pose proof (strncpy_loop_spec (Z.to_nat n) m s t) as Hb. rewrite Z2Nat.id in Hb by lia.
  split_and!.
  - apply strncmp_loop_eq. rewrite (cstr_ext _ m _ t t).
    + apply cstr_padded. intros i Hi. rewrite Hb, decide_True by (done || lia). f_equal. lia.
    + intros i Hi. by rewrite Hb, decide_False by (done || lia).
  - intros i Hi. rewrite Hb, decide_True by (done || lia). unfold pad_byte. btests; lia.
  - intros b Hnb. by rewrite Hb, decide_False by (done || lia).
Qed.

(** [safestrcpy] leaves at [s] the first [n - 1] bytes of the string at
    [t], always NUL-terminated within [n] bytes, and writes only those. *)
Theorem safestrcpy_correct (m : gmap Z Z) (s t n : Z) :
  bytes_ok m → 0 < n → s + n <= t ∨ t + n <= s →
  cstr (safestrcpy m s t n) s (Z.to_nat n) = cstr m t (Z.to_nat (n - 1)) ∧
  same_outside m (safestrcpy m s t n) s n.
Proof.
  intros Hm Hn Hd. unfold safestrcpy. destruct (Z.leb_spec n 0); [lia|].
  destruct (safestrcpy_loop_spec (Z.to_nat (n - 1)) m s t) as [H1 H2]; [done|lia|].
  replace (S (Z.to_nat (n - 1))) with (Z.to_nat n) in H1 by lia.
  split; [done|]. intros b Hb. apply H2. lia.
Qed.

(** A buffer that holds ["abc"] at address 100. *)
Definition abc : gmap Z Z := wr (wr (wr ∅ 100 97) 101 98) 102 99.

Lemma abc_bytes_ok : bytes_ok abc.
Proof. unfold abc. repeat apply wr_bytes_ok. by intros a. Qed.

Lemma memmove_correct_witness :
  rd (memmove abc 101 100 3) 103 = 99 ∧ rd (memmove abc 101 100 3) 100 = 97.
Proof.
  destruct (memmove_correct abc 101 100 3 abc_bytes_ok) as [H1 H2]; [lia|]. split.
  - etransitivity; [exact (H1 2 ltac:(lia))|reflexivity].
  - etransitivity; [apply H2; lia|reflexivity].
Defined.

Lemma memset_correct_witness :
  rd (memset abc 100 257 8) 107 = 1 ∧ rd (memset abc 101 0 2) 100 = 97.
Proof.
  destruct (memset_correct abc 100 257 8) as [H1 _]; [lia|].
  destruct (memset_correct abc 101 0 2) as [_ H2]; [lia|].
  split; [exact (H1 7 ltac:(lia))|etransitivity; [apply H2; lia|reflexivity]].
Defined.

Lemma strncpy_strncmp_witness :
  strncmp (strncpy abc 200 100 6) 200 100 6 = 0 ∧ rd (strncpy abc 200 100 6) 204 = 0.
Proof.
  destruct (strncpy_strncmp abc 200 100 6 abc_bytes_ok) as (H1 & H2 & _); [lia..|].
  split; [exact H1|]. apply (H2 4). vm_compute. split; congruence.
Defined.

Lemma safestrcpy_correct_witness :
  cstr (safestrcpy abc 200 100 3) 200 3 = [97; 98].
Proof.
  destruct (safestrcpy_correct abc 200 100 3 abc_bytes_ok) as [H _]; [lia..|exact H].
Defined.
