(* ===== verification/Umalloc.v ===== *)
(** The user-level memory allocator of [umalloc.c]: free blocks in a circular
    list, in the order of their addresses, with the headers in the memory
    they describe.

    The memory of the process is a map of bytes and a program break; whether
    the kernel grants more memory is a parameter.  A header has the size of
    two words, the address of the next block and the size in headers. *)

From stdpp Require Import base gmap list sorting.
From Stdlib Require Import ZArith Lia.
From S2P Require Import Prelude CString.
#[local] Open Scope Z_scope.

(** ** The code *)

Record uheap := MkUheap { umem : gmap Z Z; freep : Z; brk : Z }.
#[global] Instance eta_uheap : Eta uheap := λ h, MkUheap (umem h) (freep h) (brk h).

(** [p->s.ptr] and [p->s.size]. *)
Definition ptr (p : Z) : M uheap Z := gets (λ h, rd32 (umem h) p).
Definition size (p : Z) : M uheap Z := gets (λ h, rd32 (umem h) (p + 4)).
Definition set_ptr (p v : Z) : M uheap unit := modify (λ h, h <|umem ::= λ m, wr32 m p v|>).
Definition set_size (p v : Z) : M uheap unit := modify (λ h, h <|umem ::= λ m, wr32 m (p + 4) v|>).

(** [p + n] for a [Header *p]. *)
Definition hdr_add (p n : Z) : Z := u32 (p + 8 * n).

(** The condition on which the search of [free] stops at [p]. *)
Definition free_here (m : gmap Z Z) (bp p : Z) : bool :=
  let nxt := rd32 m p in
  (p <? bp) && (bp <? nxt) || (nxt <=? p) && ((p <? bp) || (bp <? nxt)).

Fixpoint free_find (fuel : nat) (bp p : Z) : M uheap Z :=
  match fuel with
  | O => λ _, Loop
  | S fuel =>
      let! here := gets (λ h, free_here (umem h) bp p) in
      if here then ret p else
      let! nxt := ptr p in
      free_find fuel bp nxt
  end.

(** A bound on the length of the list: the headers do not overlap. *)
Definition list_bound (h : uheap) : nat := S (S (Z.to_nat (brk h / 8))).

Definition free (ap : Z) : M uheap unit :=
  let bp := u32 (ap - 8) in
  let! n := gets list_bound in
  let! f := gets freep in
  let! p := free_find n bp f in
  let! nxt := ptr p in
  (let! sz := size bp in
   if hdr_add bp sz =? nxt then
     (let! s := size nxt in set_size bp (u32 (sz + s)));;;
     (let! q := ptr nxt in set_ptr bp q)
   else set_ptr bp nxt);;;
  (let! sz := size p in
   if hdr_add p sz =? bp then
     (let! s := size bp in set_size p (u32 (sz + s)));;;
     (let! q := ptr bp in set_ptr p q)
   else set_ptr p bp);;;
  modify (λ h, h <|freep := p|>).

Section umalloc.
(** The address of the static header [base], and whether the kernel lets a
    process with a given break grow by a number of bytes. *)
Context (base : Z) (grows : Z → Z → bool).

(** [sbrk(n)], with the number as the [int] the kernel gets; -1 on failure. *)
Definition sbrk (n : Z) : M uheap Z := λ h,
  if grows (brk h) (i32 n) then Ret (brk h) (h <|brk := u32 (brk h + i32 n)|>)
  else Ret 0xffffffff h.

Definition morecore (nu : Z) : M uheap Z :=
  let nu := if nu <? 4096 then 4096 else nu in
  let! p := sbrk (u32 (nu * 8)) in
  if p =? 0xffffffff then ret 0 else
  set_size p nu;;;
  free (hdr_add p 1);;;
  gets freep.

Fixpoint malloc_loop (fuel : nat) (nunits prevp p : Z) : M uheap Z :=
  match fuel with
  | O => λ _, Loop
  | S fuel =>
      let! s := size p in
      if nunits <=? s then
        let! p :=
          (if s =? nunits then
             (let! q := ptr p in set_ptr prevp q);;; ret p
           else
             set_size p (u32 (s - nunits));;;
             (let! s := size p in
              let p := hdr_add p s in
              set_size p nunits;;;
              ret p)) in
        modify (λ h, h <|freep := prevp|>);;;
        ret (hdr_add p 1)
      else
        let! f := gets freep in
        if p =? f then
          let! q := morecore nunits in
          if q =? 0 then ret 0 else
          let! nxt := ptr q in
          malloc_loop fuel nunits q nxt
        else
          let! nxt := ptr p in
          malloc_loop fuel nunits p nxt
  end.

Definition malloc (nbytes : Z) : M uheap Z :=
  let nunits := u32 (u32 (nbytes + 8 - 1) / 8 + 1) in
  (let! f := gets freep in
   when f =? 0 do
     (set_ptr base base;;;
      modify (λ h, h <|freep := base|>);;;
      set_size base 0));;;
  let! n := gets list_bound in
  let! prevp := gets freep in
  let! p := ptr prevp in
  malloc_loop (2 * n + 2) nunits prevp p.
End umalloc.

(** ** Specification *)

(** The blocks [L], by address and size, are linked in memory; the last one
    points to [e]. *)
Definition first (L : list (Z * Z)) (e : Z) : Z := match L with [] => e | (a, _) :: _ => a end.
Fixpoint nodes (m : gmap Z Z) (L : list (Z * Z)) (e : Z) : Prop :=
  match L with
  | [] => True
  | (a, s) :: L => rd32 m a = first L e ∧ rd32 m (a + 4) = s ∧ nodes m L e
  end.

(** Blocks are in order, and those next to each other are merged. *)
Definition before (x y : Z * Z) : Prop := x.1 + 8 * x.2 < y.1 ∧ x.1 + 8 <= y.1.

(** Byte [x] is in a free block. *)
Definition free_at (L : list (Z * Z)) (x : Z) : Prop := ∃ b, b ∈ L ∧ b.1 <= x < b.1 + 8 * b.2.

(** The free list of [h]: the header [base], of size 0, and the blocks [B]. *)
Record free_list (base : Z) (h : uheap) (B : list (Z * Z)) : Prop := {
  fl_nodes : nodes (umem h) ((base, 0) :: B) base;
  fl_sorted : StronglySorted before ((base, 0) :: B);
  fl_blocks : Forall (λ b, 1 <= b.2 ∧ b.1 + 8 * b.2 <= brk h) B;
  fl_freep : freep h ∈ ((base, 0) :: B).*1;
  fl_range : 0 < base ∧ base + 8 <= brk h < 2 ^ 31
}.

(** ** Lemmas *)

Lemma first_app L1 L2 e : first (L1 ++ L2) e = first L1 (first L2 e).
Proof. by destruct L1 as [|[a s] L1]. Qed.

Lemma nodes_app m L1 L2 e : nodes m (L1 ++ L2) e ↔ nodes m L1 (first L2 e) ∧ nodes m L2 e.
Proof.
  induction L1 as [|[a s] L1 IH]; cbn [app nodes]; [tauto|]. rewrite IH, first_app. tauto.
Qed.

(** The links depend on the headers only. *)
Lemma nodes_frame m m' L e :
  nodes m L e →
  (∀ b, b ∈ L → rd32 m' b.1 = rd32 m b.1 ∧ rd32 m' (b.1 + 4) = rd32 m (b.1 + 4)) → nodes m' L e.
Proof.
  induction L as [|[a s] L IH]; [done|]. intros (H1 & H2 & H3) Hm.
  destruct (Hm (a, s) ltac:(by left)) as [E1 E2]. cbn in E1, E2. cbn [nodes]. rewrite E1, E2.
  split; [done|]. split; [done|]. apply IH; [done|]. intros b Hb. apply Hm. by right.
Qed.

(** A node and the one it points to. *)
Lemma nodes_elem m L e x :
  nodes m L e → x ∈ L.*1 →
  ∃ L1 s L2, L = L1 ++ (x, s) :: L2 ∧ rd32 m x = first L2 e ∧ rd32 m (x + 4) = s.
Proof.
  intros Hn Hx. apply list_elem_of_fmap in Hx as ([a s] & -> & Hx). apply list_elem_of_split in Hx as (L1 & L2 & ->).
  apply nodes_app in Hn as [_ (H1 & H2 & _)]. by exists L1, s, L2.
Qed.

Lemma free_at_app L1 L2 x : free_at (L1 ++ L2) x ↔ free_at L1 x ∨ free_at L2 x.
Proof. unfold free_at. setoid_rewrite elem_of_app. naive_solver. Qed.
Lemma free_at_cons b L x : free_at (b :: L) x ↔ b.1 <= x < b.1 + 8 * b.2 ∨ free_at L x.
Proof. unfold free_at. setoid_rewrite elem_of_cons. naive_solver. Qed.
Lemma free_at_nil x : free_at [] x ↔ False.
Proof. unfold free_at. setoid_rewrite elem_of_nil. naive_solver. Qed.

(** *** Order *)

Lemma before_gap x y : before x y → x.1 < y.1.
Proof. unfold before. lia. Qed.

(** The list is shorter than the fuel of the loops. *)
Lemma sorted_length B lo hi :
  StronglySorted before B → Forall (λ b, lo <= b.1 ∧ 1 <= b.2 ∧ b.1 + 8 * b.2 <= hi) B → lo <= hi →
  8 * Z.of_nat (length B) <= hi - lo.
Proof.
  revert lo. induction B as [|[a s] B IH]; intros lo Hs Hf Hlo; [cbn; lia|].
  apply StronglySorted_cons in Hs as [Hb Hs]. apply Forall_cons in Hf as [(H1 & H2 & H3) Hf]. cbn in *.
  specialize (IH (a + 8) Hs). cbn [length]. rewrite Nat2Z.inj_succ.
  assert (8 * Z.of_nat (length B) <= hi - (a + 8)); [|lia]. apply IH; [|lia].
  rewrite Forall_forall in *. intros b Hb'. destruct (Hb b Hb'), (Hf b Hb') as (? & ? & ?). cbn in *. lia.
Qed.

Section proofs.
Context (base : Z).
Notation free_list := (free_list base).
Notation base_block := (base, 0).

Lemma free_list_base h B b : free_list h B → b ∈ B → base + 8 <= b.1 ∧ 1 <= b.2 ∧ b.1 + 8 * b.2 <= brk h.
Proof.
  intros [_ Hs Hb _ _] Hin. apply StronglySorted_cons in Hs as [Hs _]. rewrite Forall_forall in Hs, Hb.
  destruct (Hs b Hin) as [_ ?]. destruct (Hb b Hin). done.
Qed.

Lemma free_list_bound h B : free_list h B → (length (base_block :: B) < list_bound h)%nat.
Proof.
  intros Hfl. pose proof Hfl as [_ Hs _ _ [H0 H1]]. apply StronglySorted_cons in Hs as [_ Hs].
  pose proof (sorted_length B (base + 8) (brk h) Hs) as Hl. unfold list_bound. cbn [length].
  assert (8 * Z.of_nat (length B) <= brk h - (base + 8)).
  { apply Hl; [|lia]. apply Forall_forall. intros b Hb. by apply (free_list_base h B b). }
  apply Nat2Z.inj_lt. rewrite !Nat2Z.inj_succ, Z2Nat.id by (apply Z.div_pos; lia). zdiv.
Qed.

(** *** The search of [free] *)

(** Going round from any block, the first one at which the search stops. *)
Lemma free_find_scan fuel h bp R e p :
  nodes (umem h) R e → p ∈ R.*1 → free_here (umem h) bp p = true →
  (∀ x, x ∈ R.*1 → x ≠ p → free_here (umem h) bp x = false) → (length R <= fuel)%nat →
  free_find fuel bp (first R e) h = Ret p h.
Proof.
  revert R. induction fuel as [|fuel IH]; intros R Hn Hp Hh Ho Hf.
  { destruct R; [by apply elem_of_nil in Hp|cbn in Hf; lia]. }
  destruct R as [|[a s] R]; [by apply elem_of_nil in Hp|]. destruct Hn as (H1 & H2 & Hn). cbn [first free_find].
  rewrite bind_gets. destruct (decide (a = p)) as [->|Hne]; [by rewrite Hh|].
  rewrite (Ho a) by (done || by left). unfold ptr. rewrite bind_gets, H1.
  apply IH; [done| |done| |cbn in Hf; lia].
  - cbn in Hp. apply elem_of_cons in Hp as [|]; [by subst|done].
  - intros x Hx. apply Ho. by right.
Qed.

(** The circular list, cut at any of its nodes. *)
Lemma nodes_rotate m L1 L2 :
  nodes m (L1 ++ L2) (first (L1 ++ L2) 0) → nodes m (L2 ++ L1) (first (L2 ++ L1) 0).
Proof.
  intros Hn. destruct L1 as [|[a s] L1]; [by rewrite app_nil_r in *|].
  destruct L2 as [|[b t] L2]; [by rewrite app_nil_r in *|].
  apply nodes_app in Hn as [H1 H2]. apply nodes_app. by split.
Qed.

(** Where [bp] belongs in the list. *)
Lemma split_at x B bp :
  StronglySorted before (x :: B) → x.1 < bp → (∀ b, b ∈ B → b.1 ≠ bp) →
  ∃ L1 p s L2, x :: B = L1 ++ (p, s) :: L2 ∧ p < bp ∧ ∀ b, b ∈ L2 → bp < b.1.
Proof.
  revert x. induction B as [|y B IH]; intros [a s] Hs Hx Hne.
  { exists [], a, s, []. split_and!; try done. intros b Hb. by apply elem_of_nil in Hb. }
  apply StronglySorted_cons in Hs as [_ Hs]. destruct (Z_lt_ge_dec y.1 bp) as [Hy|Hy].
  - destruct (IH y Hs Hy) as (L1 & p & t & L2 & E & Hp & HL); [intros b Hb; apply Hne; by right|].
    exists ((a, s) :: L1), p, t, L2. by rewrite E.
  - exists [], a, s, (y :: B). split_and!; [done|done|]. assert (y.1 ≠ bp) by (apply Hne; by left).
    apply StronglySorted_cons in Hs as [Hs _]. rewrite Forall_forall in Hs.
    intros b [->|Hb]%elem_of_cons; [lia|]. apply Hs, before_gap in Hb. lia.
Qed.

Lemma sorted_split L1 b L2 :
  StronglySorted before (L1 ++ b :: L2) →
  (∀ x, x ∈ L1 → before x b) ∧ (∀ x y, x ∈ L1 → y ∈ L2 → before x y) ∧
  (∀ y, y ∈ L2 → before b y) ∧ StronglySorted before L1 ∧ StronglySorted before L2.
Proof.
  intros (Hx & H1 & H2)%StronglySorted_app. apply StronglySorted_cons in H2 as [Hb H2].
  rewrite Forall_forall in Hb. split_and!; try done.
  - intros x Hin. apply Hx; [done|by left].
  - intros x y Hin Hy. apply Hx; [done|by right].
Qed.

(** The search stops before the first block above [bp], only there. *)
Lemma free_here_iff m L1 p s L2 bp x :
  nodes m (L1 ++ (p, s) :: L2) base → StronglySorted before (L1 ++ (p, s) :: L2) →
  first (L1 ++ (p, s) :: L2) 0 = base → base < bp → p < bp → (∀ b, b ∈ L2 → bp < b.1) →
  x ∈ (L1 ++ (p, s) :: L2).*1 → free_here m bp x = bool_decide (x = p).
Proof.
  intros Hn Hs Hb Hbp Hp HL2 Hx. destruct (sorted_split _ _ _ Hs) as (H1 & _ & H2 & _ & S2).
  rewrite fmap_app in Hx. apply elem_of_app in Hx as [Hx|Hx].
  - apply nodes_app in Hn as [Hn _]. destruct (nodes_elem _ _ _ _ Hn Hx) as (X & t & Y & -> & E & _).
    assert (before (x, t) (p, s)) as Hxp%before_gap by (apply H1; set_solver). cbn in Hxp.
    assert (x < rd32 m x <= p) as [? ?].
    { rewrite E. destruct Y as [|[y u] Y]; cbn; [lia|].
      assert (before (y, u) (p, s)) as Hyp%before_gap by (apply H1; set_solver). cbn in Hyp.
      rewrite <- app_assoc in Hs. destruct (sorted_split _ _ _ Hs) as (_ & _ & H3 & _).
      assert (before (x, t) (y, u)) as Hxy%before_gap by (apply H3; set_solver). cbn in Hxy. lia. }
    rewrite bool_decide_false by lia. unfold free_here. lia.
  - apply nodes_app in Hn as [_ (E & _ & Hn)]. cbn in Hx. apply elem_of_cons in Hx as [->|Hx].
    + rewrite bool_decide_true by done. unfold free_here. rewrite E. destruct L2 as [|[y u] L2]; cbn.
      * assert (base <= p); [|lia]. rewrite <- Hb. destruct L1 as [|[a t] L1]; cbn; [lia|].
        specialize (H1 (a, t) ltac:(by left)). apply before_gap in H1. cbn in H1. lia.
      * specialize (HL2 (y, u) ltac:(by left)). cbn in HL2. lia.
    + destruct (nodes_elem _ _ _ _ Hn Hx) as (X & t & Y & -> & E' & _).
      assert (bp < x) by (apply (HL2 (x, t)); set_solver).
      destruct (sorted_split _ _ _ S2) as (_ & _ & H3 & _).
      assert (x < rd32 m x ∨ rd32 m x = base).
      { rewrite E'. destruct Y as [|[y u] Y]; [by right|left]. by apply (before_gap (x, t) (y, u)), H3; left. }
      rewrite bool_decide_false by lia. unfold free_here. lia.
Qed.

(** *** Joining blocks *)

(** A block put in front of a list, merged with the first one if they touch. *)
Definition join (b : Z * Z) (R : list (Z * Z)) : list (Z * Z) :=
  match R with
  | r :: R' => if b.1 + 8 * b.2 =? r.1 then (b.1, b.2 + r.2) :: R' else b :: R
  | [] => [b]
  end.

Definition fits (b : Z * Z) (R : list (Z * Z)) : Prop :=
  ∀ r, r ∈ R → b.1 + 8 * b.2 <= r.1 ∧ b.1 + 8 <= r.1.

Lemma join_sorted b R : fits b R → StronglySorted before R → StronglySorted before (join b R).
Proof.
  intros Hf Hs. destruct R as [|r R]; cbn; [by repeat constructor|].
  pose proof Hs as [Hr HR]%StronglySorted_cons. rewrite Forall_forall in Hr.
  destruct (Z.eqb_spec (b.1 + 8 * b.2) r.1) as [E|E]; apply StronglySorted_cons; (split; [|done]).
  - apply Forall_forall. intros x Hx. specialize (Hr x Hx). destruct (Hf x ltac:(by right)). unfold before in *. cbn. lia.
  - destruct (Hf r ltac:(by left)) as [? ?]. apply Forall_forall. intros x [->|Hx]%elem_of_cons; [unfold before; lia|].
    specialize (Hr x Hx). destruct (Hf x ltac:(by right)). unfold before in *. lia.
Qed.

Lemma join_free b R x :
  0 <= b.2 → Forall (λ r, 0 <= r.2) R → free_at (join b R) x ↔ free_at (b :: R) x.
Proof.
  intros Hb HR. destruct R as [|r R]; cbn; [done|]. apply Forall_cons in HR as [Hr _].
  destruct (Z.eqb_spec (b.1 + 8 * b.2) r.1) as [E|E]; [|done]. rewrite !free_at_cons. cbn. intuition lia.
Qed.

Lemma join_Forall (P : Z * Z → Prop) b R :
  P b → Forall P R → (∀ r, r ∈ R → P r → b.1 + 8 * b.2 = r.1 → P (b.1, b.2 + r.2)) → Forall P (join b R).
Proof.
  intros Hb HR Hj. destruct R as [|r R]; cbn; [by repeat constructor|]. pose proof HR as [Hr ?]%Forall_cons.
  destruct (Z.eqb_spec (b.1 + 8 * b.2) r.1) as [E|E]; [|by constructor].
  constructor; [|done]. apply Hj; [by left|done|done].
Qed.

(** What [free] does with a block and its successor. *)
Definition link (a q : Z) : M uheap unit :=
  let! sz := size a in
  if hdr_add a sz =? q then
    (let! s := size q in set_size a (u32 (sz + s)));;;
    (let! x := ptr q in set_ptr a x)
  else set_ptr a q.

Lemma free_link ap :
  free ap =
    (let! n := gets list_bound in
     let! f := gets freep in
     let! p := free_find n (u32 (ap - 8)) f in
     let! nxt := ptr p in
     link (u32 (ap - 8)) nxt;;; link p (u32 (ap - 8));;; modify (λ h, h <|freep := p|>)).
Proof. reflexivity. Qed.

(** Two memories agree outside the header at [a]. *)
Definition but_header (a : Z) (m m' : gmap Z Z) : Prop := ∀ x, x < a ∨ a + 8 <= x → rd m' x = rd m x.

Lemma but_header_rd32 a m m' x : but_header a m m' → x + 4 <= a ∨ a + 8 <= x → rd32 m' x = rd32 m x.
Proof. intros H Hx. unfold rd32. by rewrite !H by lia. Qed.

Lemma but_header_nodes a m m' L e :
  but_header a m m' → (∀ b, b ∈ L → b.1 + 8 <= a ∨ a + 8 <= b.1) → nodes m L e → nodes m' L e.
Proof.
  intros Hm Ha Hn. apply (nodes_frame m); [done|]. intros b Hb.
  by split; apply (but_header_rd32 a); try done; destruct (Ha b Hb); lia.
Qed.

Lemma but_header_wr32 a m x v : a <= x <= a + 4 → but_header a m (wr32 m x v).
Proof. intros Hx y Hy. by rewrite wr32_spec, decide_False by lia. Qed.

Lemma but_header_trans a m1 m2 m3 : but_header a m1 m2 → but_header a m2 m3 → but_header a m1 m3.
Proof. intros H1 H2 x Hx. by rewrite H2, H1. Qed.

Definition in_memory (b : Z * Z) : Prop := 0 <= b.1 ∧ 0 <= b.2 ∧ b.1 + 8 * b.2 < 2 ^ 31.

Lemma link_ok h a n R e :
  nodes (umem h) R e → rd32 (umem h) (a + 4) = n → in_memory (a, n) → Forall in_memory R →
  fits (a, n) R → 0 <= e < 2 ^ 31 → (R = [] → a + 8 * n ≠ e) →
  ∃ m', link a (first R e) h = Ret tt (h <|umem := m'|>) ∧ nodes m' (join (a, n) R) e ∧
    but_header a (umem h) m'.
Proof.
  intros Hn Hsz (Ha & Hn0 & Hlim) HR Hf He Hne. cbn in Ha, Hn0, Hlim. unfold link, size, ptr, set_size, set_ptr, hdr_add.
  rewrite bind_gets, Hsz, (u32_small (a + 8 * n)) by lia.
  assert (0 <= first R e < 2 ^ 31) as Hq.
  { destruct R as [|[r s] R]; [done|]. apply Forall_cons in HR as [(? & ? & ?) _]. cbn in *. lia. }
  destruct (Z.eqb_spec (a + 8 * n) (first R e)) as [E|E].
  - destruct R as [|[r s] R]; [by destruct Hne|]. cbn in E. destruct Hn as (H1 & H2 & Hn). cbn [first].
    apply Forall_cons in HR as [(? & ? & ?) HR]. destruct (Hf (r, s) ltac:(by left)) as [? ?]. cbn in * |-.
    rewrite bind_assoc, bind_gets, bind_modify, bind_gets. rsimpl.
    rewrite rd32_wr32_ne by lia. unfold modify. rsimpl. rewrite H1, H2, (u32_small (n + s)) by lia.
    exists (wr32 (wr32 (umem h) (a + 4) (n + s)) a (first R e)). split; [reflexivity|].
    assert (but_header a (umem h) (wr32 (wr32 (umem h) (a + 4) (n + s)) a (first R e))) as Hb
      by (eapply but_header_trans; apply but_header_wr32; lia).
    split; [|done]. cbn [join fst snd]. rewrite (proj2 (Z.eqb_eq _ _) E). cbn. split_and!.
    + rewrite rd32_wr32_same. apply u32_small. destruct R as [|[r' s'] R]; [cbn; lia|].
      apply Forall_cons in HR as [(? & ? & ?) _]. cbn in *. lia.
    + rewrite rd32_wr32_ne, rd32_wr32_same by lia. apply u32_small. lia.
    + eapply but_header_nodes; [done| |done]. intros b Hb'. destruct (Hf b ltac:(by right)). cbn in *. lia.
  - unfold modify. eexists. split; [reflexivity|].
    assert (but_header a (umem h) (wr32 (umem h) a (first R e))) as Hb by (apply but_header_wr32; lia).
    split; [|done]. replace (join (a, n) R) with ((a, n) :: R).
    2: { destruct R as [|[r s] R]; [done|]. cbn in *. by rewrite (proj2 (Z.eqb_neq _ _) E). }
    cbn. split_and!.
    + rewrite rd32_wr32_same. apply u32_small. lia.
    + by rewrite rd32_wr32_ne by lia.
    + eapply but_header_nodes; [done| |done]. intros b Hb'. destruct (Hf b Hb'). cbn in *. lia.
Qed.

Lemma join_in b R : ∃ s R', join b R = (b.1, s) :: R'.
Proof. destruct b as [a n], R as [|r R]; cbn; [by do 2 eexists|]. case_match; by do 2 eexists. Qed.

Lemma join_length b R : (length (join b R) <= S (length R))%nat.
Proof. destruct R as [|r R]; cbn; [lia|]. case_match; cbn; lia. Qed.

Lemma join_big b R c :
  0 <= b.2 → Forall (λ r, 0 <= r.2) R → c ∈ b :: R → ∃ d, d ∈ join b R ∧ c.2 <= d.2.
Proof.
  intros Hb HR Hc. destruct R as [|r R]; cbn; [by exists c|]. apply Forall_cons in HR as [Hr _].
  case_match; [|by exists c]. rewrite !elem_of_cons in Hc. destruct Hc as [->|[->|Hc]].
  - exists (b.1, b.2 + r.2). split; [by left|cbn; lia].
  - exists (b.1, b.2 + r.2). split; [by left|cbn; lia].
  - exists c. split; [by right|done].
Qed.

(** Every block of a joined list starts at one of its blocks. *)
Lemma join_starts b R x : x ∈ join b R → x.1 = b.1 ∨ ∃ r, r ∈ R ∧ r.1 = x.1.
Proof.
  destruct R as [|r R]; cbn; [intros ->%list_elem_of_singleton; by left|].
  case_match; rewrite elem_of_cons; (intros [->|Hx]; [by left|]); right; exists x; set_solver.
Qed.

Section insertion.
Context (B L1 L2 : list (Z * Z)) (p s bp n hi : Z).
Context (HL : base_block :: B = L1 ++ (p, s) :: L2).
Context (Hsorted : StronglySorted before (base_block :: B)).
Context (Hblocks : Forall (λ b, 1 <= b.2 ∧ b.1 + 8 * b.2 <= hi) B).
Context (Hp : p < bp) (HL2 : ∀ b, b ∈ L2 → bp < b.1).
Context (Hbase : base + 8 <= bp) (Hn : 1 <= n) (Hhi : bp + 8 * n <= hi).
Context (Hused : ∀ x, bp <= x < bp + 8 * n → ¬ free_at B x).

Lemma insert_at : L1 = [] ∧ p = base ∧ s = 0 ∧ L2 = B ∨ (∃ L1', L1 = base_block :: L1' ∧ B = L1' ++ (p, s) :: L2).
Proof using All.
  destruct L1 as [|x L1']; cbn in HL; injection HL; intros; subst; [by left|right]. by exists L1'.
Qed.

Lemma insert_block r : r ∈ B → 1 <= r.2 ∧ r.1 + 8 * r.2 <= hi.
Proof using All. intros Hr. by apply (proj1 (Forall_forall _ _) Hblocks). Qed.

Lemma insert_L2 r : r ∈ L2 → r ∈ B.
Proof using All. intros Hr. destruct insert_at as [(_ & _ & _ & <-)|(L & _ & ->)]; set_solver. Qed.

Lemma insert_p : p + 8 * s <= bp ∧ p + 8 <= bp ∧ 0 <= s ∧ base <= p ∧ p + 8 * s <= hi.
Proof using All.
  destruct insert_at as [(_ & -> & -> & _)|(L & _ & E)]; [lia|].
  destruct (insert_block (p, s)) as [? ?]; [rewrite E; set_solver|]. cbn in *.
  pose proof Hsorted as [Hs _]%StronglySorted_cons. rewrite Forall_forall in Hs.
  destruct (Hs (p, s)); [rewrite E; set_solver|]. cbn in *.
  destruct (Z_lt_ge_dec bp (p + 8 * s)); [|lia]. destruct (Hused bp); [lia|].
  exists (p, s). split; [rewrite E; set_solver|cbn; lia].
Qed.

Lemma insert_fits : fits (bp, n) L2.
Proof using All.
  intros r Hr. pose proof (HL2 r Hr). cbn. destruct (Z_lt_ge_dec r.1 (bp + 8 * n)); [|lia].
  destruct (insert_block r (insert_L2 r Hr)).
  destruct (Hused r.1); [lia|]. exists r. split; [by apply insert_L2|lia].
Qed.

Lemma insert_fits' : fits (p, s) (join (bp, n) L2).
Proof using All.
  destruct insert_p as (? & ? & _). intros x [->|(r & Hr & <-)]%join_starts; cbn; [lia|]. pose proof (HL2 r Hr). lia.
Qed.

Lemma insert_sizes : Forall (λ r, 0 <= r.2) L2 ∧ Forall (λ r, 0 <= r.2) (join (bp, n) L2).
Proof using All.
  assert (Forall (λ r, 0 <= r.2) L2) as H.
  { apply Forall_forall. intros r Hr%insert_L2%insert_block. lia. }
  split; [done|]. apply join_Forall; cbn; [lia|done|]. intros; lia.
Qed.

Notation result := (L1 ++ join (p, s) (join (bp, n) L2)).

Lemma insert_sorted : StronglySorted before result.
Proof using All.
  pose proof Hsorted as Hs. rewrite HL in Hs. destruct (sorted_split _ _ _ Hs) as (H1 & H2 & _ & S1 & S2).
  apply StronglySorted_app. split_and!; [|done|].
  - intros x y Hx Hy. specialize (H1 x Hx). unfold before in *. cbn in H1.
    apply join_starts in Hy as [E|(r & Hr & E)]; rewrite <- ?E; cbn in *; [by rewrite E|].
    apply join_starts in Hr as [E'|(r' & Hr' & E')]; cbn in *; [lia|]. pose proof (HL2 r' Hr'). lia.
  - apply join_sorted; [by apply insert_fits'|]. apply join_sorted; [by apply insert_fits|done].
Qed.

Lemma insert_free x : free_at result x ↔ free_at B x ∨ bp <= x < bp + 8 * n.
Proof using All.
  destruct insert_p as (_ & _ & ? & _), insert_sizes as [? ?].
  assert (free_at B x ↔ free_at (base_block :: B) x) as -> by (rewrite free_at_cons; cbn; intuition lia).
  rewrite HL, !free_at_app, join_free, !free_at_cons, join_free, free_at_cons by (cbn; done || lia). cbn. tauto.
Qed.

Lemma insert_blocks : ∃ B', result = base_block :: B' ∧ Forall (λ b, 1 <= b.2 ∧ b.1 + 8 * b.2 <= hi) B'.
Proof using All.
  assert (Forall (λ b, 1 <= b.2 ∧ b.1 + 8 * b.2 <= hi) (join (bp, n) L2)) as HR.
  { apply join_Forall; cbn; [lia| |].
    - apply Forall_forall. intros r Hr%insert_L2. by apply insert_block.
    - intros r Hr [? ?] ?. lia. }
  destruct insert_at as [(-> & E1 & E2 & _)|(L & -> & E)].
  - exists (join (bp, n) L2). split; [|done]. rewrite E1, E2. destruct (join_in (bp, n) L2) as (t & R & ->). cbn.
    case_match; [lia|done].
  - exists (L ++ join (p, s) (join (bp, n) L2)). split; [done|]. pose proof Hblocks as Hb. rewrite E in Hb.
    apply Forall_app in Hb as [? [? ?]%Forall_cons]. apply Forall_app. split; [done|].
    apply join_Forall; [done|done|]. intros r _ [? ?] ?. cbn in *. lia.
Qed.

Lemma insert_big : ∃ b, b ∈ result ∧ n <= b.2.
Proof using All.
  destruct insert_p as (_ & _ & ? & _), insert_sizes as [? ?].
  destruct (join_big (bp, n) L2 (bp, n)) as (d & Hd & ?); [cbn; lia|done|by left|].
  destruct (join_big (p, s) (join (bp, n) L2) d) as (c & Hc & ?); [cbn; lia|done|by right|].
  exists c. cbn in *. split; [set_solver|lia].
Qed.

(** The header of the predecessor is [base] or in a free block. *)
Lemma insert_header x : p <= x < p + 8 → base <= x < base + 8 ∨ free_at B x.
Proof using All.
  intros Hx. destruct insert_at as [(_ & E & _)|(L & _ & E)]; [left; lia|right].
  assert ((p, s) ∈ B) as Hin by (rewrite E; set_solver). pose proof (insert_block _ Hin) as [? _].
  exists (p, s). split; [done|cbn in *; lia].
Qed.

Lemma insertion :
  (p + 8 * s <= bp ∧ p + 8 <= bp ∧ 0 <= s ∧ base <= p ∧ p + 8 * s <= hi ∧
   ∀ x, p <= x < p + 8 → base <= x < base + 8 ∨ free_at B x) ∧
  fits (bp, n) L2 ∧ fits (p, s) (join (bp, n) L2) ∧
  ∃ B', result = base_block :: B' ∧ StronglySorted before (base_block :: B') ∧
    Forall (λ b, 1 <= b.2 ∧ b.1 + 8 * b.2 <= hi) B' ∧
    (∀ x, free_at B' x ↔ free_at B x ∨ bp <= x < bp + 8 * n) ∧
    (length B' <= S (length B))%nat ∧ ∃ b, b ∈ B' ∧ n <= b.2.
Proof using All.
  split; [by destruct insert_p as (? & ? & ? & ? & ?); split_and!; try apply insert_header|]. split; [apply insert_fits|]. split; [apply insert_fits'|].
  destruct insert_blocks as (B' & E & Hb). exists B'. rewrite <- E. split_and!; [done|apply insert_sorted|done| | |].
  - intros x. rewrite <- insert_free, E, free_at_cons. cbn. intuition lia.
  - pose proof (f_equal length E) as El. pose proof (f_equal length HL) as El'. rewrite length_app in El, El'.
    pose proof (join_length (bp, n) L2). pose proof (join_length (p, s) (join (bp, n) L2)). cbn in *. lia.
  - destruct insert_big as (b & Hin & Hb'). rewrite E in Hin. apply elem_of_cons in Hin as [->|Hin]; [cbn in *; lia|].
    by exists b.
Qed.
End insertion.

(** *** [free] *)

(** The search finds the place of [bp]. *)
Lemma free_find_ok h B L1 p s L2 bp :
  free_list h B → base_block :: B = L1 ++ (p, s) :: L2 → base < bp → p < bp → (∀ b, b ∈ L2 → bp < b.1) →
  free_find (list_bound h) bp (freep h) h = Ret p h.
Proof.
  intros Hfl HL Hb Hp HL2. pose proof (free_list_bound _ _ Hfl) as Hlen. destruct Hfl as [Hn Hs _ Hf _].
  destruct (nodes_elem _ _ _ _ Hn Hf) as (X & sf & Y & E & _).
  assert (nodes (umem h) (((freep h, sf) :: Y) ++ X) (first (((freep h, sf) :: Y) ++ X) 0)) as Hr.
  { apply nodes_rotate. rewrite <- E. done. }
  assert (∀ x, x ∈ (((freep h, sf) :: Y) ++ X).*1 ↔ x ∈ (base_block :: B).*1) as Hin.
  { intros x. rewrite E, !fmap_app, !elem_of_app. tauto. }
  assert (∀ x, x ∈ (base_block :: B).*1 → free_here (umem h) bp x = bool_decide (x = p)) as Hh.
  { rewrite HL in *. intros x Hx. eapply free_here_iff; try done. by rewrite <- HL. }
  apply (free_find_scan _ h bp _ _ p Hr).
  - apply Hin. rewrite HL. set_solver.
  - rewrite Hh; [by apply bool_decide_eq_true|]. rewrite HL. set_solver.
  - intros x Hx Hne. rewrite Hh by (by apply Hin). by apply bool_decide_eq_false.
  - rewrite E in Hlen. rewrite !length_app in *. cbn in *. lia.
Qed.

(** A block at [bp], of [n] headers, that is in the heap and not free. *)
Record used (h : uheap) (B : list (Z * Z)) (bp n : Z) : Prop := {
  used_base : base + 8 <= bp;
  used_size : 1 <= n ∧ bp + 8 * n <= brk h;
  used_header : rd32 (umem h) (bp + 4) = n;
  used_taken : ∀ x, bp <= x < bp + 8 * n → ¬ free_at B x
}.

(** The memory outside the free blocks and the header [base] is unchanged. *)
Definition kept (B : list (Z * Z)) (m m' : gmap Z Z) : Prop :=
  ∀ x, ¬ (base <= x < base + 8) → ¬ free_at B x → rd m' x = rd m x.

(** The block is linked to its successor, and its predecessor to it. *)
Lemma links_ok h L1 p s L2 bp n :
  nodes (umem h) (L1 ++ (p, s) :: L2) base → rd32 (umem h) (bp + 4) = n → 0 <= base < bp →
  fits (bp, n) L2 → fits (p, s) (join (bp, n) L2) → (∀ x, x ∈ L1 → x.1 + 8 <= p) → p + 8 <= bp →
  Forall in_memory ((p, s) :: (bp, n) :: L2) →
  ∃ m', (link bp (first L2 base);;; link p bp) h = Ret tt (h <|umem := m'|>) ∧
    nodes m' (L1 ++ join (p, s) (join (bp, n) L2)) base ∧
    ∀ x, ¬ (p <= x < p + 8) → ¬ (bp <= x < bp + 8) → rd m' x = rd (umem h) x.
Proof.
  intros Hn Hsz Hb F1 F2 HL1 Hp [Mp [Mb ML]%Forall_cons]%Forall_cons.
  apply nodes_app in Hn as [Hn1 (Hp1 & Hp2 & Hn2)].
  assert (0 <= base < 2 ^ 31) by (destruct Mb as (? & ? & ?); cbn in *; lia).
  destruct (link_ok h bp n L2 base) as (m1 & E1 & N1 & K1); try done; [destruct Mb as (_ & ? & _); cbn in *; lia|].
  rewrite (bind_Ret _ _ _ _ _ E1). destruct (join_in (bp, n) L2) as (t & R & EJ).
  destruct (link_ok (h <|umem := m1|>) p s (join (bp, n) L2) base) as (m2 & E2 & N2 & K2); rsimpl; try done.
  - by rewrite (but_header_rd32 bp (umem h) m1) by (done || lia).
  - apply join_Forall; [done|done|]. intros r _ (? & ? & ?) ?. destruct Mb as (? & ? & ?).
    unfold in_memory in *. cbn in *. lia.
  - by rewrite EJ.
  - rewrite EJ in E2 at 1. exists m2. split_and!; [exact E2| |].
    + apply nodes_app. split; [|done]. destruct (join_in (p, s) (join (bp, n) L2)) as (t' & R' & ->).
      cbn. eapply but_header_nodes; [exact K2|intros b Hb'; specialize (HL1 b Hb'); lia|].
      eapply but_header_nodes; [exact K1|intros b Hb'; specialize (HL1 b Hb'); lia|done].
    + intros x Hx1 Hx2. rewrite K2, K1 by lia. done.
Qed.

Lemma free_ok h B bp n :
  free_list h B → used h B bp n →
  ∃ h' B', free (bp + 8) h = Ret tt h' ∧ free_list h' B' ∧ brk h' = brk h ∧
    (∀ x, free_at B' x ↔ free_at B x ∨ bp <= x < bp + 8 * n) ∧
    kept B' (umem h) (umem h') ∧ (length B' <= S (length B))%nat ∧ ∃ b, b ∈ B' ∧ n <= b.2.
Proof.
  intros Hfl [Hbase [Hn Hhi] Hhd Hused]. pose proof Hfl as [Hnodes Hs Hbl Hf [Hb0 Hbrk]].
  destruct (split_at base_block B bp) as (L1 & p & s & L2 & HL & Hp & HL2); [done|cbn; lia| |].
  { intros b Hb E. destruct (free_list_base _ _ _ Hfl Hb) as (? & ? & ?).
    destruct (Hused bp); [lia|]. exists b. split; [done|lia]. }
  destruct (insertion B L1 L2 p s bp n (brk h)) as (P & F1 & F2 & B' & HB' & HS & HBl & HF & Hlen & Hbig); try done.
  destruct P as (P1 & P2 & P3 & P4 & P5 & P6). rewrite HL in Hnodes.
  destruct (links_ok h L1 p s L2 bp n) as (m' & E & N & K); try done; [lia| | |].
  { intros x Hx. rewrite HL in Hs. destruct (sorted_split _ _ _ Hs) as (H1 & _). by apply H1. }
  { repeat constructor; cbn; try lia. apply Forall_forall. intros r Hr.
    assert (r ∈ B) as Hr' by by apply (insert_L2 B L1 L2 p s bp n (brk h)). destruct (free_list_base _ _ _ Hfl Hr') as (? & ? & ?).
    unfold in_memory. lia. }
  exists (h <|umem := m'|> <|freep := p|>), B'. split_and!.
  - rewrite free_link, !bind_gets. replace (bp + 8 - 8) with bp by lia. rewrite (u32_small bp) by lia.
    rewrite (bind_Ret _ _ _ p h) by (eapply free_find_ok; try done; lia). unfold ptr. rewrite bind_gets.
    apply nodes_app in Hnodes as [_ (-> & _)]. rewrite <- bind_assoc. by rewrite (bind_Ret _ _ _ _ _ E).
  - split; rsimpl; [by rewrite <- HB'|done|done| |done].
    rewrite <- HB', fmap_app. destruct (join_in (p, s) (join (bp, n) L2)) as (t & R & ->). set_solver.
  - done.
  - done.
  - intros x Hx1 Hx2. rsimpl. rewrite HF in Hx2. apply K; intros Hx; [destruct (P6 x Hx); tauto|].
    apply Hx2. right. lia.
  - done.
  - done.
Qed.

(** *** [morecore] *)

Context (grows : Z → Z → bool).
(** The kernel keeps the memory of a process below KERNBASE. *)
Context (grows_limit : ∀ b n, 0 <= n → grows b n = true → b + n < 2 ^ 31).
Notation morecore := (morecore grows).
Notation malloc_loop := (malloc_loop grows).

(** The bytes asked from the kernel for [nu] headers. *)
Definition need (nu : Z) : Z := 8 * Z.max 4096 nu.

Lemma morecore_refused h nu :
  1 <= nu → 8 * nu < 2 ^ 31 → grows (brk h) (need nu) = false → morecore nu h = Ret 0 h.
Proof using All.
  intros H1 H2 Hg. unfold Umalloc.morecore, sbrk, bind.
  assert (∀ k, 0 <= k < 2 ^ 31 → i32 (u32 k) = k) as Hk.
  { intros k Hk. rewrite u32_small by lia. apply wraps_small; lia. }
  replace (i32 (u32 ((if nu <? 4096 then 4096 else nu) * 8))) with (need nu); [by rewrite Hg|].
  unfold need. destruct (Z.ltb_spec nu 4096); rewrite Hk; lia.
Qed.

(** The memory the kernel adds is one more block in use. *)
Lemma grown_used h B n :
  free_list h B → 1 <= n → brk h + 8 * n < 2 ^ 31 →
  let h' := h <|brk := brk h + 8 * n|> <|umem := wr32 (umem h) (brk h + 4) n|> in
  free_list h' B ∧ used h' B (brk h) n.
Proof using base.
  intros Hfl Hn Hlim. pose proof Hfl as [Hnodes Hs Hbl Hf [Hb0 Hbrk]].
  assert (∀ b, b ∈ base_block :: B → b.1 + 8 <= brk h ∧ b.1 + 8 * b.2 <= brk h) as Hin.
  { intros b [->|Hb]%elem_of_cons; [cbn; lia|]. destruct (free_list_base _ _ _ Hfl Hb) as (? & ? & ?). lia. }
  split.
  - split; rsimpl; [|done| |done|lia].
    + eapply (but_header_nodes (brk h)); [apply but_header_wr32; lia| |done]. intros b Hb. destruct (Hin b Hb). lia.
    + eapply Forall_impl; [done|]. cbn. lia.
  - split; rsimpl; [lia|lia| |].
    + rewrite rd32_wr32_same. apply u32_small. lia.
    + intros x Hx (b & Hb & ?). destruct (Hin b ltac:(by right)). lia.
Qed.

Lemma morecore_grants h B nu :
  free_list h B → 1 <= nu → 8 * nu < 2 ^ 31 → grows (brk h) (need nu) = true →
  ∃ h' B', morecore nu h = Ret (freep h') h' ∧ free_list h' B' ∧ brk h' = brk h + need nu ∧
    (∀ x, free_at B' x ↔ free_at B x ∨ brk h <= x < brk h') ∧
    kept B' (umem h) (umem h') ∧ (length B' <= S (length B))%nat ∧ ∃ b, b ∈ B' ∧ nu <= b.2.
Proof using All.
  intros Hfl H1 H2 Hg. pose proof (grows_limit (brk h) (need nu) ltac:(unfold need; lia) Hg) as Hlim.
  pose proof (fl_range _ _ _ Hfl) as [Hb Hb']. unfold need in *. remember (Z.max 4096 nu) as n eqn:En.
  destruct (grown_used h B n Hfl ltac:(lia) Hlim) as [Hfl' Hu].
  destruct (free_ok _ _ _ _ Hfl' Hu) as (h' & B' & E & F & Ebrk & HF & K & Hlen & b & Hin & Hb1). rsimpl.
  exists h', B'. rewrite Ebrk. split_and!; [|done|done|done| |done|].
  - unfold Umalloc.morecore. replace (if nu <? 4096 then 4096 else nu) with n by (destruct (Z.ltb_spec nu 4096); lia).
    rewrite (bind_Ret _ _ _ (brk h) (h <|brk := brk h + 8 * n|>)).
    2: { unfold sbrk. rewrite (Z.mul_comm n 8), (u32_small (8 * n)) by lia.
      assert (i32 (8 * n) = 8 * n) as -> by (apply wraps_small; lia).
      by rewrite Hg, (u32_small (brk h + 8 * n)) by lia. }
    replace (brk h =? 0xffffffff) with false by lia.
    unfold set_size, hdr_add. rewrite bind_modify, (u32_small (brk h + 8 * 1)) by lia.
    by rewrite (bind_Ret _ _ _ _ _ E).
  - intros x Hx1 Hx2. rewrite (K x Hx1 Hx2). rsimpl. rewrite wr32_spec, decide_False; [done|].
    intros Hx. apply Hx2, HF. right. lia.
  - exists b. split; [done|lia].
Qed.

(** *** [malloc] *)

(** The loop passes over the blocks that are too small. *)
Lemma malloc_skip fuel h nunits R prevp p :
  nodes (umem h) R p → Forall (λ b, b.2 < nunits) R → freep h ∉ R.*1 → rd32 (umem h) prevp = first R p →
  ∃ prevp', prevp' ∈ prevp :: R.*1 ∧ rd32 (umem h) prevp' = p ∧
    malloc_loop (length R + fuel) nunits prevp (first R p) h = malloc_loop fuel nunits prevp' p h.
Proof using All.
  revert prevp. induction R as [|[a s] R IH]; intros prevp Hn Hs Hf Hp.
  { exists prevp. split; [by left|done]. }
  destruct Hn as (H1 & H2 & Hn). apply Forall_cons in Hs as [Hs HR]. cbn in Hs, Hf.
  apply not_elem_of_cons in Hf as [Hf1 Hf2].
  destruct (IH a) as (q & Hq & E1 & E2); try done.
  exists q. split; [by right|]. split; [done|]. rewrite <- E2. cbn [length Nat.add Umalloc.malloc_loop first].
  unfold size, ptr. rewrite bind_gets, H2. replace (nunits <=? s) with false by lia.
  rewrite bind_gets. replace (a =? freep h) with false by lia. by rewrite bind_gets, H1.
Qed.

(** What [malloc] has done when it returns the block at [a], of [n] headers,
    out of the free blocks [B]. *)
Record taken (h : uheap) (B : list (Z * Z)) (a n : Z) (h' : uheap) (B' : list (Z * Z)) : Prop := {
  tk_list : free_list h' B';
  tk_brk : brk h' = brk h;
  tk_used : used h' B' a n;
  tk_free : ∀ x, free_at B x ↔ free_at B' x ∨ a <= x < a + 8 * n;
  tk_kept : kept B (umem h) (umem h')
}.

(** The predecessor of a block in the list. *)
Lemma predecessor h B p s prevp :
  free_list h B → (p, s) ∈ B → prevp ∈ (base_block :: B).*1 → rd32 (umem h) prevp = p →
  ∃ X sp Y, base_block :: B = X ++ (prevp, sp) :: (p, s) :: Y.
Proof.
  intros Hfl Hin Hp E. destruct (nodes_elem _ _ _ _ (fl_nodes _ _ _ Hfl) Hp) as (X & sp & Y & HL & E1 & _).
  rewrite E in E1. destruct (free_list_base _ _ _ Hfl Hin) as (Hb & _). cbn in Hb.
  destruct Y as [|[y t] Y]; cbn in E1; [lia|]. subst y. exists X, sp, Y. rewrite HL. do 3 f_equal.
  assert ((p, t) ∈ base_block :: B) as Ht by (rewrite HL; set_solver).
  pose proof (fl_nodes _ _ _ Hfl) as Hn.
  assert (∀ u, (p, u) ∈ base_block :: B → rd32 (umem h) (p + 4) = u) as Hu.
  { intros u Hu. apply list_elem_of_split in Hu as (l1 & l2 & El). rewrite El in Hn.
    by apply nodes_app in Hn as [_ (_ & ? & _)]. }
  by rewrite <- (Hu t Ht), (Hu s ltac:(by right)).
Qed.

(** What is left of the block [(p, s)] when its last [n] headers are taken. *)
Definition cut (p s n : Z) : list (Z * Z) := if s =? n then [] else [(p, s - n)].

Section cut.
Context (hi : Z) (C1 C2 : list (Z * Z)) (p s n : Z).
Context (Hsorted : StronglySorted before (base_block :: C1 ++ (p, s) :: C2)).
Context (Hblocks : Forall (λ b, 1 <= b.2 ∧ b.1 + 8 * b.2 <= hi) (C1 ++ (p, s) :: C2)).
Context (Hn : 1 <= n <= s).

Lemma cut_elem b : b ∈ cut p s n ↔ s ≠ n ∧ b = (p, s - n).
Proof using All.
  unfold cut. destruct (Z.eqb_spec s n); rewrite ?elem_of_nil, ?list_elem_of_singleton; naive_solver.
Qed.

Lemma cut_sorted : StronglySorted before (base_block :: C1 ++ cut p s n ++ C2).
Proof using All.
  pose proof Hsorted as Hs. rewrite app_comm_cons in Hs |- *.
  destruct (sorted_split _ _ _ Hs) as (H1 & H2 & H3 & S1 & S2).
  apply StronglySorted_app. split_and!; [|done|].
  - intros x y Hx [[_ ->]%cut_elem|Hy]%elem_of_app; [|by apply H2]. by apply H1.
  - unfold cut. destruct (Z.eqb_spec s n); [done|]. apply StronglySorted_cons. split; [|done].
    apply Forall_forall. intros x Hx. specialize (H3 x Hx). unfold before in *. cbn in *. lia.
Qed.

Lemma cut_blocks : Forall (λ b, 1 <= b.2 ∧ b.1 + 8 * b.2 <= hi) (C1 ++ cut p s n ++ C2).
Proof using All.
  pose proof Hblocks as [? [? ?]%Forall_cons]%Forall_app. rewrite !Forall_app. split_and!; try done.
  apply Forall_forall. intros b [? ->]%cut_elem. cbn in *. lia.
Qed.

Notation taken_at x := (p + 8 * (s - n) <= x < p + 8 * (s - n) + 8 * n).

Lemma cut_free x : free_at (C1 ++ (p, s) :: C2) x ↔ free_at (C1 ++ cut p s n ++ C2) x ∨ taken_at x.
Proof using All.
  rewrite !free_at_app, free_at_cons. cbn. unfold cut. destruct (Z.eqb_spec s n);
    rewrite ?free_at_cons, !free_at_nil; cbn; intuition lia.
Qed.

Lemma cut_taken x : taken_at x → ¬ free_at (C1 ++ cut p s n ++ C2) x.
Proof using All.
  intros Hx (b & Hb & Hbx). pose proof Hsorted as Hs. rewrite app_comm_cons in Hs.
  destruct (sorted_split _ _ _ Hs) as (H1 & _ & H3 & _). rewrite !elem_of_app in Hb.
  destruct Hb as [Hb|[[? ->]%cut_elem|Hb]]; [|cbn in *; lia|].
  - specialize (H1 b ltac:(by right)). unfold before in H1. cbn in *. lia.
  - specialize (H3 b Hb). unfold before in H3. cbn in *. lia.
Qed.
End cut.

(** A block as large as asked for leaves the list. *)
Lemma take_exact h X prevp sp p s Y :
  nodes (umem h) (X ++ (prevp, sp) :: (p, s) :: Y) base →
  StronglySorted before (X ++ (prevp, sp) :: (p, s) :: Y) → 0 <= first Y base < 2 ^ 32 →
  nodes (wr32 (umem h) prevp (first Y base)) (X ++ (prevp, sp) :: Y) base.
Proof.
  intros Hn Hs Hr. destruct (sorted_split _ _ _ Hs) as (H1 & _ & H3 & _).
  apply nodes_app in Hn as [Hn (_ & E2 & _ & _ & HY)].
  assert (but_header prevp (umem h) (wr32 (umem h) prevp (first Y base))) as K by (apply but_header_wr32; lia).
  apply nodes_app. split; [|cbn; split_and!].
  - eapply but_header_nodes; [done| |done]. intros b Hb. destruct (H1 b Hb). cbn in *. lia.
  - rewrite rd32_wr32_same. by apply u32_small.
  - by rewrite rd32_wr32_ne by lia.
  - eapply but_header_nodes; [done| |done]. intros b Hb. destruct (H3 b ltac:(by right)). cbn in *. lia.
Qed.

(** The end of a larger one is taken. *)
Lemma take_tail h X p s n Y :
  nodes (umem h) (X ++ (p, s) :: Y) base → StronglySorted before (X ++ (p, s) :: Y) →
  1 <= n < s → s < 2 ^ 32 →
  nodes (wr32 (wr32 (umem h) (p + 4) (s - n)) (p + 8 * (s - n) + 4) n) (X ++ (p, s - n) :: Y) base.
Proof.
  intros Hn Hs Hn' Hlim. destruct (sorted_split _ _ _ Hs) as (H1 & _ & H3 & _).
  apply nodes_app in Hn as [Hn (E1 & E2 & HY)]. apply nodes_app. split; [|cbn; split_and!].
  - eapply nodes_frame; [done|]. intros b Hb. destruct (H1 b Hb). cbn in *. by rewrite !rd32_wr32_ne by lia.
  - by rewrite !rd32_wr32_ne by lia.
  - rewrite rd32_wr32_ne, rd32_wr32_same by lia. apply u32_small. lia.
  - eapply nodes_frame; [done|]. intros b Hb. destruct (H3 b Hb). cbn in *. by rewrite !rd32_wr32_ne by lia.
Qed.

Lemma list_header h B x y : free_list h B → x ∈ (base_block :: B).*1 → x <= y < x + 8 → base <= y < base + 8 ∨ free_at B y.
Proof.
  intros Hfl [[a s] [-> Hx]]%list_elem_of_fmap Hy. cbn in *. apply elem_of_cons in Hx as [[= -> ->]|Hx]; [by left|right].
  destruct (free_list_base _ _ _ Hfl Hx) as (? & ? & ?). cbn in *. exists (a, s). split; [done|cbn; lia].
Qed.

Lemma list_first h B C1 b Y : free_list h B → B = C1 ++ b :: Y → 0 <= first Y base < 2 ^ 31.
Proof.
  intros Hfl ->. pose proof (fl_range _ _ _ Hfl). destruct Y as [|[y t] Y]; cbn; [lia|].
  destruct (free_list_base _ _ (y, t) Hfl) as (? & ? & ?); [set_solver|]. cbn in *. lia.
Qed.

Lemma taken_intro h C1 C2 p s n prevp m' :
  free_list h (C1 ++ (p, s) :: C2) → 1 <= n <= s → prevp ∈ (base_block :: C1).*1 →
  nodes m' (base_block :: C1 ++ cut p s n ++ C2) base → rd32 m' (p + 8 * (s - n) + 4) = n →
  kept (C1 ++ (p, s) :: C2) (umem h) m' →
  taken h (C1 ++ (p, s) :: C2) (p + 8 * (s - n)) n (h <|umem := m'|> <|freep := prevp|>) (C1 ++ cut p s n ++ C2).
Proof.
  intros Hfl Hn Hp Hnodes Hsz Hk. pose proof Hfl as [_ Hs Hb _ Hr].
  destruct (free_list_base _ _ (p, s) Hfl) as (? & ? & ?); [set_solver|]. cbn in *.
  split; rsimpl; [split; rsimpl|done|split; rsimpl| |done].
  - done.
  - by apply (cut_sorted (brk h)).
  - by apply cut_blocks.
  - cbn. rewrite !fmap_app. set_solver.
  - done.
  - lia.
  - lia.
  - done.
  - by apply (cut_taken (brk h)).
  - by apply (cut_free (brk h)).
Qed.

Section take.
Context (h : uheap) (B X Y : list (Z * Z)) (p s prevp sp n : Z).
Context (Hfl : free_list h B) (HL : base_block :: B = X ++ (prevp, sp) :: (p, s) :: Y) (Hn : 1 <= n <= s).

Lemma take_split : ∃ C1, base_block :: C1 = X ++ [(prevp, sp)] ∧ B = C1 ++ (p, s) :: Y.
Proof using All.
  destruct X as [|x X']; cbn in HL; injection HL; intros; subst; [by exists []|].
  exists (X' ++ [(prevp, sp)]). by rewrite <- app_assoc.
Qed.

Lemma take_facts :
  nodes (umem h) (X ++ (prevp, sp) :: (p, s) :: Y) base ∧
  StronglySorted before (X ++ (prevp, sp) :: (p, s) :: Y) ∧
  rd32 (umem h) p = first Y base ∧ rd32 (umem h) (p + 4) = s ∧
  0 <= p ∧ p + 8 * s < 2 ^ 31 ∧ prevp + 8 <= p.
Proof using All.
  pose proof (fl_nodes _ _ _ Hfl) as Hnodes. pose proof (fl_sorted _ _ _ Hfl) as Hs. rewrite HL in Hnodes, Hs.
  pose proof Hnodes as [_ (_ & _ & E1 & E2 & _)]%nodes_app. pose proof (fl_range _ _ _ Hfl).
  destruct (sorted_split _ _ _ Hs) as (_ & _ & H3 & _). destruct (H3 (p, s) ltac:(by left)) as [_ Hpp].
  destruct take_split as (C1 & _ & EB). destruct (free_list_base _ _ (p, s) Hfl) as (? & ? & ?); [rewrite EB; set_solver|].
  cbn in *. split_and!; try done; lia.
Qed.

Lemma malloc_exact fuel :
  s = n → ∃ h' B', malloc_loop (S fuel) n prevp p h = Ret (p + 8 * (s - n) + 8) h' ∧
    taken h B (p + 8 * (s - n)) n h' B'.
Proof using All.
  intros Hsn. destruct take_facts as (Hnodes & Hs & E1 & E2 & Hp0 & Hlim & Hpp). destruct take_split as (C1 & EX & EB).
  exists (h <|umem := wr32 (umem h) prevp (first Y base)|> <|freep := prevp|>), (C1 ++ cut p s n ++ Y). split.
  - cbn [Umalloc.malloc_loop]. unfold size, ptr, set_ptr, set_size, hdr_add.
    rewrite bind_gets, E2. replace (n <=? s) with true by lia. replace (s =? n) with true by lia.
    rewrite !bind_assoc, bind_gets, E1, bind_modify, bind_ret_l, bind_modify. unfold ret.
    replace (p + 8 * (s - n) + 8) with (p + 8) by lia. by rewrite (u32_small (p + 8 * 1)) by lia.
  - rewrite EB. apply taken_intro; [by rewrite <- EB|done| | | |].
    + rewrite EX, fmap_app. set_solver.
    + unfold cut. replace (s =? n) with true by lia. rewrite app_comm_cons, EX, <- app_assoc.
      apply (take_exact h _ _ _ p s); try done. pose proof (list_first _ _ _ _ _ Hfl EB). cbn [app]. lia.
    + replace (p + 8 * (s - n) + 4) with (p + 4) by lia. by rewrite rd32_wr32_ne, <- Hsn by lia.
    + rewrite <- EB. intros x Hx1 Hx2. rewrite wr32_spec, decide_False; [done|]. intros Hx.
      destruct (list_header _ _ prevp x Hfl); [|lia|done|done]. rewrite HL, fmap_app. set_solver.
Qed.

Lemma malloc_tail fuel :
  n < s → ∃ h' B', malloc_loop (S fuel) n prevp p h = Ret (p + 8 * (s - n) + 8) h' ∧
    taken h B (p + 8 * (s - n)) n h' B'.
Proof using All.
  intros Hsn. destruct take_facts as (Hnodes & Hs & E1 & E2 & Hp0 & Hlim & Hpp). destruct take_split as (C1 & EX & EB).
  exists (h <|umem := wr32 (wr32 (umem h) (p + 4) (s - n)) (p + 8 * (s - n) + 4) n|> <|freep := prevp|>),
    (C1 ++ cut p s n ++ Y). split.
  - cbn [Umalloc.malloc_loop]. unfold size, ptr, set_ptr, set_size, hdr_add.
    rewrite bind_gets, E2. replace (n <=? s) with true by lia. replace (s =? n) with false by lia.
    rewrite bind_assoc, bind_modify, (u32_small (s - n)) by lia. rewrite bind_assoc, bind_gets. rsimpl.
    rewrite rd32_wr32_same, (u32_small (s - n)), (u32_small (p + 8 * (s - n))) by lia.
    rewrite bind_assoc, bind_modify, bind_ret_l, bind_modify. unfold ret.
    by rewrite (u32_small (p + 8 * (s - n) + 8 * 1)) by lia.
  - rewrite EB. apply taken_intro; [by rewrite <- EB|done| | | |].
    + rewrite EX, fmap_app. set_solver.
    + unfold cut. replace (s =? n) with false by lia. rewrite app_comm_cons, EX. cbn [app].
      pose proof (fl_nodes _ _ _ Hfl) as HN. pose proof (fl_sorted _ _ _ Hfl) as HS.
      rewrite EB, app_comm_cons, EX in HN, HS. apply take_tail; try done; lia.
    + rewrite rd32_wr32_same. apply u32_small. lia.
    + intros x Hx1 Hx2. rewrite !wr32_spec, !decide_False; [done| |]; intros Hx; apply Hx2;
        apply free_at_app; right; apply free_at_cons; left; cbn; lia.
Qed.
End take.

Lemma malloc_take fuel h B p s prevp n :
  free_list h B → (p, s) ∈ B → prevp ∈ (base_block :: B).*1 → rd32 (umem h) prevp = p → 1 <= n <= s →
  ∃ a h' B', malloc_loop (S fuel) n prevp p h = Ret (a + 8) h' ∧ taken h B a n h' B'.
Proof using All.
  intros Hfl Hin Hp E Hn. destruct (predecessor _ _ _ _ _ Hfl Hin Hp E) as (X & sp & Y & HL).
  exists (p + 8 * (s - n)). destruct (Z.eq_dec s n) as [Hs|Hs].
  - by eapply malloc_exact.
  - by eapply malloc_tail; [done..|lia].
Qed.

Lemma first_fit (n : Z) (R : list (Z * Z)) :
  Forall (λ b, b.2 < n) R ∨ ∃ R1 b R2, R = R1 ++ b :: R2 ∧ n <= b.2 ∧ Forall (λ b, b.2 < n) R1.
Proof.
  induction R as [|b R IH]; [by left|]. destruct (Z_lt_ge_dec b.2 n).
  - destruct IH as [IH|(R1 & c & R2 & -> & ? & ?)]; [left; by constructor|right].
    exists (b :: R1), c, R2. split_and!; [done|done|by constructor].
  - right. exists [], b, R. split_and!; [done|lia|constructor].
Qed.

Lemma before_last {A} (l1 l2 l : list A) x y : l1 ++ x :: l2 = l ++ [y] → ∃ t, l = l1 ++ t.
Proof.
  destruct l2 as [|z l2 _] using rev_ind; intros E.
  - apply app_inj_tail in E as [<- _]. exists []. by rewrite app_nil_r.
  - rewrite app_comm_cons, app_assoc in E. apply app_inj_tail in E as [<- _]. by exists (x :: l2).
Qed.

(** The blocks in the order in which the loop of [malloc] looks at them. *)
Lemma round h B :
  free_list h B → ∃ Z sf, let R := Z ++ [(freep h, sf)] in
    R ≡ₚ base_block :: B ∧ nodes (umem h) R (first R 0) ∧ rd32 (umem h) (freep h) = first R 0 ∧ freep h ∉ Z.*1.
Proof.
  intros Hfl. destruct (nodes_elem _ _ _ _ (fl_nodes _ _ _ Hfl) (fl_freep _ _ _ Hfl)) as (X & sf & Y & E & E1 & _).
  exists (Y ++ X), sf. cbn. rewrite <- app_assoc.
  assert (nodes (umem h) (Y ++ X ++ [(freep h, sf)]) (first (Y ++ X ++ [(freep h, sf)]) 0)) as Hn.
  { apply (nodes_rotate (umem h) (X ++ [(freep h, sf)]) Y). rewrite <- app_assoc. cbn. rewrite <- E. apply Hfl. }
  split_and!; [|done| |].
  - rewrite E. by rewrite (Permutation_app_comm Y), <- app_assoc.
  - rewrite E1. destruct Y; [|done]. destruct X as [|[a t] X]; cbn in *; injection E; intros; by subst.
  - pose proof (fl_sorted _ _ _ Hfl) as Hs. rewrite E in Hs. destruct (sorted_split _ _ _ Hs) as (H1 & _ & H3 & _).
    rewrite fmap_app, not_elem_of_app. split; intros ([a t] & Ea & Hin)%list_elem_of_fmap; cbn in Ea; subst a.
    + specialize (H3 _ Hin). apply before_gap in H3. cbn in H3. lia.
    + specialize (H1 _ Hin). apply before_gap in H1. cbn in H1. lia.
Qed.

(** If a block is large enough, one is found. *)
Lemma malloc_fit fuel h B n :
  free_list h B → 1 <= n → (length (base_block :: B) <= fuel)%nat → (∃ b, b ∈ B ∧ n <= b.2) →
  ∃ a h' B', malloc_loop fuel n (freep h) (rd32 (umem h) (freep h)) h = Ret (a + 8) h' ∧ taken h B a n h' B'.
Proof using All.
  intros Hfl Hn Hfuel (b & Hb & Hbn). destruct (round h B Hfl) as (Z' & sf & HP & HN & HE & Hf). cbn in *.
  destruct (first_fit n (Z' ++ [(freep h, sf)])) as [Hno|(R1 & [p s] & R2 & ER & Hps & Hno)].
  { rewrite Forall_forall in Hno. specialize (Hno b). rewrite HP in Hno. specialize (Hno ltac:(by right)). lia. }
  rewrite ER in HN, HE, HP. apply nodes_app in HN as [HN1 _]. rewrite first_app in HE, HN1. cbn in HE, HN1, Hps.
  assert ((p, s) ∈ B) as Hin.
  { assert ((p, s) ∈ base_block :: B) as [[= -> ->]|?]%elem_of_cons by (rewrite <- HP; set_solver); [lia|done]. }
  destruct (malloc_skip (fuel - length R1) h n R1 (freep h) p) as (q & Hq & E1 & E2); try done.
  { intros Hin'. apply Hf. destruct (before_last R1 R2 Z' (p, s) (freep h, sf)) as [T ->]; [done|]. set_solver. }
  assert (length R1 < fuel)%nat by (apply Permutation_length in HP; rewrite length_app in HP; cbn in *; lia).
  replace (length R1 + (fuel - length R1))%nat with fuel in E2 by lia. rewrite HE, E2.
  replace (fuel - length R1)%nat with (S (fuel - length R1 - 1)) by lia. apply (malloc_take _ _ _ p s); try done.
  apply elem_of_cons in Hq as [->|Hq]; [apply Hfl|]. rewrite <- HP, fmap_app. set_solver.
Qed.

(** Otherwise the loop asks for more memory, once. *)
Lemma malloc_miss fuel h B n :
  free_list h B → 1 <= n → (∀ b, b ∈ B → b.2 < n) →
  malloc_loop (length (base_block :: B) + fuel) n (freep h) (rd32 (umem h) (freep h)) h =
    (let! q := morecore n in
     if q =? 0 then ret 0 else
     let! nxt := ptr q in
     malloc_loop fuel n q nxt) h.
Proof using All.
  intros Hfl Hn Hsmall. destruct (round h B Hfl) as (Z' & sf & HP & HN & HE & Hf). cbn zeta in *.
  assert (Forall (λ b, b.2 < n) (Z' ++ [(freep h, sf)])) as [Hno [Hlast _]%Forall_cons]%Forall_app.
  { rewrite HP. constructor; [cbn; lia|]. by apply Forall_forall. }
  apply nodes_app in HN as [HN1 (H1 & H2 & _)]. rewrite first_app in HE, HN1. cbn in HE, HN1, Hlast.
  assert (length (base_block :: B) = length Z' + 1)%nat as -> by (rewrite <- HP, length_app; cbn; lia).
  destruct (malloc_skip (1 + fuel) h n Z' (freep h) (freep h)) as (q & Hq & E1 & E2); try done.
  rewrite HE, <- Nat.add_assoc, E2. cbn [Nat.add Umalloc.malloc_loop]. unfold size at 1. rewrite bind_gets, H2.
  replace (n <=? sf) with false by lia. rewrite bind_gets. by rewrite Z.eqb_refl.
Qed.

(** The number of headers for [nbytes]. *)
Definition units (nbytes : Z) : Z := (nbytes + 7) / 8 + 1.

Lemma freep_pos h B : free_list h B → freep h ≠ 0.
Proof.
  intros Hfl E. pose proof (fl_range _ _ _ Hfl). pose proof (fl_freep _ _ _ Hfl) as Hf. rewrite E in Hf.
  apply list_elem_of_fmap in Hf as (b & Eb & [->|Hb]%elem_of_cons); [cbn in *; lia|].
  destruct (free_list_base _ _ _ Hfl Hb). lia.
Qed.

(** The first call sets up the list. *)
Definition started (h : uheap) : uheap :=
  if freep h =? 0 then h <|umem := wr32 (wr32 (umem h) base base) (base + 4) 0|> <|freep := base|> else h.

Lemma malloc_started nbytes h :
  0 <= nbytes < 2 ^ 32 - 16 →
  malloc base grows nbytes h =
    malloc_loop (2 * list_bound (started h) + 2) (units nbytes) (freep (started h))
      (rd32 (umem (started h)) (freep (started h))) (started h).
Proof using All.
  intros Hb. assert (u32 (u32 (nbytes + 8 - 1) / 8 + 1) = units nbytes) as E.
  { unfold units. replace (nbytes + 8 - 1) with (nbytes + 7) by lia. rewrite (u32_small (nbytes + 7)) by lia.
    apply u32_small. zdiv. }
  unfold malloc, started. rewrite E. rewrite bind_assoc, bind_gets.
  destruct (freep h =? 0); unfold set_ptr, set_size, ptr.
  - rewrite bind_assoc, bind_modify, bind_assoc, bind_modify, bind_modify. by rewrite !bind_gets.
  - by rewrite bind_ret_l, !bind_gets.
Qed.

(** The outcome of [malloc]: a block, from the free ones or from memory the
    kernel has just added; or nothing, and nothing changed, because the kernel
    refuses. *)
Lemma malloc_ok h B nbytes :
  free_list h B → 0 <= nbytes <= 2 ^ 31 - 16 →
  let n := units nbytes in
  malloc base grows nbytes h = Ret 0 h ∧ grows (brk h) (need n) = false ∨
  ∃ a h' h1 B1 B', malloc base grows nbytes h = Ret (a + 8) h' ∧ free_list h1 B1 ∧ taken h1 B1 a n h' B' ∧
    (h1 = h ∧ B1 = B ∨
     grows (brk h) (need n) = true ∧ brk h1 = brk h + need n ∧
     (∀ x, free_at B1 x ↔ free_at B x ∨ brk h <= x < brk h1) ∧ kept B1 (umem h) (umem h1)).
Proof using All.
  intros Hfl Hb. cbn zeta. pose proof (fl_range _ _ _ Hfl) as [Hb0 Hbrk]. set (n := units nbytes).
  assert (1 <= n ∧ 8 * n < 2 ^ 31) as [H1 H2] by (unfold n, units; zdiv). fold n.
  rewrite malloc_started by lia. unfold started. rewrite (proj2 (Z.eqb_neq (freep h) 0)) by (eapply freep_pos; done).
  pose proof (free_list_bound _ _ Hfl) as Hlen. fold n. clearbody n.
  destruct (first_fit n B) as [Hno|(B1 & b & B2 & EB & Hb1 & _)].
  2: { right. destruct (malloc_fit (2 * list_bound h + 2) h B n) as (a & h' & B' & E & HT); [done|done|lia| |].
    - exists b. split; [rewrite EB; set_solver|done].
    - exists a, h', h, B, B'. split_and!; [done|done|done|by left]. }
  rewrite Forall_forall in Hno. pose proof (malloc_miss (2 * list_bound h + 2 - length (base_block :: B)) h B n Hfl H1 Hno) as E.
  replace (length (base_block :: B) + (2 * list_bound h + 2 - length (base_block :: B)))%nat with (2 * list_bound h + 2)%nat in E by lia.
  rewrite E. destruct (grows (brk h) (need n)) eqn:Hg; [right|left].
  - destruct (morecore_grants h B n) as (h1 & B1 & Em & Hfl1 & Hbrk1 & HF & HK & Hl & Hbig); try done.
    rewrite (bind_Ret _ _ _ _ _ Em), (proj2 (Z.eqb_neq (freep h1) 0)) by (eapply freep_pos; done).
    unfold ptr. rewrite bind_gets.
    destruct (malloc_fit (2 * list_bound h + 2 - length (base_block :: B)) h1 B1 n) as (a & h' & B' & E' & HT); [done|done|cbn [length] in *; lia|done|].
    exists a, h', h1, B1, B'. split_and!; [done|done|done|by right].
  - split; [|done]. by rewrite (bind_Ret _ _ _ _ _ (morecore_refused h n H1 H2 Hg)).
Qed.

(** ** What clients see *)

(** Objects: the bytes at each pointer that [malloc] has returned, and the
    break of the process. *)
Record objects := MkObjects { objs : gmap Z (list Z); obrk : Z }.

Inductive ucall :=
  | UMalloc (nbytes : Z)
  | UFree (ap : Z)
  | UStore (ap i v : Z)
  | ULoad (ap i : Z).

Definition call_run (c : ucall) : M uheap Z :=
  match c with
  | UMalloc nbytes => malloc base grows nbytes
  | UFree ap => free ap;;; ret 0
  | UStore ap i v => modify (λ h, h <|umem ::= λ m, wr m (ap + i) v|>);;; ret 0
  | ULoad ap i => gets (λ h, rd (umem h) (ap + i))
  end.

(** What a client may do. *)
Definition legal (o : objects) (c : ucall) : Prop :=
  match c with
  | UMalloc nbytes => 0 <= nbytes <= 2 ^ 31 - 16
  | UFree ap => is_Some (objs o !! ap)
  | UStore ap i _ | ULoad ap i => ∃ bytes, objs o !! ap = Some bytes ∧ 0 <= i < Z.of_nat (length bytes)
  end.

(** What it gets: objects are independent of each other; [malloc] returns 0
    only if the kernel refuses the memory. *)
Inductive ustep (o : objects) : ucall → Z → objects → Prop :=
  | ustep_malloc nbytes ap bytes b :
      ap ≠ 0 → objs o !! ap = None → Z.of_nat (length bytes) = nbytes → ap + nbytes <= b →
      b = obrk o ∨ grows (obrk o) (need (units nbytes)) = true ∧ b = obrk o + need (units nbytes) →
      ustep o (UMalloc nbytes) ap (MkObjects (<[ap:=bytes]> (objs o)) b)
  | ustep_nomem nbytes :
      grows (obrk o) (need (units nbytes)) = false → ustep o (UMalloc nbytes) 0 o
  | ustep_free ap : ustep o (UFree ap) 0 (MkObjects (delete ap (objs o)) (obrk o))
  | ustep_store ap i v bytes :
      objs o !! ap = Some bytes →
      ustep o (UStore ap i v) 0 (MkObjects (<[ap:=<[Z.to_nat i:=u8 v]> bytes]> (objs o)) (obrk o))
  | ustep_load ap i bytes v :
      objs o !! ap = Some bytes → bytes !! Z.to_nat i = Some v → ustep o (ULoad ap i) v o.

(** The size in the header of the object at [ap]. *)
Definition hsize (h : uheap) (ap : Z) : Z := rd32 (umem h) (ap - 8 + 4).
Definition within (h : uheap) (ap x : Z) : Prop := ap - 8 <= x < ap - 8 + 8 * hsize h ap.

(** The object at [ap] is in memory. *)
Record stored (h : uheap) (B : list (Z * Z)) (ap : Z) (bytes : list Z) : Prop := {
  st_used : used h B (ap - 8) (hsize h ap);
  st_length : Z.of_nat (length bytes) <= 8 * (hsize h ap - 1);
  st_bytes : ∀ i v, bytes !! i = Some v → rd (umem h) (ap + Z.of_nat i) = v
}.

(** The heap [h] holds the objects [o]: each in a block of its own, and the
    memory got from the kernel since the break was [b0] is free or in one of
    them. *)
Record holds_objects (b0 : Z) (h : uheap) (B : list (Z * Z)) (o : objects) : Prop := {
  ho_list : free_list h B;
  ho_brk : obrk o = brk h;
  ho_stored : ∀ ap bytes, objs o !! ap = Some bytes → stored h B ap bytes;
  ho_apart : ∀ ap ap' x, is_Some (objs o !! ap) → is_Some (objs o !! ap') → within h ap x → within h ap' x → ap = ap';
  ho_all : ∀ x, b0 <= x < brk h → free_at B x ∨ ∃ ap, is_Some (objs o !! ap) ∧ within h ap x
}.

(** An object is not touched by changes outside of its block. *)
Lemma stored_frame h B h' B' ap bytes :
  stored h B ap bytes → brk h <= brk h' →
  (∀ x, within h ap x → base + 8 <= x → ¬ free_at B x → ¬ free_at B' x ∧ rd (umem h') x = rd (umem h) x) →
  stored h' B' ap bytes ∧ hsize h' ap = hsize h ap.
Proof.
  intros [[U1 U2 U3 U4] Hl Hb] Hbrk Hf.
  assert (∀ x, within h ap x → ¬ free_at B' x ∧ rd (umem h') x = rd (umem h) x) as Hx.
  { intros x Hx. apply Hf; [done|unfold within in Hx; lia|by apply U4]. }
  assert (hsize h' ap = hsize h ap) as E.
  { unfold hsize at 1, rd32. unfold within in Hx. by rewrite !(λ x H, proj2 (Hx x H)) by lia. }
  split; [|done]. split; [split|..]; rewrite ?E; try done; [lia| |].
  - intros x Hx'. by apply Hx.
  - intros i v Hi. destruct (Hx (ap + Z.of_nat i)) as [_ ->]; [|by apply Hb].
    apply lookup_lt_Some in Hi. unfold within. lia.
Qed.

(** *** Every call keeps the relation *)

Lemma stored_within h B ap bytes x :
  stored h B ap bytes → within h ap x → base + 8 <= x < brk h ∧ ¬ free_at B x.
Proof. intros [[U1 U2 U3 U4] _ _] Hx. split; [unfold within in Hx; lia|by apply U4]. Qed.

Lemma free_simulates b0 h B o ap :
  holds_objects b0 h B o → legal o (UFree ap) →
  ∃ h' B', call_run (UFree ap) h = Ret 0 h' ∧
    holds_objects b0 h' B' (MkObjects (delete ap (objs o)) (obrk o)).
Proof using All.
  intros [Hfl Hbrk Hst Hap Hall] [bytes Hin]. pose proof (Hst _ _ Hin) as [Hu _ _].
  destruct (free_ok _ _ _ _ Hfl Hu) as (h' & B' & E & Hfl' & Hbrk' & HF & HK & _).
  replace (ap - 8 + 8) with ap in E by lia. exists h', B'. split; [cbn [call_run]; by rewrite (bind_Ret _ _ _ _ _ E)|].
  assert (∀ ap' bs, objs o !! ap' = Some bs → ap ≠ ap' → stored h' B' ap' bs ∧ hsize h' ap' = hsize h ap') as Hfr.
  { intros ap' bs Hin' Hne. apply (stored_frame h B); [by apply Hst|lia|]. intros x Hx Hx1 Hx2.
    assert (¬ free_at B' x) as Hx'; [|split; [done|by apply HK; [lia|]]].
    rewrite HF. intros [?|?]; [done|]. apply Hne. by apply (Hap ap ap' x); [eexists..| |]. }
  assert (∀ ap' x, is_Some (objs o !! ap') → ap ≠ ap' → within h' ap' x ↔ within h ap' x) as Hw.
  { intros ap' x [bs Hin'] Hne. unfold within. by rewrite (proj2 (Hfr _ _ Hin' Hne)). }
  split; cbn; rewrite ?Hbrk'; try done.
  - intros ap' bs [Hne Hin']%lookup_delete_Some. by apply Hfr.
  - intros a1 a2 x [b1 [N1 I1]%lookup_delete_Some] [b2 [N2 I2]%lookup_delete_Some].
    rewrite !Hw by (done || by eexists). apply Hap; by eexists.
  - intros x Hx. rewrite HF. destruct (Hall x Hx) as [?|(a & [bs Ha] & Hw')]; [by left; left|].
    destruct (decide (ap = a)) as [->|Hne]; [left; right; done|right]. exists a.
    rewrite lookup_delete_ne by done. split; [by eexists|]. apply Hw; [by eexists|done|done].
Qed.

Lemma store_list h B x v : free_list h B → ¬ free_at B x → base + 8 <= x → free_list (h <|umem ::= λ m, wr m x v|>) B.
Proof.
  intros Hfl Hx Hb. pose proof Hfl as [Hn Hs Hbl Hf Hr]. split; rsimpl; try done.
  eapply nodes_frame; [done|]. intros b Hb'.
  assert (∀ y, b.1 <= y < b.1 + 8 → rd (wr (umem h) x v) y = rd (umem h) y) as Hy.
  { intros y Hy. rewrite rd_wr, decide_False; [done|]. intros ->.
    destruct (list_header h B b.1 y Hfl); [|done|lia|done]. apply list_elem_of_fmap. by exists b. }
  unfold rd32. by rewrite !Hy by lia.
Qed.

Lemma store_simulates b0 h B o ap i v bytes :
  holds_objects b0 h B o → objs o !! ap = Some bytes → 0 <= i < Z.of_nat (length bytes) →
  ∃ h', call_run (UStore ap i v) h = Ret 0 h' ∧
    holds_objects b0 h' B (MkObjects (<[ap:=<[Z.to_nat i:=u8 v]> bytes]> (objs o)) (obrk o)).
Proof using All.
  intros [Hfl Hbrk Hst Hap Hall] Hin Hi. exists (h <|umem ::= λ m, wr m (ap + i) v|>).
  split; [cbn [call_run]; by rewrite bind_modify|].
  pose proof (Hst _ _ Hin) as Hso. pose proof Hso as [[U1 U2 U3 U4] Hl Hby].
  assert (within h ap (ap + i)) as Hwi by (unfold within; lia).
  set (h' := h <|umem ::= λ m, wr m (ap + i) v|>).
  assert (∀ ap', is_Some (objs o !! ap') → hsize h' ap' = hsize h ap') as Hsz.
  { intros ap' [bs Ha]. unfold hsize, rd32, h'. rsimpl. destruct (Hst _ _ Ha) as [[_ V2 _ _] _ _].
    assert (∀ x, ap' - 4 <= x < ap' → ap + i ≠ x) as Hne.
    { intros x Hx <-. assert (ap = ap') as <-; [|lia]. apply (Hap _ _ (ap + i)); [by eexists..|done|unfold within; lia]. }
    rewrite !rd_wr, !decide_False by (apply Hne; lia). done. }
  assert (∀ a, is_Some (<[ap:=<[Z.to_nat i:=u8 v]> bytes]> (objs o) !! a) ↔ is_Some (objs o !! a)) as Hsome.
  { intros a. destruct (decide (ap = a)) as [<-|]; [|by rewrite lookup_insert_ne].
    rewrite lookup_insert_eq, Hin. split; by eexists. }
  split; cbn [objs obrk]; try done.
  - apply store_list; [done|by apply U4|lia].
  - intros ap' bs [[<- <-]|[Hne Ha]]%lookup_insert_Some.
    + split; rewrite ?Hsz by (by eexists); [split; rsimpl; try done|by rewrite length_insert|].
      * change (hsize h' ap = hsize h ap). apply Hsz. by eexists.
      * intros j w Hj. unfold h'. rsimpl. rewrite rd_wr. case_decide as Hd.
        -- replace j with (Z.to_nat i) in Hj by lia.
           rewrite list_lookup_insert_eq in Hj by lia. by injection Hj.
        -- rewrite list_lookup_insert_ne in Hj by lia. by apply Hby.
    + destruct (stored_frame h B h' B ap' bs) as [? _]; [by apply Hst|done| |done].
      intros x Hx _ Hx'. split; [done|]. unfold h'. rsimpl. rewrite rd_wr, decide_False; [done|].
      intros <-. apply Hne. by apply (Hap _ _ (ap + i)); [eexists..| |].
  - intros a1 a2 x H1%Hsome H2%Hsome. unfold within. rewrite !Hsz by done. by apply Hap.
  - intros x Hx. destruct (Hall x Hx) as [?|(a & Ha & Hw)]; [by left|right]. exists a.
    split; [by apply Hsome|]. unfold within. by rewrite Hsz.
Qed.

(** More memory from the kernel. *)
Lemma grown_holds b0 h B o h1 B1 :
  holds_objects b0 h B o → free_list h1 B1 → brk h <= brk h1 →
  (∀ x, free_at B1 x ↔ free_at B x ∨ brk h <= x < brk h1) → kept B1 (umem h) (umem h1) →
  holds_objects b0 h1 B1 (MkObjects (objs o) (brk h1)).
Proof using All.
  intros [Hfl Hbrk Hst Hap Hall] Hfl1 Hle HF HK.
  assert (∀ ap bs, objs o !! ap = Some bs → stored h1 B1 ap bs ∧ hsize h1 ap = hsize h ap) as Hfr.
  { intros ap bs Ha. apply (stored_frame h B); [by apply Hst|done|]. intros x Hx Hx1 Hx2.
    destruct (stored_within _ _ _ _ _ (Hst _ _ Ha) Hx) as [? _].
    assert (¬ free_at B1 x) as Hx' by (rewrite HF; intros [?|?]; [done|lia]). split; [done|apply HK; [lia|done]]. }
  assert (∀ ap x, is_Some (objs o !! ap) → within h1 ap x ↔ within h ap x) as Hw.
  { intros ap x [bs Ha]. unfold within. by rewrite (proj2 (Hfr _ _ Ha)). }
  split; cbn [objs obrk]; try done.
  - intros ap bs Ha. by apply Hfr.
  - intros a1 a2 x H1 H2. rewrite !Hw by done. by apply Hap.
  - intros x Hx. rewrite HF. destruct (Z_lt_ge_dec x (brk h)); [|left; right; lia].
    destruct (Hall x ltac:(lia)) as [?|(a & Ha & Hx')]; [by left; left|right]. exists a. by rewrite Hw.
Qed.

(** A new object. *)
Lemma taken_holds b0 h B o a nbytes h' B' :
  holds_objects b0 h B o → taken h B a (units nbytes) h' B' → 0 <= nbytes →
  let bytes := map (λ i, rd (umem h') (a + 8 + Z.of_nat i)) (seq 0 (Z.to_nat nbytes)) in
  objs o !! (a + 8) = None ∧ holds_objects b0 h' B' (MkObjects (<[a + 8:=bytes]> (objs o)) (obrk o)).
Proof using All.
  intros [Hfl Hbrk Hst Hap Hall] [Tl Tb [U1 U2 U3 U4] Tf Tk] Hnb bytes. replace (a + 4) with (a + 8 - 8 + 4) in U3 by lia.
  assert (∀ x, within h' (a + 8) x ↔ a <= x < a + 8 * units nbytes) as Hnew.
  { intros x. unfold within, hsize. rewrite U3. lia. }
  assert (∀ ap bs, objs o !! ap = Some bs → stored h' B' ap bs ∧ hsize h' ap = hsize h ap) as Hfr.
  { intros ap bs Ha. apply (stored_frame h B); [by apply Hst|lia|]. intros x Hx Hx1 Hx2.
    split; [intros ?; apply Hx2, Tf; by left|]. apply Tk; [lia|done]. }
  assert (∀ ap x, is_Some (objs o !! ap) → within h' ap x ↔ within h ap x) as Hw.
  { intros ap x [bs Ha]. unfold within. by rewrite (proj2 (Hfr _ _ Ha)). }
  assert (∀ ap x, is_Some (objs o !! ap) → within h ap x → within h' (a + 8) x → False) as Hno.
  { intros ap x [bs Ha] Hx Hx'%Hnew. destruct (stored_within _ _ _ _ _ (Hst _ _ Ha) Hx) as [_ Hx2].
    apply Hx2, Tf. by right. }
  assert (objs o !! (a + 8) = None) as Hnone.
  { destruct (objs o !! (a + 8)) as [bs|] eqn:Ha; [|done]. exfalso. pose proof (Hst _ _ Ha) as [[_ V2 _ _] _ _].
    apply (Hno (a + 8) a); [by eexists|unfold within; lia|apply Hnew; lia]. }
  split; [done|]. split; cbn [objs obrk]; [done|by rewrite Tb| | |].
  - intros ap bs [[<- <-]|[_ Ha]]%lookup_insert_Some; [|by apply Hfr].
    assert (hsize h' (a + 8) = units nbytes) as Ehs by done. split; rewrite ?Ehs.
    + by replace (a + 8 - 8) with a by lia; split; try done; replace (a + 4) with (a + 8 - 8 + 4) by lia.
    + unfold bytes. rewrite length_map, length_seq, Z2Nat.id by done. unfold units. zdiv.
    + unfold bytes. intros i v Hi. rewrite list_lookup_fmap in Hi.
      destruct (seq 0 (Z.to_nat nbytes) !! i) eqn:Es; [|done]. apply lookup_seq in Es as [-> _]. by injection Hi.
  - intros a1 a2 x [b1 [[<- _]|[N1 I1]]%lookup_insert_Some] [b2 [[<- _]|[N2 I2]]%lookup_insert_Some] W1 W2; [done| | |].
    + rewrite Hw in W2 by by eexists. destruct (Hno a2 x); [by eexists|done|done].
    + rewrite Hw in W1 by by eexists. destruct (Hno a1 x); [by eexists|done|done].
    + rewrite Hw in W1, W2 by by eexists. by apply (Hap a1 a2 x); [eexists..| |].
  - intros x Hx. rewrite Tb in Hx. destruct (Hall x Hx) as [[?|?]%Tf|(ap & Ha & Hx')]; [by left|right..].
    + exists (a + 8). rewrite lookup_insert_eq. split; [by eexists|by apply Hnew].
    + exists ap. rewrite lookup_insert_ne by (intros <-; rewrite Hnone in Ha; by destruct Ha). by rewrite Hw.
Qed.

Lemma malloc_simulates b0 h B o nbytes :
  holds_objects b0 h B o → legal o (UMalloc nbytes) →
  ∃ r h' B' o', call_run (UMalloc nbytes) h = Ret r h' ∧ ustep o (UMalloc nbytes) r o' ∧ holds_objects b0 h' B' o'.
Proof using All.
  intros Ho Hb. pose proof Ho as [Hfl Hbrk _ _ _]. cbn [call_run].
  destruct (malloc_ok h B nbytes Hfl Hb) as [[E Hg]|(a & h' & h1 & B1 & B' & E & Hfl1 & HT & Hgrow)].
  { exists 0, h, B, o. split_and!; [done| |done]. constructor. by rewrite Hbrk. }
  assert (holds_objects b0 h1 B1 (MkObjects (objs o) (brk h1))) as Ho1.
  { destruct Hgrow as [[-> ->]|(_ & Eb & HF & HK)]; [rewrite <- Hbrk; by destruct o|].
    apply (grown_holds b0 h B); try done. unfold need in Eb. lia. }
  cbn in Hb. destruct (taken_holds _ _ _ _ _ _ _ _ Ho1 HT ltac:(lia)) as [Hnone Ho']. cbn [objs obrk] in *.
  eexists _, h', B', _. split_and!; [exact E| |exact Ho'].
  pose proof HT as [_ _ [U1 U2 _ _] _ _]. rewrite (tk_brk _ _ _ _ _ _ HT) in U2. pose proof (fl_range _ _ _ Hfl).
  constructor; [lia|done|by rewrite length_map, length_seq, Z2Nat.id by lia| |].
  - unfold units in U2. zdiv.
  - rewrite Hbrk. destruct Hgrow as [[-> ->]|(Hg & Eb & _)]; [by left|by right].
Qed.

Lemma call_simulates b0 h B o c :
  holds_objects b0 h B o → legal o c →
  ∃ r h' B' o', call_run c h = Ret r h' ∧ ustep o c r o' ∧ holds_objects b0 h' B' o'.
Proof using All.
  intros Ho Hc. destruct c as [nbytes|ap|ap i v|ap i].
  - by eapply malloc_simulates.
  - destruct (free_simulates _ _ _ _ _ Ho Hc) as (h' & B' & E & Ho'). eexists _, _, _, _. split_and!; [done| |done]. constructor.
  - destruct Hc as (bytes & Ha & Hi). destruct (store_simulates _ _ _ _ _ _ v _ Ho Ha Hi) as (h' & E & Ho').
    eexists _, _, _, _. split_and!; [done| |done]. by constructor.
  - destruct Hc as (bytes & Ha & Hi). destruct (lookup_lt_is_Some_2 bytes (Z.to_nat i)) as [v Hv]; [lia|].
    exists v, h, B, o. split_and!; [|by econstructor|done]. cbn [call_run]. unfold gets. f_equal.
    rewrite <- (st_bytes _ _ _ _ (ho_stored _ _ _ _ Ho _ _ Ha) _ _ Hv). f_equal. lia.
Qed.

(** A client: calls, each depending on the results of the earlier ones. *)
Inductive client := Done | Call (c : ucall) (k : Z → client).

Fixpoint client_run (c : client) : M uheap (list (ucall * Z)) :=
  match c with
  | Done => ret []
  | Call c k => let! r := call_run c in let! t := client_run (k r) in ret ((c, r) :: t)
  end.

(** The client makes legal calls, whatever the results. *)
Fixpoint obeys (o : objects) (c : client) : Prop :=
  match c with
  | Done => True
  | Call c k => legal o c ∧ ∀ r o', ustep o c r o' → obeys o' (k r)
  end.

Inductive usteps (o : objects) : list (ucall * Z) → objects → Prop :=
  | usteps_nil : usteps o [] o
  | usteps_cons c r o1 t o2 : ustep o c r o1 → usteps o1 t o2 → usteps o ((c, r) :: t) o2.

Lemma client_simulates b0 c h B o :
  holds_objects b0 h B o → obeys o c →
  ∃ t h' B' o', client_run c h = Ret t h' ∧ usteps o t o' ∧ holds_objects b0 h' B' o'.
Proof using All.
  revert h B o. induction c as [|c k IH]; intros h B o Ho Hc; cbn [client_run].
  { exists [], h, B, o. split_and!; [done|constructor|done]. }
  destruct Hc as [Hl Hk]. destruct (call_simulates _ _ _ _ _ Ho Hl) as (r & h1 & B1 & o1 & E & Hs & Ho1).
  destruct (IH r _ _ _ Ho1 (Hk _ _ Hs)) as (t & h2 & B2 & o2 & E2 & Hs2 & Ho2).
  exists ((c, r) :: t), h2, B2, o2. split_and!; [|by econstructor|done].
  by rewrite (bind_Ret _ _ _ _ _ E), (bind_Ret _ _ _ _ _ E2).
Qed.

(** *** The first call *)

Lemma started_holds h :
  freep h = 0 → 0 < base → base + 8 <= brk h < 2 ^ 31 →
  holds_objects (brk h) (started h) [] (MkObjects ∅ (brk h)).
Proof using All.
  intros Hf Hb Hbrk. unfold started. rewrite Hf. cbn [Z.eqb].
  split; [split|..]; rsimpl; cbn [objs obrk]; try done.
  - cbn. split_and!; [|rewrite rd32_wr32_same; by apply u32_small|done].
    rewrite rd32_wr32_ne, rd32_wr32_same by lia. apply u32_small. lia.
  - by repeat constructor.
  - cbn. set_solver.
  - intros ap ap' x [? Ha]. by rewrite lookup_empty in Ha.
  - lia.
Qed.

Lemma started_run h c b :
  freep h = 0 → 0 < base → obeys (MkObjects ∅ b) c →
  c = Done ∨ client_run c h = client_run c (started h).
Proof using All.
  intros Hf Hb Hc. destruct c as [|c k]; [by left|right]. destruct Hc as [Hl _].
  assert (∀ ap, ¬ is_Some ((∅ : gmap Z (list Z)) !! ap)) as Hno by (intros ap [? Ha]; by rewrite lookup_empty in Ha).
  destruct c as [nbytes|ap|ap i v|ap i]; cbn in Hl; [|by destruct (Hno ap)|destruct Hl as (? & ? & _); by destruct (Hno ap)..].
  cbn [client_run call_run]. unfold bind. rewrite !malloc_started by lia.
  assert (started (started h) = started h) as ->; [|done].
  unfold started at 1. rewrite (proj2 (Z.eqb_neq (freep (started h)) 0)); [done|].
  unfold started. rewrite Hf. cbn [Z.eqb]. rsimpl. lia.
Qed.
End proofs.

(** ** Properties *)

(** C12: [malloc] and [free] give a process independent objects.  A client that
    only frees, reads and writes what it has allocated, whatever the pointers
    it gets, runs to its end from the initial heap; every call returns as the
    specification of separate objects allows, with each byte as the client last
    stored it; [malloc] returns 0 only if the kernel refuses the memory.  At
    any such point the free list is in order with no two blocks touching, and
    every byte got from the kernel is free or in exactly one object. *)
Theorem umalloc_refines (base : Z) (grows : Z → Z → bool) (c : client) (h : uheap)
    (grows_limit : ∀ b n, 0 <= n → grows b n = true → b + n < 2 ^ 31)
    (Hfreep : freep h = 0) (Hbase : 0 < base) (Hbrk : base + 8 <= brk h < 2 ^ 31)
    (Hc : obeys grows (MkObjects ∅ (brk h)) c) :
  ∃ t h' o, client_run base grows c h = Ret t h' ∧ usteps grows (MkObjects ∅ (brk h)) t o ∧
    (c = Done ∨ ∃ B, holds_objects base (brk h) h' B o).
Proof.
  destruct (started_run base grows grows_limit h c (brk h)) as [->|E]; try done.
  { exists [], h, (MkObjects ∅ (brk h)). split_and!; [done|constructor|by left]. }
  destruct (client_simulates base grows grows_limit (brk h) c (started base h) [] (MkObjects ∅ (brk h)))
    as (t & h' & B & o & E' & Hs & Ho); [by apply (started_holds base grows)|done|].
  exists t, h', o. rewrite E. split_and!; [done|done|right]. by exists B.
Qed.

(** ** Witness *)

(** Two objects, the second allocated after a byte of the first is stored. *)
Definition two_objects : client :=
  Call (UMalloc 10) (λ p, if p =? 0 then Done else
  Call (UStore p 3 65) (λ _,
  Call (UMalloc 20) (λ q,
  Call (ULoad p 3) (λ _,
  Call (UFree p) (λ _, Done))))).

Definition heap0 : uheap := MkUheap ∅ 0 0x3000.
Definition below_2g (b n : Z) : bool := b + n <? 2 ^ 31.

Lemma two_objects_obeys : obeys below_2g (MkObjects ∅ 0x3000) two_objects.
Proof.
  split; [cbn; lia|]. intros r o1 S1. inversion S1; subst; [|done].
  destruct (Z.eqb_spec r 0) as [|_]; [done|]. cbn [objs obrk] in *.
  assert (∃ b1, length b1 = 10%nat ∧ bytes = b1) as (b1 & Hl & ->) by (exists bytes; split; [lia|done]).
  split; [eexists; cbn [objs]; rewrite lookup_insert_eq; split; [done|rewrite Hl; lia]|].
  intros r2 o2 S2. inversion S2; subst. cbn [objs obrk] in *. rewrite lookup_insert_eq in *. simplify_eq.
  split; [cbn; lia|]. intros q o3 S3.
  assert (∃ bs, objs o3 !! r = Some bs ∧ length bs = 10%nat) as (bs & Hbs & Hlen).
  { eexists. inversion S3; subst; cbn [objs]; [rewrite lookup_insert_ne by (intros ->; cbn in *; rewrite lookup_insert_eq in *; done)|];
      rewrite lookup_insert_eq; (split; [done|by rewrite length_insert]). }
  split; [exists bs; split; [done|lia]|]. intros v o4 S4. inversion S4; subst. split; [by exists bs|]. done.
Qed.

Lemma umalloc_refines_witness :
  (∃ t h' o, client_run 0x800 below_2g two_objects heap0 = Ret t h' ∧
     usteps below_2g (MkObjects ∅ 0x3000) t o ∧ (two_objects = Done ∨ ∃ B, holds_objects 0x800 0x3000 h' B o)) ∧
  match client_run 0x800 below_2g two_objects heap0 with
  | Ret t _ => t.*2 = [0xaff0; 0; 0xafd0; 65; 0]
  | _ => False
  end.
Proof.
  split; [|vm_compute; reflexivity]. apply (umalloc_refines 0x800 below_2g two_objects heap0).
  - intros b n _ H. unfold below_2g in H. lia.
  - reflexivity.
  - lia.
  - cbn. lia.
  - exact two_objects_obeys.
Defined.
