(* ===== verification/Ata.v ===== *)
(** The hardware as drivers see it: the port and memory-mapped accesses of
    [x86.h], and what the drivers rely on of an ATA disk in PIO mode.

    A driver is a program ([Effects]) whose calls are accesses.  The disk is a
    parameter: any function that answers the accesses.  [Ata] states the
    behaviour of the ATA standard that the code relies on, in terms of a view
    of the state of the disk. *)

From stdpp Require Import base gmap list.
From Stdlib Require Import ZArith Lia.
From S2P Require Import Prelude Effects CString.
#[local] Open Scope Z_scope.

(** ** Accesses *)

(** [inb], [outb], [insl] of some words, [outsl] of some bytes, and the
    memory-mapped registers. *)
Inductive hwop :=
| Inb (port : Z) | Outb (port v : Z) | Insl (port : Z) (cnt : nat) | Outsl (port : Z) (bs : list Z)
| Load (a : Z) | Store (a v : Z).

Inductive hwreply := HDone | HNum (v : Z) | HBytes (bs : list Z).

Notation hprog := (prog hwop hwreply).

Definition hnum (r : hwreply) : Z := match r with HNum v => v | _ => 0 end.
Definition hbytes (r : hwreply) : list Z := match r with HBytes bs => bs | _ => [] end.

Definition inb (port : Z) : hprog Z := let* r := pcall (Inb port) in PRet (u8 (hnum r)).
Definition outb (port v : Z) : hprog unit := pcall (Outb port (u8 v));;* PRet tt.
Definition insl (port : Z) (cnt : nat) : hprog (list Z) := let* r := pcall (Insl port cnt) in PRet (hbytes r).
Definition outsl (port : Z) (bs : list Z) : hprog unit := pcall (Outsl port bs);;* PRet tt.

(** ** The disk *)

(** The view of an ATA controller: its registers, by port; the command it
    works on; the sectors of its drives, by drive and address; how many more
    reads of the status register find it busy; whether the command failed; and
    the bad sectors. *)
Record ata := MkAta {
  a_regs : gmap Z Z; a_cmd : option Z; a_sectors : gmap (Z * Z) (list Z);
  a_polls : nat; a_failed : bool; a_bad : gset (Z * Z)
}.

#[global] Instance eta_ata : Eta ata := λ v,
  MkAta (a_regs v) (a_cmd v) (a_sectors v) (a_polls v) (a_failed v) (a_bad v).

Definition reg (v : ata) (port : Z) : Z := default 0 (a_regs v !! port).

(** The drive and the address that the registers select. *)
Definition drive (v : ata) : Z := (reg v 0x1f6 / 16) mod 2.
Definition lba (v : ata) : Z :=
  reg v 0x1f3 + 256 * reg v 0x1f4 + 65536 * reg v 0x1f5 + 2 ^ 24 * (reg v 0x1f6 mod 16).

Definition sector (v : ata) (d a : Z) : list Z := default (replicate 512 0) (a_sectors v !! (d, a)).

Definition CMD_READ : Z := 0x20.
Definition CMD_WRITE : Z := 0x30.

(** The ports of the registers that select a sector, and of the device
    control register. *)
Definition select_ports : list Z := [0x1f2; 0x1f3; 0x1f4; 0x1f5; 0x1f6; 0x3f6].

(** A controller that behaves as the standard says.  The status register shows
    BSY or no DRDY while the disk is busy, and then DF or ERR if the command
    failed.  Nothing else may be touched while it is busy.  When it is not, the
    registers keep what is written to them; a command is for the selected
    sector, and fails for a bad one; the data port gives the sector of a read
    command, and takes the sector of a write command.  The disk may be busy
    after a command and after a transfer of data, for at most [slow] reads of
    its status. *)
Class Ata {H : Type} (answer : hwop → H → hwreply * H) := {
  view : H → ata;
  slow : nat;
  ata_bound h : (a_polls (view h) <= slow)%nat;
  ata_length h d a : length (sector (view h) d a) = 512%nat;
  ata_busy h n : a_polls (view h) = S n →
    ∃ r h', answer (Inb 0x1f7) h = (HNum r, h') ∧ 0 <= r < 256 ∧ Z.land r 0xc0 ≠ 0x40 ∧
      view h' = (view h) <|a_polls := n|>;
  ata_ready h : a_polls (view h) = 0%nat →
    ∃ r h', answer (Inb 0x1f7) h = (HNum r, h') ∧ 0 <= r < 256 ∧ Z.land r 0xc0 = 0x40 ∧
      negb (Z.land r 0x21 =? 0) = a_failed (view h) ∧ view h' = view h;
  ata_select h port x : port ∈ select_ports → 0 <= x < 256 → a_polls (view h) = 0%nat →
    ∃ h', answer (Outb port x) h = (HDone, h') ∧ view h' = (view h) <|a_regs ::= <[port:=x]>|>;
  ata_command h c : c = CMD_READ ∨ c = CMD_WRITE → reg (view h) 0x1f2 = 1 → a_polls (view h) = 0%nat →
    ∃ n h', answer (Outb 0x1f7 c) h = (HDone, h') ∧
      view h' = (view h) <|a_cmd := Some c|> <|a_polls := n|>
        <|a_failed := bool_decide ((drive (view h), lba (view h)) ∈ a_bad (view h))|>;
  ata_in h : a_cmd (view h) = Some CMD_READ → a_polls (view h) = 0%nat → a_failed (view h) = false →
    ∃ n h', answer (Insl 0x1f0 128) h = (HBytes (sector (view h) (drive (view h)) (lba (view h))), h') ∧
      view h' = (view h) <|a_cmd := None|> <|a_polls := n|>;
  ata_out h bs : a_cmd (view h) = Some CMD_WRITE → length bs = 512%nat → a_polls (view h) = 0%nat →
    ∃ n h', answer (Outsl 0x1f0 bs) h = (HDone, h') ∧
      view h' = (view h) <|a_cmd := None|> <|a_polls := n|>
        <|a_sectors ::= (if a_failed (view h) then id else <[(drive (view h), lba (view h)):=bs]>)|>
}.

(** The standard lets a disk be busy after a write command too, before it asks
    for the data (DRQ).  The driver does not wait for that: it relies on a disk
    that asks for the data at once, as emulated disks do. *)
Class PromptWrites {H : Type} (answer : hwop → H → hwreply * H) `{!Ata answer} : Prop :=
  prompt_write h h' : a_polls (view h) = 0%nat → answer (Outb 0x1f7 CMD_WRITE) h = (HDone, h') →
    a_polls (view h') = 0%nat.

(** ** Lemmas *)

(** The four registers that hold an address of 28 bits. *)
Lemma lba_bytes a d :
  0 <= a < 2 ^ 28 → 0 <= d < 2 →
  a mod 256 + 256 * ((a / 256) mod 256) + 65536 * ((a / 65536) mod 256) +
    2 ^ 24 * ((224 + 16 * d + a / 2 ^ 24) mod 16) = a ∧
  (224 + 16 * d + a / 2 ^ 24) / 16 mod 2 = d.
Proof.
  intros Ha Hd. assert (0 <= a / 2 ^ 24 < 16) by (split; [apply Z.div_pos; lia|apply Z.div_lt_upper_bound; lia]).
  split; [|zdiv]. replace ((224 + 16 * d + a / 2 ^ 24) mod 16) with (a / 2 ^ 24) by zdiv. zdiv.
Qed.

Section ata.
Context {H : Type} (answer : hwop → H → hwreply * H) `{!Ata answer}.

Lemma inb_run {A} port (f : Z → hprog A) h r h' :
  answer (Inb port) h = (HNum r, h') → 0 <= r < 256 →
  prun answer (let* x := inb port in f x) h = prun answer (f r) h'.
Proof. intros E Hr. cbn. rewrite E. cbn. by rewrite u8_small. Qed.

Lemma outb_run {A} port v (f : hprog A) h h' :
  answer (Outb port (u8 v)) h = (HDone, h') → prun answer (outb port v;;* f) h = prun answer f h'.
Proof. intros E. cbn. by rewrite E. Qed.

(** A write to a register that selects a sector. *)
Lemma outb_select port v h :
  port ∈ select_ports → a_polls (view h) = 0%nat →
  ∃ h', (∀ A (f : hprog A), prun answer (outb port v;;* f) h = prun answer f h') ∧ view h' = (view h) <|a_regs ::= <[port:=u8 v]>|>.
Proof.
  intros Hp Hn. destruct (ata_select h port (u8 v) Hp (u8_range v) Hn) as (h' & E & Ev). exists h'. split; [|done].
  intros A f. by apply outb_run.
Qed.

(** A loop that waits until the disk is ready: BSY clear and DRDY set. *)
Fixpoint poll (fuel : nat) : hprog Z :=
  match fuel with
  | O => PStuck
  | S fuel =>
      let* r := inb 0x1f7 in
      if negb (Z.land r 0xc0 =? 0x40) then poll fuel else PRet r
  end.

Lemma poll_run fuel h :
  (a_polls (view h) < fuel)%nat →
  ∃ r h', prun answer (poll fuel) h = Some (r, h') ∧ view h' = (view h) <|a_polls := 0%nat|> ∧
    negb (Z.land r 0x21 =? 0) = a_failed (view h).
Proof.
  remember (a_polls (view h)) as n eqn:En. revert fuel h En. induction n as [|n IH]; intros [|fuel] h En Hf; [lia| |lia|];
    cbn [poll].
  - destruct (ata_ready h) as (r & h' & E & Hr & Hd & He & Ev); [done|].
    rewrite (inb_run _ _ _ _ _ E Hr), Hd. cbn. exists r, h'. split; [done|]. split; [|done].
    rewrite Ev. rewrite En. by destruct (view h).
  - destruct (ata_busy h n) as (r & h' & E & Hr & Hd & Ev); [done|].
    rewrite (inb_run _ _ _ _ _ E Hr). destruct (Z.eqb_spec (Z.land r 0xc0) 0x40); [done|]. cbn [negb].
    destruct (IH fuel h') as (r' & h'' & E' & Ev' & He'); [by rewrite Ev|lia|].
    exists r', h''. split; [done|]. rewrite Ev', Ev in *. done.
Qed.

Lemma command_run c h :
  c = CMD_READ ∨ c = CMD_WRITE → reg (view h) 0x1f2 = 1 → a_polls (view h) = 0%nat →
  ∃ n h', (∀ A (f : hprog A), prun answer (outb 0x1f7 c;;* f) h = prun answer f h') ∧
    view h' = (view h) <|a_cmd := Some c|> <|a_polls := n|>
      <|a_failed := bool_decide ((drive (view h), lba (view h)) ∈ a_bad (view h))|>.
Proof.
  intros Hc Hn Hp. destruct (ata_command h c Hc Hn Hp) as (n & h' & E & Ev). exists n, h'. split; [|done].
  intros A f. apply outb_run. replace (u8 c) with c by (destruct Hc as [-> | ->]; reflexivity). done.
Qed.

(** The registers after sector [a] of drive [d] has been selected. *)
Lemma select_run d a h (r6 : Z) :
  0 <= a < 2 ^ 28 → 0 <= d < 2 → u8 r6 = 224 + 16 * d + a / 2 ^ 24 → a_polls (view h) = 0%nat →
  ∃ h', (∀ A (f : hprog A), prun answer (outb 0x1f2 1;;* outb 0x1f3 a;;* outb 0x1f4 (Z.shiftr a 8);;*
      outb 0x1f5 (Z.shiftr a 16);;* outb 0x1f6 r6;;* f) h = prun answer f h') ∧
    view h' = (view h) <|a_regs := a_regs (view h')|> ∧
    reg (view h') 0x1f2 = 1 ∧ drive (view h') = d ∧ lba (view h') = a.
Proof.
  intros Ha Hd H6 Hn.
  destruct (outb_select 0x1f2 1 h) as (h1 & R1 & E1); [by apply (bool_decide_unpack _)|done|].
  destruct (outb_select 0x1f3 a h1) as (h2 & R2 & E2); [by apply (bool_decide_unpack _)|by rewrite E1|].
  destruct (outb_select 0x1f4 (Z.shiftr a 8) h2) as (h3 & R3 & E3); [by apply (bool_decide_unpack _)|by rewrite E2,E1|].
  destruct (outb_select 0x1f5 (Z.shiftr a 16) h3) as (h4 & R4 & E4); [by apply (bool_decide_unpack _)|by rewrite E3,E2,E1|].
  destruct (outb_select 0x1f6 r6 h4) as (h5 & R5 & E5); [by apply (bool_decide_unpack _)|by rewrite E4,E3,E2,E1|].
  exists h5. split; [intros A f; by rewrite R1, R2, R3, R4, R5|].
  rewrite E4, E3, E2, E1 in E5. rewrite E5. split; [done|].
  unfold drive, lba, reg. rsimpl. rewrite H6, !Z.shiftr_div_pow2 by lia.
  repeat first [rewrite lookup_insert_eq | rewrite lookup_insert_ne by lia]. cbn [default].
  destruct (lba_bytes a d Ha Hd) as [L1 L2]. split; [reflexivity|]. split; [exact L2|exact L1].
Qed.

Lemma insl_run h :
  a_cmd (view h) = Some CMD_READ → a_polls (view h) = 0%nat → a_failed (view h) = false →
  ∃ n h', (∀ A (f : list Z → hprog A), prun answer (let* x := insl 0x1f0 128 in f x) h =
      prun answer (f (sector (view h) (drive (view h)) (lba (view h)))) h') ∧
    view h' = (view h) <|a_cmd := None|> <|a_polls := n|>.
Proof.
  intros H1 H2 H3. destruct (ata_in h H1 H2 H3) as (n & h' & E & Ev). exists n, h'. split; [|done].
  intros A f. cbn [insl pbind pcall prun]. by rewrite E.
Qed.
End ata.

(** ** A disk *)

(** A disk that is busy for one read of its status after a read command and
    after the data of a write command; it ignores what is written to it while
    it is busy. *)
Module Toy.

Record toy := MkToy { t_regs : gmap Z Z; t_cmd : option Z; t_sectors : gmap (Z * Z) (list Z); t_busy : bool; t_failed : bool; t_bad : gset (Z * Z) }.

#[global] Instance eta_toy : Eta toy := λ h, MkToy (t_regs h) (t_cmd h) (t_sectors h) (t_busy h) (t_failed h) (t_bad h).

Definition toy_view (h : toy) : ata :=
  MkAta (t_regs h) (t_cmd h) (resize 512 0 <$> t_sectors h) (if t_busy h then 1 else 0) (t_failed h) (t_bad h).

Definition answer (op : hwop) (h : toy) : hwreply * toy :=
  let v := toy_view h in
  match op with
  | Inb _ => (HNum (if t_busy h then 0x80 else if t_failed h then 0x41 else 0x40), h <|t_busy := false|>)
  | Outb port x =>
      if t_busy h then (HDone, h)
      else if port =? 0x1f7 then
        (HDone, h <|t_cmd := Some x|> <|t_busy := negb (x =? CMD_WRITE)|>
           <|t_failed := bool_decide ((drive v, lba v) ∈ t_bad h)|>)
      else (HDone, h <|t_regs ::= <[port:=x]>|>)
  | Insl _ _ => (HBytes (sector v (drive v) (lba v)), h <|t_cmd := None|>)
  | Outsl _ bs =>
      if t_busy h then (HDone, h)
      else (HDone, h <|t_cmd := None|> <|t_busy := true|>
              <|t_sectors ::= (if t_failed h then id else <[(drive v, lba v):=bs]>)|>)
  | Load _ => (HNum 0, h)
  | Store _ _ => (HDone, h)
  end.

Lemma toy_idle h : a_polls (toy_view h) = 0%nat → t_busy h = false.
Proof. unfold toy_view. cbn. by destruct (t_busy h). Qed.

#[global] Program Instance toy_ata : Ata answer := { view := toy_view; slow := 1 }.
Next Obligation. intros h. unfold toy_view. destruct (t_busy h); cbn; lia. Qed.
Next Obligation.
  intros h d a. unfold sector, toy_view. cbn [a_sectors]. rewrite lookup_fmap.
  destruct (t_sectors h !! (d, a)); cbn [fmap option_fmap option_map default]; [apply length_resize|apply length_replicate].
Qed.
Next Obligation.
  intros h n Hn. unfold toy_view in Hn. cbn [a_polls] in Hn. destruct (t_busy h) eqn:E; [|done].
  exists 0x80, (h <|t_busy := false|>). cbn [answer]. rewrite E. split; [done|]. split; [lia|]. split; [done|].
  unfold toy_view. injection Hn as <-. done.
Qed.
Next Obligation.
  intros h Hn. apply toy_idle in Hn as E.
  exists (if t_failed h then 0x41 else 0x40), h. cbn [answer]. rewrite E. split.
  - f_equal. destruct h; cbn in *; by subst.
  - unfold toy_view. cbn [a_failed]. by destruct (t_failed h).
Qed.
Next Obligation.
  intros h port x Hp Hx Hn. apply toy_idle in Hn as E. exists (h <|t_regs ::= <[port:=x]>|>). cbn [answer]. rewrite E.
  destruct (Z.eqb_spec port 0x1f7) as [->|_]; [|done]. by apply (bool_decide_pack _) in Hp.
Qed.
Next Obligation.
  intros h c Hc Hn Hp. apply toy_idle in Hp as E. cbn [answer]. rewrite E.
  eexists (if negb (c =? CMD_WRITE)%Z then 1 else 0)%nat, _. split; [reflexivity|]. done.
Qed.
Next Obligation.
  intros h Hc Hp Hf. eexists (a_polls (toy_view h)), _. split; [reflexivity|]. done.
Qed.
Next Obligation.
  intros h bs Hc Hl Hp. apply toy_idle in Hp as E. cbn [answer]. rewrite E.
  destruct h as [r c s b [] bad]; eexists 1%nat, _; (split; [reflexivity|]); [done|].
  unfold toy_view, update. cbn. f_equal. rewrite fmap_insert. f_equal. apply resize_all_alt. lia.
Qed.

#[global] Instance toy_prompt : PromptWrites answer.
Proof. intros h h' Hp. apply toy_idle in Hp as E. cbn [answer]. rewrite E. by intros [= <-]. Qed.
End Toy.
