(* ===== verification/Boot.v ===== *)
(** The boot loader [bootmain.c]: it reads an ELF kernel from the disk into
    memory.

    Memory is the byte memory of [CString]; the disk answers through its
    ports ([Ata]).  [spins] bounds the loops that wait for the disk, and
    [turns] the loop over sectors and the loop over program headers. *)

From stdpp Require Import base gmap list.
From Stdlib Require Import ZArith Lia.
From S2P Require Import Prelude Effects CString Ata.
#[local] Open Scope Z_scope.

(** ** The code *)

Definition SECTSIZE : Z := 512.
Definition ELF_MAGIC : Z := 0x464C457F.

Fixpoint store_bytes (m : gmap Z Z) (a : Z) (bs : list Z) : gmap Z Z :=
  match bs with
  | [] => m
  | b :: bs => store_bytes (wr m a b) (a + 1) bs
  end.

Definition rd16 (m : gmap Z Z) (a : Z) : Z := rd m a + 256 * rd m (a + 1).

(** The members of [struct elfhdr] and [struct proghdr] that are used, at [p]. *)
Definition elf_magic (m : gmap Z Z) (p : Z) : Z := rd32 m p.
Definition elf_entry (m : gmap Z Z) (p : Z) : Z := rd32 m (p + 24).
Definition elf_phoff (m : gmap Z Z) (p : Z) : Z := rd32 m (p + 28).
Definition elf_phnum (m : gmap Z Z) (p : Z) : Z := rd16 m (p + 44).
Definition ph_off (m : gmap Z Z) (p : Z) : Z := rd32 m (p + 4).
Definition ph_paddr (m : gmap Z Z) (p : Z) : Z := rd32 m (p + 12).
Definition ph_filesz (m : gmap Z Z) (p : Z) : Z := rd32 m (p + 16).
Definition ph_memsz (m : gmap Z Z) (p : Z) : Z := rd32 m (p + 20).
Definition PROGHDR_SIZE : Z := 32.

Section boot.
Context (spins turns : nat).

Definition waitdisk : hprog unit := poll spins;;* PRet tt.

Definition readsect (m : gmap Z Z) (dst offset : Z) : hprog (gmap Z Z) :=
  waitdisk;;*
  outb 0x1f2 1;;*
  outb 0x1f3 offset;;*
  outb 0x1f4 (Z.shiftr offset 8);;*
  outb 0x1f5 (Z.shiftr offset 16);;*
  outb 0x1f6 (Z.lor (Z.shiftr offset 24) 0xE0);;*
  outb 0x1f7 0x20;;*
  waitdisk;;*
  let* bs := insl 0x1f0 (Z.to_nat (SECTSIZE / 4)) in
  PRet (store_bytes m dst bs).

Fixpoint readseg_loop (n : nat) (m : gmap Z Z) (pa epa offset : Z) : hprog (gmap Z Z) :=
  if pa <? epa then
    match n with
    | O => PStuck
    | S n =>
        let* m := readsect m pa offset in
        readseg_loop n m (u32 (pa + SECTSIZE)) epa (u32 (offset + 1))
    end
  else PRet m.

Definition readseg (m : gmap Z Z) (pa count offset : Z) : hprog (gmap Z Z) :=
  let epa := u32 (pa + count) in
  let pa := u32 (pa - offset mod SECTSIZE) in
  let offset := u32 (offset / SECTSIZE + 1) in
  readseg_loop turns m pa epa offset.

Fixpoint load_loop (n : nat) (m : gmap Z Z) (ph eph : Z) : hprog (gmap Z Z) :=
  if ph <? eph then
    match n with
    | O => PStuck
    | S n =>
        let pa := ph_paddr m ph in
        let* m := readseg m pa (ph_filesz m ph) (ph_off m ph) in
        let m :=
          if ph_filesz m ph <? ph_memsz m ph
          then stosb m (u32 (pa + ph_filesz m ph)) 0 (ph_memsz m ph - ph_filesz m ph) else m in
        load_loop n m (u32 (ph + PROGHDR_SIZE)) eph
    end
  else PRet m.

Definition elf : Z := 0x10000.

(** The memory, and the entry point that is called; none if the image is not
    an ELF file. *)
Definition bootmain (m : gmap Z Z) : hprog (gmap Z Z * option Z) :=
  let* m := readseg m elf 4096 0 in
  if negb (elf_magic m elf =? ELF_MAGIC) then PRet (m, None) else
  let ph := u32 (elf + elf_phoff m elf) in
  let eph := u32 (ph + PROGHDR_SIZE * elf_phnum m elf) in
  let* m := load_loop turns m ph eph in
  PRet (m, Some (elf_entry m elf)).
End boot.

(** ** Specification *)

(** Byte [k] of the kernel file, which starts at sector 1 of drive 0. *)
Definition kbyte (v : ata) (k : Z) : Z := u8 (nth (Z.to_nat (k mod 512)) (sector v 0 (k / 512 + 1)) 0).
Definition kword (v : ata) (k : Z) : Z :=
  kbyte v k + 2 ^ 8 * kbyte v (k + 1) + 2 ^ 16 * kbyte v (k + 2) + 2 ^ 24 * kbyte v (k + 3).

(** A program header: where the segment is in the file and in memory. *)
Record segment := Segment { s_off : Z; s_paddr : Z; s_filesz : Z; s_memsz : Z }.

Definition segment_at (v : ata) (p : Z) : segment :=
  Segment (kword v (p + 4)) (kword v (p + 12)) (kword v (p + 16)) (kword v (p + 20)).

(** The first byte that loading a segment writes. *)
Definition s_start (s : segment) : Z := s_paddr s - s_off s mod 512.

(** The bytes that loading a segment writes: whole sectors, and the zeros after
    the bytes of the file. *)
Definition sectors_end (pa len : Z) : Z := pa + 512 * ((len + 511) / 512).
Definition written (s : segment) (b : Z) : Prop :=
  s_start s <= b < sectors_end (s_start s) (s_filesz s + s_off s mod 512) ∨ s_paddr s <= b < s_paddr s + s_memsz s.

(** A segment that can be loaded above [lo]. *)
Definition loadable (lo : Z) (s : segment) : Prop :=
  lo <= s_start s ∧ s_filesz s <= s_memsz s ∧ s_paddr s + s_memsz s + 512 < 2 ^ 32 ∧ s_off s + s_filesz s + 512 < 2 ^ 32.

(** Segments in increasing order, each loaded above the end of the one before
    it. *)
Fixpoint in_order (lo : Z) (ss : list segment) : Prop :=
  match ss with
  | [] => True
  | s :: ss => loadable lo s ∧ in_order (s_paddr s + s_memsz s) ss
  end.

(** The segment is in memory: the bytes of the file, and zeros up to its size. *)
Definition loaded (v : ata) (m : gmap Z Z) (s : segment) : Prop :=
  (∀ i, 0 <= i < s_filesz s → rd m (s_paddr s + i) = kbyte v (s_off s + i)) ∧
  (∀ i, s_filesz s <= i < s_memsz s → rd m (s_paddr s + i) = 0).

(** ** Lemmas *)

Lemma store_bytes_spec bs m a b :
  rd (store_bytes m a bs) b = if decide (a <= b < a + Z.of_nat (length bs)) then u8 (nth (Z.to_nat (b - a)) bs 0) else rd m b.
Proof.
  revert m a. induction bs as [|x bs IH]; intros m a; cbn [store_bytes length].
  - by rewrite decide_False by lia.
  - rewrite IH, rd_wr. destruct (decide (a = b)) as [->|Hne].
    { rewrite Z.sub_diag. by repeat (case_decide; try lia). }
    repeat case_decide; try lia. by replace (Z.to_nat (b - a)) with (S (Z.to_nat (b - (a + 1)))) by lia.
Qed.

Section boot_lemmas.
Context {H : Type} (answer : hwop → H → hwreply * H) `{!Ata answer}.
Context (spins turns : nat) (Hspins : (slow < spins)%nat).

(** What does not change while the kernel is read: the sectors. *)
Definition same_disk (h h' : H) : Prop :=
  a_sectors (view h') = a_sectors (view h) ∧ a_bad (view h') = a_bad (view h).

Lemma waitdisk_run h :
  ∃ h', (∀ A (f : hprog A), prun answer (waitdisk spins;;* f) h = prun answer f h') ∧ view h' = (view h) <|a_polls := 0%nat|>.
Proof.
  destruct (poll_run answer spins h) as (r & h' & E & Ev & _); [pose proof (ata_bound h); lia|].
  exists h'. split; [|done]. intros A f. unfold waitdisk. apply (prun_Some _ _ (λ _, f) _ tt). by rewrite (prun_Some _ _ _ _ _ _ E).
Qed.

Lemma readsect_run m dst offset h :
  0 <= offset < 2 ^ 28 → (0, offset) ∉ a_bad (view h) →
  ∃ h', prun answer (readsect spins m dst offset) h = Some (store_bytes m dst (sector (view h) 0 offset), h') ∧
    same_disk h h'.
Proof.
  intros Ho Hbad. unfold readsect. destruct (waitdisk_run h) as (h1 & R1 & E1). rewrite R1.
  assert (0 <= offset / 2 ^ 24 < 16) by (split; [apply Z.div_pos; lia|apply Z.div_lt_upper_bound; lia]).
  destruct (select_run answer 0 offset h1 (Z.lor (Z.shiftr offset 24) 0xE0)) as (h2 & R2 & E2 & S1 & S2 & S3); [done|lia| |by rewrite E1|].
  { rewrite Z.shiftr_div_pow2 by lia. assert (∀ x, 0 <= x < 16 → u8 (Z.lor x 0xE0) = 224 + x) as Hl; [|rewrite Hl; lia].
    intros x Hx. assert (Forall (λ i : nat, u8 (Z.lor (Z.of_nat i) 0xE0) = 224 + Z.of_nat i) (seq 0 16)) as Hall
      by (by apply (bool_decide_unpack _)).
    rewrite Forall_forall in Hall. specialize (Hall (Z.to_nat x)). rewrite Z2Nat.id in Hall by lia. apply Hall, elem_of_seq. lia. }
  rewrite R2. destruct (command_run answer CMD_READ h2) as (n & h3 & R3 & E3); [by left|done|by rewrite E2, E1|].
  unfold CMD_READ in R3. rewrite R3. destruct (waitdisk_run h3) as (h4 & R4 & E4). rewrite R4.
  assert (a_bad (view h2) = a_bad (view h)) as Eb by (by rewrite E2, E1).
  rewrite S2, S3, Eb, bool_decide_eq_false_2 in E3 by done.
  destruct (insl_run answer h4) as (n' & h5 & R5 & E5); [by rewrite E4, E3|by rewrite E4|by rewrite E4, E3|].
  change (Z.to_nat (SECTSIZE / 4)) with 128%nat. rewrite R5. exists h5. split.
  - cbn [prun]. do 3 f_equal. rewrite E4, E3. change (drive _) with (drive (view h2)) at 1. change (lba _) with (lba (view h2)) at 1.
    rewrite S2, S3. unfold sector. rsimpl. by rewrite E2, E1.
  - unfold same_disk. rewrite E5, E4, E3. rsimpl. by rewrite E2, E1.
Qed.

(** No sector of the drive is bad. *)
Definition good_disk (h : H) : Prop := ∀ a, (0, a) ∉ a_bad (view h).

Lemma same_disk_good h h' : same_disk h h' → good_disk h → good_disk h'.
Proof. intros [_ E] Hg a. rewrite E. apply Hg. Qed.

Lemma same_disk_trans h1 h2 h3 : same_disk h1 h2 → same_disk h2 h3 → same_disk h1 h3.
Proof. intros [H1 H2] [H3 H4]. split; congruence. Qed.

Lemma sector_same h h' d a : same_disk h h' → sector (view h') d a = sector (view h) d a.
Proof. intros [E _]. unfold sector. by rewrite E. Qed.

(** The loop over sectors: everything below [pa] and above the last sector
    stays, and what is from [pa] up to [epa] comes from the disk. *)
Lemma readseg_loop_run n m pa epa off h :
  0 <= pa → epa + 512 < 2 ^ 32 → 0 <= off → epa - pa <= 512 * Z.of_nat n → 512 * off + (epa - pa) < 512 * 2 ^ 23 + 512 →
  good_disk h →
  ∃ m' h', prun answer (readseg_loop spins n m pa epa off) h = Some (m', h') ∧ same_disk h h' ∧
    (∀ b, b < pa ∨ sectors_end pa (epa - pa) <= b → rd m' b = rd m b) ∧
    (∀ b, pa <= b < epa → rd m' b = u8 (nth (Z.to_nat ((b - pa) mod 512)) (sector (view h) 0 (off + (b - pa) / 512)) 0)).
Proof.
  revert m pa off h. induction n as [|n IH]; intros m pa off h Hpa Hepa Hoff Hn Ho Hg; cbn [readseg_loop].
  { destruct (Z.ltb_spec pa epa); [lia|]. exists m, h. split; [done|]. split; [done|]. split; [done|]. intros; lia. }
  destruct (Z.ltb_spec pa epa) as [Hlt|Hge].
  2: { exists m, h. split; [done|]. split; [done|]. split; [done|]. intros; lia. }
  destruct (readsect_run m pa off h) as (h1 & E1 & S1); [lia|apply Hg|]. rewrite (prun_Some _ _ _ _ _ _ E1).
  unfold SECTSIZE. rewrite !u32_small by lia.
  destruct (IH (store_bytes m pa (sector (view h) 0 off)) (pa + 512) (off + 1) h1) as (m' & h' & E & S & Hlo & Hhi);
    [lia..|by eapply same_disk_good|].
  exists m', h'. split; [done|]. split; [by eapply same_disk_trans|].
  pose proof (ata_length h 0 off) as Hlen.
  assert (sectors_end pa (epa - pa) = sectors_end (pa + 512) (epa - (pa + 512))) as Ese.
  { unfold sectors_end. replace (epa - pa + 511) with (epa - (pa + 512) + 511 + 1 * 512) by lia. rewrite Z.div_add by lia. lia. }
  assert (pa + 512 <= sectors_end pa (epa - pa)).
  { unfold sectors_end. pose proof (Z.div_le_mono 512 (epa - pa + 511) 512 ltac:(lia) ltac:(lia)) as Hd. change (512 / 512) with 1 in Hd. lia. }
  split.
  - intros b Hb. rewrite Hlo by lia. by rewrite store_bytes_spec, Hlen, decide_False by lia.
  - intros b Hb. destruct (Z.lt_ge_cases b (pa + 512)) as [Hb1|Hb1].
    + rewrite Hlo by lia. rewrite store_bytes_spec, Hlen, decide_True by lia.
      by rewrite Z.mod_small, Z.div_small, Z.add_0_r by lia.
    + rewrite Hhi by lia. rewrite (sector_same _ _ _ _ S1).
      replace (b - pa) with (b - (pa + 512) + 1 * 512) by lia. rewrite Z_mod_plus_full, Z.div_add by lia.
      do 2 f_equal. f_equal. lia.
Qed.

Lemma readseg_run m pa count offset h :
  offset mod 512 <= pa → 0 <= count → 0 <= offset → pa + count + 512 < 2 ^ 32 → offset + count + 512 < 2 ^ 32 →
  count + offset mod 512 <= 512 * Z.of_nat turns → good_disk h →
  ∃ m' h', prun answer (readseg spins turns m pa count offset) h = Some (m', h') ∧ same_disk h h' ∧
    (∀ b, b < pa - offset mod 512 ∨ sectors_end (pa - offset mod 512) (count + offset mod 512) <= b → rd m' b = rd m b) ∧
    (∀ i, 0 <= i < count → rd m' (pa + i) = kbyte (view h) (offset + i)).
Proof.
  intros Hpa Hc Ho Hm Hf Ht Hg. unfold readseg, SECTSIZE.
  pose proof (Z.mod_pos_bound offset 512 ltac:(lia)). pose proof (Z.div_mod offset 512 ltac:(lia)).
  assert (0 <= offset / 512) by (apply Z.div_pos; lia). rewrite !u32_small by lia.
  destruct (readseg_loop_run turns m (pa - offset mod 512) (pa + count) (offset / 512 + 1) h)
    as (m' & h' & E & S & Hlo & Hhi); [lia..|done|].
  exists m', h'. split; [done|]. split; [done|]. split.
  { intros b Hb. apply Hlo. by replace (pa + count - (pa - offset mod 512)) with (count + offset mod 512) by lia. }
  intros i Hi. rewrite Hhi by lia.
  unfold kbyte. set (o := offset mod 512) in *. replace (pa + i - (pa - o)) with (o + i) by lia.
  replace (offset + i) with (o + i + offset / 512 * 512) by lia.
  rewrite Z_mod_plus_full, Z.div_add by lia. do 2 f_equal. f_equal. lia.
Qed.
End boot_lemmas.
Arguments same_disk {H answer _} h h'.
Arguments good_disk {H answer _} h.

(** *** Headers and segments *)

(** The first page of the file is at [elf]. *)
Definition header_in (v : ata) (m : gmap Z Z) : Prop := ∀ i, 0 <= i < 4096 → rd m (elf + i) = kbyte v i.

Lemma rd32_header v m p : header_in v m → 0 <= p <= 4092 → rd32 m (elf + p) = kword v p.
Proof. intros Hh Hp. unfold rd32, kword. rewrite <- !Z.add_assoc, !Hh by lia. done. Qed.

Lemma kword_range v k : 0 <= kword v k < 2 ^ 32.
Proof.
  unfold kword, kbyte. pose proof (u8_range (nth (Z.to_nat (k mod 512)) (sector v 0 (k / 512 + 1)) 0)).
  pose proof (u8_range (nth (Z.to_nat ((k + 1) mod 512)) (sector v 0 ((k + 1) / 512 + 1)) 0)).
  pose proof (u8_range (nth (Z.to_nat ((k + 2) mod 512)) (sector v 0 ((k + 2) / 512 + 1)) 0)).
  pose proof (u8_range (nth (Z.to_nat ((k + 3) mod 512)) (sector v 0 ((k + 3) / 512 + 1)) 0)). lia.
Qed.

Lemma segment_header v m p :
  header_in v m → 0 <= p → p + 32 <= 4096 →
  Segment (ph_off m (elf + p)) (ph_paddr m (elf + p)) (ph_filesz m (elf + p)) (ph_memsz m (elf + p)) = segment_at v p.
Proof.
  intros Hh H1 H2. unfold segment_at, ph_off, ph_paddr, ph_filesz, ph_memsz. rewrite <- !Z.add_assoc.
  by rewrite !(rd32_header v) by (done || lia).
Qed.

Lemma header_below v m m' lo :
  elf + 4096 <= lo → (∀ b, b < lo → rd m' b = rd m b) → header_in v m → header_in v m'.
Proof. intros Hlo Hb Hh i Hi. rewrite Hb by lia. by apply Hh. Qed.

(** The segments of [k] program headers from offset [p] of the file. *)
Fixpoint segments (v : ata) (p : Z) (k : nat) : list segment :=
  match k with
  | O => []
  | S k => segment_at v p :: segments v (p + 32) k
  end.

Definition few_sectors (turns : nat) (s : segment) : Prop := s_filesz s + s_off s mod 512 <= 512 * Z.of_nat turns.

Lemma segments_sizes v p k : Forall (λ s, 0 <= s_filesz s) (segments v p k).
Proof. revert p. induction k as [|k IH]; intros p; [constructor|]. constructor; [apply kword_range|apply IH]. Qed.

(** Nothing below the place of the first segment is written. *)
Lemma written_above lo s b : loadable lo s → written s b → lo <= b.
Proof. intros (L1 & _) [Hw|Hw]; [lia|]. unfold s_start in L1. pose proof (Z.mod_pos_bound (s_off s) 512 ltac:(lia)). lia. Qed.

Lemma loadable_next lo s : loadable lo s → 0 <= s_filesz s → lo <= s_paddr s + s_memsz s.
Proof.
  intros (L1 & L2 & _) Hf. unfold s_start in L1. pose proof (Z.mod_pos_bound (s_off s) 512 ltac:(lia)). lia.
Qed.

Lemma in_order_below lo ss b :
  in_order lo ss → Forall (λ s, 0 <= s_filesz s) ss → b < lo → Forall (λ s, ¬ written s b) ss.
Proof.
  revert lo. induction ss as [|s ss IH]; intros lo Ho Hf Hb; [constructor|]. destruct Ho as [Hl Ho].
  apply Forall_cons in Hf as [Hf1 Hf]. pose proof (loadable_next lo s Hl Hf1). constructor.
  - intros Hw. pose proof (written_above lo s b Hl Hw). lia.
  - by apply (IH (s_paddr s + s_memsz s)); [..|lia].
Qed.

Section load.
Context {H : Type} (answer : hwop → H → hwreply * H) `{!Ata answer}.
Context (spins turns : nat) (Hspins : (slow < spins)%nat).

(** One segment. *)
Lemma load_segment m p h lo s :
  header_in (view h) m → segment_at (view h) p = s → 0 <= p → p + 32 <= 4096 → elf + 4096 <= lo → loadable lo s →
  few_sectors turns s → good_disk h →
  ∃ m1 h1,
    prun answer (readseg spins turns m (ph_paddr m (elf + p)) (ph_filesz m (elf + p)) (ph_off m (elf + p))) h = Some (m1, h1) ∧
    same_disk h h1 ∧
    let m2 := if ph_filesz m1 (elf + p) <? ph_memsz m1 (elf + p)
      then stosb m1 (u32 (ph_paddr m (elf + p) + ph_filesz m1 (elf + p))) 0 (ph_memsz m1 (elf + p) - ph_filesz m1 (elf + p)) else m1 in
    (∀ b, ¬ written s b → rd m2 b = rd m b) ∧ loaded (view h) m2 s.
Proof.
  intros Hh Es H1 H2 Hlo (L1 & L2 & L3 & L4) Hf Hg. unfold s_start, few_sectors in *.
  pose proof (segment_header (view h) m p Hh H1 H2) as E0. rewrite Es in E0.
  assert (0 <= s_off s ∧ 0 <= s_filesz s) as [P1 P2] by (rewrite <- Es; split; apply kword_range).
  assert (ph_paddr m (elf + p) = s_paddr s) as -> by (by rewrite <- E0).
  assert (ph_filesz m (elf + p) = s_filesz s) as -> by (by rewrite <- E0).
  assert (ph_off m (elf + p) = s_off s) as -> by (by rewrite <- E0).
  assert (0 <= elf) by (unfold elf; lia). pose proof (Z.mod_pos_bound (s_off s) 512 ltac:(lia)).
  destruct (readseg_run answer spins turns Hspins m (s_paddr s) (s_filesz s) (s_off s) h)
    as (m1 & h1 & E & S & Hb & Hi); [lia..|done|].
  exists m1, h1. split; [done|]. split; [done|]. cbn zeta.
  assert (header_in (view h) m1) as Hh1 by (apply (header_below _ m _ lo); [done| |done]; intros b Hbl; apply Hb; left; lia).
  pose proof (segment_header (view h) m1 p Hh1 H1 H2) as E1. rewrite Es in E1.
  assert (ph_filesz m1 (elf + p) = s_filesz s) as -> by (by rewrite <- E1).
  assert (ph_memsz m1 (elf + p) = s_memsz s) as -> by (by rewrite <- E1).
  destruct (Z.ltb_spec (s_filesz s) (s_memsz s)) as [Hlt|Hge].
  - unfold stosb. rewrite u32_small by lia. split.
    { intros b Hbl. unfold written, s_start in Hbl. rewrite stosb_loop_spec, decide_False by lia. apply Hb. lia. }
    split; intros i Hii.
    + rewrite stosb_loop_spec, decide_False by lia. by apply Hi.
    + by rewrite stosb_loop_spec, decide_True by lia.
  - split; [intros b Hbl; apply Hb; unfold written, s_start in Hbl; lia|]. split; [done|]. intros i Hii. lia.
Qed.

Lemma load_loop_run n k m p h lo :
  header_in (view h) m → 0 <= p → p + 32 * Z.of_nat k <= 4096 → elf + 4096 <= lo → (k <= n)%nat →
  in_order lo (segments (view h) p k) → Forall (few_sectors turns) (segments (view h) p k) → good_disk h →
  ∃ m' h', prun answer (load_loop spins turns n m (elf + p) (elf + p + 32 * Z.of_nat k)) h = Some (m', h') ∧
    (∀ b, Forall (λ s, ¬ written s b) (segments (view h) p k) → rd m' b = rd m b) ∧
    Forall (loaded (view h) m') (segments (view h) p k).
Proof.
  revert n m p h lo. induction k as [|k IH]; intros n m p h lo Hh H1 H2 Hlo Hn Ho Hf Hg.
  { exists m, h. replace (elf + p + 32 * Z.of_nat 0) with (elf + p) by lia.
    destruct n; cbn [load_loop]; rewrite Z.ltb_irrefl; (split; [done|]); (split; [done|]); constructor. }
  destruct n as [|n]; [lia|]. cbn [load_loop segments in_order] in *. destruct Ho as [Hl Ho].
  apply Forall_cons in Hf as [Hf1 Hf]. destruct (Z.ltb_spec (elf + p) (elf + p + 32 * Z.of_nat (S k))) as [_|]; [|lia].
  destruct (load_segment m p h lo (segment_at (view h) p)) as (m1 & h1 & E1 & S1 & Hb & Hld); [done|done|done|lia|done|done|done|done|].
  cbn zeta. rewrite (prun_Some _ _ _ _ _ _ E1). cbn zeta in Hb, Hld.
  set (m2 := if ph_filesz m1 (elf + p) <? _ then _ else _) in *.
  assert (∀ k, kbyte (view h1) k = kbyte (view h) k) as Ek by (intros; unfold kbyte; by rewrite (sector_same _ _ _ _ _ S1)).
  assert (∀ k, kword (view h1) k = kword (view h) k) as Ew by (intros; unfold kword; by rewrite !Ek).
  assert (∀ k p, segments (view h1) p k = segments (view h) p k) as Eg.
  { intros k'. induction k' as [|k' IHk]; intros q; [done|]. cbn [segments]. unfold segment_at. by rewrite IHk, !Ew. }
  assert (lo <= s_paddr (segment_at (view h) p) + s_memsz (segment_at (view h) p)) as Hnext
    by (apply loadable_next; [done|apply kword_range]).
  assert (∀ b, b < lo → rd m2 b = rd m b) as Hblo.
  { intros b Hbl. apply Hb. intros Hw%(written_above lo); [lia|done]. }
  destruct (IH n m2 (p + 32) h1 (s_paddr (segment_at (view h) p) + s_memsz (segment_at (view h) p)))
    as (m' & h' & E & Hb' & Hld'); [|lia..|by rewrite Eg|by rewrite Eg|by eapply same_disk_good|].
  { intros i Hi. rewrite Ek. by apply (header_below _ m _ lo). }
  unfold PROGHDR_SIZE. rewrite u32_small by (unfold elf; lia).
  replace (elf + p + 32) with (elf + (p + 32)) by lia.
  replace (elf + p + 32 * Z.of_nat (S k)) with (elf + (p + 32) + 32 * Z.of_nat k) by lia.
  rewrite Eg in Hb'. exists m', h'. split; [done|].
  split; [intros b [Hb1 Hb2]%Forall_cons; rewrite Hb' by done; by apply Hb|].
  constructor.
  - assert (∀ b, b < s_paddr (segment_at (view h) p) + s_memsz (segment_at (view h) p) → rd m' b = rd m2 b) as Hkeep.
    { intros b Hbl. apply Hb'. by eapply in_order_below; [|apply segments_sizes|]. }
    destruct Hld as [D1 D2]. destruct Hl as (_ & L2 & _).
    split; intros i Hi; (rewrite Hkeep by lia); [by apply D1|by apply D2].
  - rewrite Eg in Hld'. eapply Forall_impl; [exact Hld'|]. intros s [D1 D2]. split; [|done]. intros i Hi. rewrite <- Ek. by apply D1.
Qed.
End load.

(** ** Properties *)

(** The number of program headers. *)
Definition kphnum (v : ata) : nat := Z.to_nat (kbyte v 44 + 256 * kbyte v 45).

Lemma header_run {H : Type} (answer : hwop → H → hwreply * H) `{!Ata answer} spins turns m h :
  (slow < spins)%nat → (8 <= turns)%nat → good_disk h →
  ∃ m' h', prun answer (readseg spins turns m elf 4096 0) h = Some (m', h') ∧ same_disk h h' ∧ header_in (view h) m' ∧
    ∀ b, b < elf ∨ elf + 4096 <= b → rd m' b = rd m b.
Proof.
  intros Hs Ht Hg. pose proof (Z.mod_0_l 512 ltac:(lia)) as E0. assert (elf = 65536) as Ee by done.
  destruct (readseg_run answer spins turns Hs m elf 4096 0 h) as (m' & h' & E & S & Hb & Hi); [lia..|done|].
  exists m', h'. split; [done|]. split; [done|]. split; [intros i Hii; by apply Hi|].
  intros b Hbb. apply Hb. rewrite E0. unfold sectors_end. change (512 * ((4096 + 0 + 511) / 512)) with 4096. lia.
Qed.

(** C22: The boot loader, for any disk that keeps to the ATA standard: if the
    file that starts at sector 1 is an ELF file whose program headers are in
    its first page and whose segments are in increasing order, every segment is
    in memory when the entry point of the header is called; the rest of a
    segment that is longer in memory than in the file is zero.  Memory is as
    before outside of the page with the header and of the bytes that loading
    the segments writes, which include the rest of the first and of the last
    sector of each. *)
Theorem bootmain_correct {H : Type} (answer : hwop → H → hwreply * H) (Hata : Ata answer)
    (spins turns : nat) (m : gmap Z Z) (h : H)
    (Hspins : (slow < spins)%nat) (Hturns : (8 + kphnum (view h) <= turns)%nat) (Hgood : good_disk h)
    (Hmagic : kword (view h) 0 = ELF_MAGIC)
    (Hphs : kword (view h) 28 + 32 * Z.of_nat (kphnum (view h)) <= 4096)
    (Horder : in_order (elf + 4096) (segments (view h) (kword (view h) 28) (kphnum (view h))))
    (Hfew : Forall (few_sectors turns) (segments (view h) (kword (view h) 28) (kphnum (view h)))) :
  ∃ m' h', prun answer (bootmain spins turns m) h = Some ((m', Some (kword (view h) 24)), h') ∧
    Forall (loaded (view h) m') (segments (view h) (kword (view h) 28) (kphnum (view h))) ∧
    ∀ b, b < elf ∨ elf + 4096 <= b →
      Forall (λ s, ¬ written s b) (segments (view h) (kword (view h) 28) (kphnum (view h))) → rd m' b = rd m b.
Proof.
  set (v := view h) in *. unfold bootmain.
  destruct (header_run answer spins turns m h) as (m1 & h1 & E1 & S1 & Hh & Hm1); [done|lia|done|]. fold v in Hh.
  rewrite (prun_Some _ _ _ _ _ _ E1). unfold elf_magic.
  replace (rd32 m1 elf) with (kword v 0) by (rewrite <- (rd32_header v m1 0) by (done || lia); f_equal; lia).
  rewrite Hmagic, Z.eqb_refl. cbn [negb]. unfold elf_phoff. rewrite (rd32_header v) by (done || lia).
  assert (elf_phnum m1 elf = Z.of_nat (kphnum v)) as ->.
  { unfold elf_phnum, rd16, kphnum, kbyte. rewrite <- Z.add_assoc, !Hh by lia. rewrite Z2Nat.id; [done|].
    pose proof (u8_range (nth (Z.to_nat (44 mod 512)) (sector v 0 (44 / 512 + 1)) 0)).
    pose proof (u8_range (nth (Z.to_nat (45 mod 512)) (sector v 0 (45 / 512 + 1)) 0)). lia. }
  pose proof (kword_range v 28). unfold PROGHDR_SIZE. rewrite !u32_small by (unfold elf; lia).
  assert (∀ k, kbyte (view h1) k = kbyte v k) as Ek by (intros; unfold kbyte; by rewrite (sector_same _ _ _ _ _ S1)).
  assert (∀ k, kword (view h1) k = kword v k) as Ew by (intros; unfold kword; by rewrite !Ek).
  assert (∀ k p, segments (view h1) p k = segments v p k) as Eg.
  { intros k'. induction k' as [|k' IHk]; intros q; [done|]. cbn [segments]. unfold segment_at. by rewrite IHk, !Ew. }
  destruct (load_loop_run answer spins turns Hspins turns (kphnum v) m1 (kword v 28) h1 (elf + 4096))
    as (m' & h' & E & Hb & Hld); [intros i Hi; rewrite Ek; by apply Hh|lia..|by rewrite Eg|by rewrite Eg|by eapply same_disk_good|].
  rewrite (prun_Some _ _ _ _ _ _ E). cbn [prun]. rewrite Eg in Hb. exists m', h'. split; [|split].
  - do 3 f_equal. unfold elf_entry. rewrite <- (rd32_header v m' 24); [done| |lia].
    apply (header_below v m1 m' (elf + 4096)); [lia| |done]. intros b Hbl. apply Hb.
    by eapply in_order_below; [|apply segments_sizes|].
  - rewrite Eg in Hld. eapply Forall_impl; [exact Hld|]. intros s [D1 D2]. split; [|done]. intros i Hi. rewrite <- Ek. by apply D1.
  - intros b Hb1 Hb2. by rewrite Hb, Hm1.
Qed.

(** A file that is not an ELF file is not loaded: [bootmain] returns to
    [bootasm.S]. *)
Theorem bootmain_rejects {H : Type} (answer : hwop → H → hwreply * H) (Hata : Ata answer)
    (spins turns : nat) (m : gmap Z Z) (h : H) (Hspins : (slow < spins)%nat) (Hturns : (8 <= turns)%nat)
    (Hgood : good_disk h) (Hmagic : kword (view h) 0 ≠ ELF_MAGIC) :
  ∃ m' h', prun answer (bootmain spins turns m) h = Some ((m', None), h').
Proof.
  unfold bootmain. destruct (header_run answer spins turns m h) as (m1 & h1 & E1 & S1 & Hh & _); [done|lia|done|].
  rewrite (prun_Some _ _ _ _ _ _ E1). unfold elf_magic.
  replace (rd32 m1 elf) with (kword (view h) 0) by (rewrite <- (rd32_header _ m1 0) by (done || lia); f_equal; lia).
  destruct (Z.eqb_spec (kword (view h) 0) ELF_MAGIC); [done|]. by exists m1, h1.
Qed.

(** ** Witnesses *)

(** A kernel with one segment of 4 bytes and 4 zeros, at the offset 100 of the
    file, for the address 0x100064. *)
Definition demo_sector : list Z :=
  [0x7F; 0x45; 0x4C; 0x46] ++ replicate 20 0 ++ [0x64; 0; 0x10; 0] ++ [52; 0; 0; 0] ++ replicate 12 0 ++ [1; 0] ++ replicate 6 0 ++
  ([1; 0; 0; 0; 100; 0; 0; 0] ++ replicate 4 0 ++ [0x64; 0; 0x10; 0; 4; 0; 0; 0; 8; 0; 0; 0] ++ replicate 8 0) ++
  replicate 16 0 ++ [1; 2; 3; 4] ++ replicate 408 0.

Definition demo_toy : Toy.toy := Toy.MkToy ∅ None {[(0, 1) := demo_sector]} false false ∅.

Lemma demo_entry : kword (view demo_toy) 24 = 0x100064.
Proof. vm_compute. reflexivity. Qed.

Lemma demo_segments :
  segments (view demo_toy) (kword (view demo_toy) 28) (kphnum (view demo_toy)) = [Segment 100 0x100064 4 8].
Proof. vm_compute. reflexivity. Qed.

Lemma bootmain_correct_witness :
  ∃ m' h', prun Toy.answer (bootmain 2 9 ∅) demo_toy = Some ((m', Some 0x100064), h') ∧
    Forall (loaded (view demo_toy) m') [Segment 100 0x100064 4 8] ∧
    ∀ b, b < elf ∨ elf + 4096 <= b → Forall (λ s, ¬ written s b) [Segment 100 0x100064 4 8] → rd m' b = rd ∅ b.
Proof.
  rewrite <- demo_segments, <- demo_entry. apply (bootmain_correct Toy.answer _ 2 9 ∅ demo_toy).
  - cbn. lia.
  - apply (bool_decide_unpack _). vm_compute. reflexivity.
  - intros a. apply not_elem_of_empty.
  - vm_compute. reflexivity.
  - apply (bool_decide_unpack _). vm_compute. reflexivity.
  - rewrite demo_segments. split; [|exact I]. split_and!; apply (bool_decide_unpack _); vm_compute; reflexivity.
  - rewrite demo_segments. apply Forall_cons_2; [|constructor]. unfold few_sectors. apply (bool_decide_unpack _). vm_compute. reflexivity.
Defined.

Lemma bootmain_rejects_witness :
  ∃ m' h', prun Toy.answer (bootmain 2 9 ∅) (Toy.MkToy ∅ None ∅ false false ∅) = Some ((m', None), h').
Proof.
  apply (bootmain_rejects Toy.answer _ 2 9 ∅); [cbn; lia|lia|intros a; apply not_elem_of_empty|vm_compute; discriminate].
Defined.
