(* ===== verification/Mmu.v ===== *)
(** Address arithmetic of [mmu.h] and [memlayout.h]: page numbers, page table
    indices, the kernel's virtual-to-physical map, and the segment and gate
    descriptors.  A [uint] is an integer of 32 bits; the masks and shifts are
    the macros' own.  The theorems give each macro its arithmetic meaning and
    the round trips between an address and its parts. *)

From stdpp Require Import base numbers.
From Stdlib Require Import ZArith Lia.
From S2P Require Import Prelude.
#[local] Open Scope Z_scope.

(** ** Definitions *)

Definition PGSIZE : Z := 4096.
Definition NPDENTRIES : Z := 1024.
Definition NPTENTRIES : Z := 1024.
Definition PTXSHIFT : Z := 12.
Definition PDXSHIFT : Z := 22.

Definition PTE_P : Z := 0x001.
Definition PTE_W : Z := 0x002.
Definition PTE_U : Z := 0x004.
Definition PTE_PS : Z := 0x080.

Definition PDX (va : Z) : Z := Z.land (Z.shiftr (u32 va) PDXSHIFT) 0x3FF.
Definition PTX (va : Z) : Z := Z.land (Z.shiftr (u32 va) PTXSHIFT) 0x3FF.
Definition PGADDR (d t o : Z) : Z :=
  u32 (Z.lor (Z.lor (Z.shiftl d PDXSHIFT) (Z.shiftl t PTXSHIFT)) o).

Definition PGROUNDUP (sz : Z) : Z := Z.land (u32 (sz + PGSIZE - 1)) (Z.lnot (PGSIZE - 1)).
Definition PGROUNDDOWN (a : Z) : Z := Z.land (u32 a) (Z.lnot (PGSIZE - 1)).

Definition PTE_ADDR (pte : Z) : Z := Z.land (u32 pte) (Z.lnot 0xFFF).
Definition PTE_FLAGS (pte : Z) : Z := Z.land (u32 pte) 0xFFF.

Definition EXTMEM : Z := 0x100000.
Definition PHYSTOP : Z := 0xE000000.
Definition DEVSPACE : Z := 0xFE000000.
Definition KERNBASE : Z := 0x80000000.
Definition KERNLINK : Z := KERNBASE + EXTMEM.

Definition V2P (a : Z) : Z := u32 (u32 a - KERNBASE).
Definition P2V (a : Z) : Z := u32 (a + KERNBASE).

(** [struct segdesc], field by field. *)
Record segdesc := MkSeg {
  lim_15_0 : Z; base_15_0 : Z; base_23_16 : Z; seg_type : Z; seg_s : Z; seg_dpl : Z;
  seg_p : Z; lim_19_16 : Z; seg_avl : Z; seg_rsv1 : Z; seg_db : Z; seg_g : Z; base_31_24 : Z
}.

Definition SEG (type base lim dpl : Z) : segdesc :=
  MkSeg (Z.land (Z.shiftr lim 12) 0xffff) (Z.land (u32 base) 0xffff)
    (Z.land (Z.shiftr (u32 base) 16) 0xff) type 1 dpl 1
    (Z.shiftr (u32 lim) 28) 0 0 1 1 (Z.shiftr (u32 base) 24).

Definition SEG16 (type base lim dpl : Z) : segdesc :=
  MkSeg (Z.land lim 0xffff) (Z.land (u32 base) 0xffff)
    (Z.land (Z.shiftr (u32 base) 16) 0xff) type 1 dpl 1
    (Z.shiftr (u32 lim) 16) 0 0 1 0 (Z.shiftr (u32 base) 24).

(** [struct gatedesc]. *)
Record gatedesc := MkGate {
  off_15_0 : Z; gate_cs : Z; gate_args : Z; gate_rsv1 : Z; gate_type : Z; gate_s : Z;
  gate_dpl : Z; gate_p : Z; off_31_16 : Z
}.

Definition STS_IG32 : Z := 0xE.
Definition STS_TG32 : Z := 0xF.

Definition SETGATE (istrap : bool) (sel off d : Z) : gatedesc :=
  MkGate (Z.land (u32 off) 0xffff) sel 0 0 (if istrap then STS_TG32 else STS_IG32) 0 d 1
    (Z.shiftr (u32 off) 16).

(** *** Specification: how the hardware reads a descriptor *)

Definition seg_base (s : segdesc) : Z :=
  base_15_0 s + 2 ^ 16 * base_23_16 s + 2 ^ 24 * base_31_24 s.

(** The last address of a segment: 4 KB units when the granularity bit is set. *)
Definition seg_limit (s : segdesc) : Z :=
  let lim := lim_15_0 s + 2 ^ 16 * lim_19_16 s in
  if seg_g s =? 1 then lim * PGSIZE + (PGSIZE - 1) else lim.

Definition gate_offset (g : gatedesc) : Z := off_15_0 g + 2 ^ 16 * off_31_16 g.

(** ** Lemmas *)

(** Clearing the low [n] bits. *)
Lemma land_lnot_ones x n : 0 <= n → Z.land x (Z.lnot (Z.ones n)) = x / 2 ^ n * 2 ^ n.
Proof.
  intros Hn. rewrite <- Z.ldiff_land, Z.ldiff_ones_r by done.
  by rewrite Z.shiftl_mul_pow2, Z.shiftr_div_pow2 by done.
Qed.

(** Keeping the low [n] bits. *)
Lemma land_mask x n : 0 <= n → Z.land x (Z.ones n) = x mod 2 ^ n.
Proof. apply Z.land_ones. Qed.

Lemma PGROUNDDOWN_arith a : PGROUNDDOWN a = u32 a / PGSIZE * PGSIZE.
Proof. apply (land_lnot_ones (u32 a) 12). lia. Qed.

Lemma PGROUNDUP_arith a : PGROUNDUP a = u32 (a + PGSIZE - 1) / PGSIZE * PGSIZE.
Proof. apply (land_lnot_ones _ 12). lia. Qed.

Lemma PTE_ADDR_arith p : PTE_ADDR p = u32 p / PGSIZE * PGSIZE.
Proof. apply (land_lnot_ones (u32 p) 12). lia. Qed.

Lemma PTE_FLAGS_arith p : PTE_FLAGS p = u32 p mod PGSIZE.
Proof. apply (land_mask (u32 p) 12). lia. Qed.

Lemma PDX_arith va : PDX va = u32 va / 2 ^ 22.
Proof.
  unfold PDX, PDXSHIFT. rewrite (land_mask _ 10), Z.shiftr_div_pow2 by lia.
  apply Z.mod_small. pose proof (u32_range va) as H. split.
  - apply Z.div_pos; lia.
  - apply Z.div_lt_upper_bound; lia.
Qed.

Lemma PTX_arith va : PTX va = u32 va / 2 ^ 12 mod 2 ^ 10.
Proof. unfold PTX, PTXSHIFT. by rewrite (land_mask _ 10), Z.shiftr_div_pow2 by lia. Qed.

(** Fields that do not overlap can be added. *)
Lemma lor_shift_add a n o : 0 <= n → 0 <= o < 2 ^ n → Z.lor (Z.shiftl a n) o = a * 2 ^ n + o.
Proof.
  intros Hn Ho. rewrite <- Z.shiftl_mul_pow2 by done.
  assert (Z.land (Z.shiftl a n) o = 0) as E.
  { apply Z.bits_inj'. intros i Hi. rewrite Z.bits_0, Z.land_spec.
    destruct (Z.lt_ge_cases i n); [by rewrite Z.shiftl_spec_low|].
    rewrite <- (Z.mod_small o (2 ^ n)), Z.mod_pow2_bits_high by lia. apply andb_false_r. }
  by rewrite <- Z.lxor_lor, <- Z.add_nocarry_lxor by done.
Qed.

Lemma PGADDR_arith d t o :
  0 <= d < 2 ^ 10 → 0 <= t < 2 ^ 10 → 0 <= o < 2 ^ 12 →
  PGADDR d t o = d * 2 ^ 22 + t * 2 ^ 12 + o.
Proof.
  intros Hd Ht Ho. unfold PGADDR, PDXSHIFT, PTXSHIFT.
  rewrite <- Z.lor_assoc, (lor_shift_add t), lor_shift_add by lia.
  rewrite u32_small by lia. lia.
Qed.

(** ** Properties *)

(** A virtual address and its page directory index, page table index and
    offset determine each other. *)
Theorem pgaddr_roundtrip (va d t o : Z) :
  0 <= va < 2 ^ 32 → 0 <= d < NPDENTRIES → 0 <= t < NPTENTRIES → 0 <= o < PGSIZE →
  PGADDR (PDX va) (PTX va) (Z.land va 0xFFF) = va ∧
  PDX (PGADDR d t o) = d ∧ PTX (PGADDR d t o) = t.
Proof.
  unfold NPDENTRIES, NPTENTRIES, PGSIZE. intros Hva Hd Ht Ho.
  change 0xFFF with (Z.ones 12). rewrite land_mask by lia. split.
  - rewrite PDX_arith, PTX_arith, u32_small by done.
    assert (va / 2 ^ 22 = va / 2 ^ 12 / 2 ^ 10) as -> by (rewrite Z.div_div by lia; done).
    pose proof (Z.div_mod va (2 ^ 12)). pose proof (Z.div_mod (va / 2 ^ 12) (2 ^ 10)).
    pose proof (Z.mod_pos_bound va (2 ^ 12)). pose proof (Z.mod_pos_bound (va / 2 ^ 12) (2 ^ 10)).
    assert (0 <= va / 2 ^ 12 / 2 ^ 10 < 2 ^ 10).
    { rewrite Z.div_div by lia. split; [apply Z.div_pos|apply Z.div_lt_upper_bound]; lia. }
    rewrite PGADDR_arith by lia. lia.
  - rewrite PDX_arith, PTX_arith, PGADDR_arith, u32_small by lia. split.
    + symmetry. apply (Z.div_unique _ _ d (t * 2 ^ 12 + o)); lia.
    + replace (d * 2 ^ 22 + t * 2 ^ 12 + o) with ((d * 2 ^ 10 + t) * 2 ^ 12 + o) by lia.
      rewrite Z.div_add_l, (Z.div_small o), Z.add_0_r by lia.
      rewrite Z.add_comm, Z.mod_add, Z.mod_small by lia. done.
Qed.

(** Rounding to pages.  [PGROUNDDOWN] gives the page that contains the
    address; [PGROUNDUP] gives the least page boundary at or above it, except
    within the last page of the address space, where it wraps to 0. *)
Theorem pground_correct (a : Z) :
  0 <= a < 2 ^ 32 →
  (PGROUNDDOWN a mod PGSIZE = 0 ∧ PGROUNDDOWN a <= a < PGROUNDDOWN a + PGSIZE) ∧
  (a <= 2 ^ 32 - PGSIZE →
     PGROUNDUP a mod PGSIZE = 0 ∧ a <= PGROUNDUP a < a + PGSIZE) ∧
  (2 ^ 32 - PGSIZE < a → PGROUNDUP a = 0).
Proof.
  unfold PGSIZE. intros Ha. rewrite PGROUNDDOWN_arith, PGROUNDUP_arith. unfold PGSIZE.
  rewrite (u32_small a) by done. split_and!.
  - by rewrite Z.mod_mul.
  - pose proof (Z.mul_div_le a 4096). lia.
  - pose proof (Z.mul_succ_div_gt a 4096). lia.
  - intros Hle. rewrite u32_small by lia. split; [by rewrite Z.mod_mul|].
    pose proof (Z.mul_div_le (a + 4096 - 1) 4096).
    pose proof (Z.mul_succ_div_gt (a + 4096 - 1) 4096). lia.
  - intros Hlt. unfold u32, wrapu. replace (a + 4096 - 1) with (a + 4096 - 1 - 2 ^ 32 + 1 * 2 ^ 32) by lia.
    rewrite Z.mod_add, (Z.mod_small (a + 4096 - 1 - 2 ^ 32)) by lia.
    rewrite Z.div_small by lia. done.
Qed.

(** A page table entry is its page address plus its flags, and the two
    directions of the kernel's direct map undo each other. *)
Theorem pte_parts (p a : Z) :
  0 <= p < 2 ^ 32 → 0 <= a < 2 ^ 32 →
  PTE_ADDR p + PTE_FLAGS p = p ∧ PTE_ADDR p mod PGSIZE = 0 ∧
  V2P (P2V a) = a ∧ P2V (V2P a) = a.
Proof.
  unfold PGSIZE. intros Hp Ha. rewrite PTE_ADDR_arith, PTE_FLAGS_arith, u32_small by done.
  unfold PGSIZE. split_and!.
  - pose proof (Z.div_mod p 4096). lia.
  - by rewrite Z.mod_mul.
  - unfold V2P, P2V. rewrite u32_idemp. unfold u32, wrapu.
    rewrite Zminus_mod_idemp_l. replace (a + KERNBASE - KERNBASE) with a by lia.
    by apply Z.mod_small.
  - unfold V2P, P2V. rewrite (u32_small a) by done. unfold u32, wrapu.
    rewrite Zplus_mod_idemp_l. replace (a - KERNBASE + KERNBASE) with a by lia.
    by apply Z.mod_small.
Qed.

(** The descriptors decode to what they were built from: [SEG] to the base
    and to the limit rounded up to a page, [SETGATE] to the handler address. *)
Theorem descriptors_decode (type base lim dpl sel off d : Z) (istrap : bool) :
  0 <= base < 2 ^ 32 → 0 <= lim < 2 ^ 32 → 0 <= off < 2 ^ 32 →
  seg_base (SEG type base lim dpl) = base ∧
  seg_limit (SEG type base lim dpl) = lim / PGSIZE * PGSIZE + (PGSIZE - 1) ∧
  gate_offset (SETGATE istrap sel off d) = off.
Proof.
  intros Hb Hl Ho. unfold seg_base, seg_limit, gate_offset, SEG, SETGATE, PGSIZE; cbn -[Z.pow Z.mul].
  change 65535 with (Z.ones 16). change 255 with (Z.ones 8).
  rewrite !u32_small, !land_mask, !Z.shiftr_div_pow2 by lia. split_and!.
  - assert (base / 2 ^ 24 = base / 2 ^ 16 / 2 ^ 8) as -> by (rewrite Z.div_div by lia; done).
    pose proof (Z.div_mod base (2 ^ 16)). pose proof (Z.div_mod (base / 2 ^ 16) (2 ^ 8)). lia.
  - assert (lim / 2 ^ 28 = lim / 2 ^ 12 / 2 ^ 16) as -> by (rewrite Z.div_div by lia; done).
    change (2 ^ 12) with 4096. pose proof (Z.div_mod (lim / 4096) (2 ^ 16)). lia.
  - pose proof (Z.div_mod off (2 ^ 16)). lia.
Qed.

Lemma pgaddr_roundtrip_witness :
  PGADDR (PDX 0x80104567) (PTX 0x80104567) (Z.land 0x80104567 0xFFF) = 0x80104567 ∧
  PDX (PGADDR 512 7 9) = 512 ∧ PTX (PGADDR 512 7 9) = 7.
Proof. apply (pgaddr_roundtrip 0x80104567 512 7 9); vm_compute; split; congruence. Defined.

Lemma pground_correct_witness :
  PGROUNDDOWN 0x80104567 mod PGSIZE = 0 ∧
  PGROUNDDOWN 0x80104567 <= 0x80104567 < PGROUNDDOWN 0x80104567 + PGSIZE.
Proof.
  destruct (pground_correct 0x80104567) as [H _]; [vm_compute; split; congruence|exact H].
Defined.

Lemma pte_parts_witness :
  PTE_ADDR 0x1234067 + PTE_FLAGS 0x1234067 = 0x1234067 ∧ PTE_ADDR 0x1234067 mod PGSIZE = 0 ∧
  V2P (P2V 0x1234000) = 0x1234000 ∧ P2V (V2P 0x1234000) = 0x1234000.
Proof. apply (pte_parts 0x1234067 0x1234000); vm_compute; split; congruence. Defined.

Lemma descriptors_decode_witness :
  seg_base (SEG 10 0 0xffffffff 0) = 0 ∧
  seg_limit (SEG 10 0 0xffffffff 0) = 0xffffffff / PGSIZE * PGSIZE + (PGSIZE - 1) ∧
  gate_offset (SETGATE true 8 0x80105678 3) = 0x80105678.
Proof.
  apply (descriptors_decode 10 0 0xffffffff 0 8 0x80105678 3 true); vm_compute; split; congruence.
Defined.
