(* ===== verification/Mp.v ===== *)
(** The search for the multiprocessor tables at boot ([mp.c], [mp.h]).

    The memory is the byte memory of the kernel, at kernel virtual addresses;
    the code only reads it.  What [mpinit] sets is a record of its own: the
    array [cpus] is the list of the local APIC identifiers of the [ncpu]
    processors found, and writes to ports are recorded, last first. *)

From stdpp Require Import base gmap list strings.
From Stdlib Require Import ZArith Lia.
From S2P Require Import Prelude CString Mmu.
#[local] Open Scope Z_scope.

(** ** The code *)

Definition NCPU : nat := 8.

Definition MPPROC : Z := 0.
Definition MPBUS : Z := 1.
Definition MPIOAPIC : Z := 2.
Definition MPIOINTR : Z := 3.
Definition MPLINTR : Z := 4.

(** [struct mp], [struct mpconf], [struct mpproc] and [struct mpioapic]: sizes
    and the fields that are read. *)
Definition mp_size : Z := 16.
Definition mp_physaddr (m : gmap Z Z) (p : Z) : Z := rd32 m (p + 4).
Definition mp_imcrp (m : gmap Z Z) (p : Z) : Z := rd m (p + 12).
Definition mpconf_size : Z := 44.
Definition mpconf_length (m : gmap Z Z) (p : Z) : Z := rd m (p + 4) + 2 ^ 8 * rd m (p + 5).
Definition mpconf_version (m : gmap Z Z) (p : Z) : Z := rd m (p + 6).
Definition mpconf_lapicaddr (m : gmap Z Z) (p : Z) : Z := rd32 m (p + 36).
Definition mpproc_size : Z := 20.
Definition mpioapic_size : Z := 8.

(** [memcmp(p, s, n) == 0] for a string literal [s] of length [n]. *)
Fixpoint same_bytes (m : gmap Z Z) (p : Z) (s : list Z) : bool :=
  match s with
  | [] => true
  | c :: s => (rd m p =? c) && same_bytes m (p + 1) s
  end.

Definition MP_SIGNATURE : list Z := [95; 77; 80; 95].
Definition PCMP_SIGNATURE : list Z := [80; 67; 77; 80].

Fixpoint sum_loop (m : gmap Z Z) (addr : Z) (n : nat) (sum : Z) : Z :=
  match n with
  | O => sum
  | S n => sum_loop m (addr + 1) n (i32 (sum + rd m addr))
  end.

Definition sum (m : gmap Z Z) (addr len : Z) : Z := u8 (sum_loop m addr (Z.to_nat len) 0).

Fixpoint mpsearch1_loop (fuel : nat) (m : gmap Z Z) (p e : Z) : option Z :=
  match fuel with
  | O => None
  | S fuel =>
      if p <? e then
        if same_bytes m p MP_SIGNATURE && (sum m p mp_size =? 0) then Some p
        else mpsearch1_loop fuel m (p + mp_size) e
      else None
  end.

Definition mpsearch1 (m : gmap Z Z) (a len : Z) : option Z :=
  let addr := P2V a in
  mpsearch1_loop (Z.to_nat len) m addr (addr + len).

Definition mpsearch (m : gmap Z Z) : option Z :=
  let bda := P2V 0x400 in
  let p := Z.shiftl (Z.lor (Z.shiftl (rd m (bda + 0x0f)) 8) (rd m (bda + 0x0e))) 4 in
  match
    (if negb (p =? 0) then mpsearch1 m p 1024
     else
       let p := Z.lor (Z.shiftl (rd m (bda + 0x14)) 8) (rd m (bda + 0x13)) * 1024 in
       mpsearch1 m (u32 (p - 1024)) 1024)
  with
  | Some mp => Some mp
  | None => mpsearch1 m 0xf0000 0x10000
  end.

(** The floating pointer structure and the configuration table. *)
Definition mpconfig (m : gmap Z Z) : option (Z * Z) :=
  match mpsearch m with
  | None => None
  | Some mp =>
      if mp_physaddr m mp =? 0 then None else
      let conf := P2V (mp_physaddr m mp) in
      if negb (same_bytes m conf PCMP_SIGNATURE) then None else
      if negb (mpconf_version m conf =? 1) && negb (mpconf_version m conf =? 4) then None else
      if negb (sum m conf (mpconf_length m conf) =? 0) then None else
      Some (mp, conf)
  end.

Record machine := MkMachine {
  cpu_apicids : list Z; ioapicid : Z; lapic : Z; outs : list (Z * Z)
}.
#[global] Instance eta_machine : Eta machine := λ s,
  MkMachine (cpu_apicids s) (ioapicid s) (lapic s) (outs s).

Definition outb (port v : Z) : M machine unit := modify (λ s, s <|outs ::= cons (port, u8 v)|>).

(** The loop over the entries of the table; returns [ismp]. *)
Fixpoint mpinit_loop (fuel : nat) (m : gmap Z Z) (p e : Z) (ismp : bool) : M machine bool :=
  match fuel with
  | O => λ _, Loop
  | S fuel =>
      if p <? e then
        let t := rd m p in
        if t =? MPPROC then
          (let! n := gets (λ s, length (cpu_apicids s)) in
           when (n <? NCPU)%nat do modify (λ s, s <|cpu_apicids ::= λ l, l ++ [rd m (p + 1)]|>));;;
          mpinit_loop fuel m (p + mpproc_size) e ismp
        else if t =? MPIOAPIC then
          modify (λ s, s <|ioapicid := rd m (p + 1)|>);;;
          mpinit_loop fuel m (p + mpioapic_size) e ismp
        else if (t =? MPBUS) || (t =? MPIOINTR) || (t =? MPLINTR) then
          mpinit_loop fuel m (p + 8) e ismp
        else mpinit_loop fuel m p e false
      else ret ismp
  end.

(** [imcr] is what [inb(0x23)] reads. *)
Definition mpinit (fuel : nat) (m : gmap Z Z) (imcr : Z) : M machine unit :=
  match mpconfig m with
  | None => panic "Expect to run on an SMP"
  | Some (mp, conf) =>
      modify (λ s, s <|lapic := mpconf_lapicaddr m conf|>);;;
      let! ismp := mpinit_loop fuel m (conf + mpconf_size) (conf + mpconf_length m conf) true in
      if negb ismp then panic "Didn't find a suitable machine" else
      when negb (mp_imcrp m mp =? 0) do
        (outb 0x22 0x70;;; outb 0x23 (Z.lor imcr 1))
  end.

(** ** Specification *)

(** The bytes that an entry of type [t] takes. *)
Definition entry_size (t : Z) : option Z :=
  if t =? MPPROC then Some 20
  else if (t =? MPIOAPIC) || (t =? MPBUS) || (t =? MPIOINTR) || (t =? MPLINTR) then Some 8
  else None.

(** The entries from [p] on, by type and second byte; [q] is where the entry
    after them starts. *)
Fixpoint entries (m : gmap Z Z) (p e : Z) (L : list (Z * Z)) (q : Z) : Prop :=
  match L with
  | [] => p = q
  | (t, x) :: L => p < e ∧ rd m p = t ∧ rd m (p + 1) = x ∧
      ∃ n, entry_size t = Some n ∧ entries m (p + n) e L q
  end.

Definition processors (L : list (Z * Z)) : list Z := (filter (λ x, x.1 = MPPROC) L).*2.
Definition io_apics (L : list (Z * Z)) : list Z := (filter (λ x, x.1 = MPIOAPIC) L).*2.

(** A place where the search looks: the signature and a checksum of zero. *)
Definition is_mp (m : gmap Z Z) (p : Z) : Prop :=
  same_bytes m p MP_SIGNATURE = true ∧ sum m p mp_size = 0.

(** ** Lemmas *)

(** The byte returned is the sum of the bytes modulo 256. *)
Lemma sum_loop_eq m n a s :
  u8 (sum_loop m a n s) = u8 (s + foldr Z.add 0 (map (λ i, rd m (a + Z.of_nat i)) (seq 0 n))).
Proof.
  revert a s. induction n as [|n IH]; intros a s; cbn [sum_loop seq map foldr]; [f_equal; lia|].
  rewrite IH, <- seq_shift, map_map. replace (a + Z.of_nat 0) with a by lia.
  replace (map (λ i, rd m (a + Z.of_nat (S i))) (seq 0 n)) with (map (λ i, rd m (a + 1 + Z.of_nat i)) (seq 0 n)).
  2: { apply map_ext. intros i. f_equal. lia. }
  generalize (foldr Z.add 0 (map (λ i, rd m (a + 1 + Z.of_nat i)) (seq 0 n))) as r. intros r.
  unfold u8, i32, wrapu, wraps. change (2 ^ (32 - 1)) with (2 ^ 31). zdiv.
Qed.

Lemma mpsearch1_loop_spec fuel m p e k :
  (∀ i, 0 <= i < k → ¬ is_mp m (p + 16 * i)) → is_mp m (p + 16 * k) → 0 <= k → p + 16 * k < e →
  (Z.to_nat k < fuel)%nat → mpsearch1_loop fuel m p e = Some (p + 16 * k).
Proof.
  revert p k. induction fuel as [|fuel IH]; intros p k Hno Hk H0 He Hf; [lia|]. cbn [mpsearch1_loop].
  replace (p <? e) with true by lia. destruct (decide (k = 0)) as [->|Hne].
  - replace (p + 16 * 0) with p in * by lia. destruct Hk as [-> ->]. done.
  - assert (same_bytes m p MP_SIGNATURE && (sum m p mp_size =? 0) = false) as ->.
    { specialize (Hno 0 ltac:(lia)). replace (p + 16 * 0) with p in Hno by lia. unfold is_mp in Hno.
      destruct (same_bytes m p MP_SIGNATURE), (Z.eqb_spec (sum m p mp_size) 0); naive_solver. }
    rewrite (IH (p + mp_size) (k - 1)); unfold mp_size; [f_equal; lia| | |lia|lia|lia].
    + intros i Hi. replace (p + 16 + 16 * i) with (p + 16 * (i + 1)) by lia. apply Hno. lia.
    + by replace (p + 16 + 16 * (k - 1)) with (p + 16 * k) by lia.
Qed.

(** One round of the loop. *)
Definition entry_effect (t x : Z) (s : machine) : machine :=
  if t =? MPPROC then s <|cpu_apicids ::= λ l, if (length l <? NCPU)%nat then l ++ [x] else l|>
  else if t =? MPIOAPIC then s <|ioapicid := x|>
  else s.

Lemma mpinit_loop_entry fuel m p e ismp n s :
  p < e → entry_size (rd m p) = Some n →
  mpinit_loop (S fuel) m p e ismp s =
    mpinit_loop fuel m (p + n) e ismp (entry_effect (rd m p) (rd m (p + 1)) s).
Proof.
  intros Hp Hn. cbn [mpinit_loop]. replace (p <? e) with true by lia. unfold entry_size, entry_effect in *.
  destruct (Z.eqb_spec (rd m p) MPPROC) as [E|_]; [injection Hn as <-|].
  - rewrite bind_assoc, bind_gets. destruct (length (cpu_apicids s) <? NCPU)%nat eqn:El.
    + rewrite bind_modify. f_equal. destruct s. unfold update. cbn -[Nat.ltb] in *. by rewrite El.
    + rewrite bind_ret_l. f_equal. destruct s. unfold update. cbn -[Nat.ltb] in *. by rewrite El.
  - destruct (Z.eqb_spec (rd m p) MPIOAPIC) as [E|_]; cbn [orb] in Hn; [injection Hn as <-; by rewrite bind_modify|].
    destruct ((rd m p =? MPBUS) || (rd m p =? MPIOINTR) || (rd m p =? MPLINTR)); [by injection Hn as <-|done].
Qed.

Lemma mpinit_loop_entries fuel m p e L q ismp s :
  entries m p e L q →
  mpinit_loop (length L + fuel) m p e ismp s =
    mpinit_loop fuel m q e ismp (foldl (λ s x, entry_effect x.1 x.2 s) s L).
Proof.
  revert p s. induction L as [|[t x] L IH]; intros p s; cbn [entries]; [by intros <-|].
  intros (Hp & Ht & Hx & n & Hn & HL). subst t x. cbn [length Nat.add foldl].
  rewrite (mpinit_loop_entry _ _ _ _ _ n) by done. by apply IH.
Qed.

Lemma effects_eq L s :
  (length (cpu_apicids s) <= NCPU)%nat →
  foldl (λ s x, entry_effect x.1 x.2 s) s L =
    s <|cpu_apicids := take NCPU (cpu_apicids s ++ processors L)|>
      <|ioapicid := default (ioapicid s) (last (io_apics L))|>.
Proof.
  revert s. induction L as [|[t x] L IH]; intros s Hs; cbn [foldl].
  { unfold processors, io_apics. cbn. rewrite app_nil_r, take_ge by done. by destruct s. }
  rewrite IH; clear IH.
  - unfold entry_effect, processors, io_apics. rewrite !filter_cons. cbn [fst snd]. destruct s as [cs io la os]. cbn in Hs.
    destruct (Z.eqb_spec t MPPROC) as [->|H1]; [|destruct (Z.eqb_spec t MPIOAPIC) as [->|H2]].
    + destruct (decide (MPPROC = MPPROC)) as [_|]; [|done]. destruct (decide (MPPROC = MPIOAPIC)); [done|].
      unfold update. cbn -[Nat.ltb NCPU take]. destruct (Nat.ltb_spec (length cs) NCPU).
      * by rewrite <- app_assoc.
      * rewrite !take_app_ge, !(proj2 (Nat.sub_0_le _ _)) by lia. done.
    + destruct (decide (MPIOAPIC = MPPROC)); [done|]. destruct (decide (MPIOAPIC = MPIOAPIC)) as [_|]; [|done].
      unfold update. cbn -[NCPU take last]. rewrite last_cons. by destruct (last _).
    + destruct (decide (t = MPPROC)); [done|]. by destruct (decide (t = MPIOAPIC)).
  - unfold entry_effect. cbn [fst snd]. destruct (t =? MPPROC), (t =? MPIOAPIC); rsimpl; try done;
      destruct (Nat.ltb_spec (length (cpu_apicids s)) NCPU); rewrite ?length_app; cbn [length]; lia.
Qed.

Lemma mpinit_loop_short fuel m p e L q ismp s :
  entries m p e L q → (fuel <= length L)%nat → mpinit_loop fuel m p e ismp s = Loop.
Proof.
  revert p L s. induction fuel as [|fuel IH]; intros p L s HL Hf; [done|].
  destruct L as [|[t x] L]; [cbn in Hf; lia|]. destruct HL as (Hp & Ht & Hx & n & Hn & HL). subst t.
  rewrite (mpinit_loop_entry _ _ _ _ _ n) by done. apply (IH _ L); [done|cbn in Hf; lia].
Qed.

(** An entry of another type is never passed. *)
Lemma mpinit_loop_stuck fuel m p e ismp s :
  p < e → entry_size (rd m p) = None → mpinit_loop fuel m p e ismp s = Loop.
Proof.
  intros Hp Hn. revert ismp. induction fuel as [|fuel IH]; intros ismp; [done|]. cbn [mpinit_loop].
  replace (p <? e) with true by lia. unfold entry_size in Hn.
  destruct (rd m p =? MPPROC), (rd m p =? MPIOAPIC), (rd m p =? MPBUS), (rd m p =? MPIOINTR), (rd m p =? MPLINTR);
    try discriminate; apply IH.
Qed.

(** ** Properties *)

(** On a machine with a valid table of known entries, [mpinit] returns: it
    has recorded the local APIC of every processor entry in the order of the
    table, up to [NCPU] of them, the last I/O APIC, the address of the local
    APIC, and masked external interrupts if there is an IMCR. *)
Theorem mpinit_correct (m : gmap Z Z) (imcr mp conf q : Z) (L : list (Z * Z)) (fuel : nat) (s : machine)
    (Hconf : mpconfig m = Some (mp, conf))
    (Hentries : entries m (conf + 44) (conf + mpconf_length m conf) L q)
    (Hend : conf + mpconf_length m conf <= q)
    (Hcpus : (length (cpu_apicids s) <= NCPU)%nat) (Hfuel : (length L < fuel)%nat) :
  mpinit fuel m imcr s = Ret tt (s
    <|lapic := mpconf_lapicaddr m conf|>
    <|cpu_apicids := take NCPU (cpu_apicids s ++ processors L)|>
    <|ioapicid := default (ioapicid s) (last (io_apics L))|>
    <|outs := (if mp_imcrp m mp =? 0 then [] else [(0x23, u8 (Z.lor imcr 1)); (0x22, 0x70)]) ++ outs s|>).
Proof.
  unfold mpinit. rewrite Hconf, bind_modify. replace fuel with (length L + S (fuel - length L - 1))%nat by lia.
  unfold mpconf_size. erewrite bind_Ret.
  2: { rewrite (mpinit_loop_entries _ _ _ _ L q) by done. cbn [mpinit_loop].
    replace (q <? conf + mpconf_length m conf) with false by lia. unfold ret. by rewrite effects_eq by done. }
  cbn [negb]. unfold outb. destruct (mp_imcrp m mp =? 0); cbn [negb]; [by destruct s|]. rewrite bind_modify. by destruct s.
Qed.

(** C33: An entry of an unknown type makes [mpinit] hang: the [break] leaves the
    [switch], not the loop, so the panic for unsuitable machines after the loop
    is not reached. *)
Theorem mpinit_hangs (m : gmap Z Z) (imcr mp conf q : Z) (L : list (Z * Z)) (fuel : nat) (s : machine)
    (Hconf : mpconfig m = Some (mp, conf))
    (Hentries : entries m (conf + 44) (conf + mpconf_length m conf) L q)
    (Hq : q < conf + mpconf_length m conf) (Hunknown : entry_size (rd m q) = None) :
  mpinit fuel m imcr s = Loop.
Proof.
  unfold mpinit. rewrite Hconf, bind_modify. unfold mpconf_size, bind.
  destruct (Nat.le_gt_cases (length L) fuel) as [Hf|Hf].
  - replace fuel with (length L + (fuel - length L))%nat by lia.
    rewrite (mpinit_loop_entries _ _ _ _ L q) by done. by rewrite mpinit_loop_stuck.
  - by rewrite (mpinit_loop_short _ _ _ _ L q) by (done || lia).
Qed.

(** ** Witnesses *)

(** A machine whose extended BIOS data area, at 0x9fc00, has the floating
    pointer, with the table behind it. *)
Definition store_bytes (m : gmap Z Z) (a : Z) (l : list Z) : gmap Z Z :=
  foldl (λ m x, wr m (P2V a + Z.of_nat x.1) x.2) m (imap pair l).

Definition mp_bytes : list Z := MP_SIGNATURE ++ [0x40; 0xfc; 9; 0; 1; 4; 91; 0; 0; 0; 0; 0].
Definition conf_bytes (ck : Z) (tail : list Z) : list Z :=
  PCMP_SIGNATURE ++ [44 + Z.of_nat (length tail); 0; 4; ck] ++ replicate 28 0 ++
  [0; 0; 0xe0; 0xfe] ++ replicate 4 0 ++ tail.
Definition boot_memory (ck : Z) (tail : list Z) : gmap Z Z :=
  store_bytes (store_bytes (store_bytes ∅ 0x40e [0xc0; 0x9f]) 0x9fc00 mp_bytes) 0x9fc40 (conf_bytes ck tail).

(** Two processors, a bus and an I/O APIC. *)
Definition m_two : gmap Z Z :=
  boot_memory 122 ([0; 0] ++ replicate 18 0 ++ [0; 1] ++ replicate 18 0 ++ [1; 7; 0; 0; 0; 0; 0; 0] ++
    [2; 5; 0; 0; 0; 0; 0; 0]).
(** A processor and an entry of type 9. *)
Definition m_odd : gmap Z Z := boot_memory 163 ([0; 0] ++ replicate 18 0 ++ [9; 0]).
Definition machine0 : machine := MkMachine [] 0 0 [].

Lemma mpinit_correct_witness :
  mpinit 5 m_two 0 machine0 = Ret tt (MkMachine [0; 1] 5 0xfee00000 []).
Proof.
  rewrite (mpinit_correct m_two 0 0x8009fc00 0x8009fc40 0x8009fca4 [(0, 0); (0, 1); (1, 7); (2, 5)] 5 machine0);
    [vm_compute; reflexivity|vm_compute; reflexivity| |vm_compute; discriminate|vm_compute; lia|vm_compute; lia].
  repeat first [split; [vm_compute; reflexivity|]|eexists]; vm_compute; reflexivity.
Defined.

Lemma mpinit_hangs_witness : mpinit 1000 m_odd 0 machine0 = Loop.
Proof.
  apply (mpinit_hangs m_odd 0 0x8009fc00 0x8009fc40 (0x8009fc40 + 44 + 20) [(0, 0)] 1000 machine0);
    [vm_compute; reflexivity| |vm_compute; reflexivity|vm_compute; reflexivity].
  repeat first [split; [vm_compute; reflexivity|]|eexists]; vm_compute; reflexivity.
Defined.
