(* ===== verification/State.v ===== *)
(** The global state of the kernel: the records of [proc.h], [spinlock.h],
    [sleeplock.h], [x86.h], [file.h], [buf.h], [fs.h], [log.c], [pipe.c] and
    [console.c], and one record with the kernel's global variables.

    Pointers are modelled by what they can point to.  A [struct proc *] is a
    slot of the process table or, because the stride scheduler keeps copies
    of processes in an array of its own stack frame, a slot of that array;
    [struct file *] and [struct inode *] are slots of their tables; a kernel
    stack or page is its address.  Spin locks and sleep locks are named by
    the object that contains them. *)

From stdpp Require Import base gmap strings list countable.
From Stdlib Require Import ZArith.
From S2P Require Import Prelude Heap.
#[local] Open Scope Z_scope.

(** ** Constants of [param.h], [memlayout.h] and [mmu.h] *)

Definition NPROC : nat := 64.
Definition KSTACKSIZE : Z := 4096.
Definition NOFILE : nat := 16.
Definition NFILE : nat := 100.
Definition NINODE : nat := 50.
Definition NDEV : Z := 10.
Definition ROOTDEV : Z := 1.
Definition MAXOPBLOCKS : Z := 10.
Definition LOGSIZE : Z := MAXOPBLOCKS * 3.
Definition NBUF : nat := 30.
Definition FSSIZE : Z := 1000.
Definition STRIDE1 : Z := 1024.
Definition TICKETS_INIT : Z := 8.
Definition TICKETS_MAX : Z := 32.

(** ** Interrupts of [traps.h] *)

Definition T_IRQ0 : Z := 32.
Definition IRQ_TIMER : Z := 0.
Definition IRQ_KBD : Z := 1.
Definition IRQ_COM1 : Z := 4.
Definition IRQ_IDE : Z := 14.
Definition IRQ_ERROR : Z := 19.
Definition IRQ_SPURIOUS : Z := 31.

(** ** Names *)

(** [struct proc *]: [&ptable.proc[i]], or [&heap.arr[i]] in the frame of
    [sched_stride]. *)
Inductive pptr : Set := PT (i : nat) | HP (i : nat).

(** The sleep locks: one in each buffer and one in each inode. *)
Inductive sleepid : Set := SlBuf (i : nat) | SlInode (i : nat).

(** The spin locks; [LSleep s] is the spin lock inside sleep lock [s]. *)
Inductive lockid : Set :=
| LPtable | LTicks | LKmem | LCons | LBcache | LIcache | LFtable | LLog | LIde
| LPipe (a : Z) | LSleep (s : sleepid).

(** The addresses processes sleep on. *)
Inductive channel : Set :=
| ChProc (p : pptr) | ChTicks | ChLog | ChSleep (s : sleepid)
| ChNread (a : Z) | ChNwrite (a : Z) | ChBuf (i : nat) | ChInput.

(** Where a kernel thread goes on when [swtch] resumes it: at [forkret], or
    after the [swtch] of its last call of [sched].  The code stores this as
    the registers and return addresses that [p->context] points to. *)
Inductive kcontext : Set := CtxZero | CtxForkret | CtxSaved.

Inductive procstate : Set := UNUSED | EMBRYO | SLEEPING | RUNNABLE | RUNNING | ZOMBIE.

Inductive filetype : Set := FD_NONE | FD_PIPE | FD_INODE.

(** [struct buf *] in the list of the buffer cache. *)
Inductive bptr : Set := BHead | BBuf (i : nat).

#[global] Instance pptr_eq_dec : EqDecision pptr.
Proof. solve_decision. Defined.
#[global] Instance sleepid_eq_dec : EqDecision sleepid.
Proof. solve_decision. Defined.
#[global] Instance lockid_eq_dec : EqDecision lockid.
Proof. solve_decision. Defined.
#[global] Instance channel_eq_dec : EqDecision channel.
Proof. solve_decision. Defined.
#[global] Instance kcontext_eq_dec : EqDecision kcontext.
Proof. solve_decision. Defined.
#[global] Instance procstate_eq_dec : EqDecision procstate.
Proof. solve_decision. Defined.
#[global] Instance filetype_eq_dec : EqDecision filetype.
Proof. solve_decision. Defined.
#[global] Instance bptr_eq_dec : EqDecision bptr.
Proof. solve_decision. Defined.

#[global] Instance sleepid_countable : Countable sleepid.
Proof.
  refine (inj_countable'
    (λ s, match s with SlBuf i => inl i | SlInode i => inr i end)
    (λ s, match s with inl i => SlBuf i | inr i => SlInode i end) _).
  by intros [].
Defined.

#[global] Instance lockid_countable : Countable lockid.
Proof.
  refine (inj_countable'
    (λ l, match l with
          | LPtable => inl (inl 0%nat) | LTicks => inl (inl 1%nat) | LKmem => inl (inl 2%nat)
          | LCons => inl (inl 3%nat) | LBcache => inl (inl 4%nat) | LIcache => inl (inl 5%nat)
          | LFtable => inl (inl 6%nat) | LLog => inl (inl 7%nat) | LIde => inl (inl 8%nat)
          | LPipe a => inl (inr a) | LSleep s => inr s
          end)
    (λ x, match x with
          | inl (inl 0) => LPtable | inl (inl 1) => LTicks | inl (inl 2) => LKmem
          | inl (inl 3) => LCons | inl (inl 4) => LBcache | inl (inl 5) => LIcache
          | inl (inl 6) => LFtable | inl (inl 7) => LLog | inl (inl _) => LIde
          | inl (inr a) => LPipe a | inr s => LSleep s
          end%nat) _).
  by intros [].
Defined.

(** ** Records *)

(** [struct spinlock]; the recorded call stack [pcs] is left out. *)
Record spinlock := MkSpinlock {
  locked : bool; lk_name : string; lk_cpu : option nat
}.

#[global] Instance eta_spinlock : Eta spinlock := λ l,
  MkSpinlock (locked l) (lk_name l) (lk_cpu l).

(** [struct sleeplock]; its spin lock [lk] is [LSleep] of the lock. *)
Record sleeplock := MkSleeplock {
  sl_locked : bool; sl_pid : Z
}.

#[global] Instance eta_sleeplock : Eta sleeplock := λ l,
  MkSleeplock (sl_locked l) (sl_pid l).

(** [struct cpu]: the local APIC id, the kernel stack of the task state, and
    the scheduling fields. *)
Record cpu := MkCpu {
  apicid : Z; ts_esp0 : Z; ncli : Z; intena : bool; c_proc : option pptr
}.

#[global] Instance eta_cpu : Eta cpu := λ c,
  MkCpu (apicid c) (ts_esp0 c) (ncli c) (intena c) (c_proc c).

(** [struct trapframe]. *)
Record trapframe := MkTf {
  tf_edi : Z; tf_esi : Z; tf_ebp : Z; tf_oesp : Z; tf_ebx : Z; tf_edx : Z; tf_ecx : Z;
  tf_eax : Z; tf_gs : Z; tf_fs : Z; tf_es : Z; tf_ds : Z; tf_trapno : Z; tf_err : Z;
  tf_eip : Z; tf_cs : Z; tf_eflags : Z; tf_esp : Z; tf_ss : Z
}.

#[global] Instance eta_trapframe : Eta trapframe := λ t,
  MkTf (tf_edi t) (tf_esi t) (tf_ebp t) (tf_oesp t) (tf_ebx t) (tf_edx t) (tf_ecx t)
    (tf_eax t) (tf_gs t) (tf_fs t) (tf_es t) (tf_ds t) (tf_trapno t) (tf_err t) (tf_eip t)
    (tf_cs t) (tf_eflags t) (tf_esp t) (tf_ss t).

(** [struct proc].  [p_tf] is the address of the trap frame, [p_name] the
    characters of the name before its NUL. *)
Record proc := MkProc {
  p_sz : Z; p_pgdir : Z; p_kstack : Z; p_state : procstate; p_pid : Z;
  p_parent : option pptr; p_tf : Z; p_context : kcontext; p_chan : option channel;
  p_killed : bool; p_ofile : list (option nat); p_cwd : option nat; p_name : list Z;
  p_tickets : Z; p_stride : Z; p_pass : Z; p_remain : Z; p_last_scheduled : Z;
  p_last_interrupted : Z; p_runtime : Z
}.

#[global] Instance eta_proc : Eta proc := λ p,
  MkProc (p_sz p) (p_pgdir p) (p_kstack p) (p_state p) (p_pid p) (p_parent p) (p_tf p)
    (p_context p) (p_chan p) (p_killed p) (p_ofile p) (p_cwd p) (p_name p) (p_tickets p)
    (p_stride p) (p_pass p) (p_remain p) (p_last_scheduled p) (p_last_interrupted p)
    (p_runtime p).

(** [struct file]. *)
Record file := MkFile {
  f_type : filetype; f_ref : Z; f_readable : bool; f_writable : bool; f_pipe : Z;
  f_ip : nat; f_off : Z
}.

#[global] Instance eta_file : Eta file := λ f,
  MkFile (f_type f) (f_ref f) (f_readable f) (f_writable f) (f_pipe f) (f_ip f) (f_off f).

(** [struct inode]; its [lock] is [SlInode] of the slot. *)
Record inode := MkInode {
  i_dev : Z; i_inum : Z; i_ref : Z; i_valid : bool; i_type : Z; i_major : Z; i_minor : Z;
  i_nlink : Z; i_size : Z; i_addrs : list Z
}.

#[global] Instance eta_inode : Eta inode := λ i,
  MkInode (i_dev i) (i_inum i) (i_ref i) (i_valid i) (i_type i) (i_major i) (i_minor i)
    (i_nlink i) (i_size i) (i_addrs i).

(** [struct buf]; its [lock] is [SlBuf] of the slot. *)
Record buf := MkBuf {
  b_flags : Z; b_dev : Z; b_blockno : Z; b_refcnt : Z; b_prev : bptr; b_next : bptr;
  b_data : list Z
}.

#[global] Instance eta_buf : Eta buf := λ b,
  MkBuf (b_flags b) (b_dev b) (b_blockno b) (b_refcnt b) (b_prev b) (b_next b) (b_data b).

(** [struct pipe]. *)
Record pipe := MkPipe {
  pi_data : list Z; pi_nread : Z; pi_nwrite : Z; pi_readopen : bool; pi_writeopen : bool
}.

#[global] Instance eta_pipe : Eta pipe := λ p,
  MkPipe (pi_data p) (pi_nread p) (pi_nwrite p) (pi_readopen p) (pi_writeopen p).

(** [struct superblock]. *)
Record superblock := MkSb {
  sb_size : Z; sb_nblocks : Z; sb_ninodes : Z; sb_nlog : Z; sb_logstart : Z;
  sb_inodestart : Z; sb_bmapstart : Z
}.

#[global] Instance eta_superblock : Eta superblock := λ s,
  MkSb (sb_size s) (sb_nblocks s) (sb_ninodes s) (sb_nlog s) (sb_logstart s)
    (sb_inodestart s) (sb_bmapstart s).

(** [struct log] with its header. *)
Record log_t := MkLog {
  lg_start : Z; lg_size : Z; lg_outstanding : Z; lg_committing : bool; lg_dev : Z;
  lh_n : Z; lh_block : list Z
}.

#[global] Instance eta_log_t : Eta log_t := λ l,
  MkLog (lg_start l) (lg_size l) (lg_outstanding l) (lg_committing l) (lg_dev l) (lh_n l)
    (lh_block l).

(** The console input buffer. *)
Record input_t := MkInput {
  in_buf : list Z; in_r : Z; in_w : Z; in_e : Z
}.

#[global] Instance eta_input_t : Eta input_t := λ i,
  MkInput (in_buf i) (in_r i) (in_w i) (in_e i).

(** The console: its lock flag, whether a panic stopped the others, whether
    its device functions are installed; the serial port, what was sent to it,
    last first, and what it received; the cursor of the screen, whose memory
    is at [P2V 0xb8000]; the modifier keys of the keyboard and the scan codes
    that wait at its port. *)
Record console_t := MkConsole {
  cons_locking : bool; panicked : bool; cons_dev : bool; uart : bool; com1 : list Z;
  com1_in : list Z; crt_pos : Z; kbd_shift : Z; kbd_in : list Z
}.

#[global] Instance eta_console_t : Eta console_t := λ c,
  MkConsole (cons_locking c) (panicked c) (cons_dev c) (uart c) (com1 c) (com1_in c) (crt_pos c)
    (kbd_shift c) (kbd_in c).

(** The global variables of the kernel, the hardware registers of the current
    CPU, and the disk. *)
Record kernel := MkKernel {
  cpus : list cpu; lapicid : Z; eflags_if : bool; cr3 : Z; locks : gmap lockid spinlock;
  sleeplocks : gmap sleepid sleeplock; stride_scheduler : bool; ptable : list proc;
  heap_arr : list proc; nextpid : Z; initproc : option pptr; forkret_first : bool;
  ticks : Z; kpgdir : Z; kernel_data : Z; kernel_end : Z; use_lock : bool; freelist : Z; mem : gmap Z Z;
  frames : gmap Z trapframe; ftable : list file; pipes : gmap Z pipe; icache : list inode;
  sb : superblock; log : log_t; bufs : list buf; bhead_prev : bptr; bhead_next : bptr;
  disk : gmap Z (list Z); disksize : Z; input : input_t; console : console_t
}.

#[global] Instance eta_kernel : Eta kernel := λ k,
  MkKernel (cpus k) (lapicid k) (eflags_if k) (cr3 k) (locks k) (sleeplocks k)
    (stride_scheduler k) (ptable k) (heap_arr k) (nextpid k) (initproc k) (forkret_first
    k) (ticks k) (kpgdir k) (kernel_data k) (kernel_end k) (use_lock k) (freelist k) (mem k) (frames k) (ftable k)
    (pipes k) (icache k) (sb k) (log k) (bufs k) (bhead_prev k) (bhead_next k) (disk k)
    (disksize k) (input k) (console k).

(** The heap of the stride scheduler orders kernel processes by these keys. *)
#[global] Instance proc_keyed : Keyed proc :=
  { Heap.pass := p_pass; Heap.runtime := p_runtime; Heap.pid := p_pid }.

(** Two kernel states with the same fields are equal. *)
Lemma kernel_ext (k k' : kernel) :
  cpus k = cpus k' → lapicid k = lapicid k' → eflags_if k = eflags_if k' → cr3 k = cr3 k' →
  locks k = locks k' → sleeplocks k = sleeplocks k' →
  stride_scheduler k = stride_scheduler k' → ptable k = ptable k' →
  heap_arr k = heap_arr k' → nextpid k = nextpid k' → initproc k = initproc k' →
  forkret_first k = forkret_first k' → ticks k = ticks k' → kpgdir k = kpgdir k' →
  kernel_data k = kernel_data k' → kernel_end k = kernel_end k' →
  use_lock k = use_lock k' → freelist k = freelist k' → mem k = mem k' →
  frames k = frames k' → ftable k = ftable k' → pipes k = pipes k' → icache k = icache k' →
  sb k = sb k' → log k = log k' → bufs k = bufs k' → bhead_prev k = bhead_prev k' →
  bhead_next k = bhead_next k' → disk k = disk k' → disksize k = disksize k' →
  input k = input k' → console k = console k' →
  k = k'.
Proof. destruct k, k'; cbn; intros; subst; reflexivity. Qed.

(** Prove an equation between updated kernel states field by field. *)
Ltac kext := apply kernel_ext; try reflexivity; rsimpl; try reflexivity.

(** ** The state before [main]

    The loader zeroes the kernel's static data.  [main] starts with the CPUs
    that [mpinit] found; here there is one, with local APIC id 0, and no
    interrupts.  The value of the linker symbol [end] is an argument, that of
    [data] is an address below it. *)

Definition zero_proc : proc :=
  MkProc 0 0 0 UNUSED 0 None 0 CtxZero None false (replicate NOFILE None) None []
    0 0 0 0 0 0 0.

Definition zero_lock : spinlock := MkSpinlock false EmptyString None.
Definition zero_file : file := MkFile FD_NONE 0 false false 0 0 0.
Definition zero_inode : inode := MkInode 0 0 0 false 0 0 0 0 0 (replicate 13 0).
Definition zero_buf : buf := MkBuf 0 0 0 0 BHead BHead (replicate 512 0).

Definition static_locks : gmap lockid spinlock :=
  list_to_map (map (λ l, (l, zero_lock))
    [LPtable; LTicks; LKmem; LCons; LBcache; LIcache; LFtable; LLog; LIde]).

Definition bss (e : Z) : kernel :=
  MkKernel [MkCpu 0 0 0 false None] 0 false 0 static_locks ∅ true
    (replicate NPROC zero_proc) (replicate NPROC zero_proc) 1 None true 0 0 0x80108000 e false 0 ∅ ∅
    (replicate NFILE zero_file) ∅ (replicate NINODE zero_inode)
    (MkSb 0 0 0 0 0 0 0) (MkLog 0 0 0 false 0 0 (replicate 30 0)) (replicate NBUF zero_buf) BHead BHead ∅ 0
    (MkInput (replicate 128 0) 0 0 0)
    (MkConsole false false false false [] [] 0 0 []).
