(* ===== verification/Disk.v ===== *)
(** The layout of the disk ([fs.h], [buf.h]): blocks as lists of bytes, the
    super block, on-disk inodes, directory entries and the header of the log
    as they are stored in blocks, little endian. *)

From stdpp Require Import base list.
From Stdlib Require Import ZArith Lia.
From S2P Require Import Prelude State.
#[local] Open Scope Z_scope.

Definition ROOTINO : Z := 1.
Definition BSIZE : Z := 512.
Definition B_VALID : Z := 2.
Definition B_DIRTY : Z := 4.
Definition NDIRECT : Z := 12.
Definition NINDIRECT : Z := BSIZE / 4.
Definition MAXFILE : Z := NDIRECT + NINDIRECT.
Definition DIRSIZ : Z := 14.

(** [sizeof(struct dinode)], [sizeof(struct dirent)]. *)
Definition DINODE_SIZE : Z := 64.
Definition DIRENT_SIZE : Z := 16.

Definition IPB : Z := BSIZE / DINODE_SIZE.
Definition IBLOCK (i : Z) (sb : superblock) : Z := u32 (u32 i / IPB + sb_inodestart sb).
Definition BPB : Z := BSIZE * 8.
Definition BBLOCK (b : Z) (sb : superblock) : Z := u32 (u32 b / BPB + sb_bmapstart sb).

Definition T_DIR : Z := 1.
Definition T_FILE : Z := 2.
Definition T_DEV : Z := 3.

Definition zero_block : list Z := replicate (Z.to_nat BSIZE) 0.

(** ** Bytes of a block *)

(** The [n] bytes at [off]; [None] outside the object. *)
Definition slice (bs : list Z) (off n : Z) : option (list Z) :=
  if (0 <=? off) && (0 <=? n) && (off + n <=? Z.of_nat (length bs))
  then Some (take (Z.to_nat n) (drop (Z.to_nat off) bs)) else None.

(** Store bytes at [off]; [None] outside the object. *)
Definition splice (bs : list Z) (off : Z) (new : list Z) : option (list Z) :=
  if (0 <=? off) && (off + Z.of_nat (length new) <=? Z.of_nat (length bs))
  then Some (take (Z.to_nat off) bs ++ new ++ drop (Z.to_nat off + length new) bs) else None.

(** Little-endian integers of [n] bytes. *)
Fixpoint le (n : nat) (v : Z) : list Z :=
  match n with O => [] | S n => v mod 256 :: le n (v / 256) end.

Fixpoint unle (bs : list Z) : Z :=
  match bs with [] => 0 | b :: bs => b + 256 * unle bs end.

Definition get32 (bs : list Z) (off : Z) : option Z := unle <$> slice bs off 4.
Definition put32 (bs : list Z) (off v : Z) : option (list Z) := splice bs off (le 4 (u32 v)).

(** ** Structures *)

(** Consecutive fields of [n] bytes. *)
Fixpoint unle_many (n count : nat) (bs : list Z) : list Z :=
  match count with
  | O => []
  | S count => unle (take n bs) :: unle_many n count (drop n bs)
  end.

Definition le_many (n : nat) (vs : list Z) : list Z := vs ≫= le n.

(** [struct dinode]. *)
Record dinode := MkDinode {
  d_type : Z; d_major : Z; d_minor : Z; d_nlink : Z; d_size : Z; d_addrs : list Z
}.

Definition dinode_of (bs : list Z) : dinode :=
  let h := unle_many 2 4 bs in
  MkDinode (i16 (nth 0 h 0)) (i16 (nth 1 h 0)) (i16 (nth 2 h 0)) (i16 (nth 3 h 0))
    (unle (take 4 (drop 8 bs))) (unle_many 4 13 (drop 12 bs)).

Definition dinode_bytes (d : dinode) : list Z :=
  le_many 2 [u16 (d_type d); u16 (d_major d); u16 (d_minor d); u16 (d_nlink d)] ++
  le 4 (d_size d) ++ le_many 4 (d_addrs d).

(** [struct superblock]. *)
Definition superblock_of (bs : list Z) : superblock :=
  let f := unle_many 4 7 bs in
  MkSb (nth 0 f 0) (nth 1 f 0) (nth 2 f 0) (nth 3 f 0) (nth 4 f 0) (nth 5 f 0) (nth 6 f 0).

Definition superblock_bytes (s : superblock) : list Z :=
  le_many 4 [sb_size s; sb_nblocks s; sb_ninodes s; sb_nlog s; sb_logstart s;
             sb_inodestart s; sb_bmapstart s].

(** [struct dirent]: the inode number and the [DIRSIZ] bytes of the name. *)
Record dirent := MkDirent { de_inum : Z; de_name : list Z }.

Definition dirent_of (bs : list Z) : dirent :=
  MkDirent (unle (take 2 bs)) (take (Z.to_nat DIRSIZ) (drop 2 bs)).

Definition dirent_bytes (d : dirent) : list Z := le 2 (de_inum d) ++ de_name d.

(** ** Lemmas *)

Definition byte (b : Z) : Prop := 0 <= b < 256.

Lemma length_le n v : length (le n v) = n.
Proof. revert v. induction n as [|n IH]; intros v; cbn; [done|]. by rewrite IH. Qed.

Lemma le_bytes n v : Forall byte (le n v).
Proof.
  revert v. induction n as [|n IH]; intros v; cbn; [done|]. constructor; [|apply IH].
  by apply Z.mod_pos_bound.
Qed.

Lemma unle_le n v : 0 <= v < 2 ^ (8 * Z.of_nat n) → unle (le n v) = v.
Proof.
  revert v. induction n as [|n IH]; intros v Hv; cbn [le unle]; [lia|].
  rewrite IH; [pose proof (Z.div_mod v 256); lia|].
  replace (8 * Z.of_nat (S n)) with (8 * Z.of_nat n + 8) in Hv by lia.
  rewrite Z.pow_add_r in Hv by lia. change (2 ^ 8) with 256 in Hv. split.
  - apply Z.div_pos; lia.
  - apply Z.div_lt_upper_bound; lia.
Qed.

Lemma unle_range bs : Forall byte bs → 0 <= unle bs < 2 ^ (8 * Z.of_nat (length bs)).
Proof.
  induction 1 as [|b bs Hb _ IH]; cbn [unle length]; [lia|].
  replace (8 * Z.of_nat (S (length bs))) with (8 * Z.of_nat (length bs) + 8) by lia.
  rewrite Z.pow_add_r by lia. change (2 ^ 8) with 256. unfold byte in Hb. lia.
Qed.

Lemma le_unle bs : Forall byte bs → le (length bs) (unle bs) = bs.
Proof.
  induction 1 as [|b bs Hb _ IH]; cbn [le unle length]; [done|]. unfold byte in Hb.
  f_equal.
  - rewrite Z.mul_comm, Z.mod_add by lia. by apply Z.mod_small.
  - rewrite Z.mul_comm, Z.div_add by lia. rewrite Z.div_small by lia. by rewrite Z.add_0_l.
Qed.

Lemma length_le_many n vs : length (le_many n vs) = (n * length vs)%nat.
Proof.
  unfold le_many. induction vs as [|v vs IH]; cbn; [lia|]. rewrite length_app, length_le, IH. lia.
Qed.

Lemma le_many_app n vs ws : le_many n (vs ++ ws) = le_many n vs ++ le_many n ws.
Proof. apply bind_app. Qed.

Lemma unle_le_many n vs rest :
  Forall (λ v, 0 <= v < 2 ^ (8 * Z.of_nat n)) vs →
  unle_many n (length vs) (le_many n vs ++ rest) = vs.
Proof.
  unfold le_many. induction 1 as [|v vs Hv _ IH]; cbn; [done|]. rewrite <- app_assoc.
  rewrite take_app_length', drop_app_length' by (by rewrite length_le). by rewrite unle_le, IH.
Qed.

(** Words in a block. *)
Lemma get32_words vs i v :
  vs !! i = Some v → Forall (λ v, 0 <= v < 2 ^ 32) vs → get32 (le_many 4 vs) (4 * Z.of_nat i) = Some v.
Proof.
  intros Hi Hr. pose proof (Forall_lookup_1 _ _ _ _ Hr Hi) as Hv. pose proof (lookup_lt_Some _ _ _ Hi) as Hlt.
  unfold get32, slice. rewrite length_le_many, !(proj2 (Z.leb_le _ _)) by lia. cbn [andb fmap option_fmap option_map].
  rewrite <- (take_drop_middle vs i v Hi), le_many_app. rewrite drop_app_length'.
  2: { rewrite length_le_many, length_take. lia. }
  unfold le_many at 1. rewrite bind_cons. rewrite take_app_length' by (by rewrite length_le).
  by rewrite unle_le.
Qed.

Lemma put32_words vs i v :
  (i < length vs)%nat → 0 <= v < 2 ^ 32 → put32 (le_many 4 vs) (4 * Z.of_nat i) v = Some (le_many 4 (<[i:=v]> vs)).
Proof.
  intros Hi Hv. unfold put32, splice. rewrite length_le, length_le_many, u32_small by done.
  rewrite !(proj2 (Z.leb_le _ _)) by lia. cbn [andb]. f_equal. rewrite insert_take_drop by done.
  destruct (lookup_lt_is_Some_2 vs i Hi) as [x Hx]. rewrite <- (take_drop_middle vs i x Hx) at 1 2.
  replace (le_many 4 (take i vs ++ v :: drop (S i) vs)) with (le_many 4 (take i vs) ++ le 4 v ++ le_many 4 (drop (S i) vs)).
  2: { rewrite le_many_app. done. }
  assert (length (le_many 4 (take i vs)) = Z.to_nat (4 * Z.of_nat i)) as El by (rewrite length_le_many, length_take; lia).
  rewrite le_many_app, take_app_length' by done. f_equal. f_equal. rewrite <- drop_drop, drop_app_length' by done.
  unfold le_many at 1. rewrite bind_cons. by rewrite drop_app_length' by (by rewrite length_le).
Qed.

Lemma i16_u16 x : - 2 ^ 15 <= x < 2 ^ 15 → i16 (u16 x) = x.
Proof. unfold i16, u16, wraps, wrapu. intros H. change (2 ^ (16 - 1)) with (2 ^ 15). zdiv. Qed.

Lemma u16_range x : 0 <= u16 x < 2 ^ 16.
Proof. by apply wrapu_range. Qed.

(** The fields of an inode fit their types. *)
Record dinode_ok (d : dinode) : Prop := {
  dk_type : - 2 ^ 15 <= d_type d < 2 ^ 15;
  dk_major : - 2 ^ 15 <= d_major d < 2 ^ 15;
  dk_minor : - 2 ^ 15 <= d_minor d < 2 ^ 15;
  dk_nlink : - 2 ^ 15 <= d_nlink d < 2 ^ 15;
  dk_size : 0 <= d_size d < 2 ^ 32;
  dk_len : length (d_addrs d) = 13%nat;
  dk_addrs : Forall (λ a, 0 <= a < 2 ^ 32) (d_addrs d)
}.

Lemma dinode_bytes_length d : length (d_addrs d) = 13%nat → length (dinode_bytes d) = 64%nat.
Proof. intros H. unfold dinode_bytes. rewrite !length_app, length_le, !length_le_many, H. done. Qed.

Lemma dinode_of_bytes d : dinode_ok d → dinode_of (dinode_bytes d) = d.
Proof.
  intros [H1 H2 H3 H4 H5 H6 H7]. unfold dinode_of, dinode_bytes.
  set (hs := [u16 (d_type d); u16 (d_major d); u16 (d_minor d); u16 (d_nlink d)]).
  rewrite (unle_le_many 2 hs) by (repeat constructor; apply u16_range). cbn [nth hs].
  rewrite (drop_app_length' _ _ 8), take_app_length' by done.
  rewrite unle_le by done.
  match goal with |- context [drop 12 ?l] => change (drop 12 l) with (drop (8 + 4) l) end.
  rewrite <- drop_drop, !drop_app_length' by done.
  rewrite <- (app_nil_r (le_many 4 (d_addrs d))), <- H6, unle_le_many by done.
  rewrite !i16_u16 by done. by destruct d.
Qed.
