(* ===== verification/Mkfs.v ===== *)
(** The program [mkfs.c], which builds the file system image on the host.

    The image file is the list of its blocks.  A read past its end fails, a
    write past its end extends it; other errors of the host's files are left
    out.  [exit(1)] and a failing [assert] are the outcome [Panic].  The host
    is little endian, like the format of the image. *)

From stdpp Require Import base gmap list strings.
From Stdlib Require Import ZArith Lia.
From S2P Require Import Prelude State Disk.
#[local] Open Scope Z_scope.

(** ** The code *)

Definition NINODES : Z := 200.
Definition nbitmap : Z := FSSIZE / (BSIZE * 8) + 1.
Definition ninodeblocks : Z := NINODES / IPB + 1.
Definition nlog : Z := LOGSIZE.
Definition nmeta : Z := 2 + nlog + ninodeblocks + nbitmap.
Definition nblocks : Z := FSSIZE - nmeta.

Record image := MkImage { fs : list (list Z); isb : superblock; freeinode : Z; freeblock : Z }.
#[global] Instance eta_image : Eta image := λ s, MkImage (fs s) (isb s) (freeinode s) (freeblock s).

(** The integer whose bytes, in the order of memory, are those of [x], lowest
    first. *)
Definition xshort (x : Z) : Z := unle (le 2 (u16 x)).
Definition xint (x : Z) : Z := unle (le 4 (u32 x)).

(** The block at the offset [sec * BSIZE]. *)
Definition sector (sec : Z) : nat := Z.to_nat (u32 (sec * BSIZE) / BSIZE).

Definition put_block (n : nat) (b : list Z) (l : list (list Z)) : list (list Z) :=
  <[n:=b]> (l ++ replicate (S n - length l) zero_block).

Definition wsect (sec : Z) (buf : list Z) : M image unit :=
  modify (λ s, s <|fs ::= put_block (sector sec) buf|>).

Definition rsect (sec : Z) : M image (list Z) := λ s,
  match fs s !! sector sec with Some b => Ret b s | None => Panic "read" end.

Definition winode (inum : Z) (ip : dinode) : M image unit :=
  let! bn := gets (λ s, IBLOCK inum (isb s)) in
  let! buf := rsect bn in
  let! buf := get_some (splice buf (DINODE_SIZE * (inum mod IPB)) (dinode_bytes ip)) in
  wsect bn buf.

Definition rinode (inum : Z) : M image dinode :=
  let! bn := gets (λ s, IBLOCK inum (isb s)) in
  let! buf := rsect bn in
  let! b := get_some (slice buf (DINODE_SIZE * (inum mod IPB)) DINODE_SIZE) in
  ret (dinode_of b).

Definition ialloc (type : Z) : M image Z :=
  let! inum := gets freeinode in
  modify (λ s, s <|freeinode := u32 (inum + 1)|>);;;
  winode inum (MkDinode (i16 (xshort type)) 0 0 (i16 (xshort 1)) (xint 0) (replicate 13 0));;;
  ret inum.

(** [buf[i/8] = buf[i/8] | (0x1 << (i%8))] for [i < used]. *)
Fixpoint balloc_loop (n : nat) (i : Z) (buf : list Z) : list Z :=
  match n with
  | O => buf
  | S n => balloc_loop n (i + 1) (alter (λ x, Z.lor x (Z.shiftl 1 (i mod 8))) (Z.to_nat (i / 8)) buf)
  end.

Definition balloc (used : Z) : M image unit :=
  if negb (used <? BSIZE * 8) then panic "assert" else
  let! bn := gets (λ s, sb_bmapstart (isb s)) in
  wsect bn (balloc_loop (Z.to_nat used) 0 zero_block).

(** [freeblock++] *)
Definition fresh : M image Z :=
  let! b := gets freeblock in
  modify (λ s, s <|freeblock := u32 (b + 1)|>);;;
  ret b.

Definition set_addr (d : dinode) (n b : Z) : dinode :=
  MkDinode (d_type d) (d_major d) (d_minor d) (d_nlink d) (d_size d) (<[Z.to_nat n:=b]> (d_addrs d)).
Definition set_dsize (d : dinode) (n : Z) : dinode :=
  MkDinode (d_type d) (d_major d) (d_minor d) (d_nlink d) n (d_addrs d).

(** [din.addrs[n]], allocated if it is zero. *)
Definition addr_alloc (din : dinode) (n : Z) : M image (dinode * Z) :=
  let! a := get_some (d_addrs din !! Z.to_nat n) in
  let! din :=
    (if xint a =? 0 then let! b := fresh in ret (set_addr din n (xint b)) else ret din) in
  let! a := get_some (d_addrs din !! Z.to_nat n) in
  ret (din, xint a).

(** The block [x] of the file that holds block [fbn] of its data. *)
Definition iappend_block (din : dinode) (fbn : Z) : M image (dinode * Z) :=
  if fbn <? NDIRECT then addr_alloc din fbn
  else
    let! r := addr_alloc din NDIRECT in
    let (din, ib) := (r : dinode * Z) in
    let! indirect := rsect ib in
    let! a := get_some (get32 indirect (4 * (fbn - NDIRECT))) in
    let! indirect :=
      (if a =? 0 then
         let! b := fresh in
         let! indirect := get_some (put32 indirect (4 * (fbn - NDIRECT)) (xint b)) in
         wsect ib indirect;;;
         ret indirect
       else ret indirect) in
    let! a := get_some (get32 indirect (4 * (fbn - NDIRECT))) in
    ret (din, xint a).

Fixpoint iappend_loop (fuel : nat) (din : dinode) (off : Z) (p : list Z) : M image (dinode * Z) :=
  match fuel with
  | O => λ _, Loop
  | S fuel =>
      let n := Z.of_nat (length p) in
      if 0 <? n then
        let fbn := off / BSIZE in
        if negb (fbn <? MAXFILE) then panic "assert" else
        let! r := iappend_block din fbn in
        let (din, x) := (r : dinode * Z) in
        let n1 := Z.min n (u32 ((fbn + 1) * BSIZE - off)) in
        let! buf := rsect x in
        let! buf := get_some (splice buf (off - fbn * BSIZE) (take (Z.to_nat n1) p)) in
        wsect x buf;;;
        iappend_loop fuel din (u32 (off + n1)) (drop (Z.to_nat n1) p)
      else ret (din, off)
  end.

Definition iappend (inum : Z) (p : list Z) : M image unit :=
  let! din := rinode inum in
  let! r := iappend_loop (S (length p)) din (xint (d_size din)) p in
  let (din, off) := (r : dinode * Z) in
  winode inum (set_dsize din (xint off)).

(** [strncpy(de.name, s, DIRSIZ)] into a zeroed entry. *)
Definition dir_name (s : list Z) : list Z :=
  take (Z.to_nat DIRSIZ) s ++ replicate (Z.to_nat DIRSIZ - length s) 0.

Definition dir_entry (inum : Z) (name : list Z) : list Z :=
  dirent_bytes (MkDirent (xshort inum) (dir_name name)).

(** [while((cc = read(fd, buf, sizeof(buf))) > 0) iappend(inum, buf, cc)] *)
Fixpoint copy_file (inum : Z) (chunks : list (list Z)) : M image unit :=
  match chunks with
  | [] => ret tt
  | c :: chunks => iappend inum c;;; copy_file inum chunks
  end.

(** The loop over the arguments: each name with the results of reading that
    file, or [None] if it cannot be opened. *)
Fixpoint add_files (rootino : Z) (args : list (list Z * option (list (list Z)))) : M image unit :=
  match args with
  | [] => ret tt
  | (arg, contents) :: args =>
      if existsb (Z.eqb 47) arg then panic "assert" else
      match contents with
      | None => panic "open"
      | Some chunks =>
          let name := match arg with 95 :: s => s | _ => arg end in
          let! inum := ialloc T_FILE in
          iappend rootino (dir_entry inum name);;;
          copy_file inum chunks;;;
          add_files rootino args
      end
  end.

Fixpoint wsect_zeroes (n : nat) (i : Z) : M image unit :=
  match n with
  | O => ret tt
  | S n => wsect i zero_block;;; wsect_zeroes n (i + 1)
  end.

(** [main] with the image file open and empty. *)
Definition main (args : list (list Z * option (list (list Z)))) : M image unit :=
  modify (λ s, s <|isb := MkSb (xint FSSIZE) (xint nblocks) (xint NINODES) (xint nlog) (xint 2)
                            (xint (2 + nlog)) (xint (2 + nlog + ninodeblocks))|>);;;
  modify (λ s, s <|freeblock := nmeta|>);;;
  wsect_zeroes (Z.to_nat FSSIZE) 0;;;
  (let! s := gets isb in
   let! buf := get_some (splice zero_block 0 (superblock_bytes s)) in
   wsect 1 buf);;;
  let! rootino := ialloc T_DIR in
  if negb (rootino =? ROOTINO) then panic "assert" else
  iappend rootino (dir_entry rootino [46]);;;
  iappend rootino (dir_entry rootino [46; 46]);;;
  add_files rootino args;;;
  (let! din := rinode rootino in
   let off := xint (d_size din) in
   let off := u32 (u32 (off / BSIZE + 1) * BSIZE) in
   winode rootino (set_dsize din (xint off)));;;
  let! used := gets freeblock in
  balloc used.

Definition image0 : image := MkImage [] (MkSb 0 0 0 0 0 0 0) 1 0.

(** ** Specification *)

(** The super block that [main] writes. *)
Definition the_sb : superblock := MkSb 1000 941 200 30 2 32 58.

(** An inode of an image, and the block with the data of its block [j]; 0 for
    a hole. *)
Definition inode_at (f : list (list Z)) (inum : Z) : dinode :=
  dinode_of (take 64 (drop (Z.to_nat (64 * (inum mod 8))) (default [] (f !! Z.to_nat (32 + inum / 8))))).

Definition data_block (f : list (list Z)) (d : dinode) (j : nat) : Z :=
  if (j <? 12)%nat then nth j (d_addrs d) 0
  else match nth 12 (d_addrs d) 0 with
       | 0 => 0
       | ib => nth (j - 12) (unle_many 4 128 (default [] (f !! Z.to_nat ib))) 0
       end.

(** The number of blocks of [n] bytes. *)
Definition nblk (n : nat) : nat := ((n + 511) / 512)%nat.

(** The data of a file; holes read as zeros, as in the kernel, which allocates
    a zeroed block for them. *)
Definition read_file (f : list (list Z)) (inum : Z) : list Z :=
  let d := inode_at f inum in
  take (Z.to_nat (d_size d)) (concat (map (λ j, match data_block f d j with
    | 0 => zero_block
    | b => default [] (f !! Z.to_nat b)
    end) (seq 0 (nblk (Z.to_nat (d_size d)))))).

(** The blocks a file takes, the indirect one included. *)
Definition file_blocks (f : list (list Z)) (inum : Z) : list Z :=
  let d := inode_at f inum in
  filter (λ b, b ≠ 0)
    (map (data_block f d) (seq 0 (nblk (Z.to_nat (d_size d)))) ++ [nth 12 (d_addrs d) 0]).

(** Bit [b] of the bitmap. *)
Definition in_use (f : list (list Z)) (b : Z) : bool :=
  Z.testbit (nth (Z.to_nat (b / 8)) (default [] (f !! 58%nat)) 0) (b mod 8).

(** The blocks taken by a file of [n] bytes. *)
Definition cost (n : nat) : Z := Z.of_nat (nblk n + (if (12 <? nblk n)%nat then 1 else 0)).

(** ** Lemmas *)

Lemma xint_small x : 0 <= x < 2 ^ 32 → xint x = x.
Proof. intros H. unfold xint. rewrite unle_le; rewrite u32_small by done; done. Qed.

Lemma xshort_small x : 0 <= x < 2 ^ 15 → xshort x = x.
Proof.
  intros H. assert (u16 x = x) as E by (apply wrapu_small; lia). unfold xshort. rewrite E.
  apply unle_le. change (2 ^ (8 * Z.of_nat 2)) with 65536. lia.
Qed.

Lemma i16_small x : 0 <= x < 2 ^ 15 → i16 x = x.
Proof. intros H. apply (wraps_small 16); lia. Qed.

Lemma sector_small b : 0 <= b < 1000 → sector b = Z.to_nat b.
Proof.
  intros H. unfold sector, BSIZE. rewrite u32_small by lia. f_equal. rewrite Z.div_mul by lia. done.
Qed.

(** The block with the super block, and the shape of the image while it is built. *)
Definition sb_block : list Z := superblock_bytes the_sb ++ replicate (512 - 28) 0.

Record shape (s : image) : Prop := {
  sh_length : length (fs s) = 1000%nat;
  sh_blocks : Forall (λ b, length b = 512%nat) (fs s);
  sh_sb : isb s = the_sb;
  sh_super : fs s !! 1%nat = Some sb_block
}.

Lemma shape_block s b : shape s → 0 <= b < 1000 → ∃ x, fs s !! Z.to_nat b = Some x ∧ length x = 512%nat.
Proof.
  intros [Hl Hb _ _] H. destruct (lookup_lt_is_Some_2 (fs s) (Z.to_nat b)) as [x Hx]; [lia|].
  exists x. split; [done|]. by eapply (Forall_lookup_1 _ _ _ _ Hb).
Qed.

Lemma rsect_ok s b x : 0 <= b < 1000 → fs s !! Z.to_nat b = Some x → rsect b s = Ret x s.
Proof. intros H Hx. unfold rsect. by rewrite sector_small, Hx. Qed.

Lemma wsect_ok s b x :
  shape s → 0 <= b < 1000 → wsect b x s = Ret tt (s <|fs ::= <[Z.to_nat b:=x]>|>).
Proof.
  intros [Hl _ _ _] H. unfold wsect, modify. rewrite sector_small by done. f_equal.
  change (MkImage (put_block (Z.to_nat b) x (fs s)) (isb s) (freeinode s) (freeblock s) =
    MkImage (<[Z.to_nat b:=x]> (fs s)) (isb s) (freeinode s) (freeblock s)).
  unfold put_block. replace (S (Z.to_nat b) - length (fs s))%nat with 0%nat by lia. cbn [replicate]. by rewrite app_nil_r.
Qed.

Lemma shape_insert s b x : shape s → b ≠ 1%nat → length x = 512%nat → shape (s <|fs ::= <[b:=x]>|>).
Proof.
  intros [Hl Hb Hs Hp] H1 Hx. split; rsimpl; [by rewrite length_insert| |done|by rewrite list_lookup_insert_ne].
  by apply Forall_insert.
Qed.

Lemma splice_Some bs off new :
  0 <= off → off + Z.of_nat (length new) <= Z.of_nat (length bs) →
  splice bs off new = Some (take (Z.to_nat off) bs ++ new ++ drop (Z.to_nat off + length new) bs).
Proof. intros H1 H2. unfold splice. by replace ((0 <=? off) && _) with true by lia. Qed.

Lemma length_splice bs off new bs' : splice bs off new = Some bs' → length bs' = length bs.
Proof.
  unfold splice. destruct ((0 <=? off) && _) eqn:E; [|done]. intros [= <-].
  rewrite !length_app, length_take, length_drop. lia.
Qed.

(** *** Inodes *)

Lemma rinode_ok s inum : shape s → 0 <= inum < 208 → rinode inum s = Ret (inode_at (fs s) inum) s.
Proof.
  intros Hs Hi. unfold rinode. rewrite bind_gets, (sh_sb _ Hs). unfold IBLOCK, IPB, BSIZE, DINODE_SIZE. cbn [sb_inodestart the_sb].
  change (512 / 64) with 8. rewrite (u32_small inum) by lia. rewrite (u32_small (inum / 8 + 32)) by zdiv.
  replace (inum / 8 + 32) with (32 + inum / 8) by lia.
  assert (0 <= 32 + inum / 8 < 1000) as Hr by zdiv. destruct (shape_block s _ Hs Hr) as (x & Hx & Hl).
  rewrite (bind_Ret _ _ _ _ _ (rsect_ok s _ _ Hr Hx)). unfold slice.
  pose proof (Z.mod_pos_bound inum 8).
  replace ((0 <=? 64 * (inum mod 8)) && _ && _) with true by lia. cbn [get_some]. rewrite bind_ret_l.
  unfold ret, inode_at. by rewrite Hx.
Qed.

Lemma take_drop_splice {A} (l n : list A) a b :
  (a + length n <= length l)%nat →
  let l' := take a l ++ n ++ drop (a + length n) l in
  take (length n) (drop a l') = n ∧
  (∀ c, c + b <= a ∨ a + length n <= c → c + b <= length l → take b (drop c l') = take b (drop c l))%nat.
Proof.
  intros Hl l'. split.
  - unfold l'. rewrite drop_app_length', take_app_length' by (rewrite ?length_take; lia). done.
  - intros c Hc Hb. apply list_eq. intros i. destruct (decide (i < b)%nat).
    2: { rewrite !lookup_take_ge by lia. done. }
    rewrite !lookup_take_lt, !lookup_drop by lia. unfold l'. destruct Hc as [Hc|Hc].
    + rewrite lookup_app_l by (rewrite length_take; lia). by rewrite lookup_take_lt by lia.
    + rewrite lookup_app_r by (rewrite length_take; lia). rewrite lookup_app_r by (rewrite length_take; lia).
      rewrite lookup_drop. f_equal. rewrite length_take. lia.
Qed.

Lemma winode_ok s inum d :
  shape s → 0 <= inum < 208 → dinode_ok d →
  ∃ b, let s' := s <|fs ::= <[Z.to_nat (32 + inum / 8):=b]>|> in
    winode inum d s = Ret tt s' ∧ shape s' ∧ inode_at (fs s') inum = d ∧
    ∀ j, 0 <= j < 208 → j ≠ inum → inode_at (fs s') j = inode_at (fs s) j.
Proof.
  intros Hs Hi Hd. unfold winode. rewrite bind_gets, (sh_sb _ Hs). unfold IBLOCK, IPB, BSIZE, DINODE_SIZE. cbn [sb_inodestart the_sb].
  change (512 / 64) with 8. rewrite (u32_small inum) by lia. rewrite (u32_small (inum / 8 + 32)) by zdiv.
  replace (inum / 8 + 32) with (32 + inum / 8) by lia.
  assert (0 <= 32 + inum / 8 < 1000) as Hr by zdiv. destruct (shape_block s _ Hs Hr) as (x & Hx & Hl).
  rewrite (bind_Ret _ _ _ _ _ (rsect_ok s _ _ Hr Hx)).
  pose proof (dinode_bytes_length d (dk_len _ Hd)) as Hdl.
  rewrite splice_Some by (rewrite ?Hdl; zdiv). cbn [get_some]. rewrite bind_ret_l. eexists. cbn zeta.
  split; [apply wsect_ok; [done|zdiv]|].
  destruct (take_drop_splice x (dinode_bytes d) (Z.to_nat (64 * (inum mod 8))) 64) as [T1 T2]; [rewrite Hdl; zdiv|].
  rewrite Hdl in T1, T2. rewrite Hdl. split; [apply shape_insert; [done|zdiv|]|split].
  - rewrite !length_app, length_take, length_drop, Hdl. zdiv.
  - unfold inode_at. rsimpl. rewrite list_lookup_insert_eq by (rewrite (sh_length _ Hs); zdiv). cbn [default from_option id].
    rewrite T1. by apply dinode_of_bytes.
  - intros j Hj Hne. unfold inode_at. rsimpl.
    destruct (decide (j / 8 = inum / 8)) as [E|E].
    + rewrite E, list_lookup_insert_eq by (rewrite (sh_length _ Hs); zdiv). rewrite Hx. cbn [default from_option id].
      rewrite T2; [done|zdiv|zdiv].
    + rewrite list_lookup_insert_ne by zdiv. done.
Qed.

(** *** The data of one file *)

Definition addrs_of (L : list Z) (ib : Z) : list Z := take 12 L ++ replicate (12 - length L) 0 ++ [ib].
Definition indirect_of (L : list Z) : list Z := drop 12 L ++ replicate (140 - length L) 0.
Definition pad (n : nat) (data : list Z) : list Z := data ++ replicate (512 * n - length data) 0.
Definition chunk (j : nat) (l : list Z) : list Z := take 512 (drop (512 * j) l).

(** The blocks of a file with data blocks [L] and indirect block [ib]. *)
Definition owned (L : list Z) (ib : Z) : list Z := L ++ (if (12 <? length L)%nat then [ib] else []).

Lemma owned_small L ib : (length L <= 12)%nat → owned L ib = L.
Proof. intros H. unfold owned. destruct (Nat.ltb_spec 12 (length L)); [lia|]. apply app_nil_r. Qed.
Lemma owned_big L ib : (12 < length L)%nat → owned L ib = L ++ [ib].
Proof. intros H. unfold owned. destruct (Nat.ltb_spec 12 (length L)); [done|lia]. Qed.

(** [data] is in the blocks [L], filled up with zeros. *)
Record frep (f : list (list Z)) (L : list Z) (ib : Z) (data : list Z) : Prop := {
  fr_len : (length data <= 512 * length L)%nat ∧ (length L <= 140)%nat;
  fr_none : (length L <= 12)%nat → ib = 0;
  fr_indirect : (12 < length L)%nat → f !! Z.to_nat ib = Some (le_many 4 (indirect_of L));
  fr_blocks : ∀ j b, L !! j = Some b → f !! Z.to_nat b = Some (chunk j (pad (length L) data));
  fr_nodup : NoDup (owned L ib);
  fr_range : Forall (λ b, 59 <= b < 1000) (owned L ib)
}.

Lemma frep_frame f f' L ib data :
  frep f L ib data → (∀ b, b ∈ owned L ib → f' !! Z.to_nat b = f !! Z.to_nat b) → frep f' L ib data.
Proof.
  intros [H1 H2 H3 H4 H5 H6] Hf. split; try done.
  - intros H. rewrite Hf; [by apply H3|]. rewrite owned_big by done. set_solver.
  - intros j b Hb. rewrite Hf; [by apply H4|]. unfold owned. apply list_elem_of_lookup_2 in Hb. set_solver.
Qed.

Lemma length_chunk j n data :
  (length data <= 512 * n)%nat → (j < n)%nat → length (chunk j (pad n data)) = 512%nat.
Proof. intros H1 H2. unfold chunk, pad. rewrite length_take, length_drop, length_app, length_replicate. lia. Qed.

Lemma indirect_range f L ib data : frep f L ib data → Forall (λ v, 0 <= v < 2 ^ 32) (indirect_of L).
Proof.
  intros [_ _ _ _ _ Hr]. apply Forall_app. split; [|apply Forall_replicate; lia].
  apply Forall_drop. unfold owned in Hr. apply Forall_app in Hr as [Hr _]. eapply Forall_impl; [done|]. cbn. lia.
Qed.

(** Replacing a part of the padded data. *)
Lemma chunk_other n data p j :
  (length (data ++ p) <= 512 * n)%nat → (length (data ++ p) <= 512 * j ∨ 512 * (j + 1) <= length data)%nat →
  chunk j (pad n (data ++ p)) = chunk j (pad n data).
Proof.
  intros Hn Hj. unfold chunk. apply list_eq. intros i. destruct (decide (i < 512)%nat).
  2: { by rewrite !lookup_take_ge by lia. }
  rewrite !lookup_take_lt, !lookup_drop by done. unfold pad. rewrite length_app in *. destruct Hj as [Hj|Hj].
  - rewrite (lookup_app_r (data ++ p)), (lookup_app_r data) by (rewrite ?length_app; lia). rewrite length_app.
    destruct (decide (512 * j + i < 512 * n)%nat).
    + by rewrite !lookup_replicate_2 by lia.
    + rewrite !lookup_ge_None_2 by (rewrite length_replicate; lia). done.
  - rewrite <- app_assoc. by rewrite !lookup_app_l by lia.
Qed.

Lemma chunk_splice n data p j :
  (length (data ++ p) <= 512 * n)%nat → (512 * j <= length data)%nat → (length (data ++ p) <= 512 * (j + 1))%nat → (j < n)%nat →
  splice (chunk j (pad n data)) (Z.of_nat (length data - 512 * j)) p = Some (chunk j (pad n (data ++ p))).
Proof.
  intros Hn H1 H2 Hj. rewrite length_app in *. pose proof (length_chunk j n data ltac:(lia) Hj) as Hl.
  rewrite splice_Some by (rewrite ?Hl; lia). f_equal. rewrite Nat2Z.id. unfold chunk, pad.
  apply list_eq. intros i. destruct (decide (i < 512)%nat) as [Hi|Hi].
  2: { rewrite (lookup_take_ge _ 512) by lia. apply lookup_ge_None.
    rewrite !length_app, !length_take, !length_drop, length_take, length_drop, length_app, length_replicate. lia. }
  rewrite (lookup_take_lt (drop _ ((data ++ p) ++ _))), lookup_drop by done. rewrite <- app_assoc.
  destruct (decide (i < length data - 512 * j)%nat).
  { rewrite lookup_app_l by (rewrite !length_take, length_drop, length_app, length_replicate; lia).
    rewrite !lookup_take_lt, lookup_drop by lia. by rewrite !lookup_app_l by lia. }
  assert (length (take (length data - 512 * j) (take 512 (drop (512 * j) (data ++ replicate (512 * n - length data) 0%Z)))) =
    length data - 512 * j)%nat as El by (rewrite !length_take, length_drop, length_app, length_replicate; lia).
  rewrite lookup_app_r, El by (rewrite El; lia). rewrite (lookup_app_r data) by lia.
  replace (512 * j + i - length data)%nat with (i - (length data - 512 * j))%nat by lia.
  destruct (decide (i - (length data - 512 * j) < length p)%nat).
  { by rewrite !lookup_app_l by done. }
  rewrite !(lookup_app_r p) by lia. rewrite lookup_drop, lookup_take_lt, lookup_drop, lookup_app_r by lia.
  rewrite length_app. destruct (decide (512 * j + i < 512 * n)%nat); [|lia]. by rewrite !lookup_replicate_2 by lia.
Qed.
