(* ===== verification/Image.v ===== *)
(** The image that [mkfs.c] builds: every file of the command line can be read
    back from it through its inode. *)

From stdpp Require Import base gmap list strings.
From Stdlib Require Import ZArith Lia.
From S2P Require Import Prelude State Disk Mkfs.
#[local] Open Scope Z_scope.

(** The image while it is built: the blocks from [freeblock] on are zero. *)
Record good (s : image) : Prop := {
  gd_shape : shape s;
  gd_free : 59 <= freeblock s <= 1000;
  gd_zero : ∀ b, freeblock s <= b < 1000 → fs s !! Z.to_nat b = Some zero_block
}.

Lemma fresh_ok s : good s → freeblock s < 1000 → fresh s = Ret (freeblock s) (s <|freeblock := freeblock s + 1|>).
Proof.
  intros [_ Hf _] H. unfold fresh. rewrite bind_gets, bind_modify. unfold ret. by rewrite u32_small by lia.
Qed.

Lemma good_fresh s : good s → freeblock s < 1000 → good (s <|freeblock := freeblock s + 1|>).
Proof.
  intros [[H1 H2 H3 H4] Hf Hz] H. split; [by split|rsimpl; lia|]. intros b Hb. rsimpl. apply Hz. lia.
Qed.

Lemma good_insert s b x : good s → 2 <= b < freeblock s → length x = 512%nat → good (s <|fs ::= <[Z.to_nat b:=x]>|>).
Proof.
  intros [Hs Hf Hz] Hb Hx. split; [apply shape_insert; [done|lia|done]|done|]. intros b' Hb'. rsimpl.
  rewrite list_lookup_insert_ne by lia. by apply Hz.
Qed.

(** *** The block list *)

Lemma addrs_lookup L ib j : (j < 12)%nat → addrs_of L ib !! j = Some (default 0 (L !! j)).
Proof.
  intros Hj. unfold addrs_of. destruct (decide (j < length L)%nat) as [H|H].
  - rewrite lookup_app_l by (rewrite length_take; lia). rewrite lookup_take_lt by done.
    by destruct (lookup_lt_is_Some_2 L j H) as [b ->].
  - rewrite lookup_app_r, lookup_app_l by (rewrite ?length_take, ?length_replicate; lia).
    rewrite lookup_replicate_2 by (rewrite length_take; lia). by rewrite lookup_ge_None_2 by lia.
Qed.

Lemma addrs_last L ib : addrs_of L ib !! 12%nat = Some ib.
Proof.
  unfold addrs_of. rewrite !lookup_app_r; rewrite ?length_take, ?length_replicate; try lia.
  by replace (12 - Nat.min 12 (length L) - (12 - length L))%nat with 0%nat by lia.
Qed.

Lemma length_addrs L ib : length (addrs_of L ib) = 13%nat.
Proof. unfold addrs_of. rewrite !length_app, length_take, length_replicate. cbn [length]. lia. Qed.

Lemma addrs_snoc L ib b : (length L < 12)%nat → <[length L:=b]> (addrs_of L ib) = addrs_of (L ++ [b]) ib.
Proof.
  intros H. apply list_eq_same_length with 13%nat; [by rewrite length_addrs|by rewrite length_insert, length_addrs|].
  intros i x y Hi. destruct (decide (i = length L)) as [->|Hne].
  - rewrite list_lookup_insert_eq by (rewrite length_addrs; lia). rewrite addrs_lookup, lookup_app_r, Nat.sub_diag by lia. cbn. congruence.
  - rewrite list_lookup_insert_ne by done. destruct (decide (i < 12)%nat).
    + rewrite !addrs_lookup by done. destruct (decide (i < length L)%nat).
      * rewrite lookup_app_l by done. congruence.
      * rewrite lookup_app_r by lia. rewrite (lookup_ge_None_2 L) by lia.
        rewrite (lookup_ge_None_2 [b]) by (cbn; lia). congruence.
    + replace i with 12%nat by lia. rewrite !addrs_last. congruence.
Qed.

Lemma addrs_indirect L ib ib' : (12 <= length L)%nat → <[12%nat:=ib']> (addrs_of L ib) = addrs_of L ib'.
Proof.
  intros H. unfold addrs_of. rewrite !insert_app_r_alt by (rewrite ?length_take, ?length_replicate; lia).
  rewrite length_take, length_replicate. by replace (12 - Nat.min 12 (length L) - (12 - length L))%nat with 0%nat by lia.
Qed.

Lemma addrs_full L b ib : (12 <= length L)%nat → addrs_of (L ++ [b]) ib = addrs_of L ib.
Proof.
  intros H. unfold addrs_of. rewrite take_app_le, length_app by lia. cbn.
  by replace (12 - (length L + 1))%nat with (12 - length L)%nat by lia.
Qed.

Lemma indirect_snoc L b :
  (12 <= length L < 140)%nat → <[(length L - 12)%nat:=b]> (indirect_of L) = indirect_of (L ++ [b]).
Proof.
  intros H. unfold indirect_of. rewrite drop_app_le, insert_app_r_alt by (rewrite ?length_drop; lia).
  rewrite length_drop, Nat.sub_diag, length_app, <- app_assoc. cbn [length].
  replace (140 - length L)%nat with (S (140 - (length L + 1))) by lia. done.
Qed.

Lemma indirect_lookup L j : (j < 128)%nat → (length L <= 140)%nat → indirect_of L !! j = Some (default 0 (L !! (12 + j)%nat)).
Proof.
  intros Hj Hl. unfold indirect_of. destruct (decide (12 + j < length L)%nat) as [H|H].
  - rewrite lookup_app_l by (rewrite length_drop; lia). rewrite lookup_drop.
    by destruct (lookup_lt_is_Some_2 L (12 + j) H) as [b ->].
  - rewrite lookup_app_r by (rewrite length_drop; lia). rewrite lookup_replicate_2 by (rewrite length_drop; lia).
    by rewrite lookup_ge_None_2 by lia.
Qed.

Lemma length_indirect L : (12 <= length L <= 140)%nat → length (indirect_of L) = 128%nat.
Proof. intros H. unfold indirect_of. rewrite length_app, length_drop, length_replicate. lia. Qed.

(** *** Finding and allocating blocks *)

Definition with_addrs (d : dinode) (a : list Z) : dinode :=
  MkDinode (d_type d) (d_major d) (d_minor d) (d_nlink d) (d_size d) a.

Lemma frep_ib f L ib data : frep f L ib data → (12 < length L)%nat → 59 <= ib < 1000.
Proof.
  intros [_ _ _ _ _ Hr] H. rewrite owned_big in Hr by done. apply Forall_app in Hr as [_ Hr]. by apply Forall_cons in Hr as [? _].
Qed.

Lemma frep_L f L ib data j b : frep f L ib data → L !! j = Some b → 59 <= b < 1000.
Proof.
  intros [_ _ _ _ _ Hr] H. unfold owned in Hr. apply Forall_app in Hr as [Hr _]. by eapply (Forall_lookup_1 _ _ _ _ Hr).
Qed.

Lemma addr_alloc_used d L ib n a s :
  0 <= n <= 12 → addrs_of L ib !! Z.to_nat n = Some a → 0 < a < 1000 →
  addr_alloc (with_addrs d (addrs_of L ib)) n s = Ret (with_addrs d (addrs_of L ib), a) s.
Proof.
  intros Hn Ha Hr. unfold addr_alloc. cbn [d_addrs with_addrs]. rewrite Ha. cbn [get_some].
  rewrite bind_ret_l, xint_small by lia. replace (a =? 0) with false by lia. rewrite bind_ret_l. cbn [d_addrs with_addrs].
  rewrite Ha. cbn [get_some]. rewrite bind_ret_l, xint_small by lia. done.
Qed.

Lemma addr_alloc_fresh d L ib n s :
  good s → freeblock s < 1000 → 0 <= n <= 12 → addrs_of L ib !! Z.to_nat n = Some 0 →
  addr_alloc (with_addrs d (addrs_of L ib)) n s =
    Ret (with_addrs d (<[Z.to_nat n:=freeblock s]> (addrs_of L ib)), freeblock s) (s <|freeblock := freeblock s + 1|>).
Proof.
  intros Hs Hf Hn Ha. pose proof (gd_free _ Hs). unfold addr_alloc. cbn [d_addrs with_addrs]. rewrite Ha. cbn [get_some].
  rewrite bind_ret_l. change (xint 0 =? 0) with true. cbn iota.
  rewrite bind_assoc, (bind_Ret _ _ _ _ _ (fresh_ok s Hs Hf)), bind_ret_l. unfold set_addr. cbn [d_addrs with_addrs].
  rewrite list_lookup_insert_eq by (rewrite length_addrs; lia). cbn [get_some].
  rewrite bind_ret_l, !xint_small by lia. done.
Qed.

Lemma iappend_block_used s d L ib data j b :
  good s → frep (fs s) L ib data → L !! j = Some b →
  iappend_block (with_addrs d (addrs_of L ib)) (Z.of_nat j) s = Ret (with_addrs d (addrs_of L ib), b) s.
Proof.
  intros Hs Hr Hb. pose proof (frep_L _ _ _ _ _ _ Hr Hb) as Hbr. pose proof (lookup_lt_Some _ _ _ Hb) as Hlt.
  pose proof (fr_len _ _ _ _ Hr) as [_ HL]. unfold iappend_block, NDIRECT. destruct (Z.ltb_spec (Z.of_nat j) 12) as [Hj|Hj].
  - apply addr_alloc_used; [lia| |lia]. rewrite Nat2Z.id, addrs_lookup, Hb by lia. done.
  - pose proof (frep_ib _ _ _ _ Hr ltac:(lia)) as Hib.
    rewrite (bind_Ret _ _ _ _ _ (addr_alloc_used d L ib 12 ib s ltac:(lia) (addrs_last L ib) ltac:(lia))).
    rewrite (bind_Ret _ _ _ _ _ (rsect_ok s ib _ ltac:(lia) (fr_indirect _ _ _ _ Hr ltac:(lia)))).
    assert (get32 (le_many 4 (indirect_of L)) (4 * (Z.of_nat j - 12)) = Some b) as E.
    { replace (Z.of_nat j - 12) with (Z.of_nat (j - 12)) by lia. apply get32_words; [|by eapply indirect_range].
      rewrite indirect_lookup by lia. replace (12 + (j - 12))%nat with j by lia. by rewrite Hb. }
    rewrite E. cbn [get_some]. rewrite bind_ret_l. replace (b =? 0) with false by lia. rewrite bind_ret_l, E.
    cbn [get_some]. rewrite bind_ret_l, xint_small by lia. done.
Qed.

(** A fresh block is the next one of the padded data. *)
Lemma chunk_more j n data :
  (length data <= 512 * n)%nat → (j < n)%nat → chunk j (pad (S n) data) = chunk j (pad n data).
Proof.
  intros H Hj. unfold chunk, pad. replace (512 * S n - length data)%nat with ((512 * n - length data) + 512)%nat by lia.
  rewrite replicate_add, app_assoc, drop_app_le, take_app_le; [done|..];
    rewrite ?length_drop, length_app, length_replicate; lia.
Qed.

Lemma chunk_fresh n data : (length data <= 512 * n)%nat → chunk n (pad (S n) data) = zero_block.
Proof.
  intros H. unfold chunk, pad. replace (512 * S n - length data)%nat with ((512 * n - length data) + 512)%nat by lia.
  rewrite replicate_add, app_assoc, drop_app_length' by (rewrite length_app, length_replicate; lia). done.
Qed.

Lemma blocks_snoc (f : list (list Z)) L data b :
  (length data <= 512 * length L)%nat →
  (∀ j x, L !! j = Some x → f !! Z.to_nat x = Some (chunk j (pad (length L) data))) →
  f !! Z.to_nat b = Some zero_block →
  ∀ j x, (L ++ [b]) !! j = Some x → f !! Z.to_nat x = Some (chunk j (pad (length (L ++ [b])) data)).
Proof.
  intros Hd HL Hb j x Hx. rewrite length_app, Nat.add_1_r. apply lookup_snoc_Some in Hx as [[Hj Hx]|[-> <-]].
  - rewrite chunk_more by done. by apply HL.
  - by rewrite chunk_fresh.
Qed.

Lemma frep_snoc (f f' : list (list Z)) L ib ib' data b :
  frep f L ib data → (length L < 140)%nat → ((length L < 12)%nat → ib' = 0) →
  ((12 <= length L)%nat → f' !! Z.to_nat ib' = Some (le_many 4 (indirect_of (L ++ [b])))) →
  (∀ x, x ∈ L → f' !! Z.to_nat x = f !! Z.to_nat x) → f' !! Z.to_nat b = Some zero_block →
  NoDup (owned (L ++ [b]) ib') → Forall (λ b, 59 <= b < 1000) (owned (L ++ [b]) ib') →
  frep f' (L ++ [b]) ib' data.
Proof.
  intros [[Hd _] _ _ HB _ _] HL H1 H2 Hf Hb Hnd Hr. split; try done.
  - rewrite length_app. cbn. lia.
  - rewrite length_app. cbn. intros ?. apply H1. lia.
  - rewrite length_app. cbn. intros ?. apply H2. lia.
  - apply blocks_snoc; [done| |done]. intros j x Hx. rewrite Hf; [by apply HB|]. by eapply list_elem_of_lookup_2.
Qed.

(** What allocating blocks for a file changes. *)
Record allocated (s s' : image) (L L' : list Z) (ib ib' : Z) : Prop := {
  al_good : good s';
  al_inode : freeinode s' = freeinode s;
  al_free : freeblock s <= freeblock s';
  al_old : ∀ b, b ∈ owned L ib → b ∈ owned L' ib';
  al_new : ∀ b, b ∈ owned L' ib' → b ∈ owned L ib ∨ freeblock s <= b < freeblock s';
  al_frame : ∀ b, 0 <= b → b ∉ owned L' ib' → fs s' !! Z.to_nat b = fs s !! Z.to_nat b
}.

(** The entry of the indirect block for a new block. *)
Lemma indirect_new s L ib data b :
  good s → (12 <= length L < 140)%nat → 59 <= ib < freeblock s → ib ∉ L → freeblock s < 1000 →
  Forall (λ v, 0 <= v < 2 ^ 32) (indirect_of L) → b = freeblock s →
  let s' := s <|freeblock := b + 1|> <|fs ::= <[Z.to_nat ib:=le_many 4 (indirect_of (L ++ [b]))]>|> in
  fs s !! Z.to_nat ib = Some (le_many 4 (indirect_of L)) →
  (let! indirect := rsect ib in
   let! a := get_some (get32 indirect (4 * (Z.of_nat (length L) - 12))) in
   let! indirect :=
     (if a =? 0 then
        let! b := fresh in
        let! indirect := get_some (put32 indirect (4 * (Z.of_nat (length L) - 12)) (xint b)) in
        wsect ib indirect;;;
        ret indirect
      else ret indirect) in
   let! a := get_some (get32 indirect (4 * (Z.of_nat (length L) - 12))) in
   ret (data, xint a)) s = Ret (data : dinode, b) s' ∧ good s'.
Proof.
  intros Hs HL Hib Hni Hf Hr -> s' Hib'. pose proof (gd_free _ Hs).
  rewrite (bind_Ret _ _ _ _ _ (rsect_ok s ib _ ltac:(lia) Hib')).
  replace (Z.of_nat (length L) - 12) with (Z.of_nat (length L - 12)) by lia.
  rewrite (get32_words _ _ 0) by (done || (rewrite indirect_lookup by lia; rewrite lookup_ge_None_2 by lia; done)).
  cbn [get_some]. rewrite bind_ret_l. change (0 =? 0) with true. cbn iota. rewrite bind_assoc, (bind_Ret _ _ _ _ _ (fresh_ok s Hs Hf)).
  rewrite xint_small, put32_words by (rewrite ?length_indirect; lia). cbn [get_some]. rewrite indirect_snoc by lia.
  rewrite bind_assoc, bind_ret_l, bind_assoc.
  rewrite (bind_Ret _ _ _ _ _ (wsect_ok (s <|freeblock := freeblock s + 1|>) ib _ (gd_shape _ (good_fresh s Hs Hf)) ltac:(lia))).
  rewrite bind_ret_l, (get32_words _ _ (freeblock s)).
  - cbn [get_some]. rewrite bind_ret_l, xint_small by lia. split; [done|]. unfold s'.
    apply good_insert; [by apply good_fresh|rsimpl; lia|]. rewrite length_le_many, length_indirect; [lia|].
    rewrite length_app. cbn. lia.
  - rewrite indirect_lookup by (rewrite ?length_app; cbn; lia). replace (12 + (length L - 12))%nat with (length L) by lia.
    by rewrite lookup_app_r, Nat.sub_diag by lia.
  - rewrite <- indirect_snoc by lia. apply Forall_insert; [done|lia].
Qed.

Lemma owned_L f L ib data : frep f L ib data → NoDup L ∧ Forall (λ b, 59 <= b < 1000) L.
Proof.
  intros [_ _ _ _ Hn Hr]. unfold owned in *. apply Forall_app in Hr as [? _]. by apply NoDup_app in Hn as (? & _ & _).
Qed.

(** A new block of a file with no more than the direct blocks. *)
Lemma block_direct s d L ib data :
  good s → frep (fs s) L ib data → (length L < 12)%nat → Forall (λ b, b < freeblock s) (owned L ib) → freeblock s < 1000 →
  let b := freeblock s in
  let s' := s <|freeblock := freeblock s + 1|> in
  iappend_block (with_addrs d (addrs_of L ib)) (Z.of_nat (length L)) s = Ret (with_addrs d (addrs_of (L ++ [b]) ib), b) s' ∧
  frep (fs s') (L ++ [b]) ib data ∧ allocated s s' L (L ++ [b]) ib ib.
Proof.
  intros Hs Hr HL Hlt Hf b s'. pose proof (gd_free _ Hs). rewrite owned_small in Hlt by lia.
  destruct (owned_L _ _ _ _ Hr) as [Hnd Hrg]. assert (b ∉ L) as Hb.
  { intros Hin. rewrite Forall_forall in Hlt. specialize (Hlt b Hin). cbn in Hlt. unfold b in Hlt. lia. }
  assert (owned (L ++ [b]) ib = L ++ [b]) as Eo by (apply owned_small; rewrite length_app; cbn; lia).
  split_and!.
  - unfold iappend_block, NDIRECT. replace (Z.of_nat (length L) <? 12) with true by lia.
    rewrite addr_alloc_fresh by (done || lia || (rewrite Nat2Z.id, addrs_lookup by lia; by rewrite lookup_ge_None_2)).
    by rewrite Nat2Z.id, addrs_snoc by done.
  - apply (frep_snoc (fs s) _ L ib); try done; [lia|intros; apply (fr_none _ _ _ _ Hr); lia|lia| | |]; rewrite ?Eo.
    + unfold s'. rsimpl. apply (gd_zero _ Hs). unfold b. lia.
    + apply NoDup_app. split_and!; [done| |by apply NoDup_singleton]. intros x Hx ->%list_elem_of_singleton. done.
    + apply Forall_app. split; [done|]. repeat constructor; unfold b; lia.
  - split; unfold s'; rsimpl; [by apply good_fresh|done|lia| | |done]; intros x; rewrite Eo, owned_small by lia.
    + intros ?. apply elem_of_app. by left.
    + rewrite elem_of_app, list_elem_of_singleton. intros [?| ->]; [by left|right; unfold b; lia].
Qed.

Lemma zero_indirect L : length L = 12%nat → zero_block = le_many 4 (indirect_of L).
Proof. intros H. unfold indirect_of. rewrite drop_ge, H by lia. vm_compute. reflexivity. Qed.

(** A new block of a larger file, when the indirect block is there. *)
Lemma block_indirect s d L ib ib0 data :
  good s → frep (fs s) L ib0 data → (12 <= length L < 140)%nat → (length L = 12%nat ∨ ib = ib0) →
  59 <= ib < freeblock s → ib ∉ L → Forall (λ b, b < freeblock s) L → freeblock s < 1000 →
  fs s !! Z.to_nat ib = Some (le_many 4 (indirect_of L)) →
  ∃ s', (let b := freeblock s in
   (let (din, ib) := (with_addrs d (addrs_of L ib), ib) in
    let! indirect := rsect ib in
    let! a := get_some (get32 indirect (4 * (Z.of_nat (length L) - NDIRECT))) in
    let! indirect :=
      (if a =? 0 then
         let! b := fresh in
         let! indirect := get_some (put32 indirect (4 * (Z.of_nat (length L) - NDIRECT)) (xint b)) in
         wsect ib indirect;;;
         ret indirect
       else ret indirect) in
    let! a := get_some (get32 indirect (4 * (Z.of_nat (length L) - NDIRECT))) in
    ret (din, xint a)) s = Ret (with_addrs d (addrs_of (L ++ [b]) ib), b) s' ∧
   frep (fs s') (L ++ [b]) ib data ∧ good s' ∧ freeinode s' = freeinode s ∧ freeblock s' = freeblock s + 1 ∧
   ∀ x, 0 <= x → x ≠ ib → fs s' !! Z.to_nat x = fs s !! Z.to_nat x).
Proof.
  intros Hs Hr HL Hib0 Hib Hni Hlt Hf Hind. pose proof (gd_free _ Hs). destruct (owned_L _ _ _ _ Hr) as [Hnd Hrg].
  destruct (indirect_new s L ib (with_addrs d (addrs_of L ib)) (freeblock s)) as [E Hg]; try done.
  { by eapply indirect_range. }
  eexists. cbn zeta iota. unfold NDIRECT. rewrite addrs_full by lia. split; [exact E|].
  set (b := freeblock s) in *. rsimpl.
  assert (b ∉ L) as Hb by (intros Hin; rewrite Forall_forall in Hlt; specialize (Hlt b Hin); cbn in Hlt; lia).
  assert (owned (L ++ [b]) ib = L ++ [b] ++ [ib]) as Eo.
  { rewrite owned_big by (rewrite length_app; cbn; lia). by rewrite <- app_assoc. }
  split_and!; try done.
  - apply (frep_snoc (fs s) _ L ib0); try done; [lia|lia| | | | |]; rewrite ?Eo; rsimpl.
    + intros _. rewrite list_lookup_insert_eq; [done|]. rewrite (sh_length _ (gd_shape _ Hs)). lia.
    + intros x Hx. rewrite Forall_forall in Hrg. specialize (Hrg x Hx). cbn in Hrg.
      rewrite list_lookup_insert_ne; [done|]. intros Ex. apply Hni. by replace ib with x by lia.
    + rewrite list_lookup_insert_ne by lia. apply (gd_zero _ Hs). unfold b in *. lia.
    + apply NoDup_app. split_and!; [done| |apply NoDup_cons; split; [rewrite list_elem_of_singleton; lia|by apply NoDup_singleton]].
      intros x Hx [->| ->%list_elem_of_singleton]%elem_of_cons; done.
    + apply Forall_app. split; [done|]. repeat constructor; lia.
  - intros x Hx Hne. by rewrite list_lookup_insert_ne by lia.
Qed.

(** The blocks taken by [n] data blocks. *)
Definition bcost (n : nat) : Z := Z.of_nat (n + (if (12 <? n)%nat then 1 else 0)).

Lemma bcost_S n : bcost (S n) = bcost n + (if decide (n = 12%nat) then 2 else 1).
Proof. unfold bcost. destruct (Nat.ltb_spec 12 (S n)), (Nat.ltb_spec 12 n), (decide (n = 12%nat)); lia. Qed.

Lemma bcost_mono n m : (n <= m)%nat → bcost n <= bcost m.
Proof. intros H. unfold bcost. destruct (Nat.ltb_spec 12 n), (Nat.ltb_spec 12 m); lia. Qed.

Lemma iappend_block_new s d L ib data :
  good s → frep (fs s) L ib data → (length L < 140)%nat → Forall (λ b, b < freeblock s) (owned L ib) →
  freeblock s + bcost (S (length L)) - bcost (length L) <= 1000 →
  ∃ s' b ib', iappend_block (with_addrs d (addrs_of L ib)) (Z.of_nat (length L)) s =
      Ret (with_addrs d (addrs_of (L ++ [b]) ib'), b) s' ∧
    frep (fs s') (L ++ [b]) ib' data ∧ allocated s s' L (L ++ [b]) ib ib' ∧
    freeblock s' = freeblock s + bcost (S (length L)) - bcost (length L).
Proof.
  intros Hs Hr HL Hlt Hf. rewrite bcost_S in *. pose proof (gd_free _ Hs).
  destruct (Nat.lt_ge_cases (length L) 12) as [H12|H12].
  { rewrite decide_False in * by lia. exists (s <|freeblock := freeblock s + 1|>), (freeblock s), ib.
    destruct (block_direct s d L ib data) as (E & Hr' & Ha); try done; [lia|]. split_and!; try done. rsimpl. lia. }
  assert (Forall (λ b, b < freeblock s) L) as HltL by (unfold owned in Hlt; by apply Forall_app in Hlt as [? _]).
  destruct (decide (length L = 12%nat)) as [E12|N12].
  - pose proof (fr_none _ _ _ _ Hr ltac:(lia)) as ->. set (s1 := s <|freeblock := freeblock s + 1|>).
    assert (good s1) as Hs1 by (apply good_fresh; [done|lia]).
    destruct (block_indirect s1 d L (freeblock s) 0 data) as (s' & E & Hr' & Hg & Hi & Hfb & Hframe); unfold s1; rsimpl; try done;
      [by left|lia| |eapply Forall_impl; [done|cbn; lia]|lia| |].
    { intros Hin. rewrite Forall_forall in HltL. specialize (HltL _ Hin). cbn in HltL. lia. }
    { rewrite <- zero_indirect by done. apply (gd_zero _ Hs). lia. }
    cbn zeta in E, Hr'. unfold s1 in *. rsimpl. exists s', (freeblock s + 1), (freeblock s). split_and!; [|done| |rewrite Hfb; lia].
    + unfold iappend_block, NDIRECT at 1. replace (Z.of_nat (length L) <? 12) with false by lia.
      rewrite (bind_Ret _ _ _ _ _ (addr_alloc_fresh d L 0 12 s Hs ltac:(lia) ltac:(lia) (addrs_last L 0))).
      change (Z.to_nat 12) with 12%nat. rewrite addrs_indirect by lia. exact E.
    + split; [done|done|lia| | |].
      * intros b. rewrite owned_small by lia. unfold owned. rewrite !elem_of_app. tauto.
      * intros b. rewrite owned_big, owned_small by (rewrite ?length_app; cbn; lia).
        rewrite !elem_of_app, !list_elem_of_singleton. intros [[?| ->]| ->]; [by left|right; lia..].
      * intros b Hb. rewrite owned_big by (rewrite length_app; cbn; lia). rewrite !elem_of_app, !list_elem_of_singleton.
        intros Hni. apply Hframe; [done|]. tauto.
  - rewrite owned_big in Hlt by lia. apply Forall_app in Hlt as [_ [Hib _]%Forall_cons].
    pose proof (frep_ib _ _ _ _ Hr ltac:(lia)) as Hibr. pose proof (fr_nodup _ _ _ _ Hr) as Hnd. rewrite owned_big in Hnd by lia.
    apply NoDup_app in Hnd as (_ & Hni & _).
    destruct (block_indirect s d L ib ib data) as (s' & E & Hr' & Hg & Hi & Hfb & Hframe); try done;
      [by right|lia| |lia|apply (fr_indirect _ _ _ _ Hr); lia|].
    { intros Hin. apply (Hni _ Hin). set_solver. }
    exists s', (freeblock s), ib. split_and!; [|done| |rewrite Hfb; lia].
    + unfold iappend_block, NDIRECT at 1. replace (Z.of_nat (length L) <? 12) with false by lia.
      rewrite (bind_Ret _ _ _ _ _ (addr_alloc_used d L ib 12 ib s ltac:(lia) (addrs_last L ib) ltac:(lia))). exact E.
    + split; [done|done|lia| | |].
      * intros b. rewrite !owned_big by (rewrite ?length_app; cbn; lia). rewrite !elem_of_app. tauto.
      * intros b. rewrite !owned_big by (rewrite ?length_app; cbn; lia). rewrite !elem_of_app, !list_elem_of_singleton.
        intros [[?| ->]| ->]; [by left; left|right; lia|by left; right].
      * intros b Hb. rewrite owned_big by (rewrite length_app; cbn; lia). rewrite !elem_of_app, !list_elem_of_singleton.
        intros Hni'. apply Hframe; [done|]. tauto.
Qed.

(** Bytes are added to the last block. *)
Lemma write_block s L ib data p j x :
  good s → frep (fs s) L ib data → L !! j = Some x → length L = S j → x < freeblock s →
  (512 * j <= length data)%nat → (length (data ++ p) <= 512 * S j)%nat →
  let s' := s <|fs ::= <[Z.to_nat x:=chunk j (pad (length L) (data ++ p))]>|> in
  (let! buf := rsect x in
   let! buf := get_some (splice buf (Z.of_nat (length data) - Z.of_nat j * BSIZE) p) in
   wsect x buf) s = Ret tt s' ∧ frep (fs s') L ib (data ++ p) ∧ allocated s s' L L ib ib.
Proof.
  intros Hs Hr Hx Hj Hlt H1 H2 s'. pose proof (frep_L _ _ _ _ _ _ Hr Hx) as Hxr. pose proof (fr_len _ _ _ _ Hr) as [Hl HL].
  assert (length (chunk j (pad (length L) (data ++ p))) = 512%nat) as Hcl by (apply length_chunk; lia).
  split_and!.
  - rewrite (bind_Ret _ _ _ _ _ (rsect_ok s x _ ltac:(lia) (fr_blocks _ _ _ _ Hr _ _ Hx))). unfold BSIZE.
    replace (Z.of_nat (length data) - Z.of_nat j * 512) with (Z.of_nat (length data - 512 * j)) by lia.
    rewrite chunk_splice by lia. cbn [get_some]. rewrite bind_ret_l. apply wsect_ok; [apply Hs|lia].
  - pose proof Hr as [_ Hn Hi Hb Hnd Hrg]. assert (NoDup L ∧ (∀ y, y ∈ L → (12 < length L)%nat → y ≠ ib)) as [HndL Hne].
    { split; [by eapply owned_L|]. intros y Hy H12 ->. rewrite owned_big in Hnd by done.
      apply NoDup_app in Hnd as (_ & Hno & _). apply (Hno _ Hy). set_solver. }
    split; try done; unfold s'; rsimpl.
    + lia.
    + intros H12. pose proof (frep_ib _ _ _ _ Hr H12). rewrite list_lookup_insert_ne; [by apply Hi|].
      intros E. apply (Hne x); [by eapply list_elem_of_lookup_2|done|lia].
    + intros i y Hy. destruct (decide (i = j)) as [->|Hij].
      * simplify_eq. rewrite list_lookup_insert_eq; [done|]. rewrite (sh_length _ (gd_shape _ Hs)). lia.
      * pose proof (frep_L _ _ _ _ _ _ Hr Hy). rewrite list_lookup_insert_ne.
        2: { intros E. apply Hij. eapply (NoDup_lookup L); [done|done|]. by replace y with x by lia. }
        pose proof (lookup_lt_Some _ _ _ Hy). rewrite (Hb _ _ Hy), chunk_other; [done|lia|lia].
  - split; unfold s'; rsimpl; [apply good_insert; [done|lia|done]|done|lia|done|by left|].
    intros b Hb Hni. rewrite list_lookup_insert_ne; [done|]. intros E. apply Hni. unfold owned.
    apply elem_of_app. left. replace b with x by lia. by eapply list_elem_of_lookup_2.
Qed.

Lemma allocated_refl s L ib : good s → allocated s s L L ib ib.
Proof. intros Hs. split; try done. by left. Qed.

Lemma allocated_trans s1 s2 s3 L1 L2 L3 ib1 ib2 ib3 :
  allocated s1 s2 L1 L2 ib1 ib2 → allocated s2 s3 L2 L3 ib2 ib3 → allocated s1 s3 L1 L3 ib1 ib3.
Proof.
  intros [G1 I1 F1 O1 N1 E1] [G2 I2 F2 O2 N2 E2]. split; [done|congruence|lia| | |].
  - intros b ?. by apply O2, O1.
  - intros b [[?|?]%N1|?]%N2; [by left|right; lia..].
  - intros b Hb Hni. rewrite E2, E1; [done|done| |done|done]. intros ?. by apply Hni, O2.
Qed.

Lemma allocated_below s s' L L' ib ib' :
  allocated s s' L L' ib ib' → Forall (λ b, b < freeblock s) (owned L ib) → Forall (λ b, b < freeblock s') (owned L' ib').
Proof.
  intros [_ _ Hf _ Hn _] Hb. rewrite Forall_forall in *. intros b [Hin|?]%Hn; [|lia]. specialize (Hb b Hin). cbn in *. lia.
Qed.

Lemma nblk_spec n : (512 * nblk n < n + 512 ∧ n <= 512 * nblk n)%nat.
Proof.
  unfold nblk. pose proof (Nat.div_mod (n + 511) 512). pose proof (Nat.mod_upper_bound (n + 511) 512). lia.
Qed.

Lemma nblk_full n : (n mod 512 = 0)%nat → nblk n = (n / 512)%nat.
Proof.
  intros Hm. pose proof (nblk_spec n). pose proof (Nat.div_mod n 512 ltac:(lia)). lia.
Qed.

Lemma nblk_part n : (n mod 512 ≠ 0)%nat → nblk n = S (n / 512).
Proof.
  intros Hm. pose proof (nblk_spec n). pose proof (Nat.div_mod n 512 ltac:(lia)).
  pose proof (Nat.mod_upper_bound n 512 ltac:(lia)). lia.
Qed.

(** The block for the next byte of the file. *)
Lemma next_block s d L ib data j :
  good s → frep (fs s) L ib data → length L = nblk (length data) → j = (length data / 512)%nat → (j < 140)%nat →
  Forall (λ b, b < freeblock s) (owned L ib) → freeblock s + bcost (S j) - bcost (length L) <= 1000 →
  ∃ s' L' ib' x, iappend_block (with_addrs d (addrs_of L ib)) (Z.of_nat j) s =
      Ret (with_addrs d (addrs_of L' ib'), x) s' ∧
    frep (fs s') L' ib' data ∧ L' !! j = Some x ∧ length L' = S j ∧ allocated s s' L L' ib ib' ∧
    freeblock s' = freeblock s + bcost (S j) - bcost (length L).
Proof.
  intros Hs Hr HL Hj Hj' Hlt Hf.
  destruct (decide (length data mod 512 = 0)%nat) as [Hm|Hm].
  - assert (length L = j) as EL by (rewrite HL, Hj; by apply nblk_full). rewrite <- EL in *. clear EL.
    destruct (iappend_block_new s d L ib data) as (s' & b & ib' & E & Hr' & Ha & Hfb); try done.
    exists s', (L ++ [b]), ib', b. split_and!; try done.
    + by rewrite lookup_app_r, Nat.sub_diag by lia.
    + rewrite length_app. cbn. lia.
  - assert (length L = S j) as EL by (rewrite HL, Hj; by apply nblk_part). destruct (lookup_lt_is_Some_2 L j) as [x Hx]; [lia|].
    exists s, L, ib, x. rewrite EL in *. split_and!; try done; [by eapply iappend_block_used|by apply allocated_refl|lia].
Qed.

(** *** [iappend] *)

Lemma nblk_mono n m : (n <= m)%nat → (nblk n <= nblk m)%nat.
Proof. intros H. unfold nblk. apply Nat.Div0.div_le_mono. lia. Qed.

Lemma nblk_within n m : (512 * m < n <= 512 * S m)%nat → nblk n = S m.
Proof. intros H. pose proof (nblk_spec n). lia. Qed.

Lemma nblk_max n : (n <= 512 * 140)%nat → (nblk n <= 140)%nat.
Proof. intros H. pose proof (nblk_spec n). lia. Qed.

Lemma round_arith (n p : nat) :
  (0 < p)%nat → let j := (n / 512)%nat in let n1 := (Nat.min p (512 * S j - n))%nat in
  Z.of_nat n / BSIZE = Z.of_nat j ∧
  Z.min (Z.of_nat p) (u32 ((Z.of_nat j + 1) * BSIZE - Z.of_nat n)) = Z.of_nat n1 ∧
  (0 < n1 <= p)%nat ∧ (512 * j <= n)%nat ∧ (512 * j < n + n1 <= 512 * S j)%nat ∧ (n < 512 * S j)%nat.
Proof.
  intros Hp. cbn zeta. pose proof (Nat.div_mod n 512 ltac:(lia)) as Hn. pose proof (Nat.mod_upper_bound n 512 ltac:(lia)) as Hr.
  unfold BSIZE.
  assert (Z.of_nat n / 512 = Z.of_nat (n / 512)) as -> by (by rewrite Nat2Z.inj_div).
  remember (n / 512)%nat as j eqn:Ej. remember (n mod 512)%nat as r eqn:Er. clear Ej Er. rewrite u32_small by lia. lia.
Qed.

Lemma write_then {A} s x (g : list Z → option (list Z)) (m : M image A) s' :
  (let! buf := rsect x in let! buf := get_some (g buf) in wsect x buf) s = Ret tt s' →
  (let! buf := rsect x in let! buf := get_some (g buf) in wsect x buf;;; m) s = m s'.
Proof.
  intros E. rewrite <- (bind_Ret _ (λ _, m) _ _ _ E), bind_assoc. apply bind_ext. intros b s1. by rewrite bind_assoc.
Qed.

Lemma iappend_loop_ok fuel s d L ib data p :
  good s → frep (fs s) L ib data → length L = nblk (length data) → (length p < fuel)%nat →
  (length (data ++ p) <= 512 * 140)%nat → Forall (λ b, b < freeblock s) (owned L ib) →
  freeblock s + bcost (nblk (length (data ++ p))) - bcost (length L) <= 1000 →
  ∃ s' L' ib', iappend_loop fuel (with_addrs d (addrs_of L ib)) (Z.of_nat (length data)) p s =
      Ret (with_addrs d (addrs_of L' ib'), Z.of_nat (length (data ++ p))) s' ∧
    frep (fs s') L' ib' (data ++ p) ∧ length L' = nblk (length (data ++ p)) ∧ allocated s s' L L' ib ib' ∧
    freeblock s' = freeblock s + bcost (length L') - bcost (length L).
Proof.
  revert s L ib data p. induction fuel as [|fuel IH]; intros s L ib data p Hs Hr HL Hfu Hmax Hlt Hf; [lia|].
  cbn [iappend_loop]. destruct (decide (length p = 0%nat)) as [Hp|Hp].
  { apply nil_length_inv in Hp. subst p. rewrite app_nil_r in *. cbn.
    exists s, L, ib. split_and!; try done; [by apply allocated_refl|lia]. }
  replace (0 <? Z.of_nat (length p)) with true by lia. rewrite length_app in Hmax, Hf.
  destruct (round_arith (length data) (length p) ltac:(lia)) as (E1 & E2 & H1 & H2 & H3 & H4).
  remember (length data / 512)%nat as j eqn:Ej. remember (Nat.min (length p) (512 * S j - length data)) as n1 eqn:En1.
  rewrite E1. unfold MAXFILE, NDIRECT, NINDIRECT. change (BSIZE / 4) with 128.
  replace (Z.of_nat j <? 12 + 128) with true by lia. cbn [negb].
  assert (nblk (length data + n1) = S j) as Eb by (apply nblk_within; lia).
  assert (bcost (S j) <= bcost (nblk (length data + length p))) as Hc by (rewrite <- Eb; apply bcost_mono, nblk_mono; lia).
  destruct (next_block s d L ib data j) as (s1 & L1 & ib1 & x & B1 & R1 & X1 & N1 & A1 & F1); try done; [lia|lia|].
  rewrite (bind_Ret _ _ _ _ _ B1), E2, Nat2Z.id.
  pose proof (allocated_below _ _ _ _ _ _ A1 Hlt) as Hlt1.
  destruct (write_block s1 L1 ib1 data (take n1 p) j x) as (W1 & R2 & A2); try done; [apply A1| | |].
  { rewrite Forall_forall in Hlt1. apply Hlt1. unfold owned. apply elem_of_app. left. by eapply list_elem_of_lookup_2. }
  { rewrite length_app, length_take. lia. }
  remember (s1 <|fs ::= <[Z.to_nat x:=chunk j (pad (length L1) (data ++ take n1 p))]>|>) as s2 eqn:Es2.
  assert (freeblock s2 = freeblock s1) as F2 by (by rewrite Es2).
  rewrite (write_then s1 x (λ buf, splice buf (Z.of_nat (length data) - Z.of_nat j * BSIZE) (take n1 p)) _ _ W1).
  assert (length (data ++ take n1 p) = length data + n1)%nat as Ed by (rewrite length_app, length_take; lia).
  destruct (IH s2 L1 ib1 (data ++ take n1 p) (drop n1 p)) as (s3 & L3 & ib3 & E3 & R3 & N3 & A3 & F3).
  - apply A2.
  - done.
  - by rewrite Ed, Eb.
  - rewrite length_drop. lia.
  - rewrite <- app_assoc, take_drop, length_app. lia.
  - by rewrite F2.
  - rewrite <- app_assoc, take_drop, length_app, F2, F1, N1. lia.
  - rewrite <- app_assoc, take_drop in E3, R3, N3. rewrite Ed in E3. rewrite u32_small by lia.
    replace (Z.of_nat (length data) + Z.of_nat n1) with (Z.of_nat (length data + n1)) by lia.
    exists s3, L3, ib3. split_and!; [exact E3|done|done| |rewrite F3, F2, F1, N1; lia].
    eapply allocated_trans; [exact A1|]. by eapply allocated_trans.
Qed.

(** *** All files *)

Record fileinfo := MkFile { ft : Z; fL : list Z; fib : Z; fdata : list Z }.

Definition fdinode (x : fileinfo) : dinode :=
  MkDinode (ft x) 0 0 1 (Z.of_nat (length (fdata x))) (addrs_of (fL x) (fib x)).

Record file_ok (s : image) (i : Z) (x : fileinfo) : Prop := {
  fk_inum : 1 <= i < freeinode s;
  fk_type : 0 <= ft x < 2 ^ 15;
  fk_inode : inode_at (fs s) i = fdinode x;
  fk_rep : frep (fs s) (fL x) (fib x) (fdata x);
  fk_len : length (fL x) = nblk (length (fdata x));
  fk_below : Forall (λ b, b < freeblock s) (owned (fL x) (fib x))
}.

(** The image [s] holds the files [F], each in blocks of its own. *)
Record holds (s : image) (F : gmap Z fileinfo) : Prop := {
  hd_good : good s;
  hd_inodes : 1 <= freeinode s <= 208;
  hd_file : ∀ i x, F !! i = Some x → file_ok s i x;
  hd_apart : ∀ i j x y b, F !! i = Some x → F !! j = Some y →
    b ∈ owned (fL x) (fib x) → b ∈ owned (fL y) (fib y) → i = j
}.

Lemma fdinode_ok f x : 0 <= ft x < 2 ^ 15 → frep f (fL x) (fib x) (fdata x) → dinode_ok (fdinode x).
Proof.
  intros Ht Hr. pose proof (fr_len _ _ _ _ Hr). split; cbn; try lia; [apply length_addrs|].
  unfold addrs_of. rewrite !Forall_app. destruct (owned_L _ _ _ _ Hr) as [_ HL]. split_and!.
  - apply Forall_take. eapply Forall_impl; [done|]. cbn. lia.
  - apply Forall_replicate. lia.
  - repeat constructor; destruct (Nat.lt_ge_cases 12 (length (fL x))) as [H12|H12];
      [pose proof (frep_ib _ _ _ _ Hr H12)|rewrite (fr_none _ _ _ _ Hr H12)
      |pose proof (frep_ib _ _ _ _ Hr H12)|rewrite (fr_none _ _ _ _ Hr H12)]; lia.
Qed.

(** Blocks below 59 are not data blocks. *)
Lemma frep_inode_block f L ib data b x :
  frep f L ib data → (b < 59)%nat → frep (<[b:=x]> f) L ib data.
Proof.
  intros Hr Hb. apply (frep_frame f); [done|]. intros y Hy. pose proof (fr_range _ _ _ _ Hr) as Hrg.
  rewrite Forall_forall in Hrg. specialize (Hrg y Hy). cbn in Hrg. by rewrite list_lookup_insert_ne by lia.
Qed.

Lemma good_inode_block s b x : good s → (2 <= b < 59)%nat → length x = 512%nat → good (s <|fs ::= <[b:=x]>|>).
Proof.
  intros Hs Hb Hx. pose proof (gd_free _ Hs). replace b with (Z.to_nat (Z.of_nat b)) by lia. apply good_insert; [done|lia|done].
Qed.

(** Writing an inode keeps the data of all files. *)
Lemma winode_holds s i d :
  good s → 0 <= i < 208 → dinode_ok d →
  ∃ s', winode i d s = Ret tt s' ∧ good s' ∧ freeinode s' = freeinode s ∧ freeblock s' = freeblock s ∧
    inode_at (fs s') i = d ∧ (∀ j, 0 <= j < 208 → j ≠ i → inode_at (fs s') j = inode_at (fs s) j) ∧
    (∀ L ib data, frep (fs s) L ib data → frep (fs s') L ib data).
Proof.
  intros Hs Hi Hd. destruct (winode_ok s i d (gd_shape _ Hs) Hi Hd) as (b & E & Hsh & H1 & H2). cbn zeta in *.
  assert (2 <= Z.to_nat (32 + i / 8) < 59)%nat as Hb by zdiv.
  eexists. split; [exact E|]. split_and!; try done.
  - apply good_inode_block; [done|done|]. pose proof (sh_blocks _ Hsh) as Hbl. rsimpl.
    eapply (Forall_lookup_1 _ _ (Z.to_nat (32 + i / 8)) _ Hbl). apply list_lookup_insert_eq.
    rewrite (sh_length _ (gd_shape _ Hs)). lia.
  - intros L ib data Hr. rsimpl. apply frep_inode_block; [done|lia].
Qed.

(** A file that is not the one being written. *)
Lemma other_ok s s' i x L ib L' ib' :
  allocated s s' L L' ib ib' → file_ok s i x → (∀ b, b ∈ owned L ib → b ∉ owned (fL x) (fib x)) →
  frep (fs s') (fL x) (fib x) (fdata x) ∧ (∀ b, b ∈ owned L' ib' → b ∉ owned (fL x) (fib x)).
Proof.
  intros [_ _ _ _ Hn Hf] [_ _ _ Hr _ Hb] Hd. rewrite Forall_forall in Hb.
  assert (∀ b, b ∈ owned L' ib' → b ∉ owned (fL x) (fib x)) as Hd'.
  { intros b [?|?]%Hn Hin; [by apply (Hd b)|]. specialize (Hb b Hin). cbn in Hb. lia. }
  split; [|done]. apply (frep_frame (fs s)); [done|]. intros b Hin. apply Hf.
  - pose proof (fr_range _ _ _ _ Hr) as Hrg. rewrite Forall_forall in Hrg. specialize (Hrg b Hin). cbn in Hrg. lia.
  - intros Hin'. by apply (Hd' b).
Qed.

Lemma allocated_inode s s' L L' ib ib' data j :
  allocated s s' L L' ib ib' → frep (fs s') L' ib' data → 0 <= j < 208 → inode_at (fs s') j = inode_at (fs s) j.
Proof.
  intros [_ _ _ _ _ Hf] Hr Hj. unfold inode_at. rewrite Hf; [done|zdiv|]. intros Hin.
  pose proof (fr_range _ _ _ _ Hr) as Hrg. rewrite Forall_forall in Hrg. specialize (Hrg _ Hin). cbn in Hrg. zdiv.
Qed.

Lemma iappend_ok s F i x p :
  holds s F → F !! i = Some x → (length (fdata x ++ p) <= 512 * 140)%nat →
  freeblock s + cost (length (fdata x ++ p)) - cost (length (fdata x)) <= 1000 →
  ∃ s' L ib, iappend i p s = Ret tt s' ∧ holds s' (<[i:=MkFile (ft x) L ib (fdata x ++ p)]> F) ∧
    freeinode s' = freeinode s ∧ freeblock s' = freeblock s + cost (length (fdata x ++ p)) - cost (length (fdata x)).
Proof.
  intros [Hs Hi HF Hap] Hx Hmax Hf. pose proof (HF _ _ Hx) as [Fi Ft Fn Fr Fl Fb]. pose proof (gd_free _ Hs).
  unfold iappend. rewrite (bind_Ret _ _ _ _ _ (rinode_ok s i (gd_shape _ Hs) ltac:(lia))), Fn. cbn [d_size fdinode].
  pose proof (fr_len _ _ _ _ Fr). rewrite xint_small by lia.
  destruct (iappend_loop_ok (S (length p)) s (fdinode x) (fL x) (fib x) (fdata x) p)
    as (s1 & L & ib & E & Hr & Hl & Ha & Hfb); try done; [lia|by rewrite Fl|].
  change (with_addrs (fdinode x) (addrs_of (fL x) (fib x))) with (fdinode x) in E.
  rewrite (bind_Ret _ _ _ _ _ E). set (y := MkFile (ft x) L ib (fdata x ++ p)).
  rewrite xint_small by (pose proof (fr_len _ _ _ _ Hr); lia). change (set_dsize _ _) with (fdinode y).
  pose proof (fdinode_ok (fs s1) y Ft Hr) as Hd.
  destruct (winode_holds s1 i (fdinode y) (al_good _ _ _ _ _ _ Ha) ltac:(lia) Hd) as (s2 & E2 & G2 & I2 & B2 & N2 & O2 & R2).
  pose proof (allocated_below _ _ _ _ _ _ Ha Fb) as Hb. pose proof (al_inode _ _ _ _ _ _ Ha) as Hi1.
  exists s2, L, ib. split_and!; [exact E2| |congruence|rewrite B2, Hfb, Hl, Fl; done].
  assert (∀ j z, F !! j = Some z → j ≠ i → frep (fs s1) (fL z) (fib z) (fdata z) ∧
    (∀ b, b ∈ owned L ib → b ∉ owned (fL z) (fib z))) as Hoth.
  { intros j z Hz Hne. apply (other_ok s s1 j z (fL x) (fib x)); [done|by apply HF|].
    intros b Hb1 Hb2. apply Hne. by eapply (Hap j i z x b). }
  split; [done|lia| |].
  - intros j z [[<- <-]|[Hne Hz]]%lookup_insert_Some.
    + split; [lia|done|done|by apply R2|done|by rewrite B2].
    + destruct (HF _ _ Hz) as [Gi Gt Gn Gr Gl Gb]. split; [lia|done| | |done|].
      * rewrite O2 by (done || lia). by rewrite (allocated_inode s s1 _ _ _ _ _ j Ha Hr) by lia.
      * by apply R2, (Hoth j).
      * rewrite B2. eapply Forall_impl; [done|]. pose proof (al_free _ _ _ _ _ _ Ha). cbn. lia.
  - intros j k z w b [[<- <-]|[Nj Hz]]%lookup_insert_Some [[<- <-]|[Nk Hw]]%lookup_insert_Some Hb1 Hb2; [done| | |by eapply Hap].
    + by destruct (proj2 (Hoth k w Hw (not_eq_sym Nk)) b).
    + by destruct (proj2 (Hoth j z Hz (not_eq_sym Nj)) b).
Qed.

(** A new file. *)
Lemma ialloc_ok s F t :
  holds s F → freeinode s < 208 → 0 <= t < 2 ^ 15 → F !! freeinode s = None →
  ∃ s', ialloc t s = Ret (freeinode s) s' ∧ holds s' (<[freeinode s:=MkFile t [] 0 []]> F) ∧
    freeinode s' = freeinode s + 1 ∧ freeblock s' = freeblock s.
Proof.
  intros [Hs Hi HF Hap] Hlt Ht Hnone. unfold ialloc. rewrite bind_gets, bind_modify.
  set (s1 := s <|freeinode := u32 (freeinode s + 1)|>). set (y := MkFile t [] 0 []).
  assert (freeinode s1 = freeinode s + 1) as E1 by (unfold s1; rsimpl; apply u32_small; lia).
  assert (good s1) as Hs1 by (destruct Hs as [[? ? ? ?] ? ?]; by split).
  assert (frep (fs s1) [] 0 []) as Hr.
  { split; cbn; try done; first [lia|constructor]. }
  replace (MkDinode _ _ _ _ _ _) with (fdinode y).
  2: { unfold fdinode, y. cbn [ft fdata fL fib length]. rewrite !xshort_small, !i16_small by lia. done. }
  destruct (winode_holds s1 (freeinode s) (fdinode y) Hs1 ltac:(lia) (fdinode_ok _ y Ht Hr))
    as (s2 & E2 & G2 & I2 & B2 & N2 & O2 & R2).
  exists s2. rewrite (bind_Ret _ _ _ _ _ E2). split_and!; [done| |congruence|by rewrite B2].
  split; [done|lia| |].
  - intros j z [[<- <-]|[Hne Hz]]%lookup_insert_Some.
    + split; [lia|done|done|by apply R2|done|constructor].
    + destruct (HF _ _ Hz) as [Gi Gt Gn Gr Gl Gb]. split; [lia|done| |by apply R2|done|by rewrite B2].
      rewrite O2 by (done || lia). done.
  - intros j k z w b [[<- <-]|[Nj Hz]]%lookup_insert_Some [[<- <-]|[Nk Hw]]%lookup_insert_Some Hb1 Hb2;
      [done|by apply elem_of_nil in Hb1|by apply elem_of_nil in Hb2|by eapply Hap].
Qed.

(** *** Contents by inode number *)

Definition view (F : gmap Z fileinfo) : gmap Z (Z * list Z) := (λ x, (ft x, fdata x)) <$> F.
Definition has (s : image) (C : gmap Z (Z * list Z)) : Prop := ∃ F, holds s F ∧ C = view F.

Lemma has_inodes s C : has s C → 1 <= freeinode s <= 208.
Proof. intros (F & H & _). apply H. Qed.

Lemma cost_bcost n : cost n = bcost (nblk n).
Proof. reflexivity. Qed.

Lemma cost_mono n m : (n <= m)%nat → cost n <= cost m.
Proof. intros H. rewrite !cost_bcost. by apply bcost_mono, nblk_mono. Qed.

Lemma cost_pos n : 0 <= cost n.
Proof. unfold cost. lia. Qed.

Lemma iappend_has s C i t data p :
  has s C → C !! i = Some (t, data) → (length (data ++ p) <= 512 * 140)%nat →
  freeblock s + cost (length (data ++ p)) - cost (length data) <= 1000 →
  ∃ s', iappend i p s = Ret tt s' ∧ has s' (<[i:=(t, data ++ p)]> C) ∧
    freeinode s' = freeinode s ∧ freeblock s' = freeblock s + cost (length (data ++ p)) - cost (length data).
Proof.
  intros (F & HF & ->) Hi Hmax Hf. unfold view in Hi. rewrite lookup_fmap in Hi. destruct (F !! i) as [x|] eqn:Hx; [|done].
  injection Hi as <- <-. destruct (iappend_ok s F i x p) as (s' & L & ib & E & H' & E1 & E2); try done.
  exists s'. split_and!; try done. eexists. split; [done|]. unfold view. by rewrite fmap_insert.
Qed.

Lemma ialloc_has s C t :
  has s C → freeinode s < 208 → 0 <= t < 2 ^ 15 → C !! freeinode s = None →
  ∃ s', ialloc t s = Ret (freeinode s) s' ∧ has s' (<[freeinode s:=(t, [])]> C) ∧
    freeinode s' = freeinode s + 1 ∧ freeblock s' = freeblock s.
Proof.
  intros (F & HF & ->) Hlt Ht Hn. unfold view in Hn. rewrite lookup_fmap in Hn. destruct (F !! freeinode s) eqn:E; [done|].
  destruct (ialloc_ok s F t HF Hlt Ht E) as (s' & E1 & H' & E2 & E3). exists s'. split_and!; try done.
  eexists. split; [done|]. unfold view. by rewrite fmap_insert.
Qed.

Lemma copy_file_has s C i t data chunks :
  has s C → C !! i = Some (t, data) → (length (data ++ concat chunks) <= 512 * 140)%nat →
  freeblock s + cost (length (data ++ concat chunks)) - cost (length data) <= 1000 →
  ∃ s', copy_file i chunks s = Ret tt s' ∧ has s' (<[i:=(t, data ++ concat chunks)]> C) ∧
    freeinode s' = freeinode s ∧ freeblock s' = freeblock s + cost (length (data ++ concat chunks)) - cost (length data).
Proof.
  revert s C data. induction chunks as [|c cs IH]; intros s C data HC Hi Hmax Hf; cbn [copy_file concat] in *.
  { rewrite app_nil_r in *. exists s. split_and!; [done| |done|lia]. by rewrite insert_id. }
  rewrite app_assoc in *.
  assert (cost (length (data ++ c)) <= cost (length ((data ++ c) ++ concat cs))) by (apply cost_mono; rewrite (length_app (data ++ c)); lia).
  destruct (iappend_has s C i t data c) as (s1 & E1 & H1 & I1 & B1); [done|done|rewrite (length_app (data ++ c)) in Hmax; lia|lia|].
  rewrite (bind_Ret _ _ _ _ _ E1).
  destruct (IH s1 _ (data ++ c) H1) as (s2 & E2 & H2 & I2 & B2); [by rewrite lookup_insert_eq|done|lia|].
  exists s2. split_and!; [done| |congruence|lia]. by rewrite insert_insert_eq in H2.
Qed.

(** The directory entries of files with inode numbers from [k] on. *)
Definition file_name (arg : list Z) : list Z := match arg with 95 :: s => s | _ => arg end.

Fixpoint dir_of (k : Z) (files : list (list Z * list (list Z))) : list Z :=
  match files with
  | [] => []
  | x :: files => dir_entry k (file_name x.1) ++ dir_of (k + 1) files
  end.

Lemma length_dir_entry k n : length (dir_entry k n) = 16%nat.
Proof.
  unfold dir_entry, dirent_bytes, dir_name. cbn [de_inum de_name].
  rewrite !length_app, length_le, length_take, length_replicate. change (Z.to_nat DIRSIZ) with 14%nat. lia.
Qed.

Lemma length_dir_of k files : length (dir_of k files) = (16 * length files)%nat.
Proof.
  revert k. induction files as [|x files IH]; intros k; cbn [dir_of length]; [done|]. rewrite length_app, length_dir_entry, IH. lia.
Qed.

Definition total_cost (files : list (list Z * list (list Z))) : Z :=
  foldr (λ x n, cost (length (concat x.2)) + n) 0 files.

Lemma total_cost_pos files : 0 <= total_cost files.
Proof. induction files as [|x files IH]; cbn; [lia|]. pose proof (cost_pos (length (concat x.2))). unfold total_cost in IH. lia. Qed.

(** What the arguments must be. *)
Definition arg_ok (x : list Z * list (list Z)) : Prop :=
  existsb (Z.eqb 47) x.1 = false ∧ (length (concat x.2) <= 512 * 140)%nat.

Lemma add_files_has s C k rd files :
  has s C → C !! 1 = Some (T_DIR, rd) → freeinode s = k → (∀ j, k <= j → C !! j = None) →
  k + Z.of_nat (length files) <= 208 → Forall arg_ok files → (length rd + 16 * length files <= 512 * 140)%nat →
  freeblock s + cost (length rd + 16 * length files) - cost (length rd) + total_cost files <= 1000 →
  ∃ s' C', add_files 1 (map (λ x, (x.1, Some x.2)) files) s = Ret tt s' ∧ has s' C' ∧
    C' !! 1 = Some (T_DIR, rd ++ dir_of k files) ∧
    (∀ i x, files !! i = Some x → C' !! (k + Z.of_nat i) = Some (T_FILE, concat x.2)) ∧
    (∀ j, j ≠ 1 → j < k → C' !! j = C !! j) ∧
    freeblock s' = freeblock s + cost (length rd + 16 * length files) - cost (length rd) + total_cost files.
Proof.
  revert s C k rd. induction files as [|x files IH]; intros s C k rd HC Hrd Hk Hnone Hn Hargs Hl Hf.
  { exists s, C. cbn [map add_files dir_of length total_cost foldr]. rewrite app_nil_r, Nat.mul_0_r, Nat.add_0_r.
    split_and!; try done. lia. }
  apply Forall_cons in Hargs as [[Hx1 Hx2] Hargs]. cbn [map add_files total_cost foldr length] in *.
  fold (total_cost files) in *. pose proof (total_cost_pos files) as P1. pose proof (cost_pos (length (concat x.2))) as P2.
  pose proof (has_inodes _ _ HC) as P3. rewrite Hx1. pose proof (cost_mono (length rd + 16) (length rd + 16 * S (length files)) ltac:(lia)) as P4.
  destruct (ialloc_has s C T_FILE HC) as (s1 & E1 & H1 & I1 & B1); [lia|done|by apply Hnone; lia|].
  rewrite Hk in *. fold (file_name x.1). rewrite (bind_Ret _ _ _ _ _ E1).
  assert (1 < k) as Hk1. { destruct (decide (k <= 1)) as [Hle|]; [|lia]. by rewrite (Hnone 1 Hle) in Hrd. }
  destruct (iappend_has s1 _ 1 T_DIR rd (dir_entry k (file_name x.1)) H1) as (s2 & E2 & H2 & I2 & B2).
  { by rewrite lookup_insert_ne by lia. } { rewrite length_app, length_dir_entry. lia. }
  { rewrite length_app, length_dir_entry, B1. lia. }
  rewrite (bind_Ret _ _ _ _ _ E2).
  destruct (copy_file_has s2 _ k T_FILE [] x.2 H2) as (s3 & E3 & H3 & I3 & B3).
  { by rewrite lookup_insert_ne, lookup_insert_eq by lia. } { done. }
  { cbn [app length]. rewrite B2, B1, length_app, length_dir_entry. change (cost 0) with 0. lia. }
  rewrite (bind_Ret _ _ _ _ _ E3). cbn [app length] in *. change (cost 0) with 0 in B3.
  rewrite length_app, length_dir_entry in B2.
  destruct (IH s3 _ (k + 1) (rd ++ dir_entry k (file_name x.1)) H3) as (s' & C' & E & H' & C1 & Cf & Co & B').
  - rewrite lookup_insert_ne, lookup_insert_eq by lia. done.
  - lia.
  - intros j Hj. rewrite !lookup_insert_ne by lia. apply Hnone. lia.
  - lia.
  - done.
  - rewrite length_app, length_dir_entry. lia.
  - rewrite length_app, length_dir_entry. replace (length rd + 16 + 16 * length files)%nat with (length rd + 16 * S (length files))%nat by lia. lia.
  - exists s', C'. rewrite length_app, length_dir_entry in B'.
    replace (length rd + 16 + 16 * length files)%nat with (length rd + 16 * S (length files))%nat in B' by lia.
    split_and!; [done|done|by rewrite C1, <- app_assoc| | |lia].
    + intros [|i] y Hy; cbn in Hy.
      * injection Hy as <-. rewrite Z.add_0_r, Co by lia. by rewrite lookup_insert_eq.
      * replace (k + Z.of_nat (S i)) with (k + 1 + Z.of_nat i) by lia. by apply Cf.
    + intros j Hj1 Hj2. rewrite Co by lia. by rewrite !lookup_insert_ne by lia.
Qed.

(** *** Reading a file back *)

Lemma chunk_pad j n m data :
  (length data <= 512 * n)%nat → (j < n <= m)%nat → chunk j (pad m data) = chunk j (pad n data).
Proof.
  intros Hd [Hj Hm]. induction Hm as [|m Hm IH]; [done|]. rewrite chunk_more by lia. apply IH.
Qed.

Lemma chunk_zero j m data : (length data <= 512 * j)%nat → (j < m)%nat → chunk j (pad m data) = zero_block.
Proof. intros Hd Hj. rewrite (chunk_pad j (S j)) by lia. by apply chunk_fresh. Qed.

Lemma concat_chunks l m : length l = (512 * m)%nat → concat (map (λ j, chunk j l) (seq 0 m)) = l.
Proof.
  assert (∀ k, (512 * k <= length l)%nat → concat (map (λ j, chunk j l) (seq 0 k)) = take (512 * k) l) as H.
  { intros k. induction k as [|k IH]; intros Hk; [done|].
    rewrite seq_S, map_app, concat_app, IH by lia. cbn [map concat]. rewrite app_nil_r. unfold chunk. cbn [Nat.add].
    rewrite take_take_drop. f_equal. lia. }
  intros Hl. rewrite H by lia. apply take_ge. lia.
Qed.

(** The block numbers in the inode and the indirect block. *)
Lemma data_block_ok f L ib data d j :
  frep f L ib data → d_addrs d = addrs_of L ib → (j < 140)%nat → data_block f d j = default 0 (L !! j).
Proof.
  intros Hr Hd Hj. unfold data_block. rewrite Hd. destruct (Nat.ltb_spec j 12) as [H|H].
  - apply nth_lookup_Some. by apply addrs_lookup.
  - rewrite (nth_lookup_Some _ _ _ _ (addrs_last L ib)). pose proof (fr_len _ _ _ _ Hr) as [_ HL].
    destruct (Nat.lt_ge_cases 12 (length L)) as [H12|H12].
    + pose proof (frep_ib _ _ _ _ Hr H12). destruct ib as [|ib|ib]; [lia| |lia].
      rewrite (fr_indirect _ _ _ _ Hr H12). cbn [default from_option id].
      rewrite <- (length_indirect L) by lia. rewrite <- (app_nil_r (le_many 4 _)), unle_le_many by (by eapply indirect_range).
      apply nth_lookup_Some. rewrite indirect_lookup by lia. do 2 f_equal. f_equal. lia.
    + rewrite (fr_none _ _ _ _ Hr H12). by rewrite lookup_ge_None_2 by lia.
Qed.

(** An inode with the blocks of [data] and a size [n] that may go beyond it. *)
Lemma read_file_ok f i L ib data n :
  frep f L ib data → length L = nblk (length data) → (length data <= n)%nat → (nblk n <= 140)%nat →
  d_addrs (inode_at f i) = addrs_of L ib → d_size (inode_at f i) = Z.of_nat n →
  read_file f i = data ++ replicate (n - length data) 0.
Proof.
  intros Hr HL Hn Hmax Ha Hs. unfold read_file. rewrite Hs, Nat2Z.id. pose proof (nblk_spec n). pose proof (nblk_spec (length data)).
  pose proof (nblk_mono _ _ Hn).
  rewrite (map_ext_in _ (λ j, chunk j (pad (nblk n) data))).
  - rewrite concat_chunks by (unfold pad; rewrite length_app, length_replicate; lia).
    unfold pad. rewrite take_app_ge by lia. f_equal. rewrite take_replicate. f_equal. lia.
  - intros j [_ Hj]%in_seq. rewrite (data_block_ok _ _ _ _ _ _ Hr Ha) by lia. destruct (L !! j) as [b|] eqn:Hb; cbn [default from_option id].
    + pose proof (frep_L _ _ _ _ _ _ Hr Hb). destruct b as [|b|b]; [lia| |lia]. rewrite (fr_blocks _ _ _ _ Hr _ _ Hb). cbn [default from_option id].
      pose proof (lookup_lt_Some _ _ _ Hb). rewrite (chunk_pad j (length L) (nblk n)); [done|lia|lia].
    + apply lookup_ge_None in Hb. by rewrite chunk_zero by lia.
Qed.

Lemma file_blocks_ok f i L ib data n :
  frep f L ib data → length L = nblk (length data) → (length data <= n)%nat → (nblk n <= 140)%nat →
  d_addrs (inode_at f i) = addrs_of L ib → d_size (inode_at f i) = Z.of_nat n →
  ∀ b, b ∈ file_blocks f i ↔ b ∈ owned L ib.
Proof.
  intros Hr HL Hn Hmax Ha Hs b. unfold file_blocks. rewrite list_elem_of_filter, elem_of_app, Hs, Nat2Z.id.
  rewrite Ha, (nth_lookup_Some _ _ _ _ (addrs_last L ib)), list_elem_of_singleton.
  pose proof (nblk_mono _ _ Hn). pose proof (fr_range _ _ _ _ Hr) as Hrg. rewrite Forall_forall in Hrg.
  assert (b ∈ map (data_block f (inode_at f i)) (seq 0 (nblk n)) ∧ b ≠ 0 ↔ b ∈ L) as E.
  { rewrite list_elem_of_In, in_map_iff. split.
    - intros [(j & <- & [_ Hj]%in_seq) Hb]. rewrite (data_block_ok _ _ _ _ _ _ Hr Ha) in * by lia.
      destruct (L !! j) as [x|] eqn:Hx; [|done]. by eapply list_elem_of_lookup_2.
    - intros Hb. split; [|specialize (Hrg b); unfold owned in Hrg; rewrite elem_of_app in Hrg; specialize (Hrg (or_introl Hb)); cbn in Hrg; lia].
      apply list_elem_of_lookup in Hb as [j Hj]. exists j. pose proof (lookup_lt_Some _ _ _ Hj).
      split; [|apply in_seq; lia]. by rewrite (data_block_ok _ _ _ _ _ _ Hr Ha), Hj by lia. }
  destruct (Nat.lt_ge_cases 12 (length L)) as [H12|H12].
  - pose proof (frep_ib _ _ _ _ Hr H12). rewrite owned_big, elem_of_app, list_elem_of_singleton by done.
    split; [intros [? [?| ->]]; [left; tauto|by right]|intros [Hb| ->]; [tauto|split; [lia|by right]]].
  - rewrite owned_small, (fr_none _ _ _ _ Hr H12) by done. tauto.
Qed.

(** *** The bitmap *)

Definition bit_of (buf : list Z) (b : Z) : bool := Z.testbit (nth (Z.to_nat (b / 8)) buf 0) (b mod 8).

Lemma bit_of_alter buf i b :
  0 <= i → 0 <= b → (Z.to_nat (i / 8) < length buf)%nat →
  bit_of (alter (λ x, Z.lor x (Z.shiftl 1 (i mod 8))) (Z.to_nat (i / 8)) buf) b = bit_of buf b || (b =? i).
Proof.
  intros Hi Hb Hl. unfold bit_of. rewrite !nth_lookup. destruct (decide (i / 8 = b / 8)) as [E|E].
  - rewrite E in *. rewrite list_lookup_alter_eq. destruct (lookup_lt_is_Some_2 buf (Z.to_nat (b / 8)) Hl) as [x ->]. cbn.
    rewrite Z.lor_spec, Z.shiftl_1_l, Z.pow2_bits_eqb by zdiv. f_equal.
    destruct (Z.eqb_spec (i mod 8) (b mod 8)), (Z.eqb_spec b i); try done; [zdiv|by subst].
  - rewrite list_lookup_alter_ne by zdiv. destruct (Z.eqb_spec b i); [by subst|]. by rewrite orb_false_r.
Qed.

Lemma balloc_loop_ok n i buf b :
  0 <= i → 0 <= b → i + Z.of_nat n <= 8 * Z.of_nat (length buf) →
  bit_of (balloc_loop n i buf) b = bit_of buf b || ((i <=? b) && (b <? i + Z.of_nat n)) ∧
  length (balloc_loop n i buf) = length buf.
Proof.
  revert i buf. induction n as [|n IH]; intros i buf Hi Hb Hl; cbn [balloc_loop].
  { split; [|done]. destruct (Z.leb_spec i b), (Z.ltb_spec b (i + Z.of_nat 0)); [lia|by rewrite orb_false_r..]. }
  destruct (IH (i + 1) (alter (λ x, Z.lor x (Z.shiftl 1 (i mod 8))) (Z.to_nat (i / 8)) buf)) as [E1 E2].
  { lia. } { done. } { rewrite length_alter. lia. }
  rewrite length_alter in E2. split; [|done]. rewrite E1, bit_of_alter by (done || zdiv).
  rewrite <- orb_assoc. f_equal. clear - Hi. btests; lia.
Qed.

(** *** Start *)

Lemma wsect_zeroes_ok n i s :
  fs s = replicate i zero_block → (i + n <= 1000)%nat →
  wsect_zeroes n (Z.of_nat i) s = Ret tt (s <|fs := replicate (i + n) zero_block|>).
Proof.
  revert i s. induction n as [|n IH]; intros i s Hs Hn; cbn [wsect_zeroes].
  { rewrite Nat.add_0_r, <- Hs. by destruct s. }
  unfold wsect. rewrite bind_modify. replace (Z.of_nat i + 1) with (Z.of_nat (S i)) by lia.
  rewrite (IH (S i)).
  - replace (S i + n)%nat with (i + S n)%nat by lia. by destruct s.
  - rsimpl. rewrite Hs, sector_small, Nat2Z.id by lia. unfold put_block. rewrite length_replicate.
    replace (S i - i)%nat with 1%nat by lia. rewrite <- replicate_add, insert_replicate. f_equal. lia.
  - lia.
Qed.

Definition start : image :=
  MkImage (<[1%nat:=sb_block]> (replicate 1000 zero_block)) the_sb 1 59.

Lemma start_has : has start ∅.
Proof.
  assert (length sb_block = 512%nat) as Hl by (vm_compute; reflexivity).
  exists ∅. split; [|done]. split; [|unfold start; cbn [freeinode]; lia|done|done]. unfold start. split; [split|..]; cbn [fs isb freeblock].
  - by rewrite length_insert, length_replicate.
  - apply Forall_insert; [|done]. by apply Forall_replicate.
  - done.
  - done.
  - lia.
  - intros b Hb. rewrite list_lookup_insert_ne by lia. apply lookup_replicate_2. lia.
Qed.

Lemma main_start args :
  main args image0 =
    (let! rootino := ialloc T_DIR in
     if negb (rootino =? ROOTINO) then panic "assert" else
     iappend rootino (dir_entry rootino [46]);;;
     iappend rootino (dir_entry rootino [46; 46]);;;
     add_files rootino args;;;
     (let! din := rinode rootino in
      let off := xint (d_size din) in
      let off := u32 (u32 (off / BSIZE + 1) * BSIZE) in
      winode rootino (set_dsize din (xint off)));;;
     let! used := gets freeblock in
     balloc used) start.
Proof.
  unfold main. rewrite bind_modify, bind_modify.
  match goal with |- bind _ _ ?s = _ => change s with (MkImage [] the_sb 1 59) end.
  rewrite (bind_Ret _ _ _ _ _ (wsect_zeroes_ok (Z.to_nat FSSIZE) 0 (MkImage [] the_sb 1 59) eq_refl ltac:(vm_compute; lia))).
  change (0 + Z.to_nat FSSIZE)%nat with 1000%nat.
  rewrite bind_assoc, bind_gets, bind_assoc. rsimpl. rewrite splice_Some by (vm_compute; discriminate).
  cbn [get_some]. rewrite bind_ret_l. unfold wsect. rewrite bind_modify. reflexivity.
Qed.

(** *** The end of [main] *)

(** The size that the root directory is given. *)
Definition rounded (n : nat) : nat := (512 * (n / 512 + 1))%nat.

Lemma rounded_spec n : (n <= rounded n <= n + 512)%nat ∧ nblk (rounded n) = (n / 512 + 1)%nat.
Proof.
  unfold rounded. pose proof (Nat.div_mod n 512 ltac:(lia)). pose proof (Nat.mod_upper_bound n 512 ltac:(lia)).
  split; [lia|]. rewrite nblk_full; [rewrite (Nat.mul_comm 512), Nat.div_mul by lia; lia|].
  rewrite Nat.mul_comm. apply Nat.Div0.mod_mul.
Qed.

Lemma round_root n : (n <= 512 * 140)%nat →
  xint (u32 (u32 (xint (Z.of_nat n) / BSIZE + 1) * BSIZE)) = Z.of_nat (rounded n).
Proof.
  intros Hn. unfold rounded, BSIZE. rewrite (xint_small (Z.of_nat n)) by lia.
  assert (Z.of_nat n / 512 = Z.of_nat (n / 512)) as -> by (by rewrite Nat2Z.inj_div).
  pose proof (Nat.div_mod n 512 ltac:(lia)). rewrite (u32_small (_ + 1)), u32_small, xint_small by lia. lia.
Qed.

Lemma balloc_ok s used :
  shape s → 0 <= used < 4096 →
  ∃ x, let s' := s <|fs ::= <[58%nat:=x]>|> in
    balloc used s = Ret tt s' ∧ shape s' ∧ ∀ b, 0 <= b → in_use (fs s') b = (b <? used).
Proof.
  intros Hs Hu. exists (balloc_loop (Z.to_nat used) 0 zero_block). cbn zeta.
  assert (∀ b, 0 <= b → bit_of (balloc_loop (Z.to_nat used) 0 zero_block) b = (b <? used) ∧
    length (balloc_loop (Z.to_nat used) 0 zero_block) = 512%nat) as Hbit.
  { intros b Hb. destruct (balloc_loop_ok (Z.to_nat used) 0 zero_block b) as [E El]; [done|done| |].
    { change (length zero_block) with 512%nat. lia. }
    split; [|by rewrite El]. rewrite E, Z2Nat.id by lia.
    assert (bit_of zero_block b = false) as ->.
    { unfold bit_of, zero_block. rewrite nth_lookup. destruct (replicate _ 0 !! _) as [v|] eqn:Ev; cbn [default from_option id].
      - apply lookup_replicate in Ev as [-> _]. apply Z.testbit_0_l.
      - apply Z.testbit_0_l. }
    clear - Hb. btests; try done; lia. }
  unfold balloc, BSIZE. replace (used <? 512 * 8) with true by lia. cbn [negb]. rewrite bind_gets, (sh_sb _ Hs).
  split; [apply (wsect_ok s 58); [done|lia]|]. split; [apply shape_insert; [done|done|by apply (Hbit 0)]|].
  intros b Hb. unfold in_use. rsimpl. rewrite list_lookup_insert_eq by (rewrite (sh_length _ Hs); lia).
  by apply (Hbit b).
Qed.

(** The image at the end. *)
Record finished (s : image) (F : gmap Z fileinfo) (s' : image) : Prop := {
  fin_shape : shape s';
  fin_free : freeblock s' = freeblock s;
  fin_inode : ∀ i x, F !! i = Some x → inode_at (fs s') i =
    if i =? 1 then set_dsize (fdinode x) (Z.of_nat (rounded (length (fdata x)))) else fdinode x;
  fin_data : ∀ L ib data, frep (fs s) L ib data → frep (fs s') L ib data;
  fin_bitmap : ∀ b, 0 <= b → in_use (fs s') b = (b <? freeblock s)
}.

Lemma finish_ok s F x :
  holds s F → F !! 1 = Some x → (length (fdata x) <= 512 * 139)%nat →
  ∃ s', ((let! din := rinode 1 in
          let off := xint (d_size din) in
          let off := u32 (u32 (off / BSIZE + 1) * BSIZE) in
          winode 1 (set_dsize din (xint off)));;;
         let! used := gets freeblock in
         balloc used) s = Ret tt s' ∧ finished s F s'.
Proof.
  intros [Hs Hi HF Hap] Hx Hlen. pose proof (HF _ _ Hx) as [Fi Ft Fn Fr Fl Fb]. pose proof (gd_free _ Hs).
  set (y := set_dsize (fdinode x) (Z.of_nat (rounded (length (fdata x))))).
  assert (dinode_ok y) as Hy.
  { destruct (fdinode_ok (fs s) x Ft Fr) as [D1 D2 D3 D4 D5 D6 D7]. split; try done. unfold y. cbn [d_size set_dsize].
    pose proof (rounded_spec (length (fdata x))). lia. }
  destruct (winode_holds s 1 y Hs ltac:(lia) Hy) as (s1 & E1 & G1 & I1 & B1 & N1 & O1 & R1).
  destruct (balloc_ok s1 (freeblock s1) (gd_shape _ G1)) as (z & E2 & Sh2 & Hbits); [rewrite B1; lia|]. cbn zeta in *.
  eexists. split.
  - rewrite bind_assoc. rewrite (bind_Ret _ _ _ _ _ (rinode_ok s 1 (gd_shape _ Hs) ltac:(lia))), Fn. cbn [d_size fdinode].
    rewrite round_root by lia. fold y. rewrite (bind_Ret _ _ _ _ _ E1), bind_gets. exact E2.
  - split; rsimpl; [done|done| | |].
    + intros i u Hu. destruct (HF _ _ Hu) as [Gi _ Gn _ _ _].
      assert (inode_at (<[58%nat:=z]> (fs s1)) i = inode_at (fs s1) i) as ->.
      { unfold inode_at. rewrite list_lookup_insert_ne by zdiv. done. }
      destruct (Z.eqb_spec i 1) as [->|Hne]; [by simplify_eq|]. rewrite O1 by (done || lia). done.
    + intros L ib data Hr. apply frep_inode_block; [by apply R1|lia].
    + intros b Hb. rewrite Hbits by done. by rewrite B1.
Qed.

Lemma view_lookup F i t data : view F !! i = Some (t, data) → ∃ x, F !! i = Some x ∧ ft x = t ∧ fdata x = data.
Proof.
  unfold view. rewrite lookup_fmap. destruct (F !! i) as [x|]; intros E; [|discriminate E]. injection E as <- <-. by exists x.
Qed.

(** A file of the finished image. *)
Lemma finished_file s F s' i x :
  holds s F → finished s F s' → F !! i = Some x → (length (fdata x) <= 512 * 140)%nat →
  (i = 1 → (length (fdata x) < 512 * 140)%nat) →
  let n := if i =? 1 then rounded (length (fdata x)) else length (fdata x) in
  let d := inode_at (fs s') i in
  d_type d = ft x ∧ d_nlink d = 1 ∧ d_size d = Z.of_nat n ∧
  read_file (fs s') i = fdata x ++ replicate (n - length (fdata x)) 0 ∧
  (∀ b, b ∈ file_blocks (fs s') i ↔ b ∈ owned (fL x) (fib x)).
Proof.
  intros [Hs Hi HF Hap] [Fsh Ffr Fin Fd Fb] Hx Hmax Hmax1 n d. destruct (HF _ _ Hx) as [Gi Gt Gn Gr Gl Gb].
  pose proof (Fin _ _ Hx) as E. pose proof (Fd _ _ _ Gr) as Hr.
  assert (d_addrs d = addrs_of (fL x) (fib x) ∧ d_size d = Z.of_nat n ∧ d_type d = ft x ∧ d_nlink d = 1) as (Ea & Es & Et & En).
  { unfold d, n. rewrite E. by destruct (i =? 1). }
  assert ((length (fdata x) <= n)%nat ∧ (nblk n <= 140)%nat) as [H1 H2].
  { unfold n. destruct (Z.eqb_spec i 1) as [->|_]; [|split; [lia|by apply nblk_max]].
    destruct (rounded_spec (length (fdata x))) as [? ->]. specialize (Hmax1 eq_refl).
    pose proof (Nat.div_mod (length (fdata x)) 512 ltac:(lia)). lia. }
  split_and!; try done; [by eapply read_file_ok|by eapply file_blocks_ok].
Qed.

(** The data of the root directory. *)
Definition root_dir (files : list (list Z * list (list Z))) : list Z :=
  (dir_entry 1 [46] ++ dir_entry 1 [46; 46]) ++ dir_of 2 files.

Lemma length_root_dir files : length (root_dir files) = (32 + 16 * length files)%nat.
Proof. unfold root_dir. rewrite !length_app, !length_dir_entry, length_dir_of. lia. Qed.

Definition image_cost (files : list (list Z * list (list Z))) : Z :=
  cost (length (root_dir files)) + total_cost files.

(** [main] up to the directory entries and the files. *)
Lemma main_files files :
  Forall arg_ok files → (length files <= 206)%nat → 59 + image_cost files <= 1000 →
  ∃ s C, has s C ∧ C !! 1 = Some (T_DIR, root_dir files) ∧
    (∀ i x, files !! i = Some x → C !! (2 + Z.of_nat i) = Some (T_FILE, concat x.2)) ∧
    freeblock s = 59 + image_cost files ∧
    main (map (λ x, (x.1, Some x.2)) files) image0 =
      ((let! din := rinode 1 in
        let off := xint (d_size din) in
        let off := u32 (u32 (off / BSIZE + 1) * BSIZE) in
        winode 1 (set_dsize din (xint off)));;;
       let! used := gets freeblock in
       balloc used) s.
Proof.
  intros Hargs Hn Hroom. unfold image_cost in *. rewrite length_root_dir in *. pose proof (total_cost_pos files) as P1.
  pose proof (cost_mono 32 (32 + 16 * length files) ltac:(lia)) as P2. pose proof (cost_mono 16 32 ltac:(lia)) as P3.
  destruct (ialloc_has start ∅ T_DIR start_has) as (s1 & E1 & H1 & I1 & B1); [done|done|done|].
  destruct (iappend_has s1 _ 1 T_DIR [] (dir_entry 1 [46]) H1) as (s2 & E2 & H2 & I2 & B2).
  { by rewrite lookup_insert_eq. } { rewrite length_app, length_dir_entry. cbn [length]. lia. }
  { rewrite length_app, length_dir_entry, B1. cbn [length start freeblock]. change (cost 0) with 0. cbn [Nat.add]. lia. }
  cbn [app length] in H2, B2. rewrite length_dir_entry in B2. change (cost 0) with 0 in B2.
  destruct (iappend_has s2 _ 1 T_DIR (dir_entry 1 [46]) (dir_entry 1 [46; 46]) H2) as (s3 & E3 & H3 & I3 & B3).
  { by rewrite lookup_insert_eq. } { rewrite length_app, !length_dir_entry. lia. }
  { rewrite length_app, !length_dir_entry, B2, B1. cbn [start freeblock Nat.add]. lia. }
  rewrite length_app, !length_dir_entry in B3. cbn [Nat.add] in B3.
  assert (length (dir_entry 1 [46] ++ dir_entry 1 [46; 46]) = 32%nat) as El by (by rewrite length_app, !length_dir_entry).
  assert (freeblock s3 = 59 + cost 32) as F3 by (rewrite B3, B2, B1; cbn [start freeblock]; lia).
  destruct (add_files_has s3 _ 2 (dir_entry 1 [46] ++ dir_entry 1 [46; 46]) files H3) as (s4 & C & E4 & H4 & C1 & Cf & _ & B4).
  { by rewrite lookup_insert_eq. } { rewrite I3, I2, I1. done. }
  { intros j Hj. rewrite !lookup_insert_ne by (cbn [start freeinode]; lia). done. }
  { lia. } { done. } { rewrite El. lia. } { rewrite El, F3. lia. }
  exists s4, C. split; [exact H4|]. split; [exact C1|]. split; [exact Cf|]. split; [rewrite B4, El, F3; lia|].
  rewrite main_start, (bind_Ret _ _ _ _ _ E1). cbn [start freeinode]. change (1 =? ROOTINO) with true. cbn [negb].
  rewrite (bind_Ret _ _ _ _ _ E2), (bind_Ret _ _ _ _ _ E3), (bind_Ret _ _ _ _ _ E4). reflexivity.
Qed.

(** ** Properties *)

(** C15: [mkfs] builds the file system it is asked for.  If the files fit, it
    returns an image with the super block that the kernel expects, in which the
    inode of each argument is a file with one link and reading it through its
    direct and indirect blocks gives back the bytes of the host's file; the
    root directory has the entries [.], [..] and one for each file, filled up
    with zero bytes to whole blocks; no two files share a block, and the bitmap
    marks the blocks below the first unused one, all blocks of files among
    them. *)
Theorem mkfs_roundtrip (files : list (list Z * list (list Z)))
    (Hargs : Forall arg_ok files) (Hinodes : (length files <= 206)%nat)
    (Hroom : nmeta + image_cost files <= FSSIZE) :
  ∃ s, main (map (λ x, (x.1, Some x.2)) files) image0 = Ret tt s ∧
    superblock_of <$> fs s !! 1%nat = Some the_sb ∧
    (∀ i x, files !! i = Some x →
       let inum := 2 + Z.of_nat i in
       d_type (inode_at (fs s) inum) = T_FILE ∧ d_nlink (inode_at (fs s) inum) = 1 ∧
       d_size (inode_at (fs s) inum) = Z.of_nat (length (concat x.2)) ∧ read_file (fs s) inum = concat x.2) ∧
    d_type (inode_at (fs s) ROOTINO) = T_DIR ∧
    read_file (fs s) ROOTINO =
      root_dir files ++ replicate (rounded (length (root_dir files)) - length (root_dir files)) 0 ∧
    (∀ i j b, 1 <= i <= 1 + Z.of_nat (length files) → 1 <= j <= 1 + Z.of_nat (length files) →
       b ∈ file_blocks (fs s) i → b ∈ file_blocks (fs s) j → i = j) ∧
    (∀ i b, 1 <= i <= 1 + Z.of_nat (length files) → b ∈ file_blocks (fs s) i → nmeta <= b ∧ in_use (fs s) b = true) ∧
    (∀ b, 0 <= b → in_use (fs s) b = (b <? nmeta + image_cost files)).
Proof.
  change nmeta with 59 in *. change FSSIZE with 1000 in *.
  destruct (main_files files Hargs Hinodes Hroom) as (s & C & (F & HF & ->) & C1 & Cf & Hfree & E).
  apply view_lookup in C1 as (x1 & Hx1 & Et1 & Ed1).
  assert (length (fdata x1) <= 512 * 139)%nat as Hl1 by (rewrite Ed1, length_root_dir; lia).
  destruct (finish_ok s F x1 HF Hx1 Hl1) as (s' & E' & Hfin). rewrite E' in E. clear E'. exists s'. split; [exact E|]. clear E.
  assert (∀ i x, files !! i = Some x → ∃ y, F !! (2 + Z.of_nat i) = Some y ∧ ft y = T_FILE ∧ fdata y = concat x.2) as Hfile.
  { intros i x Hx. apply view_lookup. by apply Cf. }
  destruct (finished_file s F s' 1 x1 HF Hfin Hx1 ltac:(lia) ltac:(lia)) as (T1 & N1 & S1 & R1 & B1). cbn zeta in *.
  assert (∀ i, 1 <= i <= 1 + Z.of_nat (length files) → ∃ y, F !! i = Some y ∧
    ∀ b, b ∈ file_blocks (fs s') i ↔ b ∈ owned (fL y) (fib y)) as Hblocks.
  { intros i Hi. destruct (decide (i = 1)) as [->|Hne]; [by exists x1|].
    destruct (lookup_lt_is_Some_2 files (Z.to_nat (i - 2))) as [x Hx]; [lia|].
    destruct (Hfile _ _ Hx) as (y & Hy & _ & Ey). replace (2 + Z.of_nat (Z.to_nat (i - 2))) with i in Hy by lia.
    exists y. split; [done|]. pose proof (Forall_lookup_1 _ _ _ _ Hargs Hx) as [_ Hl].
    by destruct (finished_file s F s' i y HF Hfin Hy ltac:(rewrite Ey; lia) ltac:(lia)) as (_ & _ & _ & _ & ?). }
  pose proof (fin_shape _ _ _ Hfin) as Fsh. pose proof (fin_bitmap _ _ _ Hfin) as Fb. split_and!.
  - rewrite (sh_super _ Fsh). vm_compute. reflexivity.
  - intros i x Hx. destruct (Hfile i x Hx) as (y & Hy & Ey & Edy). pose proof (Forall_lookup_1 _ _ _ _ Hargs Hx) as [_ Hl].
    destruct (finished_file s F s' _ y HF Hfin Hy ltac:(rewrite Edy; lia) ltac:(lia)) as (T2 & N2 & S2 & R2 & _).
    rewrite (proj2 (Z.eqb_neq (2 + Z.of_nat i) 1)) in S2, R2 by lia. rewrite Nat.sub_diag, app_nil_r in R2. by rewrite T2, N2, S2, R2, Ey, Edy.
  - unfold ROOTINO. by rewrite T1.
  - unfold ROOTINO. by rewrite R1, Ed1.
  - intros i j b Hi Hj Hbi Hbj. destruct (Hblocks i Hi) as (x & Hx & Bx), (Hblocks j Hj) as (y & Hy & By).
    rewrite Bx in Hbi. rewrite By in Hbj. by eapply (hd_apart _ _ HF).
  - intros i b Hi Hb. destruct (Hblocks i Hi) as (x & Hx & Bx). rewrite Bx in Hb.
    destruct (hd_file _ _ HF _ _ Hx) as [_ _ _ Gr _ Gb]. pose proof (fr_range _ _ _ _ Gr) as Hrg.
    rewrite Forall_forall in Hrg, Gb. specialize (Hrg b Hb). specialize (Gb b Hb). cbn in Hrg, Gb.
    split; [lia|]. rewrite Fb by lia. lia.
  - intros b Hb. rewrite Fb by done. by rewrite Hfree.
Qed.

(** ** Witness *)

(** Two files, one of 7000 bytes, which needs the indirect block. *)
Definition two_files : list (list Z * list (list Z)) :=
  [([95; 99; 97; 116], [replicate 512 1; replicate 100 2]); ([82; 69; 65; 68], replicate 14 (replicate 500 3))].

Lemma mkfs_roundtrip_witness :
  ∃ s, main (map (λ x, (x.1, Some x.2)) two_files) image0 = Ret tt s ∧
    read_file (fs s) 2 = replicate 512 1 ++ replicate 100 2 ∧ read_file (fs s) 3 = concat (replicate 14 (replicate 500 3)).
Proof.
  destruct (mkfs_roundtrip two_files) as (s & E & _ & Hf & _).
  - apply Forall_cons; split; [split; [reflexivity|]|apply Forall_cons; split; [split; [reflexivity|]|by constructor]];
      apply Nat.leb_le; vm_compute; reflexivity.
  - apply Nat.leb_le. reflexivity.
  - vm_compute. discriminate.
  - exists s. split; [exact E|]. split; [exact (proj2 (proj2 (proj2 (Hf 0%nat _ eq_refl))))|].
    exact (proj2 (proj2 (proj2 (Hf 1%nat _ eq_refl)))).
Defined.
