(* ===== verification/Spinlock.v ===== *)
(** Spin locks and interrupt nesting, [spinlock.c], with [mycpu] and
    [cpuid] of [proc.c].

    The CPU that runs is the one whose local APIC id the hardware reports.
    An [xchg] loop that finds the lock taken is the outcome [Spin].  The
    debugging call stack [pcs] is not recorded.  The theorems show that
    [pushcli]/[popcli] nest, that [acquire] on a free lock followed by
    [release] restores the interrupt flag, the nesting depth and the lock,
    and how each misuse ends. *)

From stdpp Require Import base gmap list strings.
From Stdlib Require Import ZArith Lia.
From S2P Require Import Prelude State.
#[local] Open Scope Z_scope.

(** ** Definitions *)

Definition readeflags_if : M kernel bool := gets eflags_if.
Definition cli : M kernel unit := modify (λ k, k <|eflags_if := false|>).
Definition sti : M kernel unit := modify (λ k, k <|eflags_if := true|>).

(** The loop of [mycpu]: the first CPU with the given APIC id. *)
Definition find_cpu (id : Z) (cs : list cpu) : option nat :=
  fst <$> list_find (λ a, a = id) (apicid <$> cs).

Definition mycpu : M kernel nat :=
  let! f := readeflags_if in
  if f then panic "mycpu called with interrupts enabled\n" else
  let! r := gets (λ k, find_cpu (lapicid k) (cpus k)) in
  match r with Some i => ret i | None => panic "unknown apicid\n" end.

(** [cpuid() = mycpu() - cpus]. *)
Definition cpuid : M kernel Z :=
  let! i := mycpu in ret (Z.of_nat i).

(** Read and write [*c] for a [struct cpu *c]. *)
Definition get_cpu (i : nat) : M kernel cpu := λ k,
  match cpus k !! i with Some c => Ret c k | None => Fault end.
Definition set_cpu (i : nat) (c : cpu) : M kernel unit :=
  modify (λ k, k <|cpus ::= <[i:=c]>|>).

Definition pushcli : M kernel unit :=
  let! eflags := readeflags_if in
  cli;;;
  let! i := mycpu in
  let! c := get_cpu i in
  let c := if ncli c =? 0 then c <|intena := eflags|> else c in
  set_cpu i (c <|ncli ::= λ n, i32 (n + 1)|>).

Definition popcli : M kernel unit :=
  let! f := readeflags_if in
  if f then panic "popcli - interruptible" else
  let! i := mycpu in
  let! c := get_cpu i in
  let c := c <|ncli ::= λ n, i32 (n - 1)|> in
  set_cpu i c;;;
  if ncli c <? 0 then panic "popcli" else
  when (ncli c =? 0) && intena c do sti.

Definition get_lock (l : lockid) : M kernel spinlock := λ k,
  match locks k !! l with Some lk => Ret lk k | None => Fault end.
Definition set_lock (l : lockid) (lk : spinlock) : M kernel unit :=
  modify (λ k, k <|locks ::= <[l:=lk]>|>).

Definition initlock (l : lockid) (name : string) : M kernel unit :=
  set_lock l (MkSpinlock false name None).

Definition holding (l : lockid) : M kernel bool :=
  pushcli;;;
  let! lk := get_lock l in
  let! i := mycpu in
  let r := locked lk && bool_decide (lk_cpu lk = Some i) in
  popcli;;;
  ret r.

(** The arguments [lk->cpu->proc->pid] and [lk->cpu->proc->name] of the
    message printed before the two panics below: a null [lk->cpu] or a null
    [proc] is dereferenced. *)
Definition blame {A} (lk : spinlock) (msg : string) : M kernel A :=
  match lk_cpu lk with
  | None => fault
  | Some i =>
      let! c := get_cpu i in
      match c_proc c with None => fault | Some _ => panic msg end
  end.

Definition acquire (l : lockid) : M kernel unit :=
  pushcli;;;
  let! h := holding l in
  let! lk := get_lock l in
  if h then blame lk "acquire lock" else
  if locked lk then (λ _, Spin) else
  set_lock l (lk <|locked := true|>);;;
  let! i := mycpu in
  let! lk := get_lock l in
  set_lock l (lk <|lk_cpu := Some i|>).

Definition release (l : lockid) : M kernel unit :=
  let! h := holding l in
  let! lk := get_lock l in
  if negb h then blame lk "release" else
  set_lock l (lk <|lk_cpu := None|>);;;
  let! lk := get_lock l in
  set_lock l (lk <|locked := false|>);;;
  popcli.

(** *** Specification *)

(** The running CPU of [k] is number [i] with data [c]. *)
Definition on_cpu (k : kernel) (i : nat) (c : cpu) : Prop :=
  find_cpu (lapicid k) (cpus k) = Some i ∧ cpus k !! i = Some c.

(** The effect of [pushcli] and [popcli] on the CPU that calls them. *)
Definition cpu_push (f : bool) (c : cpu) : cpu :=
  (if ncli c =? 0 then c <|intena := f|> else c) <|ncli ::= λ n, i32 (n + 1)|>.
Definition cpu_pop (c : cpu) : cpu := c <|ncli ::= λ n, i32 (n - 1)|>.

(** The state after [acquire l] on CPU [i]. *)
Definition acquired (l : lockid) (i : nat) (c : cpu) (lk : spinlock) (k : kernel) : kernel :=
  k <|eflags_if := false|> <|cpus ::= <[i:=cpu_push (eflags_if k) c]>|>
    <|locks ::= <[l:=lk <|locked := true|> <|lk_cpu := Some i|>]>|>.

(** The state after [release l] on CPU [i]. *)
Definition released (l : lockid) (i : nat) (c : cpu) (lk : spinlock) (k : kernel) : kernel :=
  k <|eflags_if := (ncli c =? 1) && intena c|> <|cpus ::= <[i:=cpu_pop c]>|>
    <|locks ::= <[l:=lk <|lk_cpu := None|> <|locked := false|>]>|>.

(** The nesting depth of a CPU is not negative and there is room for [d] more
    calls of [pushcli] before the [int] overflows; interrupts are on only when
    no [pushcli] is outstanding. *)
Definition cpu_room (d : nat) (k : kernel) (c : cpu) : Prop :=
  0 <= ncli c < 2 ^ 31 - Z.of_nat d ∧ (eflags_if k = true → ncli c = 0).

(** Between critical sections: [acquire] nests two calls of [pushcli]. *)
Notation cpu_ok := (cpu_room 2).

(** A free lock, as [initlock] and [release] leave it. *)
Definition lock_free (k : kernel) (l : lockid) : Prop :=
  ∃ nm, locks k !! l = Some (MkSpinlock false nm None).

(** A balanced [pushcli]/[popcli] only records the interrupt flag, when the
    nesting depth was 0. *)
Definition cpu_note (f : bool) (c : cpu) : cpu :=
  if ncli c =? 0 then c <|intena := f|> else c.

(** The running CPU. *)
Definition cur (k : kernel) : nat := default 0%nat (find_cpu (lapicid k) (cpus k)).

(** The state after [acquire l]. *)
Definition enter (l : lockid) (k : kernel) : kernel :=
  k <|eflags_if := false|> <|cpus ::= alter (cpu_push (eflags_if k)) (cur k)|>
    <|locks ::= alter (λ lk, lk <|locked := true|> <|lk_cpu := Some (cur k)|>) l|>.

(** The interrupt state the running CPU had before its first [pushcli]. *)
Definition cur_intena (k : kernel) : bool :=
  match cpus k !! cur k with Some c => intena c | None => false end.

(** The state after [release l]. *)
Definition dropped (l : lockid) (k : kernel) : kernel :=
  k <|eflags_if := match cpus k !! cur k with Some c => (ncli c =? 1) && intena c | None => false end|>
    <|cpus ::= alter cpu_pop (cur k)|>
    <|locks ::= alter (λ lk, lk <|lk_cpu := None|> <|locked := false|>) l|>.

(** The trace a critical section leaves in the CPU that ran it. *)
Definition touch (k : kernel) : kernel :=
  k <|cpus ::= alter (cpu_note (eflags_if k)) (cur k)|>.

(** The state after a critical section that was entered in [k] and whose body
    ended in [k2]. *)
Definition leave (k k2 : kernel) : kernel :=
  k2 <|eflags_if := eflags_if k|> <|cpus := cpus (touch k)|> <|locks := locks k|>.

(** [k] and [k'] have the same CPUs, interrupt flag and locks. *)
Definition hw_same (k k' : kernel) : Prop :=
  cpus k' = cpus k ∧ lapicid k' = lapicid k ∧ eflags_if k' = eflags_if k ∧ locks k' = locks k.

(** Lock [l] is held by CPU [i]. *)
Definition lock_held (k : kernel) (l : lockid) (i : nat) : Prop :=
  ∃ nm, locks k !! l = Some (MkSpinlock true nm (Some i)).

(** ** Lemmas *)

Lemma find_cpu_insert id cs i c c' :
  cs !! i = Some c → apicid c' = apicid c → find_cpu id (<[i:=c']> cs) = find_cpu id cs.
Proof.
  intros Hi Ha. unfold find_cpu. rewrite list_fmap_insert, Ha, list_insert_id; [done|].
  by rewrite list_lookup_fmap, Hi.
Qed.

Lemma mycpu_Ret k i c : on_cpu k i c → eflags_if k = false → mycpu k = Ret i k.
Proof. intros [Hf _] He. unfold mycpu, readeflags_if, bind, gets, ret. cbn [obind]. by rewrite He, Hf. Qed.

Lemma get_cpu_Ret k i c : on_cpu k i c → get_cpu i k = Ret c k.
Proof. intros [_ Hc]. unfold get_cpu. by rewrite Hc. Qed.

Lemma get_lock_Ret k l lk : locks k !! l = Some lk → get_lock l k = Ret lk k.
Proof. intros H. unfold get_lock. by rewrite H. Qed.

Lemma on_cpu_set k i c c' :
  on_cpu k i c → apicid c' = apicid c → on_cpu (k <|cpus ::= <[i:=c']>|>) i c'.
Proof.
  intros [Hf Hc] Ha. split; rsimpl.
  - by erewrite find_cpu_insert.
  - apply list_lookup_insert_eq. by apply lookup_lt_Some in Hc.
Qed.

Lemma on_cpu_alter k i c f :
  on_cpu k i c → apicid (f c) = apicid c → on_cpu (k <|cpus ::= alter f i|>) i (f c).
Proof.
  intros H Ha. replace (k <|cpus ::= alter f i|>) with (k <|cpus ::= <[i:=f c]>|>).
  - by eapply on_cpu_set.
  - kext. symmetry. by apply list_alter_insert, H.
Qed.

Lemma on_cpu_if k i c b : on_cpu k i c → on_cpu (k <|eflags_if := b|>) i c.
Proof. done. Qed.

Lemma on_cpu_locks k i c f : on_cpu k i c → on_cpu (k <|locks ::= f|>) i c.
Proof. done. Qed.

Lemma on_cpu_acquired l k i c lk : on_cpu k i c → on_cpu (acquired l i c lk k) i (cpu_push (eflags_if k) c).
Proof.
  intros H. apply on_cpu_locks, (on_cpu_set (k <|eflags_if := false|>) i c); [done|].
  unfold cpu_push. by case_match.
Qed.

#[export] Hint Resolve on_cpu_set on_cpu_if on_cpu_locks on_cpu_acquired : kern.

Lemma pushcli_Ret k i c :
  on_cpu k i c →
  pushcli k = Ret tt (k <|eflags_if := false|> <|cpus ::= <[i:=cpu_push (eflags_if k) c]>|>).
Proof.
  intros H. unfold pushcli, readeflags_if, cli, set_cpu. unfold bind at 1 2, gets, modify. cbn [obind].
  erewrite bind_Ret by (eapply mycpu_Ret; [by apply on_cpu_if|done]).
  erewrite bind_Ret by (by eapply get_cpu_Ret, on_cpu_if). done.
Qed.

Lemma popcli_Ret k i c :
  on_cpu k i c → eflags_if k = false → 1 <= ncli c < 2 ^ 31 →
  popcli k = Ret tt (k <|eflags_if := (ncli c =? 1) && intena c|> <|cpus ::= <[i:=cpu_pop c]>|>).
Proof.
  intros H He Hn. unfold popcli, readeflags_if. unfold bind at 1, gets. cbn [obind]. rewrite He.
  erewrite bind_Ret by (by eapply mycpu_Ret). erewrite bind_Ret by (by eapply get_cpu_Ret).
  unfold set_cpu, modify, bind. cbn [obind]. rsimpl.
  rewrite (i32_small (ncli c - 1)) by lia. destruct (Z.ltb_spec (ncli c - 1) 0); [lia|].
  replace (ncli c - 1 =? 0) with (ncli c =? 1) by (btests; done || lia).
  destruct ((ncli c =? 1) && intena c); unfold sti, modify, ret; f_equal; by kext.
Qed.

Lemma cpu_pop_push f c : 0 <= ncli c < 2 ^ 31 - 1 → cpu_pop (cpu_push f c) = cpu_note f c.
Proof.
  intros Hn. unfold cpu_pop, cpu_push, cpu_note. destruct c as [? ? n ? ?]; unfold update; cbn in *.
  case_match; cbn; rewrite (i32_small (n + 1)), i32_small by lia; f_equal; lia.
Qed.

Lemma cpu_note_id f c : 1 <= ncli c → cpu_note f c = c.
Proof. intros H. unfold cpu_note. destruct (Z.eqb_spec (ncli c) 0); [lia|done]. Qed.

Lemma ncli_push f c : 0 <= ncli c < 2 ^ 31 - 1 → ncli (cpu_push f c) = ncli c + 1.
Proof. intros Hn. unfold cpu_push. case_match; rsimpl; apply i32_small; lia. Qed.

Lemma apicid_push f c : apicid (cpu_push f c) = apicid c.
Proof. unfold cpu_push. by case_match. Qed.

Lemma apicid_note f c : apicid (cpu_note f c) = apicid c.
Proof. unfold cpu_note. by case_match. Qed.

Lemma ncli_note f c : ncli (cpu_note f c) = ncli c.
Proof. unfold cpu_note. by case_match. Qed.

Lemma c_proc_note f c : c_proc (cpu_note f c) = c_proc c.
Proof. unfold cpu_note. by case_match. Qed.

Lemma c_proc_push f c : c_proc (cpu_push f c) = c_proc c.
Proof. unfold cpu_push. by case_match. Qed.

(** The interrupt flag after a balanced pair is the flag before it. *)
Lemma flag_restored k c :
  cpu_room 1 k c →
  (ncli (cpu_push (eflags_if k) c) =? 1) && intena (cpu_push (eflags_if k) c) = eflags_if k.
Proof.
  intros [Hn Hi]. rewrite ncli_push by lia. unfold cpu_push.
  destruct (Z.eqb_spec (ncli c) 0) as [E|E]; rsimpl.
  - by rewrite E.
  - destruct (eflags_if k); [by specialize (Hi eq_refl)|].
    destruct (Z.eqb_spec (ncli c + 1) 1); [lia|done].
Qed.

Lemma room_less d d' k c : (d' <= d)%nat → cpu_room d k c → cpu_room d' k c.
Proof. intros Hd [Hn Hi]. split; [lia|done]. Qed.

Lemma kernel_cpus_id k (f : list cpu → list cpu) : f (cpus k) = cpus k → k <|cpus ::= f|> = k.
Proof. intros. by kext. Qed.

Lemma holding_Ret k l i c lk :
  on_cpu k i c → cpu_room 1 k c → locks k !! l = Some lk →
  holding l k = Ret (locked lk && bool_decide (lk_cpu lk = Some i))
    (k <|cpus ::= <[i:=cpu_note (eflags_if k) c]>|>).
Proof.
  intros H Hok Hl. unfold holding. erewrite bind_Ret by (by eapply pushcli_Ret).
  erewrite bind_Ret by (by apply get_lock_Ret).
  assert (on_cpu (k <|eflags_if := false|> <|cpus ::= <[i:=cpu_push (eflags_if k) c]>|>) i
    (cpu_push (eflags_if k) c)) as H1.
  { eapply on_cpu_set; [by apply on_cpu_if|apply apicid_push]. }
  erewrite bind_Ret by (by eapply mycpu_Ret). erewrite bind_Ret.
  2: { eapply popcli_Ret; [done..|]. destruct Hok. rewrite ncli_push; lia. }
  rewrite (flag_restored k c Hok), cpu_pop_push by (destruct Hok; lia). unfold ret. f_equal.
  kext. apply list_insert_insert_eq.
Qed.

(** [holding] inside a critical section changes nothing. *)
Lemma holding_Ret_nested k l i c lk :
  on_cpu k i c → eflags_if k = false → 1 <= ncli c < 2 ^ 31 - 1 → locks k !! l = Some lk →
  holding l k = Ret (locked lk && bool_decide (lk_cpu lk = Some i)) k.
Proof.
  intros H He Hn Hl. erewrite holding_Ret; [|done| |done].
  - rewrite cpu_note_id, kernel_cpus_id by (lia || (apply list_insert_id, H)). done.
  - split; [lia|]. by rewrite He.
Qed.

Lemma acquire_Ret k l i c lk :
  on_cpu k i c → cpu_ok k c → locks k !! l = Some lk → locked lk = false →
  acquire l k = Ret tt (acquired l i c lk k).
Proof.
  intros H Hok Hl Hf. unfold acquire. erewrite bind_Ret by (by eapply pushcli_Ret).
  set (k1 := k <|eflags_if := false|> <|cpus ::= <[i:=cpu_push (eflags_if k) c]>|>).
  assert (on_cpu k1 i (cpu_push (eflags_if k) c)) as H1.
  { eapply on_cpu_set; [by apply on_cpu_if|apply apicid_push]. }
  erewrite bind_Ret.
  2: { eapply holding_Ret_nested; [done..| |done]. destruct Hok. rewrite ncli_push; lia. }
  erewrite bind_Ret by (by apply get_lock_Ret). rewrite Hf. cbn [andb]. unfold set_lock.
  rewrite bind_modify.
  erewrite bind_Ret by (eapply mycpu_Ret; [by apply on_cpu_locks|done]).
  erewrite bind_Ret by (apply get_lock_Ret, lookup_insert_eq).
  unfold modify. f_equal. unfold acquired, k1. kext. apply insert_insert_eq.
Qed.

Lemma release_Ret k l i c lk :
  on_cpu k i c → eflags_if k = false → 1 <= ncli c < 2 ^ 31 - 1 →
  locks k !! l = Some lk → locked lk = true → lk_cpu lk = Some i →
  release l k = Ret tt (released l i c lk k).
Proof.
  intros H He Hn Hl Hk Hc. unfold release.
  erewrite bind_Ret by (by eapply holding_Ret_nested).
  rewrite Hk, Hc, bool_decide_true by done. cbn [andb negb].
  erewrite bind_Ret by (by apply get_lock_Ret). cbn [negb]. unfold set_lock.
  rewrite bind_modify. erewrite bind_Ret by (apply get_lock_Ret, lookup_insert_eq).
  rewrite bind_modify. rsimpl.
  erewrite popcli_Ret; [|by apply on_cpu_locks, on_cpu_locks|done|lia]. f_equal. unfold released.
  kext. apply insert_insert_eq.
Qed.

Lemma on_cpu_same k k' i c : hw_same k k' → on_cpu k i c → on_cpu k' i c.
Proof. intros (Hc & Hl & _) [H1 H2]. split; by rewrite ?Hc, ?Hl. Qed.

(** The running CPU is known, its nesting depth fits the interrupt flag and
    can grow by [d]. *)
Definition ready_in (d : nat) (k : kernel) : Prop := ∃ c, on_cpu k (cur k) c ∧ cpu_room d k c.

(** Ready for a critical section, and for one that contains another. *)
Notation ready := (ready_in 2).
Notation roomy := (ready_in 3).

(** The running CPU holds [l], and is ready for another critical section. *)
Definition holds (k : kernel) (l : lockid) : Prop :=
  lock_held k l (cur k) ∧ eflags_if k = false ∧
  ∃ c, on_cpu k (cur k) c ∧ 1 <= ncli c < 2 ^ 31 - 2.

Lemma ready_less d d' k : (d' <= d)%nat → ready_in d k → ready_in d' k.
Proof. intros Hd (c & H & Hr). exists c. split; [done|by eapply room_less]. Qed.

Lemma roomy_ready k : roomy k → ready k.
Proof. apply ready_less. lia. Qed.

Lemma holds_ready k l : holds k l → ready k.
Proof. intros (_ & He & c & H & Hn). exists c. split; [done|]. split; [lia|by rewrite He]. Qed.

Lemma on_cpu_cur k i c : on_cpu k i c → cur k = i.
Proof. intros [H _]. unfold cur. by rewrite H. Qed.

Lemma enter_acquired l k i c lk :
  on_cpu k i c → locks k !! l = Some lk → enter l k = acquired l i c lk k.
Proof.
  intros H Hl. unfold enter, acquired. rewrite (on_cpu_cur _ _ _ H). kext.
  - by apply list_alter_insert, H.
  - by rewrite (map_alter_insert _ _ _ _ Hl).
Qed.

Lemma touch_insert k i c :
  on_cpu k i c → touch k = k <|cpus ::= <[i:=cpu_note (eflags_if k) c]>|>.
Proof.
  intros H. unfold touch. rewrite (on_cpu_cur _ _ _ H). kext. by apply list_alter_insert, H.
Qed.

Lemma acquire_enter k l : ready k → lock_free k l → acquire l k = Ret tt (enter l k).
Proof.
  intros (c & H & Hok) [nm Hl]. erewrite acquire_Ret by done.
  f_equal. symmetry. by eapply enter_acquired.
Qed.

Lemma holds_enter k l : roomy k → lock_free k l → holds (enter l k) l.
Proof.
  intros (c & H & [Hn _]) [nm Hl]. erewrite enter_acquired by done.
  pose proof (on_cpu_acquired l k _ c (MkSpinlock false nm None) H) as H1.
  unfold holds. rewrite (on_cpu_cur _ _ _ H1). split_and!.
  - exists nm. apply lookup_insert_eq.
  - done.
  - eexists. split; [done|]. rewrite ncli_push; lia.
Qed.

(** A second lock taken inside a critical section. *)
Lemma ready_enter {d} k l : ready_in (S d) k → lock_free k l → ready_in d (enter l k).
Proof.
  intros (c & H & [Hn Hi]) [nm Hl]. erewrite enter_acquired by done.
  pose proof (on_cpu_acquired l k _ c (MkSpinlock false nm None) H) as H1.
  exists (cpu_push (eflags_if k) c). rewrite (on_cpu_cur _ _ _ H1). split; [done|].
  split; [rewrite ncli_push; lia|done].
Qed.

Lemma lock_free_enter k l l' : l ≠ l' → lock_free k l' → lock_free (enter l k) l'.
Proof. intros Hne [nm Hl]. exists nm. unfold enter. rsimpl. by rewrite lookup_alter_ne. Qed.

Lemma hw_same_cur k k' : hw_same k k' → cur k' = cur k.
Proof. intros (Hc & Hl & _). unfold cur. by rewrite Hc, Hl. Qed.

Lemma ready_same {d} k k' : hw_same k k' → ready_in d k → ready_in d k'.
Proof.
  intros Hs (c & H & Hok). exists c. rewrite (hw_same_cur _ _ Hs).
  split; [by eapply on_cpu_same|]. destruct Hs as (_ & _ & He & _). unfold cpu_room. by rewrite He.
Qed.

Lemma lock_free_same k k' l : hw_same k k' → lock_free k l → lock_free k' l.
Proof. intros (_ & _ & _ & He) [nm H]. exists nm. by rewrite He. Qed.

Lemma holds_same k k' l : hw_same k k' → holds k l → holds k' l.
Proof.
  intros Hs ([nm Hl] & He & c & H & Hn). unfold holds. rewrite (hw_same_cur _ _ Hs).
  pose proof Hs as (_ & _ & Hf & Hk). split_and!; [exists nm; by rewrite Hk|by rewrite Hf|].
  exists c. split; [by eapply on_cpu_same|done].
Qed.

(** The end of a critical section: everything but the body's effect is
    undone. *)
Lemma release_leave k l k2 :
  ready k → lock_free k l → hw_same (enter l k) k2 → release l k2 = Ret tt (leave k k2).
Proof.
  intros (c & H & Hok) [nm Hl] Hs. erewrite enter_acquired in Hs by done.
  pose proof Hs as (Ec & Ea & Ef & El).
  assert (on_cpu k2 (cur k) (cpu_push (eflags_if k) c)) as H2
    by (by eapply on_cpu_same, on_cpu_acquired).
  assert (locks k2 !! l = Some (MkSpinlock true nm (Some (cur k)))) as Hk.
  { rewrite El. apply lookup_insert_eq. }
  erewrite release_Ret; [|exact H2|by rewrite Ef| |exact Hk|done..].
  2: { destruct Hok. rewrite ncli_push; lia. }
  f_equal. unfold released, leave. rewrite flag_restored by (by eapply room_less; [|done]; lia).
  rewrite (touch_insert _ _ _ H), cpu_pop_push by (destruct Hok; lia). kext.
  - rewrite Ec. apply list_insert_insert_eq.
  - rewrite El. unfold acquired. rsimpl. rewrite insert_insert_eq. by apply insert_id.
Qed.

(** [release] of a lock the running CPU holds, whatever other locks it holds. *)
Lemma release_dropped k l : holds k l → release l k = Ret tt (dropped l k).
Proof.
  intros ([nm Hl] & He & c & H & Hn). erewrite release_Ret; [|done..|lia|done|done|done]. f_equal.
  unfold released, dropped. rewrite (proj2 H). kext.
  - symmetry. by apply list_alter_insert, H.
  - by rewrite (map_alter_insert _ _ _ _ Hl).
Qed.

Lemma on_cpu_dropped k l c : on_cpu k (cur k) c → on_cpu (dropped l k) (cur k) (cpu_pop c).
Proof.
  intros H. unfold dropped. apply on_cpu_locks, (on_cpu_alter (k <|eflags_if := _|>)); [|done].
  by apply on_cpu_if.
Qed.

Lemma lock_free_dropped k l : holds k l → lock_free (dropped l k) l.
Proof.
  intros ([nm Hl] & _). exists nm. unfold dropped. rsimpl.
  rewrite (map_alter_insert _ _ _ _ Hl). apply lookup_insert_eq.
Qed.

Lemma locks_dropped_ne k l l' : l ≠ l' → locks (dropped l k) !! l' = locks k !! l'.
Proof. intros Hne. unfold dropped. rsimpl. by rewrite lookup_alter_ne. Qed.

Lemma ready_dropped k l : holds k l → roomy (dropped l k).
Proof.
  intros (_ & He & c & H & Hn). pose proof (on_cpu_dropped k l c H) as H1.
  exists (cpu_pop c). rewrite (on_cpu_cur _ _ _ H1). split; [done|]. unfold cpu_pop, cpu_room. rsimpl.
  rewrite i32_small by lia. split; [lia|]. unfold dropped. rsimpl. rewrite (proj2 H). btests; [lia|done].
Qed.

(** A critical section: take a free lock, run a body that does not touch the
    CPU and the locks, release. *)
Lemma critical_Ret k l (body : M kernel unit) k2 :
  ready k → lock_free k l → body (enter l k) = Ret tt k2 → hw_same (enter l k) k2 →
  (acquire l;;; body;;; release l) k = Ret tt (leave k k2).
Proof.
  intros H Hl Hb Hs. erewrite bind_Ret by (by apply acquire_enter).
  erewrite bind_Ret by exact Hb. by apply release_leave.
Qed.

Lemma ready_touch {d} k : ready_in d k → ready_in d (touch k).
Proof.
  intros (c & H & [Hn Hi]). erewrite touch_insert by done.
  assert (on_cpu (k <|cpus ::= <[cur k:=cpu_note (eflags_if k) c]>|>) (cur k)
    (cpu_note (eflags_if k) c)) as H1 by (eapply on_cpu_set; [done|apply apicid_note]).
  exists (cpu_note (eflags_if k) c). rewrite (on_cpu_cur _ _ _ H1). split; [done|].
  split; rewrite ncli_note; done.
Qed.

Lemma hw_same_leave k k2 : lapicid k2 = lapicid k → hw_same (touch k) (leave k k2).
Proof. intros Ha. by split_and!. Qed.

(** After a critical section the CPU is ready again and the locks are as
    before. *)
Lemma ready_leave {d} k k2 : ready_in d k → lapicid k2 = lapicid k → ready_in d (leave k k2).
Proof. intros H Ha. eapply ready_same; [by apply hw_same_leave|by apply ready_touch]. Qed.

Lemma lock_free_leave k k2 l : lock_free k l → lock_free (leave k k2) l.
Proof. done. Qed.

#[export] Hint Resolve ready_touch ready_leave lock_free_leave ready_enter lock_free_enter
  holds_enter roomy_ready : kern.

(** The process of the running CPU. *)
Definition curproc (k : kernel) : option pptr := cpus k !! cur k ≫= c_proc.

Lemma touch_id k c : on_cpu k (cur k) c → 1 <= ncli c → touch k = k.
Proof.
  intros H Hn. rewrite (touch_insert _ _ _ H), cpu_note_id by done.
  apply kernel_cpus_id, list_insert_id, H.
Qed.

Lemma touch_holds k l : holds k l → touch k = k.
Proof. intros (_ & _ & c & H & Hn). eapply touch_id; [done|lia]. Qed.

Lemma on_cpu_touch k c : on_cpu k (cur k) c → on_cpu (touch k) (cur k) (cpu_note (eflags_if k) c).
Proof. intros H. rewrite (touch_insert _ _ _ H). eapply on_cpu_set; [done|apply apicid_note]. Qed.

Lemma cur_touch k : ready k → cur (touch k) = cur k.
Proof. intros (c & H & _). eapply on_cpu_cur. by apply on_cpu_touch. Qed.

Lemma touch_touch k : ready k → touch (touch k) = touch k.
Proof.
  intros Hr. pose proof (cur_touch k Hr) as Hc. destruct Hr as (c & H & Hok).
  pose proof (on_cpu_touch k c H) as H1. rewrite <- Hc in H1.
  rewrite (touch_insert _ _ _ H1). apply kernel_cpus_id, list_insert_id.
  rewrite (proj2 H1). f_equal. unfold cpu_note. unfold touch at 1. rsimpl.
  destruct (ncli c =? 0) eqn:E; rsimpl; by rewrite E.
Qed.

Lemma curproc_touch k : ready k → curproc (touch k) = curproc k.
Proof.
  intros Hr. pose proof (cur_touch k Hr) as Hc. destruct Hr as (c & H & _). unfold curproc.
  rewrite Hc, (proj2 (on_cpu_touch k c H)), (proj2 H). apply c_proc_note.
Qed.

(** [k'] is [k] but for the fields that the critical sections of a call
    leave changed, and memory. *)
Definition mem_frame (k k' : kernel) : Prop :=
  k' = k <|cpus := cpus k'|> <|mem := mem k'|> <|freelist := freelist k'|> ∧
  (cpus k' = cpus k ∨ ready k ∧ cpus k' = cpus (touch k)).

Lemma mem_frame_refl k : mem_frame k k.
Proof. split; [kext|by left]. Qed.

Lemma mem_frame_touch k : ready k → mem_frame k (touch k).
Proof. intros H. split; [unfold touch; kext|by right]. Qed.

Lemma mem_frame_mem k m : mem_frame k (k <|mem := m|>).
Proof. split; [kext|by left]. Qed.

Lemma mem_frame_hw k k' :
  mem_frame k k' →
  cur k' = cur k ∧ curproc k' = curproc k ∧ (∀ d, ready_in d k → ready_in d k') ∧ locks k' = locks k.
Proof.
  intros [E [Hc|[Hr Hc]]].
  - assert (hw_same k k') as Hs by (rewrite E; split_and!; rsimpl; done).
    split_and!.
    + by apply hw_same_cur.
    + unfold curproc. by rewrite (hw_same_cur _ _ Hs), Hc.
    + intros d. by apply ready_same.
    + by rewrite E.
  - assert (hw_same (touch k) k') as Hs by (rewrite E; split_and!; rsimpl; done).
    split_and!.
    + rewrite (hw_same_cur _ _ Hs). by apply cur_touch.
    + rewrite <- (curproc_touch k Hr). unfold curproc. by rewrite (hw_same_cur _ _ Hs), Hc.
    + intros d Hd. eapply ready_same; [exact Hs|by apply ready_touch].
    + by rewrite E.
Qed.

Lemma mem_frame_trans k k' k'' : mem_frame k k' → mem_frame k' k'' → mem_frame k k''.
Proof.
  intros H1 H2. destruct (mem_frame_hw _ _ H1) as (Hcur & _ & _ & _).
  destruct H1 as [E1 C1], H2 as [E2 C2]. split.
  - rewrite E2, E1. kext.
  - destruct C2 as [->|[Hr2 ->]]; [done|]. right. destruct C1 as [C1|[Hr C1]].
    + assert (ready k) as Hr. { eapply (ready_same k'); [|done]. rewrite E1. by split_and!; rsimpl. }
      split; [done|]. unfold touch. rsimpl. rewrite Hcur, C1, E1. done.
    + split; [done|]. rewrite <- (touch_touch k Hr). unfold touch at 1 2. rsimpl.
      rewrite Hcur, (cur_touch k Hr), C1, E1. done.
Qed.

(** [n] times the same call. *)
Fixpoint timesM (n : nat) (m : M kernel unit) : M kernel unit :=
  match n with O => ret tt | S n => m;;; timesM n m end.

Lemma cpu_push_nested f c : 1 <= ncli c < 2 ^ 31 - 1 → cpu_push f c = c <|ncli ::= Z.succ|>.
Proof.
  intros H. unfold cpu_push. destruct (Z.eqb_spec (ncli c) 0); [lia|].
  destruct c; unfold update; cbn in *. by rewrite i32_small by lia.
Qed.

Lemma cpu_ncli_id c (f : Z → Z) : f (ncli c) = ncli c → c <|ncli ::= f|> = c.
Proof. destruct c; unfold update; cbn. by intros ->. Qed.

Lemma timesM_push n k i c :
  on_cpu k i c → eflags_if k = false → 1 <= ncli c → ncli c + Z.of_nat n < 2 ^ 31 →
  timesM n pushcli k = Ret tt (k <|cpus ::= <[i:=c <|ncli ::= Z.add (Z.of_nat n)|>]>|>).
Proof.
  revert k c. induction n as [|n IH]; intros k c H He Hn Hm; cbn [timesM].
  { rewrite cpu_ncli_id, kernel_cpus_id by (done || (apply list_insert_id, H)). done. }
  erewrite bind_Ret by (by eapply pushcli_Ret). rewrite cpu_push_nested by lia.
  erewrite IH; [|eapply on_cpu_set; [by apply on_cpu_if|done]|done|rsimpl; lia..].
  f_equal. kext; [|by rewrite He]. rewrite list_insert_insert_eq. f_equal.
  destruct c; unfold update; cbn. f_equal. lia.
Qed.

Lemma timesM_pop n k i c :
  on_cpu k i c → eflags_if k = false → Z.of_nat n < ncli c < 2 ^ 31 →
  timesM n popcli k = Ret tt (k <|cpus ::= <[i:=c <|ncli ::= λ z, z - Z.of_nat n|>]>|>).
Proof.
  revert k c. induction n as [|n IH]; intros k c H He Hn; cbn [timesM].
  { rewrite cpu_ncli_id, kernel_cpus_id by ((apply list_insert_id, H) || lia). done. }
  erewrite bind_Ret by (eapply popcli_Ret; [done..|lia]).
  destruct (Z.eqb_spec (ncli c) 1); [lia|]. cbn [andb].
  assert (cpu_pop c = c <|ncli ::= λ z, z - 1|>) as ->.
  { unfold cpu_pop. destruct c; unfold update; cbn in *. by rewrite i32_small by lia. }
  erewrite IH; [|eapply on_cpu_set; [by apply on_cpu_if|done]|done|rsimpl; lia].
  f_equal. kext; [|by rewrite He]. rewrite list_insert_insert_eq. f_equal.
  destruct c; unfold update; cbn. f_equal. lia.
Qed.

(** ** Properties *)

(** A lock that is free can be taken and given back: the interrupt flag,
    the locks, the nesting depth of the CPU and everything outside the CPU
    are as before. *)
Theorem acquire_release_restores (k : kernel) (l : lockid) (i : nat) (c : cpu) :
  on_cpu k i c → cpu_ok k c → lock_free k l →
  ∃ k' c', (acquire l;;; release l) k = Ret tt k' ∧
    eflags_if k' = eflags_if k ∧ locks k' = locks k ∧
    on_cpu k' i c' ∧ ncli c' = ncli c ∧ c_proc c' = c_proc c ∧
    ptable k' = ptable k ∧ mem k' = mem k.
Proof.
  intros H Hok Hl. pose proof (on_cpu_cur _ _ _ H) as Hcur.
  assert (ready k) as Hr by (exists c; by rewrite Hcur).
  exists (leave k (enter l k)), (cpu_note (eflags_if k) c). split_and!; try done.
  - erewrite bind_Ret by (by apply acquire_enter). by apply release_leave.
  - unfold leave. erewrite touch_insert by done. split; rsimpl.
    + by erewrite find_cpu_insert; [apply H|apply H|apply apicid_note].
    + eapply list_lookup_insert_eq, lookup_lt_Some, H.
  - apply ncli_note.
  - apply c_proc_note.
Qed.

(** C40: [pushcli] and [popcli] are matched.  After [n + 1] calls of [pushcli]
    interrupts stay off through [n] calls of [popcli]; the last one restores
    the interrupt flag and the nesting depth.  The depth is an [int]: this is
    for every [n] for which it does not overflow. *)
Theorem cli_nesting (k : kernel) (i : nat) (c : cpu) (n : nat) :
  on_cpu k i c → cpu_room (S n) k c →
  ∃ k1 k2 c2,
    (timesM (S n) pushcli;;; timesM n popcli) k = Ret tt k1 ∧ eflags_if k1 = false ∧
    popcli k1 = Ret tt k2 ∧ eflags_if k2 = eflags_if k ∧
    on_cpu k2 i c2 ∧ ncli c2 = ncli c.
Proof.
  intros H Hok. pose proof Hok as [Hn _]. apply (room_less _ 1) in Hok; [|lia]. cbn [timesM].
  set (c1 := cpu_push (eflags_if k) c).
  set (k0 := k <|eflags_if := false|> <|cpus ::= <[i:=c1]>|>).
  assert (on_cpu k0 i c1) as H0 by (eapply on_cpu_set; [by apply on_cpu_if|apply apicid_push]).
  assert (ncli c1 = ncli c + 1) as Hc1 by (apply ncli_push; lia).
  exists k0, (k0 <|eflags_if := eflags_if k|> <|cpus ::= <[i:=cpu_pop c1]>|>), (cpu_pop c1).
  split_and!; try done.
  - rewrite bind_assoc. erewrite bind_Ret by (by eapply pushcli_Ret). fold c1 k0.
    erewrite bind_Ret by (eapply timesM_push; [done..|lia|lia]).
    erewrite timesM_pop; [|by eapply on_cpu_set|done|rsimpl; lia].
    f_equal. kext. rewrite list_insert_insert_eq. apply list_insert_id.
    rewrite (proj2 H0). f_equal. destruct c1; unfold update; cbn. f_equal. lia.
  - erewrite popcli_Ret; [|done..|lia].
    pose proof (flag_restored k c Hok) as E. fold c1 in E. by rewrite E.
  - eapply on_cpu_set; [by apply on_cpu_if|done].
  - unfold cpu_pop. rsimpl. rewrite i32_small; lia.
Qed.

(** The ways [acquire] can end.  A free lock is taken.  A lock held by
    another CPU makes it spin.  A lock this CPU already holds makes it panic
    when the CPU runs a process, and dereference the null [proc] field while
    printing the message when it does not. *)
Theorem acquire_outcomes (k : kernel) (l : lockid) (i : nat) (c : cpu) (lk : spinlock) :
  on_cpu k i c → cpu_ok k c → locks k !! l = Some lk →
  (locked lk = false → acquire l k = Ret tt (acquired l i c lk k)) ∧
  (∀ j, locked lk = true → lk_cpu lk = Some j → j ≠ i → acquire l k = Spin) ∧
  (∀ p, locked lk = true → lk_cpu lk = Some i → c_proc c = Some p →
     acquire l k = Panic "acquire lock") ∧
  (locked lk = true → lk_cpu lk = Some i → c_proc c = None → acquire l k = Fault).
Proof.
  intros H Hok Hl. split; [by apply acquire_Ret|].
  assert (∀ b : bool, locked lk = true → bool_decide (lk_cpu lk = Some i) = b →
    acquire l k = if b then blame lk "acquire lock" (k <|eflags_if := false|>
      <|cpus ::= <[i:=cpu_push (eflags_if k) c]>|>) else Spin) as E.
  { intros b Hk Hb. unfold acquire. erewrite bind_Ret by (by eapply pushcli_Ret).
    erewrite bind_Ret.
    2: { eapply holding_Ret_nested; [..|done]; [|done|].
         - eapply on_cpu_set; [by apply on_cpu_if|apply apicid_push].
         - destruct Hok. rewrite ncli_push; lia. }
    erewrite bind_Ret by (by apply get_lock_Ret). rewrite Hk, Hb. cbn [andb]. by destruct b. }
  assert (on_cpu (k <|eflags_if := false|> <|cpus ::= <[i:=cpu_push (eflags_if k) c]>|>) i
    (cpu_push (eflags_if k) c)) as H1.
  { eapply on_cpu_set; [by apply on_cpu_if|apply apicid_push]. }
  split_and!.
  - intros j Hk Hj Hne. rewrite (E false) by (done || (apply bool_decide_false; congruence)). done.
  - intros p Hk Hj Hp. rewrite (E true) by (done || by apply bool_decide_true). unfold blame.
    rewrite Hj. erewrite bind_Ret by (by eapply get_cpu_Ret). rewrite c_proc_push, Hp. done.
  - intros Hk Hj Hp. rewrite (E true) by (done || by apply bool_decide_true). unfold blame.
    rewrite Hj. erewrite bind_Ret by (by eapply get_cpu_Ret). rewrite c_proc_push, Hp. done.
Qed.

(** Releasing a lock that nobody holds does not reach [panic("release")]:
    the message printed before it dereferences the null [lk->cpu]. *)
Theorem release_free_faults (k : kernel) (l : lockid) (i : nat) (c : cpu) :
  on_cpu k i c → cpu_ok k c → lock_free k l → release l k = Fault.
Proof.
  intros H Hok [nm Hl]. unfold release. apply (room_less _ 1) in Hok; [|lia].
  erewrite bind_Ret by (by eapply holding_Ret).
  by erewrite bind_Ret by (by apply get_lock_Ret).
Qed.

(** The kernel before [main]: one CPU, all locks free, interrupts off. *)
Lemma bss_on_cpu e : on_cpu (bss e) 0 (MkCpu 0 0 0 false None).
Proof. done. Qed.

Lemma bss_cpu_ok e : cpu_room 3 (bss e) (MkCpu 0 0 0 false None).
Proof. by split. Qed.

Lemma bss_ready e : roomy (bss e).
Proof. exists (MkCpu 0 0 0 false None). split; [apply bss_on_cpu|apply bss_cpu_ok]. Qed.

Lemma bss_lock_free e : lock_free (bss e) LTicks.
Proof. by exists EmptyString. Qed.

Lemma acquire_release_restores_witness :
  ∃ k', (acquire LTicks;;; release LTicks) (bss 0) = Ret tt k' ∧ locks k' = locks (bss 0).
Proof.
  destruct (acquire_release_restores (bss 0) LTicks 0 (MkCpu 0 0 0 false None))
    as (k' & c' & H1 & _ & H2 & _); [apply bss_on_cpu|eapply room_less, bss_cpu_ok; lia|apply bss_lock_free|].
  by exists k'.
Defined.

Lemma cli_nesting_witness :
  ∃ k1, (timesM 3 pushcli;;; timesM 2 popcli) ((bss 0) <|eflags_if := true|>) = Ret tt k1 ∧
    eflags_if k1 = false.
Proof.
  destruct (cli_nesting ((bss 0) <|eflags_if := true|>) 0 (MkCpu 0 0 0 false None) 2)
    as (k1 & k2 & c2 & H1 & H2 & _); [done|by split|]. by exists k1.
Defined.

Lemma acquire_outcomes_witness :
  acquire LTicks ((bss 0) <|locks ::= <[LTicks:=MkSpinlock true "time" (Some 1%nat)]>|>) = Spin.
Proof.
  destruct (acquire_outcomes ((bss 0) <|locks ::= <[LTicks:=MkSpinlock true "time" (Some 1%nat)]>|>)
    LTicks 0 (MkCpu 0 0 0 false None) (MkSpinlock true "time" (Some 1%nat)))
    as (_ & H & _); [done|by split|done|]. by apply (H 1%nat).
Defined.

Lemma release_free_faults_witness : release LTicks (bss 0) = Fault.
Proof.
  exact (release_free_faults (bss 0) LTicks 0 (MkCpu 0 0 0 false None) (bss_on_cpu 0)
    (bss_cpu_ok 0) (bss_lock_free 0)).
Defined.
