(* ===== verification/Kalloc.v ===== *)
(** The physical page allocator of [kalloc.c].

    A free page holds the address of the next free page in its first word;
    the chain starts at [kmem.freelist] and ends with 0.  The allocator is
    shown to implement a stack of pages without repetitions. *)

From stdpp Require Import base gmap strings list.
From Stdlib Require Import ZArith Lia.
From S2P Require Import Prelude CString Mmu State Spinlock.
#[local] Open Scope Z_scope.

(** ** The code *)

(** [if(kmem.use_lock) acquire(&kmem.lock)] and the matching release. *)
Definition kmem_acquire : M kernel unit :=
  let! u := gets use_lock in when u do acquire LKmem.
Definition kmem_release : M kernel unit :=
  let! u := gets use_lock in when u do release LKmem.

Definition kfree (v : Z) : M kernel unit :=
  let! e := gets kernel_end in
  if negb (u32 v mod PGSIZE =? 0) || (v <? e) || (PHYSTOP <=? V2P v) then panic "kfree" else
  modify (λ k, k <|mem ::= λ m, memset m v 1 PGSIZE|>);;;
  kmem_acquire;;;
  (let! f := gets freelist in
   modify (λ k, k <|mem ::= λ m, wr32 m v f|>);;;
   modify (λ k, k <|freelist := v|>));;;
  kmem_release.

Definition kalloc : M kernel Z :=
  kmem_acquire;;;
  let! r := gets freelist in
  (when negb (r =? 0) do
     modify (λ k, k <|freelist := rd32 (mem k) r|>));;;
  kmem_release;;;
  ret r.

(** The loop of [freerange]. *)
Fixpoint freerange_loop (fuel : nat) (p vend : Z) : M kernel unit :=
  match fuel with
  | O => λ _, Loop
  | S fuel =>
      if u32 (p + PGSIZE) <=? vend
      then kfree p;;; freerange_loop fuel (u32 (p + PGSIZE)) vend
      else ret tt
  end.

Definition freerange (vstart vend : Z) : M kernel unit :=
  freerange_loop (S (Z.to_nat (vend / PGSIZE))) (PGROUNDUP vstart) vend.

Definition kinit1 (vstart vend : Z) : M kernel unit :=
  initlock LKmem "kmem";;;
  modify (λ k, k <|use_lock := false|>);;;
  freerange vstart vend.

Definition kinit2 (vstart vend : Z) : M kernel unit :=
  freerange vstart vend;;;
  modify (λ k, k <|use_lock := true|>).

(** ** Specification *)

(** The pages on the chain that starts at [h]. *)
Fixpoint chain (m : gmap Z Z) (h : Z) (l : list Z) : Prop :=
  match l with
  | [] => h = 0
  | p :: l => h = p ∧ chain m (rd32 m p) l
  end.

(** The pages the allocator may hand out. *)
Definition page_ok (e v : Z) : Prop := v mod PGSIZE = 0 ∧ e <= v < KERNBASE + PHYSTOP.

(** The allocator holds the stack [l] of distinct pages. *)
Definition kmem_ok (k : kernel) (l : list Z) : Prop :=
  chain (mem k) (freelist k) l ∧ NoDup l ∧ Forall (page_ok (kernel_end k)) l ∧
  KERNLINK <= kernel_end k.

(** The allocator's lock can be taken, if it is used at all. *)
Definition kmem_ready (k : kernel) : Prop :=
  use_lock k = true → ready k ∧ lock_free k LKmem.

(** The state after the lock was taken and released. *)
Definition kmem_touch (k : kernel) : kernel := if use_lock k then touch k else k.

(** The pages of the range from [p] to [vend]. *)
Definition pages (p vend : Z) : list Z :=
  map (λ i, p + PGSIZE * Z.of_nat i) (seq 0 (Z.to_nat ((vend - p) / PGSIZE))).

(** ** Lemmas *)

Lemma page_ok_word e v :
  KERNLINK <= e → page_ok e v → u32 v = v ∧ v ≠ 0 ∧ V2P v < PHYSTOP ∧ u32 v mod PGSIZE = 0.
Proof.
  unfold page_ok, V2P, KERNLINK, KERNBASE, EXTMEM, PHYSTOP, PGSIZE. intros He [Hm Hv].
  rewrite !(u32_small v) by lia. split_and!; [done|lia|rewrite u32_small; lia|done].
Qed.

(** Writes inside one page do not change the first word of another. *)
Lemma rd32_same_outside m m' a b :
  same_outside m m' a PGSIZE → b + 4 <= a ∨ a + PGSIZE <= b → rd32 m' b = rd32 m b.
Proof. unfold rd32. intros H Hb. rewrite !H by lia. done. Qed.

Lemma chain_same_outside m m' a h l e :
  same_outside m m' a PGSIZE → a mod PGSIZE = 0 → a ∉ l → Forall (page_ok e) l →
  chain m h l → chain m' h l.
Proof.
  intros Hs Ha. revert h. induction l as [|p l IH]; intros h Hn Hf; [done|].
  apply not_elem_of_cons in Hn as [Hne Hn]. apply Forall_cons in Hf as [[Hp _] Hf].
  intros [-> Hc]. split; [done|]. rewrite (rd32_same_outside m m' a p) by
    (done || (unfold PGSIZE in *; zdiv)). by apply IH.
Qed.

(** What [kfree] does to the memory. *)
Definition free_mem (m : gmap Z Z) (v f : Z) : gmap Z Z := wr32 (memset m v 1 PGSIZE) v f.

Lemma free_mem_outside m v f : same_outside m (free_mem m v f) v PGSIZE.
Proof.
  intros b Hb. unfold free_mem. rewrite wr32_spec, decide_False by (unfold PGSIZE in *; lia).
  rewrite memset_spec, decide_False by (unfold PGSIZE in *; lia). done.
Qed.

Lemma chain_range m h l e :
  KERNLINK <= e → Forall (page_ok e) l → chain m h l → 0 <= h < 2 ^ 32.
Proof.
  intros He. destruct l as [|p l]; cbn; [lia|]. intros [Hp _]%Forall_cons [-> _].
  destruct (page_ok_word e p) as (E & _); [done..|]. rewrite <- E. apply u32_range.
Qed.

Lemma kmem_ok_free k k' v l :
  kmem_ok k l → page_ok (kernel_end k) v → v ∉ l →
  mem k' = free_mem (mem k) v (freelist k) → freelist k' = v → kernel_end k' = kernel_end k →
  kmem_ok k' (v :: l).
Proof.
  intros (Hc & Hnd & Hf & He) Hv Hn Em Ef Hk. unfold kmem_ok. rewrite Hk, Em, Ef. split_and!.
  - cbn. split; [done|]. replace (rd32 _ v) with (freelist k).
    2: { unfold free_mem. by rewrite rd32_wr32_same, u32_small by (by eapply chain_range). }
    eapply chain_same_outside; [apply free_mem_outside|apply Hv|done..].
  - by constructor.
  - by constructor.
  - done.
Qed.

Definition kmem_enter (k : kernel) : kernel := if use_lock k then enter LKmem k else k.

Lemma kmem_acquire_Ret k : kmem_ready k → kmem_acquire k = Ret tt (kmem_enter k).
Proof.
  intros Hr. unfold kmem_acquire, kmem_enter. rewrite bind_gets.
  destruct (use_lock k) eqn:Hu; [|done]. destruct (Hr Hu). by apply acquire_enter.
Qed.

(** A body run under the allocator's lock, if the lock is used. *)
Lemma kmem_critical {A} k (g : kernel → kernel) (a : A) :
  kmem_ready k →
  (∀ k1, hw_same k1 (g k1) ∧ use_lock (g k1) = use_lock k1) →
  (∀ k1, mem k1 = mem k → freelist k1 = freelist k → g (leave k k1) = leave k (g k1)) →
  (kmem_acquire;;; modify g;;; kmem_release;;; ret a) k = Ret a (g (kmem_touch k)).
Proof.
  intros Hr Hg Hc. rewrite (bind_Ret _ _ _ _ _ (kmem_acquire_Ret k Hr)), bind_modify.
  unfold kmem_enter, kmem_touch. destruct (use_lock k) eqn:Hu.
  - destruct (Hr Hu) as [H Hl].
    assert (kmem_release (g (enter LKmem k)) = Ret tt (leave k (g (enter LKmem k)))) as E.
    { unfold kmem_release. rewrite bind_gets, (proj2 (Hg _)). unfold enter at 1. rsimpl.
      rewrite Hu. by apply release_leave, Hg. }
    rewrite (bind_Ret _ _ _ _ _ E). unfold ret. f_equal. rewrite <- Hc by done. f_equal.
  - unfold kmem_release. rewrite bind_assoc, bind_gets, (proj2 (Hg _)), Hu. done.
Qed.

Definition freed (v : Z) (k : kernel) : kernel :=
  (kmem_touch k) <|mem := free_mem (mem k) v (freelist k)|> <|freelist := v|>.

Lemma kfree_Ret k v :
  page_ok (kernel_end k) v → KERNLINK <= kernel_end k → kmem_ready k →
  kfree v k = Ret tt (freed v k).
Proof.
  intros Hv He Hr. destruct (page_ok_word _ _ He Hv) as (_ & _ & Hp & Hm).
  unfold kfree. unfold gets at 1. unfold bind at 1. cbn [obind]. rewrite Hm.
  destruct (Z.ltb_spec v (kernel_end k)); [destruct Hv; lia|].
  destruct (Z.leb_spec PHYSTOP (V2P v)); [lia|]. cbn [negb orb Z.eqb].
  unfold modify at 1. unfold bind at 1. cbn [obind].
  pose (g := λ k : kernel, k <|mem ::= λ m, wr32 m v (freelist k)|> <|freelist := v|>).
  pose proof (kmem_critical (k <|mem ::= λ m, memset m v 1 PGSIZE|>) g tt) as E.
  transitivity ((kmem_acquire;;; modify g;;; kmem_release;;; ret tt)
    (k <|mem ::= λ m, memset m v 1 PGSIZE|>)).
  - apply bind_ext. intros [] s. symmetry. apply (bind_ret_tt kmem_release (g s)).
  - rewrite E.
    + f_equal. unfold g, freed, kmem_touch, touch, cur. rsimpl. destruct (use_lock k); kext.
    + intros Hu. destruct (Hr Hu) as [H1 H2]. split; [by eapply ready_same|done].
    + intros k1. by split_and!.
    + intros k1 Hm1 Hf1. unfold g, leave. kext.
Qed.

Lemma kalloc_Ret k :
  kmem_ready k →
  kalloc k = Ret (freelist k)
    (if freelist k =? 0 then kmem_touch k
     else (kmem_touch k) <|freelist := rd32 (mem k) (freelist k)|>).
Proof.
  intros Hr. unfold kalloc.
  pose (g := λ k : kernel, if freelist k =? 0 then k
    else k <|freelist := rd32 (mem k) (freelist k)|>).
  transitivity ((kmem_acquire;;; modify g;;; kmem_release;;; ret (freelist k)) k).
  - rewrite !(bind_Ret _ _ _ _ _ (kmem_acquire_Ret k Hr)), bind_gets, bind_modify.
    unfold g. replace (freelist (kmem_enter k)) with (freelist k)
      by (unfold kmem_enter; by destruct (use_lock k)).
    by destruct (freelist k =? 0).
  - rewrite kmem_critical; [|done|..].
    + f_equal. unfold g, kmem_touch. destruct (use_lock k); [|done].
      unfold touch. rsimpl. by destruct (freelist k =? 0).
    + intros k1. unfold g. case_match; by split_and!.
    + intros k1 Hm Hf. unfold g, leave. rsimpl. rewrite Hf. destruct (freelist k =? 0); kext.
Qed.

Lemma kmem_touch_fields k :
  mem (kmem_touch k) = mem k ∧ freelist (kmem_touch k) = freelist k ∧
  kernel_end (kmem_touch k) = kernel_end k ∧ use_lock (kmem_touch k) = use_lock k ∧
  locks (kmem_touch k) = locks k.
Proof. unfold kmem_touch. destruct (use_lock k) eqn:E; by split_and!. Qed.

Lemma kmem_ready_touch k : kmem_ready k → kmem_ready (kmem_touch k).
Proof.
  intros H. unfold kmem_touch. destruct (use_lock k) eqn:Hu; [|done].
  intros _. destruct (H Hu). split; [by apply ready_touch|done].
Qed.

Lemma kmem_ready_freed v k : kmem_ready k → kmem_ready (freed v k).
Proof.
  intros H%kmem_ready_touch Hu. destruct (H Hu) as [H1 H2]. split; [by eapply ready_same|done].
Qed.

Lemma kmem_ok_freed v k l :
  kmem_ok k l → page_ok (kernel_end k) v → v ∉ l → kmem_ok (freed v k) (v :: l).
Proof.
  intros Hk Hv Hn. destruct (kmem_touch_fields k) as (_ & _ & E & _ & _).
  by eapply kmem_ok_free.
Qed.

(** The pages of a range, one at a time. *)
Lemma pages_cons p vend :
  p + PGSIZE <= vend → pages p vend = p :: pages (p + PGSIZE) vend.
Proof.
  intros H. unfold pages.
  replace (Z.to_nat ((vend - p) / PGSIZE)) with (S (Z.to_nat ((vend - (p + PGSIZE)) / PGSIZE)))
    by (unfold PGSIZE in *; zdiv).
  cbn [seq map]. f_equal; [lia|]. rewrite <- seq_shift, map_map.
  apply map_ext. intros i. lia.
Qed.

Lemma pages_nil p vend : vend < p + PGSIZE → pages p vend = [].
Proof.
  intros H. unfold pages. by replace (Z.to_nat ((vend - p) / PGSIZE)) with 0%nat
    by (unfold PGSIZE in *; zdiv).
Qed.

Lemma elem_of_pages v p vend : v ∈ pages p vend → p <= v ∧ v + PGSIZE <= vend.
Proof.
  unfold pages. intros (i & -> & Hi)%list_elem_of_fmap. apply elem_of_seq in Hi.
  unfold PGSIZE in *. zdiv.
Qed.

(** The loop pushes the pages of the range on the stack, in order. *)
Lemma freerange_loop_ok fuel p vend k l :
  kmem_ok k l → kmem_ready k → p mod PGSIZE = 0 →
  kernel_end k <= p <= KERNBASE + PHYSTOP → vend <= KERNBASE + PHYSTOP →
  Forall (λ q, q ∉ pages p vend) l →
  (vend - p) / PGSIZE < Z.of_nat fuel → (0 < fuel)%nat →
  ∃ k', freerange_loop fuel p vend k = Ret tt k' ∧ kmem_ok k' (rev (pages p vend) ++ l) ∧
    kernel_end k' = kernel_end k ∧ use_lock k' = use_lock k ∧ locks k' = locks k.
Proof.
  revert p k l. induction fuel as [|fuel IH]; intros p k l Hk Hr Hp He Hv Hl Hf H0; [lia|].
  pose proof Hk as (_ & _ & _ & Hke). cbn [freerange_loop].
  destruct (Z.leb_spec (p + PGSIZE) vend) as [Hle|Hle].
  - assert (u32 (p + PGSIZE) = p + PGSIZE) as Hu.
    { apply u32_small. unfold KERNLINK, KERNBASE, EXTMEM, PHYSTOP, PGSIZE in *. lia. }
    rewrite Hu. destruct (Z.leb_spec (p + PGSIZE) vend); [|lia].
    assert (page_ok (kernel_end k) p) as Hpk by (split; [done|unfold PGSIZE in *; lia]).
    rewrite pages_cons in Hl |- * by done.
    assert (p ∉ l) as Hpl.
    { intros Hin. rewrite Forall_forall in Hl. apply (Hl _ Hin). set_solver. }
    erewrite bind_Ret by (by apply kfree_Ret).
    destruct (kmem_touch_fields k) as (_ & _ & Ee & Eu & El).
    destruct (IH (p + PGSIZE) (freed p k) (p :: l)) as (k' & H1 & H2 & H3 & H4 & H5).
    + by apply kmem_ok_freed.
    + by apply kmem_ready_freed.
    + unfold PGSIZE in *. zdiv.
    + unfold freed. rsimpl. rewrite Ee. unfold PGSIZE in *. lia.
    + done.
    + constructor; [intros []%elem_of_pages; unfold PGSIZE in *; lia|].
      eapply Forall_impl; [exact Hl|]. set_solver.
    + unfold PGSIZE in *. zdiv.
    + unfold PGSIZE in *. zdiv.
    + exists k'. cbn [rev]. rewrite <- app_assoc. split_and!; [done..|by rewrite H3|by rewrite H4|by rewrite H5].
  - rewrite pages_nil by lia. exists k. split_and!; try done.
    destruct (Z.leb_spec (u32 (p + PGSIZE)) vend); [|done]. exfalso.
    rewrite u32_small in H; [lia|].
    unfold KERNLINK, KERNBASE, EXTMEM, PHYSTOP, PGSIZE in *. lia.
Qed.

Lemma mem_frame_kmem_touch k : kmem_ready k → mem_frame k (kmem_touch k).
Proof.
  intros H. unfold kmem_touch. destruct (use_lock k) eqn:Hu; [|apply mem_frame_refl].
  apply mem_frame_touch. by apply H.
Qed.

(** Updates of memory and of the free list on top of a frame. *)
Lemma mem_frame_upd k k' f g : mem_frame k k' → mem_frame k (k' <|mem ::= f|> <|freelist ::= g|>).
Proof. intros [E Hc]. split; [|done]. rewrite E at 1. kext. Qed.

Lemma kfree_ok k l v :
  kmem_ok k l → kmem_ready k → page_ok (kernel_end k) v → v ∉ l →
  ∃ k', kfree v k = Ret tt k' ∧ kmem_ok k' (v :: l) ∧ kmem_ready k' ∧ mem_frame k k' ∧
    same_outside (mem k) (mem k') v PGSIZE.
Proof.
  intros Hk Hr Hv Hn. pose proof Hk as (_ & _ & _ & He). exists (freed v k).
  split_and!; [by apply kfree_Ret|by apply kmem_ok_freed|by apply kmem_ready_freed| |].
  - by apply (mem_frame_upd k (kmem_touch k) (λ _, _) (λ _, v)), mem_frame_kmem_touch.
  - apply free_mem_outside.
Qed.

Lemma kalloc_ok k l :
  kmem_ok k l → kmem_ready k →
  ∃ k', kalloc k = Ret (default 0 (head l)) k' ∧ kmem_ok k' (tail l) ∧ kmem_ready k' ∧
    kernel_end k' = kernel_end k ∧ mem k' = mem k ∧ mem_frame k k'.
Proof.
  intros (Hc & Hnd & Hf & He) Hr. rewrite kalloc_Ret by done.
  destruct (kmem_touch_fields k) as (Em & Efl & Ee & Eu & _).
  pose proof (kmem_ready_touch k Hr) as Hr'. pose proof (mem_frame_kmem_touch k Hr) as Hfr.
  destruct l as [|p l]; cbn in Hc.
  - rewrite Hc. cbn. eexists. split_and!; try done. unfold kmem_ok.
    rewrite Em, Efl, Ee. by split_and!.
  - destruct Hc as [-> Hc]. apply Forall_cons in Hf as [Hp Hf].
    destruct (page_ok_word _ _ He Hp) as (_ & Hz & _).
    apply NoDup_cons in Hnd as [_ Hnd].
    destruct (Z.eqb_spec p 0); [done|]. eexists. split; [done|]. unfold kmem_ok. rsimpl.
    rewrite Em, Ee. split_and!; try done.
    by apply (mem_frame_upd k (kmem_touch k) (λ m, m) (λ _, rd32 (mem k) p)) in Hfr.
Qed.

Lemma kmem_ok_PGROUNDUP a :
  0 <= a <= KERNBASE + PHYSTOP →
  PGROUNDUP a mod PGSIZE = 0 ∧ a <= PGROUNDUP a < a + PGSIZE.
Proof.
  intros Ha. rewrite PGROUNDUP_arith. unfold KERNBASE, PHYSTOP, PGSIZE in *.
  rewrite u32_small by lia. zdiv.
Qed.

Lemma freerange_ok vstart vend k l :
  kmem_ok k l → kmem_ready k → kernel_end k <= vstart <= vend → vend <= KERNBASE + PHYSTOP →
  vend mod PGSIZE = 0 → Forall (λ q, q < vstart ∨ vend <= q) l →
  ∃ k', freerange vstart vend k = Ret tt k' ∧
    kmem_ok k' (rev (pages (PGROUNDUP vstart) vend) ++ l) ∧
    kernel_end k' = kernel_end k ∧ use_lock k' = use_lock k ∧ locks k' = locks k.
Proof.
  intros Hk Hr He Hv Hm Hl. pose proof Hk as (_ & _ & _ & Hke).
  destruct (kmem_ok_PGROUNDUP vstart) as [Hp1 Hp2].
  { unfold KERNLINK, KERNBASE, EXTMEM in *. lia. }
  unfold freerange. apply freerange_loop_ok; try done.
  - unfold PGSIZE in *. zdiv.
  - eapply Forall_impl; [exact Hl|]. intros q Hq []%elem_of_pages. unfold PGSIZE in *. lia.
  - unfold KERNLINK, KERNBASE, EXTMEM, PGSIZE in *. zdiv.
  - lia.
Qed.

(** *** A client's view: a sequence of calls *)

Inductive kcall := Alloc | Free (v : Z).

Fixpoint run_calls (cs : list kcall) : M kernel (list Z) :=
  match cs with
  | [] => ret []
  | Alloc :: cs => let! r := kalloc in let! rs := run_calls cs in ret (r :: rs)
  | Free v :: cs => kfree v;;; run_calls cs
  end.

(** A stack of pages; a client frees only pages it owns. *)
Fixpoint stack_calls (e : Z) (cs : list kcall) (l : list Z) : option (list Z * list Z) :=
  match cs with
  | [] => Some ([], l)
  | Alloc :: cs =>
      '(rs, l') ← stack_calls e cs (tail l); Some (default 0 (head l) :: rs, l')
  | Free v :: cs =>
      if bool_decide (v mod PGSIZE = 0 ∧ e <= v < KERNBASE + PHYSTOP ∧ v ∉ l)
      then stack_calls e cs (v :: l) else None
  end.

(** ** Properties *)

(** C3: Refinement.  Any sequence of [kalloc] and [kfree] calls whose frees
    are of pages the client owns returns what a stack of pages returns, and
    leaves the chain in memory representing that stack.  In particular a page
    is never handed out twice without being freed in between, and no call
    panics. *)
Theorem kalloc_refines (cs : list kcall) (k : kernel) (l l' rs : list Z) :
  kmem_ok k l → kmem_ready k → stack_calls (kernel_end k) cs l = Some (rs, l') →
  ∃ k', run_calls cs k = Ret rs k' ∧ kmem_ok k' l' ∧ NoDup l'.
Proof.
  revert k l l' rs. induction cs as [|[|v] cs IH]; intros k l l' rs Hk Hr Hs; cbn in Hs.
  - simplify_eq. exists k. split_and!; try done. apply Hk.
  - apply bind_Some in Hs as ([rs1 l1] & Hs & ?). simplify_eq.
    destruct (kalloc_ok k l) as (k1 & H1 & H2 & H3 & H4 & _ & _); [done..|].
    cbn [run_calls]. erewrite bind_Ret by exact H1.
    destruct (IH k1 (tail l) l' rs1) as (k' & H5 & H6 & H7); [done..|by rewrite H4|].
    exists k'. by erewrite bind_Ret by exact H5.
  - case_bool_decide as Hv; [|done]. destruct Hv as (Hv1 & Hv2 & Hv3).
    pose proof Hk as (_ & _ & _ & He). cbn [run_calls].
    erewrite bind_Ret by (by apply kfree_Ret).
    apply (IH (freed v k) (v :: l) l' rs); [by apply kmem_ok_freed|by apply kmem_ready_freed|].
    destruct (kmem_touch_fields k) as (_ & _ & E & _ & _). unfold freed. rsimpl. by rewrite E.
Qed.

(** [kfree] of a page puts it on the free list, fills it with junk, and
    changes no byte outside the page, no lock and no process; [kfree] of a
    pointer that is not a page of allocatable memory panics before touching
    anything. *)
Theorem kfree_correct (k : kernel) (l : list Z) (v : Z) :
  kmem_ok k l → kmem_ready k → 0 <= v < 2 ^ 32 →
  (page_ok (kernel_end k) v → v ∉ l →
   ∃ k', kfree v k = Ret tt k' ∧ kmem_ok k' (v :: l) ∧
     same_outside (mem k) (mem k') v PGSIZE ∧
     (∀ i, 4 <= i < PGSIZE → rd (mem k') (v + i) = 1) ∧
     locks k' = locks k ∧ eflags_if k' = eflags_if k ∧ ptable k' = ptable k) ∧
  (¬ page_ok (kernel_end k) v → kfree v k = Panic "kfree").
Proof.
  intros Hk Hr Hv. pose proof Hk as (_ & _ & _ & He). split.
  - intros Hp Hn. exists (freed v k). split_and!.
    + by apply kfree_Ret.
    + by apply kmem_ok_freed.
    + apply free_mem_outside.
    + intros i Hi. unfold freed. rsimpl. unfold free_mem.
      rewrite wr32_spec, decide_False, memset_spec, decide_True by (unfold PGSIZE in *; lia). done.
    + unfold freed, kmem_touch. by destruct (use_lock k).
    + unfold freed, kmem_touch. by destruct (use_lock k).
    + unfold freed, kmem_touch. by destruct (use_lock k).
  - intros Hp. unfold kfree, gets, bind, page_ok in *. cbn [obind]. rewrite u32_small by done.
    destruct (Z.eqb_spec (v mod PGSIZE) 0) as [E|]; [|done].
    destruct (Z.ltb_spec v (kernel_end k)); [done|].
    destruct (Z.leb_spec PHYSTOP (V2P v)) as [|Hl]; [done|].
    destruct Hp. split; [done|]. unfold V2P in Hl. rewrite (u32_small v) in Hl by done.
    unfold KERNLINK, KERNBASE, EXTMEM, PHYSTOP in *. rewrite u32_small in Hl; lia.
Qed.

(** The initialisation of the allocator.  [kinit1] on a kernel whose data
    is zeroed, and [kinit2] later on, put exactly the whole pages of their
    range on the free list, on top of what was there; after [kinit2] the
    allocator takes its lock. *)
Theorem kinit_correct (k : kernel) (l : list Z) (vstart vend : Z) :
  kernel_end k <= vstart <= vend → vend <= KERNBASE + PHYSTOP → vend mod PGSIZE = 0 →
  KERNLINK <= kernel_end k →
  (freelist k = 0 →
   ∃ k', kinit1 vstart vend k = Ret tt k' ∧ lock_free k' LKmem ∧
     kmem_ok k' (rev (pages (PGROUNDUP vstart) vend))) ∧
  (kmem_ok k l → use_lock k = false → Forall (λ q, q < vstart) l →
   ∃ k', kinit2 vstart vend k = Ret tt k' ∧ use_lock k' = true ∧
     kmem_ok k' (rev (pages (PGROUNDUP vstart) vend) ++ l)).
Proof.
  intros Hv He Hm Hk. split.
  - intros Hf. set (k1 := k <|locks ::= <[LKmem:=MkSpinlock false "kmem" None]>|>
      <|use_lock := false|>).
    assert (kmem_ok k1 []) as Hk1 by (unfold kmem_ok; split_and!; try done; apply NoDup_nil_2).
    destruct (freerange_ok vstart vend k1 []) as (k' & H1 & H2 & H3 & H4 & H5); try done.
    rewrite app_nil_r in H2. exists k'. split_and!; [exact H1| |done].
    exists "kmem". rewrite H5. apply lookup_insert_eq.
  - intros Hok Hu Hl.
    destruct (freerange_ok vstart vend k l) as (k' & H1 & H2 & H3 & H4 & H5); try done.
    { intros E. congruence. }
    { eapply Forall_impl; [exact Hl|]. by left. }
    exists (k' <|use_lock := true|>). split_and!; [|done..].
    unfold kinit2. by erewrite bind_Ret by exact H1.
Qed.

(** A zeroed kernel whose image ends at 0x80110000. *)
Definition k_empty : kernel := bss 0x80110000.

Lemma k_empty_ok : kmem_ok k_empty [].
Proof. unfold kmem_ok. split_and!; try done. apply NoDup_nil_2. Qed.

Lemma k_empty_ready : kmem_ready k_empty.
Proof. intros H. discriminate H. Qed.

Lemma kalloc_refines_witness :
  ∃ k', run_calls [Free 0x80200000; Free 0x80201000; Alloc; Alloc; Alloc] k_empty =
      Ret [0x80201000; 0x80200000; 0] k' ∧ kmem_ok k' [].
Proof.
  destruct (kalloc_refines [Free 0x80200000; Free 0x80201000; Alloc; Alloc; Alloc]
    k_empty [] [] [0x80201000; 0x80200000; 0] k_empty_ok k_empty_ready) as (k' & H1 & H2 & _).
  { vm_compute. reflexivity. }
  exists k'. exact (conj H1 H2).
Defined.

Lemma kfree_correct_witness :
  (∃ k', kfree 0x80200000 k_empty = Ret tt k' ∧ kmem_ok k' [0x80200000]) ∧
  kfree 0x80100000 k_empty = Panic "kfree".
Proof.
  split.
  - destruct (kfree_correct k_empty [] 0x80200000 k_empty_ok k_empty_ready) as [H _]; [lia|].
    destruct H as (k' & H1 & H2 & _); [by split|apply not_elem_of_nil|]. exists k'. exact (conj H1 H2).
  - destruct (kfree_correct k_empty [] 0x80100000 k_empty_ok k_empty_ready) as [_ H]; [lia|].
    apply H. intros [_ [He _]]. apply He. reflexivity.
Defined.

Lemma kinit_correct_witness :
  (∃ k', kinit1 0x80110000 0x80114000 k_empty = Ret tt k' ∧
     kmem_ok k' [0x80113000; 0x80112000; 0x80111000; 0x80110000]) ∧
  (∃ k', kinit2 0x80110800 0x80112000 k_empty = Ret tt k' ∧ kmem_ok k' [0x80111000]).
Proof.
  split.
  - destruct (kinit_correct k_empty [] 0x80110000 0x80114000) as [H _]; [done..|].
    destruct (H eq_refl) as (k' & H1 & _ & H2). exists k'. exact (conj H1 H2).
  - destruct (kinit_correct k_empty [] 0x80110800 0x80112000) as [_ H]; [done..|].
    destruct (H k_empty_ok eq_refl) as (k' & H1 & _ & H2); [done|]. exists k'. exact (conj H1 H2).
Defined.
