(* ===== verification/Vm.v ===== *)
(** The address spaces of [vm.c].

    Page directories and page tables live in the byte memory, as arrays of
    32-bit entries, and are read and written through it.  The abstract view
    of a directory is the function that gives the page table entry of each
    virtual page. *)

From stdpp Require Import base gmap strings list.
From Stdlib Require Import ZArith Lia.
From S2P Require Import Prelude CString Mmu State Spinlock Kalloc.
#[local] Open Scope Z_scope.

(** ** The code *)

(** A 32-bit load and store. *)
Definition ld32 (a : Z) : M kernel Z := gets (λ k, rd32 (mem k) a).
Definition st32 (a v : Z) : M kernel unit := modify (λ k, k <|mem ::= λ m, wr32 m a v|>).

(** [*a & flag] as a test. *)
Definition has (pte flag : Z) : bool := negb (Z.land pte flag =? 0).

(** The address of the entry, 0 if there is none. *)
Definition walkpgdir (pgdir va : Z) (alloc : bool) : M kernel Z :=
  let pde := pgdir + 4 * PDX va in
  let! e := ld32 pde in
  if has e PTE_P then ret (P2V (PTE_ADDR e) + 4 * PTX va)
  else if negb alloc then ret 0
  else
    let! pgtab := kalloc in
    if pgtab =? 0 then ret 0 else
    modify (λ k, k <|mem ::= λ m, memset m pgtab 0 PGSIZE|>);;;
    st32 pde (Z.lor (Z.lor (Z.lor (V2P pgtab) PTE_P) PTE_W) PTE_U);;;
    ret (pgtab + 4 * PTX va).

Fixpoint mappages_loop (fuel : nat) (pgdir a last pa perm : Z) : M kernel Z :=
  match fuel with
  | O => λ _, Loop
  | S fuel =>
      let! pte := walkpgdir pgdir a true in
      if pte =? 0 then ret (-1) else
      let! e := ld32 pte in
      if has e PTE_P then panic "remap" else
      st32 pte (Z.lor (Z.lor pa perm) PTE_P);;;
      if a =? last then ret 0 else
      mappages_loop fuel pgdir (u32 (a + PGSIZE)) last (u32 (pa + PGSIZE)) perm
  end.

Definition mappages (pgdir va size pa perm : Z) : M kernel Z :=
  let a := PGROUNDDOWN va in
  let last := PGROUNDDOWN (u32 (u32 va + size - 1)) in
  mappages_loop (S (Z.to_nat (u32 (last - a) / PGSIZE))) pgdir a last pa perm.

(** The loop of [deallocuvm]. *)
Fixpoint deallocuvm_loop (fuel : nat) (pgdir a oldsz : Z) : M kernel unit :=
  match fuel with
  | O => λ _, Loop
  | S fuel =>
      if negb (a <? oldsz) then ret tt else
      let! pte := walkpgdir pgdir a false in
      if pte =? 0 then
        deallocuvm_loop fuel pgdir
          (u32 (u32 (PGADDR (PDX a + 1) 0 0 - PGSIZE) + PGSIZE)) oldsz
      else
        (let! e := ld32 pte in
         when has e PTE_P do
           (let pa := PTE_ADDR e in
            if pa =? 0 then panic "kfree" else
            kfree (P2V pa);;;
            st32 pte 0));;;
        deallocuvm_loop fuel pgdir (u32 (a + PGSIZE)) oldsz
  end.

Definition deallocuvm (pgdir oldsz newsz : Z) : M kernel Z :=
  if oldsz <=? newsz then ret oldsz else
  deallocuvm_loop (S (Z.to_nat (oldsz / PGSIZE + 1))) pgdir (PGROUNDUP newsz) oldsz;;;
  ret newsz.

(** The loop over the page directory in [freevm]. *)
Fixpoint free_tables (n : nat) (pgdir i : Z) : M kernel unit :=
  match n with
  | O => ret tt
  | S n =>
      (let! e := ld32 (pgdir + 4 * i) in
       when has e PTE_P do kfree (P2V (PTE_ADDR e)));;;
      free_tables n pgdir (i + 1)
  end.

Definition freevm (pgdir : Z) : M kernel unit :=
  if pgdir =? 0 then panic "freevm: no pgdir" else
  let! _ := deallocuvm pgdir KERNBASE 0 in
  free_tables (Z.to_nat NPDENTRIES) pgdir 0;;;
  kfree pgdir.

(** The rows of the table [kmap]: virtual address, physical range,
    permissions. *)
Definition kmap (data : Z) : list (Z * Z * Z * Z) :=
  [(KERNBASE, 0, EXTMEM, PTE_W);
   (KERNLINK, V2P KERNLINK, V2P data, 0);
   (data, V2P data, PHYSTOP, PTE_W);
   (DEVSPACE, DEVSPACE, 0, PTE_W)].

Fixpoint map_kernel (pgdir : Z) (rows : list (Z * Z * Z * Z)) : M kernel Z :=
  match rows with
  | [] => ret pgdir
  | (virt, phys_start, phys_end, perm) :: rows =>
      let! r := mappages pgdir virt (u32 (phys_end - phys_start)) phys_start perm in
      if r <? 0 then freevm pgdir;;; ret 0 else map_kernel pgdir rows
  end.

Definition setupkvm : M kernel Z :=
  let! pgdir := kalloc in
  if pgdir =? 0 then ret 0 else
  modify (λ k, k <|mem ::= λ m, memset m pgdir 0 PGSIZE|>);;;
  if DEVSPACE <? P2V PHYSTOP then panic "PHYSTOP too high" else
  let! data := gets kernel_data in
  map_kernel pgdir (kmap data).

Definition inituvm (pgdir init sz : Z) : M kernel unit :=
  if PGSIZE <=? sz then panic "inituvm: more than a page" else
  let! page := kalloc in
  modify (λ k, k <|mem ::= λ m, memset m page 0 PGSIZE|>);;;
  let! _ := mappages pgdir 0 PGSIZE (V2P page) (Z.lor PTE_W PTE_U) in
  modify (λ k, k <|mem ::= λ m, memmove m page init sz|>).

Fixpoint allocuvm_loop (fuel : nat) (pgdir a oldsz newsz : Z) : M kernel Z :=
  match fuel with
  | O => λ _, Loop
  | S fuel =>
      if negb (a <? newsz) then ret newsz else
      let! page := kalloc in
      if page =? 0 then
        let! _ := deallocuvm pgdir newsz oldsz in ret 0
      else
        modify (λ k, k <|mem ::= λ m, memset m page 0 PGSIZE|>);;;
        let! r := mappages pgdir a PGSIZE (V2P page) (Z.lor PTE_W PTE_U) in
        if r <? 0 then
          let! _ := deallocuvm pgdir newsz oldsz in
          kfree page;;;
          ret 0
        else allocuvm_loop fuel pgdir (u32 (a + PGSIZE)) oldsz newsz
  end.

Definition allocuvm (pgdir oldsz newsz : Z) : M kernel Z :=
  if KERNBASE <=? newsz then ret 0 else
  if newsz <? oldsz then ret oldsz else
  allocuvm_loop (S (Z.to_nat (newsz / PGSIZE + 1))) pgdir (PGROUNDUP oldsz) oldsz newsz.

Definition clearpteu (pgdir uva : Z) : M kernel unit :=
  let! pte := walkpgdir pgdir uva false in
  if pte =? 0 then panic "clearpteu" else
  let! e := ld32 pte in
  st32 pte (Z.land e (Z.lnot PTE_U)).

Fixpoint copyuvm_loop (fuel : nat) (pgdir d i sz : Z) : M kernel Z :=
  match fuel with
  | O => λ _, Loop
  | S fuel =>
      if negb (i <? sz) then ret d else
      let! pte := walkpgdir pgdir i false in
      if pte =? 0 then panic "copyuvm: pte should exist" else
      let! e := ld32 pte in
      if negb (has e PTE_P) then panic "copyuvm: page not present" else
      let pa := PTE_ADDR e in
      let flags := PTE_FLAGS e in
      let! page := kalloc in
      if page =? 0 then freevm d;;; ret 0 else
      modify (λ k, k <|mem ::= λ m, memmove m page (P2V pa) PGSIZE|>);;;
      let! r := mappages d i PGSIZE (V2P page) flags in
      if r <? 0 then kfree page;;; freevm d;;; ret 0
      else copyuvm_loop fuel pgdir d (u32 (i + PGSIZE)) sz
  end.

Definition copyuvm (pgdir sz : Z) : M kernel Z :=
  let! d := setupkvm in
  if d =? 0 then ret 0 else
  copyuvm_loop (S (Z.to_nat (sz / PGSIZE + 1))) pgdir d 0 sz.

(** [uva2ka] reads the entry without a test for a missing page table. *)
Definition uva2ka (pgdir uva : Z) : M kernel Z :=
  let! pte := walkpgdir pgdir uva false in
  if pte =? 0 then fault else
  let! e := ld32 pte in
  if negb (has e PTE_P) then ret 0 else
  if negb (has e PTE_U) then ret 0 else
  ret (P2V (PTE_ADDR e)).

Definition switchkvm : M kernel unit := modify (λ k, k <|cr3 := V2P (kpgdir k)|>).

Definition kvmalloc : M kernel unit :=
  let! d := setupkvm in
  modify (λ k, k <|kpgdir := d|>);;;
  switchkvm.

(** ** Specification *)

(** The page table entry the hardware finds for a virtual address; 0 where
    there is no page table. *)
Definition pte_at (m : gmap Z Z) (pgdir va : Z) : Z :=
  let e := rd32 m (pgdir + 4 * PDX va) in
  if has e PTE_P then rd32 m (P2V (PTE_ADDR e) + 4 * PTX va) else 0.

(** Two addresses on the same page. *)
Definition same_page (va va' : Z) : Prop := PDX va = PDX va' ∧ PTX va = PTX va'.

#[global] Instance same_page_dec va va' : Decision (same_page va va').
Proof. unfold same_page. apply _. Defined.

(** A directory whose page tables are [ts], by directory index: pages of
    allocatable memory, all different. *)
Record pgdir_ok (e : Z) (m : gmap Z Z) (pgdir : Z) (ts : gmap Z Z) : Prop := {
  dir_page : page_ok e pgdir;
  dir_entry : ∀ i, 0 <= i < NPDENTRIES →
    match ts !! i with
    | Some t => has (rd32 m (pgdir + 4 * i)) PTE_P = true ∧
                P2V (PTE_ADDR (rd32 m (pgdir + 4 * i))) = t
    | None => has (rd32 m (pgdir + 4 * i)) PTE_P = false
    end;
  dir_table : ∀ i t, ts !! i = Some t → 0 <= i < NPDENTRIES ∧ page_ok e t ∧ t ≠ pgdir;
  dir_inj : ∀ i j t, ts !! i = Some t → ts !! j = Some t → i = j
}.

(** The pages of a directory. *)
Definition owns (pgdir : Z) (ts : gmap Z Z) (p : Z) : Prop :=
  p = pgdir ∨ ∃ i, ts !! i = Some p.

(** The bytes of page [p] are the same. *)
Definition page_eq (m m' : gmap Z Z) (p : Z) : Prop :=
  ∀ b, p <= b < p + PGSIZE → rd m' b = rd m b.

(** ** Lemmas *)

#[local] Opaque memset memmove.

Lemma PDX_range va : 0 <= PDX va < NPDENTRIES.
Proof.
  rewrite PDX_arith. pose proof (u32_range va). unfold NPDENTRIES. split.
  - apply Z.div_pos; lia.
  - apply Z.div_lt_upper_bound; lia.
Qed.

Lemma PTX_range va : 0 <= PTX va < NPTENTRIES.
Proof. rewrite PTX_arith. by apply (Z.mod_pos_bound _ (2 ^ 10)). Qed.

Lemma rd32_page m m' p i :
  page_eq m m' p → 0 <= i < 1024 → rd32 m' (p + 4 * i) = rd32 m (p + 4 * i).
Proof. intros H Hi. unfold rd32. rewrite !H by (unfold PGSIZE; lia). done. Qed.

Lemma page_eq_refl m p : page_eq m m p.
Proof. done. Qed.

Lemma page_eq_trans m m' m'' p : page_eq m m' p → page_eq m' m'' p → page_eq m m'' p.
Proof. intros H1 H2 b Hb. rewrite H2, H1; done. Qed.

(** Different pages do not overlap. *)
Lemma pages_apart e p q : page_ok e p → page_ok e q → p ≠ q → p + PGSIZE <= q ∨ q + PGSIZE <= p.
Proof. unfold page_ok, PGSIZE. intros [Hp _] [Hq _] Hne. zdiv. Qed.

Lemma page_eq_wr32 e m p q i v :
  page_ok e p → page_ok e q → p ≠ q → 0 <= i < 1024 → page_eq m (wr32 m (p + 4 * i) v) q.
Proof.
  intros Hp Hq Hne Hi b Hb. pose proof (pages_apart e p q Hp Hq Hne).
  rewrite wr32_spec, decide_False by (unfold PGSIZE in *; lia). done.
Qed.

Lemma page_eq_memset e m p q c :
  page_ok e p → page_ok e q → p ≠ q → page_eq m (memset m p c PGSIZE) q.
Proof.
  intros Hp Hq Hne b Hb. pose proof (pages_apart e p q Hp Hq Hne).
  rewrite memset_spec, decide_False by (unfold PGSIZE in *; lia). done.
Qed.

Lemma rd32_zeroed m p i :
  0 <= i < 1024 → rd32 (memset m p 0 PGSIZE) (p + 4 * i) = 0.
Proof.
  intros Hi. unfold rd32. rewrite !memset_spec, !decide_True by (unfold PGSIZE; lia). done.
Qed.

Lemma pte_at_some e m D ts va t :
  pgdir_ok e m D ts → ts !! PDX va = Some t → pte_at m D va = rd32 m (t + 4 * PTX va).
Proof.
  intros H Ht. unfold pte_at. pose proof (dir_entry _ _ _ _ H (PDX va) (PDX_range va)) as He.
  rewrite Ht in He. destruct He as [-> ->]. done.
Qed.

Lemma pte_at_none e m D ts va :
  pgdir_ok e m D ts → ts !! PDX va = None → pte_at m D va = 0.
Proof.
  intros H Ht. unfold pte_at. pose proof (dir_entry _ _ _ _ H (PDX va) (PDX_range va)) as He.
  rewrite Ht in He. by rewrite He.
Qed.

(** A directory depends on its own pages only. *)
Lemma pgdir_frame e m m' D ts :
  pgdir_ok e m D ts → (∀ p, owns D ts p → page_eq m m' p) →
  pgdir_ok e m' D ts ∧ ∀ va, pte_at m' D va = pte_at m D va.
Proof.
  intros H Hp. assert (pgdir_ok e m' D ts) as H'.
  { split; [apply H| |apply H|apply H]. intros i Hi.
    rewrite (rd32_page m m' D i) by (done || (apply Hp; by left)). by apply H. }
  split; [done|]. intros va. destruct (ts !! PDX va) as [t|] eqn:Ht.
  - rewrite !(pte_at_some e _ D ts va t) by done. apply rd32_page; [|apply PTX_range].
    apply Hp. right. eauto.
  - by rewrite !(pte_at_none e _ D ts va) by done.
Qed.

(** *** Entries *)

Lemma lor_page pa f :
  pa mod PGSIZE = 0 → 0 <= f < PGSIZE → 0 <= pa < 2 ^ 32 →
  Z.lor pa f = pa + f ∧ PTE_ADDR (Z.lor pa f) = pa ∧ PTE_FLAGS (Z.lor pa f) = f ∧
  0 <= Z.lor pa f < 2 ^ 32.
Proof.
  intros Hp Hf Hr. assert (Z.lor pa f = pa + f) as E.
  { replace pa with (Z.shiftl (pa / PGSIZE) 12) at 1.
    - rewrite lor_shift_add by done. unfold PGSIZE in *. zdiv.
    - rewrite Z.shiftl_mul_pow2 by lia. unfold PGSIZE in *. zdiv. }
  rewrite E, PTE_ADDR_arith, PTE_FLAGS_arith. unfold PGSIZE in *.
  assert (0 <= pa + f < 2 ^ 32) by zdiv. rewrite !u32_small by done. split_and!; zdiv.
Qed.

Lemma has_lor x y f : 0 < Z.land y f → 0 <= Z.land x f → has (Z.lor x y) f = true.
Proof.
  intros Hy Hx. unfold has. rewrite Z.land_lor_distr_l. apply negb_true_iff, Z.eqb_neq.
  intros E. apply Z.lor_eq_0_iff in E as [_ E]. lia.
Qed.

Lemma land_flag_nonneg x f : 0 <= f → 0 <= Z.land x f.
Proof. intros H. apply Z.land_nonneg. by right. Qed.

Lemma page_phys e t :
  KERNLINK <= e → page_ok e t →
  V2P t mod PGSIZE = 0 ∧ 0 <= V2P t < PHYSTOP ∧ P2V (V2P t) = t ∧ V2P t ≠ 0 ∧ t ≠ 0.
Proof.
  unfold page_ok, V2P, P2V, KERNLINK, KERNBASE, EXTMEM, PHYSTOP, PGSIZE. intros He [Hm Ht].
  rewrite (u32_small t), !u32_small by (try rewrite u32_small; lia). split_and!; zdiv.
Qed.

Lemma pde_value e t :
  KERNLINK <= e → page_ok e t →
  let v := Z.lor (Z.lor (Z.lor (V2P t) PTE_P) PTE_W) PTE_U in
  has v PTE_P = true ∧ P2V (PTE_ADDR v) = t ∧ u32 v = v.
Proof.
  intros He Ht v. destruct (page_phys e t He Ht) as (H1 & H2 & H3 & _).
  assert (v = Z.lor (V2P t) 7) as -> by (unfold v; by rewrite <- !Z.lor_assoc).
  destruct (lor_page (V2P t) 7) as (_ & E2 & _ & E4); [done|by unfold PGSIZE| |].
  { unfold PHYSTOP in *. lia. }
  split_and!; [|by rewrite E2|by apply u32_small].
  apply has_lor; [done|]. by apply land_flag_nonneg.
Qed.

(** A new, empty page table changes no entry. *)
Lemma pgdir_add_table e m D ts i t :
  KERNLINK <= e → pgdir_ok e m D ts → 0 <= i < NPDENTRIES → ts !! i = None → page_ok e t →
  ¬ owns D ts t →
  let m' := wr32 (memset m t 0 PGSIZE) (D + 4 * i)
    (Z.lor (Z.lor (Z.lor (V2P t) PTE_P) PTE_W) PTE_U) in
  pgdir_ok e m' D (<[i:=t]> ts) ∧ (∀ va, pte_at m' D va = pte_at m D va) ∧
  ∀ q, page_ok e q → q ≠ D → q ≠ t → page_eq m m' q.
Proof.
  intros Hk H Hi Hn Ht Hno m'. assert (t ≠ D) as HtD by (intros ->; apply Hno; by left).
  pose proof (dir_page _ _ _ _ H) as HD. destruct (pde_value e t Hk Ht) as (V1 & V2 & V3).
  assert (page_eq m (memset m t 0 PGSIZE) D) as HeqD by (by eapply page_eq_memset).
  assert (∀ j, 0 <= j < NPDENTRIES → rd32 m' (D + 4 * j) = if decide (i = j)
    then Z.lor (Z.lor (Z.lor (V2P t) PTE_P) PTE_W) PTE_U else rd32 m (D + 4 * j)) as Hpde.
  { intros j Hj. unfold m'. case_decide as Hij.
    - subst j. by rewrite rd32_wr32_same.
    - rewrite rd32_wr32_ne by lia. by apply rd32_page. }
  assert (∀ q, page_ok e q → q ≠ D → page_eq (memset m t 0 PGSIZE) m' q) as Hq.
  { intros q Hqo Hne. by eapply page_eq_wr32. }
  assert (pgdir_ok e m' D (<[i:=t]> ts)) as H'.
  { split.
    - done.
    - intros j Hj. rewrite lookup_insert, Hpde by done. case_decide as Hij; [done|].
      by apply (dir_entry _ _ _ _ H).
    - intros j q. rewrite lookup_insert_Some. intros [[<- <-]|[_ Hj]]; [done|].
      by eapply (dir_table _ _ _ _ H).
    - intros j j' q. rewrite !lookup_insert_Some.
      intros [[<- <-]|[_ Hj]] [[<- Hq']|[_ Hj']]; try done.
      + destruct Hno. right. eauto.
      + destruct Hno. right. subst. eauto.
      + by eapply (dir_inj _ _ _ _ H). }
  split_and!; [done| |].
  - intros va. destruct (decide (PDX va = i)) as [<-|Hne].
    + rewrite (pte_at_some e m' D (<[PDX va:=t]> ts) va t) by (done || apply lookup_insert_eq).
      rewrite (pte_at_none e m D ts va) by done.
      rewrite (rd32_page (memset m t 0 PGSIZE)) by (by apply Hq || apply PTX_range).
      apply rd32_zeroed, PTX_range.
    + destruct (ts !! PDX va) as [q|] eqn:Hva.
      * rewrite (pte_at_some e m' D (<[i:=t]> ts) va q) by (done || by rewrite lookup_insert_ne).
        rewrite (pte_at_some e m D ts va q) by done.
        destruct (dir_table _ _ _ _ H _ _ Hva) as (_ & Hqo & HqD).
        apply rd32_page; [|apply PTX_range]. eapply page_eq_trans; [|by apply Hq].
        eapply page_eq_memset; [done|done|]. intros ->. apply Hno. right. eauto.
      * rewrite (pte_at_none e m' D (<[i:=t]> ts) va) by (done || by rewrite lookup_insert_ne).
        by rewrite (pte_at_none e m D ts va).
  - intros q Hqo HqD Hqt. eapply page_eq_trans; [|by apply Hq]. by eapply page_eq_memset.
Qed.

(** Writing an entry changes that entry only. *)
Lemma pgdir_set_pte e m D ts va t v :
  pgdir_ok e m D ts → ts !! PDX va = Some t →
  let m' := wr32 m (t + 4 * PTX va) v in
  pgdir_ok e m' D ts ∧
  (∀ va', pte_at m' D va' = if decide (same_page va va') then u32 v else pte_at m D va') ∧
  ∀ q, page_ok e q → q ≠ t → page_eq m m' q.
Proof.
  intros H Ht m'. destruct (dir_table _ _ _ _ H _ _ Ht) as (_ & Hto & HtD).
  pose proof (dir_page _ _ _ _ H) as HD. pose proof (PTX_range va) as Hx.
  assert (∀ q, page_ok e q → q ≠ t → page_eq m m' q) as Hq.
  { intros q Hqo Hne. eapply page_eq_wr32; [exact Hto|done|done|]. exact Hx. }
  assert (pgdir_ok e m' D ts) as H'.
  { split; [done| |apply H|apply H]. intros i Hi.
    rewrite (rd32_page m m' D i) by (done || by apply Hq). by apply H. }
  split_and!; [done| |done]. intros va'. unfold same_page.
  destruct (ts !! PDX va') as [q|] eqn:Hva.
  - rewrite (pte_at_some e m' D ts va' q), (pte_at_some e m D ts va' q) by done.
    destruct (decide (q = t)) as [->|Hne].
    + assert (PDX va = PDX va') as Ed by (by eapply (dir_inj _ _ _ _ H)).
      case_decide as Hs; unfold m'.
      * destruct Hs as [_ ->]. apply rd32_wr32_same.
      * apply rd32_wr32_ne. assert (PTX va ≠ PTX va') by tauto. lia.
    + rewrite decide_False; [|intros [E _]; rewrite E in Ht; congruence].
      destruct (dir_table _ _ _ _ H _ _ Hva) as (_ & Hqo & _).
      apply rd32_page; [by apply Hq|apply PTX_range].
  - rewrite (pte_at_none e m' D ts va'), (pte_at_none e m D ts va') by done.
    rewrite decide_False; [done|]. intros [E _]. rewrite E in Ht. congruence.
Qed.

(** *** [walkpgdir] *)

(** A kernel with free pages [l] and a directory, none of whose pages is
    free. *)
Definition vm_ok (k : kernel) (l : list Z) (D : Z) (ts : gmap Z Z) : Prop :=
  kmem_ok k l ∧ pgdir_ok (kernel_end k) (mem k) D ts ∧ ∀ p, owns D ts p → p ∉ l.

(** The state is the same but for the memory of the pages that were free or
    belong to the directory. *)
Definition vm_frame (k k' : kernel) (l : list Z) (D : Z) (ts : gmap Z Z) : Prop :=
  mem_frame k k' ∧ kmem_ready k' ∧
  ∀ q, page_ok (kernel_end k) q → ¬ owns D ts q → q ∉ l → page_eq (mem k) (mem k') q.

Lemma mem_frame_end k k' : mem_frame k k' → kernel_end k' = kernel_end k.
Proof. intros [-> _]. done. Qed.

Lemma walk_lookup k D ts va :
  pgdir_ok (kernel_end k) (mem k) D ts →
  walkpgdir D va false k =
    Ret (match ts !! PDX va with Some t => t + 4 * PTX va | None => 0 end) k.
Proof.
  intros H. unfold walkpgdir, ld32. rewrite bind_gets.
  pose proof (dir_entry _ _ _ _ H (PDX va) (PDX_range va)) as He.
  destruct (ts !! PDX va) as [t|].
  - destruct He as [-> ->]. done.
  - by rewrite He.
Qed.

Lemma walk_found k D ts va t b :
  pgdir_ok (kernel_end k) (mem k) D ts → ts !! PDX va = Some t →
  walkpgdir D va b k = Ret (t + 4 * PTX va) k.
Proof.
  intros H Ht. unfold walkpgdir, ld32. rewrite bind_gets.
  pose proof (dir_entry _ _ _ _ H (PDX va) (PDX_range va)) as He. rewrite Ht in He.
  by destruct He as [-> ->].
Qed.

(** A change of memory outside the free pages keeps the free list. *)
Lemma kmem_ok_frame k k' l :
  kmem_ok k l → freelist k' = freelist k → kernel_end k' = kernel_end k →
  (∀ p, p ∈ l → page_eq (mem k) (mem k') p) → kmem_ok k' l.
Proof.
  intros (Hc & Hnd & Hf & He) Ef Ee Hp. unfold kmem_ok. rewrite Ef, Ee. split_and!; try done.
  clear He Ef Hnd. revert Hc Hp. generalize (freelist k). induction l as [|p l IH]; intros h; [done|].
  intros [-> Hc] Hp. apply Forall_cons in Hf as [_ Hf]. split; [done|].
  pose proof (rd32_page (mem k) (mem k') p 0) as E. rewrite Z.mul_0_r, Z.add_0_r in E.
  rewrite E by (lia || (apply Hp; by left)). apply IH; [done|done|]. intros q Hq. apply Hp. by right.
Qed.

(** A memory change on top of a frame. *)
Lemma mem_frame_set k k' m : mem_frame k k' → mem_frame k (k' <|mem := m|>).
Proof. intros H. apply (mem_frame_upd k k' (λ _, m) (λ f, f)) in H. exact H. Qed.

Lemma kmem_ready_mem k m : kmem_ready k → kmem_ready (k <|mem := m|>).
Proof. intros H Hu. destruct (H Hu) as [H1 H2]. split; [by eapply ready_same|done]. Qed.

Lemma mem_upd_upd k f g : k <|mem ::= f|> <|mem ::= g|> = k <|mem := g (f (mem k))|>.
Proof. kext. Qed.

(** A directory grew by pages of the free list, and no page was lost. *)
Definition grown (l l' : list Z) (D : Z) (ts ts' : gmap Z Z) : Prop :=
  l' ⊆ l ∧ (∀ p, owns D ts' p → owns D ts p ∨ p ∈ l) ∧
  (∀ p, owns D ts p → owns D ts' p) ∧ (∀ p, p ∈ l → p ∈ l' ∨ owns D ts' p).

Lemma grown_refl l D ts : grown l l D ts ts.
Proof. split_and!; auto. Qed.

Lemma grown_trans l l1 l2 D ts ts1 ts2 :
  grown l l1 D ts ts1 → grown l1 l2 D ts1 ts2 → grown l l2 D ts ts2.
Proof.
  intros (A1 & A2 & A3 & A4) (B1 & B2 & B3 & B4). split_and!.
  - set_solver.
  - intros p [Hp|Hp]%B2; [by apply A2|]. right. by apply A1.
  - intros p Hp. by apply B3, A3.
  - intros p [Hp|Hp]%A4; [by apply B4|]. right. by apply B3.
Qed.

(** The page tables that were added are pages of the free list, one for each,
    for entries of the directory from [lo] to [hi]. *)
Definition tables (l l' : list Z) (ts ts' : gmap Z Z) (lo hi : Z) : Prop :=
  ts ⊆ ts' ∧ (length l + size ts = length l' + size ts')%nat ∧
  ∀ i, is_Some (ts' !! i) → is_Some (ts !! i) ∨ lo <= i <= hi.

Lemma tables_refl l ts lo hi : tables l l ts ts lo hi.
Proof. split; [done|]. split; [done|]. auto. Qed.

Lemma tables_trans l l1 l2 ts ts1 ts2 lo hi :
  tables l l1 ts ts1 lo hi → tables l1 l2 ts1 ts2 lo hi → tables l l2 ts ts2 lo hi.
Proof.
  intros (A1 & A2 & A3) (B1 & B2 & B3). split; [by etrans|]. split; [lia|].
  intros i [Hi|Hi]%B3; [by apply A3|by right].
Qed.

Lemma tables_weaken l l' ts ts' lo hi lo' hi' :
  tables l l' ts ts' lo hi → lo' <= lo → hi <= hi' → tables l l' ts ts' lo' hi'.
Proof. intros (A1 & A2 & A3) H1 H2. split; [done|]. split; [done|]. intros i [Hi|Hi]%A3; [by left|right; lia]. Qed.

Lemma PDX_mono a b : 0 <= a <= b → b < 2 ^ 32 → PDX a <= PDX b.
Proof. intros H1 H2. rewrite !PDX_arith, !u32_small by lia. apply Z.div_le_mono; lia. Qed.

Lemma PDX_page va : 0 <= va < 2 ^ 32 → PDX (va / PGSIZE * PGSIZE) = PDX va.
Proof. intros H. rewrite !PDX_arith, !u32_small by (unfold PGSIZE; zdiv). unfold PGSIZE. zdiv. Qed.

(** [walkpgdir] with allocation: it finds or makes a page table, or runs out
    of memory; either way no entry changes. *)
Lemma walk_alloc k l D ts va :
  vm_ok k l D ts → kmem_ready k →
  (l = [] ∧ ts !! PDX va = None ∧
    ∃ k', walkpgdir D va true k = Ret 0 k' ∧ vm_ok k' l D ts ∧ vm_frame k k' l D ts ∧
      mem k' = mem k) ∨
  ∃ k' l' ts' t, walkpgdir D va true k = Ret (t + 4 * PTX va) k' ∧ ts' !! PDX va = Some t ∧
    vm_ok k' l' D ts' ∧ grown l l' D ts ts' ∧
    (∀ va', pte_at (mem k') D va' = pte_at (mem k) D va') ∧ vm_frame k k' l D ts ∧
    tables l l' ts ts' (PDX va) (PDX va).
Proof.
  intros (Hk & Hd & Hown) Hr. destruct (ts !! PDX va) as [t|] eqn:Ht.
  { right. exists k, l, ts, t. split_and!; try done; [by eapply walk_found|apply grown_refl| |apply tables_refl].
    split_and!; try done. apply mem_frame_refl. }
  unfold walkpgdir, ld32. rewrite bind_gets.
  pose proof (dir_entry _ _ _ _ Hd (PDX va) (PDX_range va)) as He. rewrite Ht in He. rewrite He.
  cbn [negb]. destruct (kalloc_ok k l Hk Hr) as (k1 & E1 & Hk1 & Hr1 & Ee & Em & Hfr).
  rewrite !(bind_Ret _ _ _ _ _ E1). pose proof Hk as (_ & Hnd & Hf & Hke).
  destruct l as [|t l]; cbn [head tail from_option]; unfold id.
  { left. split_and!; try done. exists k1. split_and!; try done.
    - split_and!; [done|by rewrite Ee, Em|done].
    - split_and!; [done..|]. intros q ? ? ?. by rewrite Em. }
  right. apply Forall_cons in Hf as [Hto Hf]. apply NoDup_cons in Hnd as [Htl Hnd].
  destruct (page_phys _ _ Hke Hto) as (_ & _ & _ & _ & Ht0).
  destruct (Z.eqb_spec t 0); [done|]. rewrite bind_modify. unfold st32. rewrite bind_modify.
  assert (¬ owns D ts t) as Hno by (intros Ho; apply (Hown t Ho); by left).
  destruct (pgdir_add_table (kernel_end k) (mem k) D ts (PDX va) t) as (H1 & H2 & H3);
    [done..|apply PDX_range|done|done|done|].
  set (m' := wr32 _ _ _) in H1, H2, H3.
  assert (∀ k2 : kernel, k2 = k1 <|mem ::= λ m, memset m t 0 PGSIZE|>
    <|mem ::= λ m, wr32 m (D + 4 * PDX va) (Z.lor (Z.lor (Z.lor (V2P t) PTE_P) PTE_W) PTE_U)|> →
    k2 = k1 <|mem := m'|>) as Ek2 by (intros k2 ->; by rewrite mem_upd_upd, Em).
  eexists (k1 <|mem := m'|>), l, (<[PDX va:=t]> ts), t. rewrite <- (Ek2 _ eq_refl).
  split_and!; [done|apply lookup_insert_eq| | |rewrite (Ek2 _ eq_refl); exact H2| |].
  all: cycle -1.
  { split; [by apply insert_subseteq|]. split; [rewrite map_size_insert_None by done; cbn; lia|].
    intros i [x [[<- _]|[_ Hx]]%lookup_insert_Some]; [right; lia|left; eauto]. }
  - rewrite (Ek2 _ eq_refl). split_and!.
    + eapply kmem_ok_frame; [exact Hk1|done|done|]. intros q Hq. rsimpl. rewrite Em. apply H3.
      * rewrite Forall_forall in Hf. by apply Hf.
      * intros ->. apply (Hown D); [by left|by right].
      * by intros ->.
    + rsimpl. by rewrite Ee.
    + intros q [->|[i Hq]] Hin.
      * apply (Hown D); [by left|by right].
      * rewrite lookup_insert_Some in Hq. destruct Hq as [[_ <-]|[_ Hq]]; [done|].
        apply (Hown q); [right; eauto|by right].
  - split_and!.
    + intros q Hq. by right.
    + intros q [->|[i Hq]]; [left; by left|]. rewrite lookup_insert_Some in Hq.
      destruct Hq as [[_ <-]|[_ Hq]]; [right; by left|left; right; eauto].
    + intros q [->|[i Hq]]; [by left|]. right. exists i. rewrite lookup_insert_ne; [done|].
      intros <-. congruence.
    + intros q [->|Hq]%elem_of_cons; [|by left]. right. right. exists (PDX va). apply lookup_insert_eq.
  - rewrite (Ek2 _ eq_refl). split_and!.
    + by apply mem_frame_set.
    + by apply kmem_ready_mem.
    + intros q Hqo Hq Hql. rsimpl. apply H3; [done| |].
      * intros ->. apply Hq. by left.
      * intros ->. apply Hql. by left.
Qed.

(** *** [mappages] *)

Lemma same_page_div va va' : same_page va va' ↔ u32 va / PGSIZE = u32 va' / PGSIZE.
Proof.
  unfold same_page. rewrite !PDX_arith, !PTX_arith. unfold PGSIZE. change (2 ^ 12) with 4096.
  change (2 ^ 22) with (4096 * 1024). change (2 ^ 10) with 1024.
  rewrite <- !Z.div_div by lia. split; [zdiv|]. by intros ->.
Qed.

(** The addresses of the page that starts at [a]. *)
Lemma same_page_range a va :
  a mod PGSIZE = 0 → 0 <= a < 2 ^ 32 → 0 <= va < 2 ^ 32 →
  same_page a va ↔ a <= va < a + PGSIZE.
Proof.
  intros Ha Hr Hv. rewrite same_page_div, !u32_small by done. unfold PGSIZE in *. zdiv.
Qed.

Lemma vm_frame_trans k k1 k2 l l1 D ts ts1 :
  vm_frame k k1 l D ts → vm_frame k1 k2 l1 D ts1 →
  (∀ p, owns D ts1 p → owns D ts p ∨ p ∈ l) → l1 ⊆ l → vm_frame k k2 l D ts.
Proof.
  intros (F1 & R1 & P1) (F2 & R2 & P2) Ho Hl. split_and!; [by eapply mem_frame_trans|done|].
  intros q Hq Hn Hql. eapply page_eq_trans; [by apply P1|]. apply P2.
  - by rewrite (mem_frame_end _ _ F1).
  - intros [|]%Ho; done.
  - intros ?. by apply Hql, Hl.
Qed.

Lemma owns_page e m D ts p : pgdir_ok e m D ts → owns D ts p → page_ok e p.
Proof. intros H [->|[i Hi]]; [apply H|]. by apply (dir_table _ _ _ _ H i). Qed.

Lemma kmem_page k l p : kmem_ok k l → p ∈ l → page_ok (kernel_end k) p.
Proof. intros (_ & _ & Hf & _) Hp. rewrite Forall_forall in Hf. by apply Hf. Qed.

Lemma vm_set_pte k l D ts va t v :
  vm_ok k l D ts → kmem_ready k → ts !! PDX va = Some t →
  let k' := k <|mem ::= λ m, wr32 m (t + 4 * PTX va) v|> in
  vm_ok k' l D ts ∧ vm_frame k k' l D ts ∧
  (∀ va', pte_at (mem k') D va' =
     if decide (same_page va va') then u32 v else pte_at (mem k) D va') ∧
  ∀ q, page_ok (kernel_end k) q → ¬ owns D ts q → page_eq (mem k) (mem k') q.
Proof.
  intros (Hk & Hd & Ho) Hr Ht k'. destruct (pgdir_set_pte _ _ _ _ va t v Hd Ht) as (H1 & H2 & H3).
  assert (owns D ts t) as Hot by (right; eauto). unfold k'. split_and!; try done.
  - split_and!; try done. eapply kmem_ok_frame; [exact Hk|done|done|].
    intros p Hp. apply H3; [by eapply kmem_page|]. intros ->. by apply (Ho t).
  - split_and!.
    + by apply (mem_frame_mem k (wr32 (mem k) (t + 4 * PTX va) v)).
    + by apply (kmem_ready_mem k (wr32 (mem k) (t + 4 * PTX va) v)).
    + intros q Hq Hn Hl. apply H3; [done|]. intros ->. done.
  - intros q Hq Hn. apply H3; [done|]. by intros ->.
Qed.

(** The entry for the page [i] pages above [pa]. *)
Definition new_pte (pa perm i : Z) : Z := u32 (Z.lor (Z.lor (u32 (pa + i * PGSIZE)) perm) PTE_P).

(** What a call of [mappages] on [n] pages from [a] did to the entries when it
    mapped the first [j] of them. *)
Definition mapped (m m' : gmap Z Z) (D a pa perm j : Z) : Prop :=
  ∀ va, 0 <= va < 2 ^ 32 → pte_at m' D va =
    if decide (a <= va < a + j * PGSIZE) then new_pte pa perm ((va - a) / PGSIZE)
    else pte_at m D va.

Lemma vm_ok_end k l D ts : vm_ok k l D ts → KERNLINK <= kernel_end k.
Proof. by intros ((_ & _ & _ & ?) & _). Qed.

(** A page table entry has an address. *)
Lemma entry_addr k l D ts va t :
  vm_ok k l D ts → ts !! PDX va = Some t → (t + 4 * PTX va =? 0) = false.
Proof.
  intros Hv Ht. pose proof (vm_ok_end _ _ _ _ Hv) as He. destruct Hv as (_ & Hd & _).
  destruct (dir_table _ _ _ _ Hd _ _ Ht) as (_ & [_ Hp] & _). pose proof (PTX_range va).
  apply Z.eqb_neq. unfold KERNLINK, KERNBASE, EXTMEM in *. lia.
Qed.

(** One turn of the loop. *)
Lemma mappages_step fuel k l D ts a last pa perm :
  vm_ok k l D ts → kmem_ready k → has (pte_at (mem k) D a) PTE_P = false →
  (l = [] ∧ ts !! PDX a = None ∧ ∃ k', mappages_loop (S fuel) D a last pa perm k = Ret (-1) k' ∧ vm_ok k' l D ts ∧
     vm_frame k k' l D ts ∧ mem k' = mem k) ∨
  ∃ k' l' ts', mappages_loop (S fuel) D a last pa perm k =
      (if a =? last then ret 0
       else mappages_loop fuel D (u32 (a + PGSIZE)) last (u32 (pa + PGSIZE)) perm) k' ∧
    vm_ok k' l' D ts' ∧ grown l l' D ts ts' ∧ vm_frame k k' l D ts ∧ tables l l' ts ts' (PDX a) (PDX a) ∧
    ∀ va, pte_at (mem k') D va = if decide (same_page a va)
      then u32 (Z.lor (Z.lor pa perm) PTE_P) else pte_at (mem k) D va.
Proof.
  intros Hv Hr Hun. cbn [mappages_loop].
  destruct (walk_alloc k l D ts a Hv Hr) as
    [(-> & Hno & k1 & E & Hv1 & Hf1 & Em)|(k1 & l1 & ts1 & t & E & Ht & Hv1 & Hg & Hp & Hf1 & Htb)].
  - left. split; [done|]. split; [done|]. exists k1. rewrite (bind_Ret _ _ _ _ _ E). done.
  - right. destruct (vm_set_pte k1 l1 D ts1 a t (Z.lor (Z.lor pa perm) PTE_P)) as (Hv2 & Hf2 & Hp2 & _);
      [done|apply Hf1|done|].
    eexists _, l1, ts1. split_and!; [|exact Hv2|done| |exact Htb|].
    + rewrite (bind_Ret _ _ _ _ _ E), (entry_addr k1 l1 D ts1 a t Hv1 Ht).
      unfold ld32. rewrite bind_gets. destruct Hv1 as (_ & Hd1 & _).
      rewrite <- (pte_at_some _ _ _ _ a t Hd1 Ht), Hp, Hun. unfold st32. by rewrite bind_modify.
    + destruct Hg as (? & ? & _). by eapply vm_frame_trans; [exact Hf1|exact Hf2|..].
    + intros va. rewrite Hp2. case_decide; [done|]. apply Hp.
Qed.

Lemma mapped_none m D a pa perm : mapped m m D a pa perm 0.
Proof. intros va Hva. by rewrite decide_False by (unfold PGSIZE; lia). Qed.

(** The first page, then [j] more. *)
Lemma mapped_cons m m1 m' D a pa perm j :
  a mod PGSIZE = 0 → 0 <= a < 2 ^ 32 → 0 <= j →
  (∀ va, pte_at m1 D va = if decide (same_page a va)
     then u32 (Z.lor (Z.lor (u32 pa) perm) PTE_P) else pte_at m D va) →
  mapped m1 m' D (a + PGSIZE) (pa + PGSIZE) perm j → mapped m m' D a pa perm (j + 1).
Proof.
  intros Ha Hr Hj H1 H2 va Hva. rewrite (H2 va Hva), H1.
  pose proof (same_page_range a va Ha Hr Hva) as Hs.
  destruct (decide (a + PGSIZE <= va < a + PGSIZE + j * PGSIZE)).
  - rewrite decide_True by (unfold PGSIZE in *; lia). unfold new_pte. do 4 f_equal.
    replace (va - a) with (va - (a + PGSIZE) + 1 * PGSIZE) by lia.
    rewrite Z.div_add by (unfold PGSIZE; lia). lia.
  - destruct (decide (same_page a va)) as [Hsp|Hsp].
    + apply Hs in Hsp. rewrite decide_True by (unfold PGSIZE in *; lia). unfold new_pte.
      replace ((va - a) / PGSIZE) with 0 by (symmetry; apply Z.div_small; lia).
      by rewrite Z.mul_0_l, Z.add_0_r.
    + rewrite decide_False; [done|]. rewrite Hs in Hsp. unfold PGSIZE in *. lia.
Qed.

Lemma mapped_eq m m1 m' D a pa perm j :
  (∀ va, pte_at m1 D va = pte_at m D va) → mapped m1 m' D a pa perm j → mapped m m' D a pa perm j.
Proof. intros H1 H2 va Hva. by rewrite (H2 va Hva), H1. Qed.

Lemma u32_add_l x y : u32 (u32 x + y) = u32 (x + y).
Proof. unfold u32, wrapu. apply Zplus_mod_idemp_l. Qed.

Lemma mappages_loop_ok n k l D ts a pa perm :
  vm_ok k l D ts → kmem_ready k → a mod PGSIZE = 0 → 0 <= a → a + Z.of_nat n * PGSIZE < 2 ^ 32 →
  (∀ i, (i <= n)%nat → has (pte_at (mem k) D (a + Z.of_nat i * PGSIZE)) PTE_P = false) →
  ∃ r k' l' ts' j,
    mappages_loop (S n) D a (a + Z.of_nat n * PGSIZE) (u32 pa) perm k = Ret r k' ∧
    vm_ok k' l' D ts' ∧ grown l l' D ts ts' ∧ vm_frame k k' l D ts ∧
    mapped (mem k) (mem k') D a pa perm j ∧
    (r = 0 ∧ j = Z.of_nat n + 1 ∨ r = -1 ∧ 0 <= j <= Z.of_nat n ∧ l' = []) ∧
    tables l l' ts ts' (PDX a) (PDX (a + Z.of_nat n * PGSIZE)) ∧
    (r = -1 → ∃ i, PDX a <= i <= PDX (a + Z.of_nat n * PGSIZE) ∧ ts' !! i = None).
Proof.
  revert k l ts a pa. induction n as [n IH] using lt_wf_ind; intros k l ts a pa Hv Hr Ha H0 Hlim Hun.
  assert (0 <= a < 2 ^ 32) as Har by (unfold PGSIZE in *; lia).
  destruct (mappages_step n k l D ts a (a + Z.of_nat n * PGSIZE) (u32 pa) perm)
    as [(-> & Hno & k1 & E & Hv1 & Hf1 & Em)|(k1 & l1 & ts1 & E & Hv1 & Hg1 & Hf1 & Htb1 & Hp1)]; [done..| | |].
  - specialize (Hun 0%nat ltac:(lia)). by rewrite Z.mul_0_l, Z.add_0_r in Hun.
  - exists (-1), k1, [], ts, 0. split_and!; try done; [apply grown_refl| |right; split_and!; lia || done|apply tables_refl|].
    + rewrite Em. apply mapped_none.
    + intros _. exists (PDX a). split; [|done]. split; [lia|]. apply PDX_mono; unfold PGSIZE in *; lia.
  - destruct n as [|n].
    + exists 0, k1, l1, ts1, 1. rewrite E, Z.mul_0_l, Z.add_0_r, Z.eqb_refl.
      split_and!; try done; [|by left]. apply (mapped_cons _ (mem k1) _ _ _ _ _ 0); try done.
      apply mapped_none.
    + destruct (Z.eqb_spec a (a + Z.of_nat (S n) * PGSIZE)); [unfold PGSIZE in *; lia|].
      rewrite u32_add_l, (u32_small (a + PGSIZE)) in E by (unfold PGSIZE in *; lia).
      destruct (IH n ltac:(lia) k1 l1 ts1 (a + PGSIZE) (pa + PGSIZE)) as
        (r & k' & l' & ts' & j & E' & Hv' & Hg' & Hf' & Hm' & Hres & Htb' & Hfail); try done.
      * apply Hf1.
      * unfold PGSIZE in *. zdiv.
      * unfold PGSIZE in *. lia.
      * unfold PGSIZE in *. lia.
      * intros i Hi. rewrite Hp1. rewrite decide_False.
        -- specialize (Hun (S i) ltac:(lia)).
           by replace (a + PGSIZE + Z.of_nat i * PGSIZE) with (a + Z.of_nat (S i) * PGSIZE) by lia.
        -- rewrite same_page_range by (unfold PGSIZE in *; lia). unfold PGSIZE in *. lia.
      * exists r, k', l', ts', (j + 1). rewrite E.
        replace (a + Z.of_nat (S n) * PGSIZE) with (a + PGSIZE + Z.of_nat n * PGSIZE) by lia.
        pose proof (PDX_mono a (a + PGSIZE) ltac:(unfold PGSIZE in *; lia) ltac:(unfold PGSIZE in *; lia)).
        pose proof (PDX_mono (a + PGSIZE) (a + PGSIZE + Z.of_nat n * PGSIZE) ltac:(unfold PGSIZE in *; lia) ltac:(unfold PGSIZE in *; lia)).
        split_and!; [done|done|by eapply grown_trans| | | | |].
        all: cycle -2.
        { eapply tables_trans; eapply tables_weaken; [exact Htb1|lia|lia|exact Htb'|lia|lia]. }
        { intros Hx. destruct (Hfail Hx) as (i & Hi & ?). exists i. split; [lia|done]. }
        -- destruct Hg1 as (? & ? & _). by eapply vm_frame_trans.
        -- apply (mapped_cons _ (mem k1)); try done. lia.
        -- destruct Hres as [[-> ->]|(-> & ? & ->)]; [left|right]; split_and!; lia || done.
Qed.

(** The pages of a range of addresses. *)
Lemma mappages_ok k l D ts va size pa perm :
  vm_ok k l D ts → kmem_ready k → 0 <= va → 0 < size → va + size <= 2 ^ 32 → 0 <= pa < 2 ^ 32 →
  (∀ a, va / PGSIZE <= a / PGSIZE <= (va + size - 1) / PGSIZE →
     has (pte_at (mem k) D a) PTE_P = false) →
  let n := (va + size - 1) / PGSIZE - va / PGSIZE + 1 in
  ∃ r k' l' ts' j, mappages D va size pa perm k = Ret r k' ∧
    vm_ok k' l' D ts' ∧ grown l l' D ts ts' ∧ vm_frame k k' l D ts ∧
    mapped (mem k) (mem k') D (va / PGSIZE * PGSIZE) pa perm j ∧
    (r = 0 ∧ j = n ∨ r = -1 ∧ 0 <= j < n ∧ l' = []) ∧
    tables l l' ts ts' (PDX va) (PDX (va + size - 1)) ∧
    (r = -1 → ∃ i, PDX va <= i <= PDX (va + size - 1) ∧ ts' !! i = None).
Proof.
  intros Hv Hr H0 Hs Hlim Hpa Hun n. unfold mappages.
  rewrite !PGROUNDDOWN_arith, (u32_small va), (u32_small (va + size - 1)) by lia.
  rewrite (u32_small (va + size - 1)) by lia.
  set (a := va / PGSIZE * PGSIZE). set (last := (va + size - 1) / PGSIZE * PGSIZE).
  assert (last = a + Z.of_nat (Z.to_nat (n - 1)) * PGSIZE) as Elast.
  { unfold n, a, last, PGSIZE. zdiv. }
  assert (0 <= a <= last ∧ last < 2 ^ 32) as Hal by (unfold a, last, PGSIZE; zdiv).
  replace (Z.to_nat (u32 (last - a) / PGSIZE)) with (Z.to_nat (n - 1)).
  2: { f_equal. rewrite u32_small by lia. unfold n, a, last, PGSIZE. zdiv. }
  rewrite Elast. destruct (mappages_loop_ok (Z.to_nat (n - 1)) k l D ts a pa perm) as
    (r & k' & l' & ts' & j & E & H1 & H2 & H3 & H4 & H5 & H6 & H7); try done.
  - unfold a, PGSIZE. zdiv.
  - lia.
  - rewrite <- Elast. lia.
  - intros i Hi. apply Hun. unfold a, n, PGSIZE in *. zdiv.
  - exists r, k', l', ts', j. rewrite (u32_small pa) in E by lia. split_and!; try done.
    + assert (0 <= n - 1) by (unfold n, PGSIZE; zdiv).
      destruct H5 as [[-> ->]|(-> & ? & ->)]; [left|right]; split_and!; lia || done.
    + unfold a, last in *. by rewrite <- Elast, !PDX_page in H6 by lia.
    + intros Hx. destruct (H7 Hx) as (i & Hi & ?). exists i. unfold a, last in *. by rewrite <- Elast, !PDX_page in Hi by lia.
Qed.

(** *** User pages *)

(** The number of pages below [KERNBASE]. *)
Definition UPAGES : Z := KERNBASE / PGSIZE.

(** The user part of the address space [D] maps exactly the pages [us], by
    page number; they are distinct, and neither free nor page tables. *)
Record uvm_ok (k : kernel) (l : list Z) (D : Z) (ts us : gmap Z Z) : Prop := {
  uv_vm : vm_ok k l D ts;
  uv_entry : ∀ n, 0 <= n < UPAGES →
    match us !! n with
    | Some p => has (pte_at (mem k) D (n * PGSIZE)) PTE_P = true ∧
                P2V (PTE_ADDR (pte_at (mem k) D (n * PGSIZE))) = p
    | None => has (pte_at (mem k) D (n * PGSIZE)) PTE_P = false
    end;
  uv_page : ∀ n p, us !! n = Some p →
    0 <= n < UPAGES ∧ page_ok (kernel_end k) p ∧ ¬ owns D ts p ∧ p ∉ l;
  uv_inj : ∀ n n' p, us !! n = Some p → us !! n' = Some p → n = n'
}.

(** Only the entry of page [n] of the directory changed. *)
Definition pte_change (m m' : gmap Z Z) (D n v : Z) : Prop :=
  ∀ va, pte_at m' D va = if decide (same_page (n * PGSIZE) va) then v else pte_at m D va.

Lemma upage_range n : 0 <= n < UPAGES → 0 <= n * PGSIZE < KERNBASE.
Proof. unfold UPAGES, KERNBASE, PGSIZE. zdiv. Qed.

Lemma upage_same n n' :
  0 <= n < UPAGES → 0 <= n' < UPAGES → same_page (n * PGSIZE) (n' * PGSIZE) ↔ n = n'.
Proof.
  intros Hn%upage_range Hn'%upage_range. unfold KERNBASE in *.
  rewrite same_page_div, !u32_small by lia. unfold PGSIZE. zdiv.
Qed.

(** Removing a user page: [kfree] of the page, then a zero entry. *)
Lemma unmap_page k l D ts us n p t :
  uvm_ok k l D ts us → kmem_ready k → us !! n = Some p → ts !! PDX (n * PGSIZE) = Some t →
  ∃ k', (kfree p;;; st32 (t + 4 * PTX (n * PGSIZE)) 0) k = Ret tt k' ∧
    uvm_ok k' (p :: l) D ts (delete n us) ∧ mem_frame k k' ∧ kmem_ready k' ∧
    pte_change (mem k) (mem k') D n 0 ∧
    (∀ q, page_ok (kernel_end k) q → ¬ owns D ts q → q ≠ p → page_eq (mem k) (mem k') q).
Proof.
  intros Hu Hr Hn Ht. destruct (uv_page _ _ _ _ _ Hu n p Hn) as (Hnr & Hpo & Hno & Hnl).
  pose proof (uv_vm _ _ _ _ _ Hu) as (Hk & Hd & Ho).
  destruct (kfree_ok k l p Hk Hr Hpo Hnl) as (k1 & E1 & Hk1 & Hr1 & Hf1 & Hs1).
  pose proof (mem_frame_end _ _ Hf1) as Ee.
  assert (∀ q, page_ok (kernel_end k) q → q ≠ p → page_eq (mem k) (mem k1) q) as Hpe.
  { intros q Hq Hne b Hb. apply Hs1. pose proof (pages_apart _ q p Hq Hpo Hne). unfold PGSIZE in *. lia. }
  destruct (pgdir_frame (kernel_end k) (mem k) (mem k1) D ts Hd) as [Hd1 Hp1].
  { intros q Hq. apply Hpe; [by eapply owns_page|]. by intros ->. }
  assert (vm_ok k1 (p :: l) D ts) as Hv1.
  { split_and!; [done|by rewrite Ee|]. intros q Hq Hin. apply elem_of_cons in Hin as [->|Hin]; [done|].
    by apply (Ho q). }
  destruct (vm_set_pte k1 (p :: l) D ts (n * PGSIZE) t 0 Hv1 Hr1 Ht) as (Hv2 & Hf2 & Hp2 & Hq2).
  set (k2 := k1 <|mem ::= _|>) in Hv2, Hf2, Hp2, Hq2. exists k2.
  assert (pte_change (mem k) (mem k2) D n 0) as Hch.
  { intros va. rewrite Hp2, Hp1. done. }
  split_and!; [|split|by eapply mem_frame_trans; [|apply Hf2]|apply Hf2|done|].
  - by rewrite (bind_Ret _ _ _ _ _ E1).
  - done.
  - intros n' Hn'. rewrite Hch, lookup_delete. rewrite (decide_ext _ _ _ _ (upage_same n n' Hnr Hn')).
    case_decide; [done|]. by apply (uv_entry _ _ _ _ _ Hu).
  - intros n' q. rewrite lookup_delete_Some. intros [Hne Hq].
    destruct (uv_page _ _ _ _ _ Hu n' q Hq) as (? & ? & ? & ?). split; [done|]. split_and!; [|done|].
    + change (kernel_end k2) with (kernel_end k1). by rewrite Ee.
    + apply not_elem_of_cons. split; [|done]. intros ->. apply Hne. by eapply (uv_inj _ _ _ _ _ Hu).
  - intros n1 n2 q. rewrite !lookup_delete_Some. intros [_ H1] [_ H2].
    by eapply (uv_inj _ _ _ _ _ Hu).
  - intros q Hq Hnq Hne. eapply page_eq_trans; [by apply Hpe|]. apply Hq2; [by rewrite Ee|done].
Qed.

(** Freeing a page that belongs to nothing. *)
Lemma free_extra k l D ts us p :
  uvm_ok k l D ts us → kmem_ready k → page_ok (kernel_end k) p → ¬ owns D ts p → p ∉ l →
  (∀ n, us !! n ≠ Some p) →
  ∃ k', kfree p k = Ret tt k' ∧ uvm_ok k' (p :: l) D ts us ∧ kmem_ready k' ∧ mem_frame k k' ∧
    ∀ q, page_ok (kernel_end k) q → q ≠ p → page_eq (mem k) (mem k') q.
Proof.
  intros Hu Hr Hp Hno Hnl Hnu. destruct Hu as [(Hk & Hd & Ho) He Hpg Hi].
  destruct (kfree_ok k l p Hk Hr Hp Hnl) as (k1 & E1 & Hk1 & Hr1 & Hf1 & Hs1).
  pose proof (mem_frame_end _ _ Hf1) as Ee.
  assert (∀ q, page_ok (kernel_end k) q → q ≠ p → page_eq (mem k) (mem k1) q) as Hpe.
  { intros q Hq Hne b Hb. apply Hs1. pose proof (pages_apart _ q p Hq Hp Hne). unfold PGSIZE in *. lia. }
  destruct (pgdir_frame (kernel_end k) (mem k) (mem k1) D ts Hd) as [Hd1 Hp1].
  { intros q Hq. apply Hpe; [by eapply owns_page|]. by intros ->. }
  exists k1. split_and!; try done. split; try done.
  - split_and!; [done|by rewrite Ee|]. intros q Hq. apply not_elem_of_cons.
    split; [by intros ->|by apply Ho].
  - intros n Hn. rewrite Hp1. by apply He.
  - intros n q Hq. rewrite Ee. destruct (Hpg n q Hq) as (? & ? & ? & ?). split_and!; try done; try lia.
    apply not_elem_of_cons. split; [|done]. intros ->. by apply (Hnu n).
Qed.

(** *** [deallocuvm] *)

(** Page [n] lies in the range of addresses from [a] to [b]. *)
Definition in_range (a b n : Z) : Prop := a <= n * PGSIZE < b.

#[global] Instance in_range_dec a b n : Decision (in_range a b n).
Proof. unfold in_range. apply _. Defined.

(** The user pages from [a] to [b] were freed and the rest kept. *)
Record freed_range (k k' : kernel) (l l' : list Z) (D : Z) (ts us us' : gmap Z Z) (a b : Z) :
  Prop := {
  fr_ok : uvm_ok k' l' D ts us';
  fr_ready : kmem_ready k';
  fr_frame : mem_frame k k';
  fr_us : ∀ n, us' !! n = if decide (in_range a b n) then None else us !! n;
  fr_l : ∀ p, p ∈ l' ↔ p ∈ l ∨ ∃ n, us !! n = Some p ∧ in_range a b n;
  fr_kern : ∀ va, KERNBASE <= va < 2 ^ 32 → pte_at (mem k') D va = pte_at (mem k) D va;
  fr_pages : ∀ q, page_ok (kernel_end k) q → ¬ owns D ts q →
    (∀ n, us !! n = Some q → ¬ in_range a b n) → page_eq (mem k) (mem k') q
}.

(** Skipping pages that are not mapped. *)
Lemma freed_range_skip k k' l l' D ts us us' a a1 b :
  freed_range k k' l l' D ts us us' a1 b →
  (∀ n, in_range a b n → ¬ in_range a1 b n → us !! n = None) → a <= a1 →
  freed_range k k' l l' D ts us us' a b.
Proof.
  intros H Hn Ha. destruct H as [H1 H2 H3 H4 H5 H6 H7]. split; try done.
  - intros n. rewrite H4. destruct (decide (in_range a1 b n)) as [Hr|Hr].
    + rewrite decide_True; [done|]. unfold in_range in *. lia.
    + destruct (decide (in_range a b n)); [by apply Hn|done].
  - intros p. rewrite H5. split; (intros [Hp|(n & Hp & Hr)]; [by left|right; exists n]).
    + split; [done|]. unfold in_range in *. lia.
    + split; [done|]. destruct (decide (in_range a1 b n)) as [|Hr1]; [done|].
      rewrite (Hn n Hr Hr1) in Hp. done.
  - intros q Hq Hno Hr. apply H7; [done..|]. intros n Hp Hin. apply (Hr n Hp).
    unfold in_range in *. lia.
Qed.

Lemma freed_range_nil k l D ts us a b :
  uvm_ok k l D ts us → kmem_ready k → (∀ n, us !! n ≠ None → ¬ in_range a b n) →
  freed_range k k l l D ts us us a b.
Proof.
  intros Hu Hr Hn. split; try done.
  - apply mem_frame_refl.
  - intros n. destruct (decide (in_range a b n)) as [Hin|]; [|done].
    destruct (us !! n) eqn:E; [|done]. exfalso. apply (Hn n); [by rewrite E|done].
  - intros p. split; [by left|]. intros [|(n & Hp & Hin)]; [done|].
    exfalso. apply (Hn n); [by rewrite Hp|done].
Qed.

(** One page, then the rest. *)
Lemma freed_range_cons k k1 k' l l' D ts us us' n p b :
  us !! n = Some p → uvm_ok k l D ts us → mem_frame k k1 →
  pte_change (mem k) (mem k1) D n 0 →
  (∀ q, page_ok (kernel_end k) q → ¬ owns D ts q → q ≠ p → page_eq (mem k) (mem k1) q) →
  n * PGSIZE < b →
  freed_range k1 k' (p :: l) l' D ts (delete n us) us' ((n + 1) * PGSIZE) b →
  freed_range k k' l l' D ts us us' (n * PGSIZE) b.
Proof.
  intros Hn Hu Hf Hc Hp Hb H. destruct H as [H1 H2 H3 H4 H5 H6 H7].
  destruct (uv_page _ _ _ _ _ Hu n p Hn) as (Hnr & _ & _ & _).
  assert (∀ j, j ≠ n → in_range (n * PGSIZE) b j ↔ in_range ((n + 1) * PGSIZE) b j) as Hrange.
  { intros j Hj. unfold in_range, PGSIZE. lia. }
  assert (in_range (n * PGSIZE) b n) as Hin by (unfold in_range; lia).
  split; try done.
  - by eapply mem_frame_trans.
  - intros j. rewrite H4, lookup_delete. destruct (decide (n = j)) as [<-|Hj].
    + rewrite (decide_True _ _ Hin). by case_decide.
    + by rewrite (decide_ext _ _ _ _ (Hrange j (not_eq_sym Hj))).
  - intros q. rewrite H5. split.
    + intros [Hq|(j & Hj & Hr)].
      * apply elem_of_cons in Hq as [->|Hq]; [right; eauto|by left].
      * apply lookup_delete_Some in Hj as [Hne Hj]. right. exists j. split; [done|]. by apply Hrange.
    + intros [Hq|(j & Hj & Hr)]; [left; by right|]. destruct (decide (j = n)) as [->|Hne].
      * left. simplify_eq. by left.
      * right. exists j. split; [by rewrite lookup_delete_ne|]. by apply Hrange.
  - intros va Hva. rewrite H6, Hc by done. rewrite decide_False; [done|].
    pose proof (upage_range n Hnr). rewrite same_page_range; unfold KERNBASE, PGSIZE in *; [lia|zdiv|lia|lia].
  - intros q Hq Hno Hr. eapply page_eq_trans.
    + apply Hp; [done..|]. intros ->. by apply (Hr n).
    + apply H7; [by rewrite (mem_frame_end _ _ Hf)|done|].
      intros j [Hne Hj]%lookup_delete_Some Hjr. apply (Hr j Hj). by apply Hrange.
Qed.

(** The next directory entry. *)
Lemma next_dir n :
  0 <= n < UPAGES →
  u32 (u32 (PGADDR (PDX (n * PGSIZE) + 1) 0 0 - PGSIZE) + PGSIZE) = (n / 1024 + 1) * 1024 * PGSIZE ∧
  (∀ j, n <= j < (n / 1024 + 1) * 1024 → PDX (j * PGSIZE) = PDX (n * PGSIZE)).
Proof.
  intros Hn. pose proof (upage_range n Hn) as Hr.
  assert (∀ j, 0 <= j < UPAGES → PDX (j * PGSIZE) = j / 1024) as Hpdx.
  { intros j Hj. pose proof (upage_range j Hj). unfold KERNBASE in *.
    rewrite PDX_arith, u32_small by lia. change (2 ^ 22) with (PGSIZE * 1024).
    rewrite <- Z.div_div by (unfold PGSIZE; lia). by rewrite Z.div_mul by (unfold PGSIZE; lia). }
  assert (0 <= n / 1024 < 512) as Hd by (unfold UPAGES, KERNBASE, PGSIZE in *; zdiv).
  split.
  - rewrite Hpdx, PGADDR_arith by (done || lia). rewrite u32_add_l, u32_small.
    + unfold PGSIZE. lia.
    + unfold PGSIZE. lia.
  - intros j Hj. rewrite !Hpdx; [zdiv|done|]. unfold UPAGES, KERNBASE, PGSIZE in *. zdiv.
Qed.

Lemma dealloc_loop_ok fuel k l D ts us n b :
  uvm_ok k l D ts us → kmem_ready k → 0 <= n → b <= KERNBASE →
  b - n * PGSIZE <= (Z.of_nat fuel - 1) * PGSIZE → (0 < fuel)%nat →
  ∃ k' l' us', deallocuvm_loop fuel D (n * PGSIZE) b k = Ret tt k' ∧
    freed_range k k' l l' D ts us us' (n * PGSIZE) b.
Proof.
  revert k l us n. induction fuel as [|fuel IH]; intros k l us n Hu Hr Hn Hb Hf H0; [lia|].
  cbn [deallocuvm_loop]. destruct (Z.ltb_spec (n * PGSIZE) b) as [Hlt|Hge]; cbn [negb].
  2: { exists k, l, us. split; [done|]. apply freed_range_nil; [done..|].
       intros j _. unfold in_range. lia. }
  assert (0 <= n < UPAGES) as Hnu by (unfold UPAGES, KERNBASE, PGSIZE in *; zdiv).
  assert (0 < fuel)%nat as Hf0 by (unfold PGSIZE in *; lia).
  pose proof (uv_vm _ _ _ _ _ Hu) as Hv. pose proof Hv as (Hk & Hd & _).
  rewrite (bind_Ret _ _ _ _ _ (walk_lookup k D ts (n * PGSIZE) Hd)).
  pose proof (uv_entry _ _ _ _ _ Hu n Hnu) as He.
  destruct (ts !! PDX (n * PGSIZE)) as [t|] eqn:Ht.
  - rewrite (entry_addr k l D ts (n * PGSIZE) t Hv Ht). rewrite bind_assoc. unfold ld32.
    rewrite bind_gets, <- (pte_at_some _ _ _ _ (n * PGSIZE) t Hd Ht).
    assert (u32 (n * PGSIZE + PGSIZE) = (n + 1) * PGSIZE) as En.
    { rewrite u32_small; [lia|]. pose proof (upage_range n Hnu). unfold KERNBASE, PGSIZE in *. lia. }
    rewrite En. destruct (us !! n) as [p|] eqn:Hp.
    + destruct He as [He Hpa]. rewrite He.
      destruct (uv_page _ _ _ _ _ Hu n p Hp) as (_ & [_ Hpr] & _ & _).
      pose proof (vm_ok_end _ _ _ _ Hv) as Hke.
      destruct (Z.eqb_spec (PTE_ADDR (pte_at (mem k) D (n * PGSIZE))) 0) as [E0|_].
      { exfalso. rewrite E0 in Hpa. unfold P2V in Hpa. rewrite u32_small in Hpa by (unfold KERNBASE; lia).
        unfold KERNLINK, KERNBASE, EXTMEM in *. lia. }
      rewrite Hpa. destruct (unmap_page k l D ts us n p t Hu Hr Hp Ht) as
        (k1 & E1 & Hu1 & Hf1 & Hr1 & Hc1 & Hq1).
      rewrite (bind_Ret _ _ _ _ _ E1).
      destruct (IH k1 (p :: l) (delete n us) (n + 1)) as (k' & l' & us' & E' & H'); try done.
      * lia.
      * unfold PGSIZE in *. lia.
      * exists k', l', us'. split; [done|]. by eapply freed_range_cons.
    + rewrite He, bind_ret_l.
      destruct (IH k l us (n + 1)) as (k' & l' & us' & E' & H'); try done.
      * lia.
      * unfold PGSIZE in *. lia.
      * exists k', l', us'. split; [done|]. eapply freed_range_skip; [done| |unfold PGSIZE; lia].
        intros j Hj1 Hj2. assert (j = n) as -> by (unfold in_range, PGSIZE in *; lia). done.
  - cbn [Z.eqb]. destruct (next_dir n Hnu) as [-> Hsame].
    destruct (IH k l us ((n / 1024 + 1) * 1024)) as (k' & l' & us' & E' & H'); try done.
    + zdiv.
    + unfold PGSIZE in *. zdiv.
    + exists k', l', us'. split; [done|]. eapply freed_range_skip; [done| |unfold PGSIZE; zdiv].
      intros j Hj1 Hj2. destruct (us !! j) as [p|] eqn:Hp; [|done]. exfalso.
      destruct (uv_page _ _ _ _ _ Hu j p Hp) as (Hju & _).
      pose proof (uv_entry _ _ _ _ _ Hu j Hju) as Hj. rewrite Hp in Hj. destruct Hj as [Hj _].
      rewrite (pte_at_none _ _ _ _ (j * PGSIZE) Hd) in Hj; [done|].
      rewrite Hsame; [done|]. unfold in_range, PGSIZE in *. lia.
Qed.

Lemma PGROUNDUP_user a : 0 <= a <= KERNBASE → PGROUNDUP a = (a + PGSIZE - 1) / PGSIZE * PGSIZE.
Proof.
  intros Ha. rewrite PGROUNDUP_arith, u32_small; [done|]. unfold KERNBASE, PGSIZE in *. lia.
Qed.

Lemma deallocuvm_ok k l D ts us old new :
  uvm_ok k l D ts us → kmem_ready k → 0 <= new < old → old <= KERNBASE →
  ∃ k' l' us', deallocuvm D old new k = Ret new k' ∧
    freed_range k k' l l' D ts us us' ((new + PGSIZE - 1) / PGSIZE * PGSIZE) old.
Proof.
  intros Hu Hr Hn Ho. unfold deallocuvm. destruct (Z.leb_spec old new); [lia|].
  rewrite PGROUNDUP_user by lia.
  destruct (dealloc_loop_ok (S (Z.to_nat (old / PGSIZE + 1))) k l D ts us
    ((new + PGSIZE - 1) / PGSIZE) old) as (k' & l' & us' & E & H'); try done.
  - unfold PGSIZE. zdiv.
  - unfold PGSIZE. zdiv.
  - lia.
  - exists k', l', us'. by rewrite (bind_Ret _ _ _ _ _ E).
Qed.

(** *** [freevm] *)

(** The pages outside [l'] have their contents. *)
Definition pages_kept (k k' : kernel) (l' : list Z) : Prop :=
  ∀ q, page_ok (kernel_end k) q → q ∉ l' → page_eq (mem k) (mem k') q.

Lemma pages_kept_free k k' p l' :
  page_ok (kernel_end k) p → same_outside (mem k) (mem k') p PGSIZE → p ∈ l' → pages_kept k k' l'.
Proof.
  intros Hp Hs Hin q Hq Hl b Hb. apply Hs. assert (q ≠ p) as Hne by (by intros ->).
  pose proof (pages_apart _ q p Hq Hp Hne). unfold PGSIZE in *. lia.
Qed.

Lemma pages_kept_trans k k1 k2 l1 l2 :
  kernel_end k1 = kernel_end k → pages_kept k k1 l1 → pages_kept k1 k2 l2 → l1 ⊆ l2 → pages_kept k k2 l2.
Proof.
  intros E H1 H2 Hl q Hq Hn. eapply page_eq_trans; [apply H1; [done|]|apply H2; [by rewrite E|done]].
  intros ?. by apply Hn, Hl.
Qed.

Lemma free_tables_ok n k l D ts i e0 m0 :
  kernel_end k = e0 → pgdir_ok e0 m0 D ts → page_eq m0 (mem k) D → kmem_ok k l → kmem_ready k →
  0 <= i → i + Z.of_nat n = NPDENTRIES → D ∉ l → (∀ j t, ts !! j = Some t → i <= j → t ∉ l) →
  ∃ k' l', free_tables n D i k = Ret tt k' ∧ kmem_ok k' l' ∧ kmem_ready k' ∧ mem_frame k k' ∧
    pages_kept k k' l' ∧ ∀ p, p ∈ l' ↔ p ∈ l ∨ ∃ j, ts !! j = Some p ∧ i <= j.
Proof.
  revert k l i. induction n as [|n IH]; intros k l i He Hd Heq Hk Hr Hi Hn HD Ht; cbn [free_tables].
  { exists k, l. split_and!; try done; [apply mem_frame_refl|]. intros p. split; [by left|].
    intros [|(j & Hj & Hij)]; [done|]. destruct (dir_table _ _ _ _ Hd j p Hj). lia. }
  unfold ld32. rewrite bind_assoc, bind_gets.
  rewrite (rd32_page m0 (mem k) D i Heq) by (unfold NPDENTRIES in *; lia).
  pose proof (dir_entry _ _ _ _ Hd i ltac:(unfold NPDENTRIES in *; lia)) as Hent.
  destruct (ts !! i) as [t|] eqn:Hti.
  - destruct Hent as [-> ->]. destruct (dir_table _ _ _ _ Hd i t Hti) as (_ & Hto & HtD).
    destruct (kfree_ok k l t Hk Hr) as (k1 & E1 & Hk1 & Hr1 & Hf1 & Hs1); [by rewrite He|by eauto with lia|].
    rewrite (bind_Ret _ _ _ _ _ E1).
    destruct (IH k1 (t :: l) (i + 1)) as (k' & l' & E' & Hk' & Hr' & Hf' & Hkp & Hl'); try done.
    + by rewrite (mem_frame_end _ _ Hf1).
    + eapply page_eq_trans; [exact Heq|]. intros b Hb. apply Hs1.
      pose proof (pages_apart _ D t (dir_page _ _ _ _ Hd) Hto (not_eq_sym HtD)). unfold PGSIZE in *. lia.
    + lia.
    + lia.
    + apply not_elem_of_cons. done.
    + intros j q Hj Hij. apply not_elem_of_cons. split; [|by eauto with lia].
      intros ->. pose proof (dir_inj _ _ _ _ Hd _ _ _ Hj Hti). lia.
    + exists k', l'. split_and!; try done; [by eapply mem_frame_trans| |].
      { eapply pages_kept_trans; [exact (mem_frame_end _ _ Hf1)| |exact Hkp|reflexivity].
        apply (pages_kept_free _ _ t); [by rewrite He|done|]. apply Hl'. left. by left. }
      intros p. rewrite Hl', elem_of_cons. split.
      * intros [[->|]|(j & Hj & ?)]; [right; exists i; split; [done|lia]|by left|right; exists j; split; [done|lia]].
      * intros [|(j & Hj & ?)]; [left; by right|]. destruct (decide (j = i)) as [->|].
        -- left. left. congruence.
        -- right. exists j. split; [done|lia].
  - rewrite Hent, bind_ret_l.
    destruct (IH k l (i + 1)) as (k' & l' & E' & Hk' & Hr' & Hf' & Hkp & Hl'); try done; [lia..| |].
    + intros j q Hj Hij. by eauto with lia.
    + exists k', l'. split_and!; try done. intros p. rewrite Hl'. split;
        (intros [|(j & Hj & Hij)]; [by left|right; exists j; split; [done|]]).
      * lia.
      * destruct (decide (j = i)) as [->|]; [by rewrite Hti in Hj|lia].
Qed.

Lemma freevm_ok k l D ts us :
  uvm_ok k l D ts us → kmem_ready k →
  ∃ k' l', freevm D k = Ret tt k' ∧ kmem_ok k' l' ∧ kmem_ready k' ∧ mem_frame k k' ∧
    pages_kept k k' l' ∧ ∀ p, p ∈ l' ↔ p ∈ l ∨ owns D ts p ∨ ∃ n, us !! n = Some p.
Proof.
  intros Hu Hr. pose proof (uv_vm _ _ _ _ _ Hu) as Hv. pose proof (vm_ok_end _ _ _ _ Hv) as Hke.
  pose proof Hv as (Hk & Hd & Ho). pose proof (dir_page _ _ _ _ Hd) as HD.
  destruct (page_phys _ _ Hke HD) as (_ & _ & _ & _ & HD0). unfold freevm.
  destruct (Z.eqb_spec D 0); [done|].
  destruct (deallocuvm_ok k l D ts us KERNBASE 0 Hu Hr) as (k1 & l1 & us1 & E1 & H1);
    [by unfold KERNBASE|done|]. rewrite (bind_Ret _ _ _ _ _ E1).
  destruct H1 as [Hu1 Hr1 Hf1 _ Hl1 _ Hp1]. pose proof (uv_vm _ _ _ _ _ Hu1) as (Hk1 & Hd1 & Ho1).
  destruct (free_tables_ok (Z.to_nat NPDENTRIES) k1 l1 D ts 0 (kernel_end k1) (mem k1)) as
    (k2 & l2 & E2 & Hk2 & Hr2 & Hf2 & Hkp2 & Hl2); try done.
  { apply Ho1. by left. } { intros j t Hj _. apply Ho1. right. eauto. }
  rewrite (bind_Ret _ _ _ _ _ E2).
  assert (page_ok (kernel_end k2) D) as HD2 by (by rewrite (mem_frame_end _ _ Hf2), (mem_frame_end _ _ Hf1)).
  destruct (kfree_ok k2 l2 D Hk2 Hr2 HD2) as (k3 & E3 & Hk3 & Hr3 & Hf3 & Hs3).
  { rewrite Hl2. intros [Hin|(j & Hj & _)]; [by apply (Ho1 D); [left|]|].
    by destruct (dir_table _ _ _ _ Hd j D Hj) as (_ & _ & []). }
  assert (∀ p, p ∈ D :: l2 ↔ p ∈ l ∨ owns D ts p ∨ ∃ n, us !! n = Some p) as Hl3.
  2: { exists k3, (D :: l2). split_and!; try done.
       { eapply mem_frame_trans; [exact Hf1|]. by eapply mem_frame_trans. }
       eapply pages_kept_trans; [exact (mem_frame_end _ _ Hf1)| | |reflexivity].
       - intros q Hq Hn. rewrite Hl3 in Hn. apply Hp1; [done|tauto|]. intros n' Hn' _. apply Hn. eauto.
       - eapply pages_kept_trans; [exact (mem_frame_end _ _ Hf2)|exact Hkp2| |intros q Hq; by right].
         apply (pages_kept_free _ _ D); [done|done|by left]. }
  intros p. rewrite elem_of_cons, Hl2, Hl1. unfold owns. split.
  - intros [->|[[?|(n' & ? & _)]|(j & ? & _)]]; eauto 6.
  - intros [?|[[->|[i Hi]]|[n' Hn']]]; eauto.
    + right. right. exists i. split; [done|]. by apply (dir_table _ _ _ _ Hd i p).
    + right. left. right. exists n'. split; [done|].
      destruct (uv_page _ _ _ _ _ Hu n' p Hn') as (Hn & _). apply upage_range in Hn.
      unfold in_range. change ((0 + PGSIZE - 1) / PGSIZE * PGSIZE) with 0. lia.
Qed.

(** *** [allocuvm] *)

Definition zero_page (m : gmap Z Z) (p : Z) : Prop := ∀ b, p <= b < p + PGSIZE → rd m b = 0.

(** The user pages are those below [sz]. *)
Definition sized (us : gmap Z Z) (sz : Z) : Prop := ∀ n, is_Some (us !! n) ↔ in_range 0 sz n.

Lemma lor_flags f g : 0 <= f < PGSIZE → 0 <= g < PGSIZE → 0 <= Z.lor f g < PGSIZE.
Proof.
  intros Hf Hg. unfold PGSIZE in *. change 4096 with (2 ^ 12) in *.
  assert (Z.land (Z.lor f g) (Z.ones 12) = Z.lor f g) as <-.
  { rewrite Z.land_lor_distr_l, !Z.land_ones, !Z.mod_small by lia. done. }
  rewrite Z.land_ones by lia. by apply Z.mod_pos_bound.
Qed.

(** The entry that maps page [p] with permissions [perm]. *)
Lemma user_pte e p perm :
  KERNLINK <= e → page_ok e p → 0 <= perm < PGSIZE →
  has (new_pte (V2P p) perm 0) PTE_P = true ∧ P2V (PTE_ADDR (new_pte (V2P p) perm 0)) = p ∧
  PTE_FLAGS (new_pte (V2P p) perm 0) = Z.lor perm PTE_P.
Proof.
  intros He Hp Hf. destruct (page_phys e p He Hp) as (H1 & H2 & H3 & _). unfold new_pte.
  rewrite Z.mul_0_l, Z.add_0_r, (u32_small (V2P p)) by (unfold PHYSTOP in *; lia).
  rewrite <- Z.lor_assoc. pose proof (lor_flags perm PTE_P Hf ltac:(done)) as Hp'.
  destruct (lor_page (V2P p) (Z.lor perm PTE_P)) as (_ & E2 & E3 & E4); [done..|unfold PHYSTOP in *; lia|].
  rewrite u32_small, E2, E3 by done. split; [|done].
  rewrite Z.lor_assoc. apply has_lor; [done|]. by apply land_flag_nonneg.
Qed.

(** Taking a page off the free list and writing to it. *)
Lemma take_page_with k p l D ts us :
  uvm_ok k (p :: l) D ts us → kmem_ready k →
  ∃ k1, kalloc k = Ret p k1 ∧ p ≠ 0 ∧ mem k1 = mem k ∧
    page_ok (kernel_end k) p ∧ ¬ owns D ts p ∧ p ∉ l ∧ (∀ n, us !! n ≠ Some p) ∧
    ∀ m, (∀ q, page_ok (kernel_end k) q → q ≠ p → page_eq (mem k) m q) →
    let k2 := k1 <|mem := m|> in
    uvm_ok k2 l D ts us ∧ kmem_ready k2 ∧ mem_frame k k2 ∧
    (∀ va, pte_at (mem k2) D va = pte_at (mem k) D va).
Proof.
  intros Hu Hr. pose proof (uv_vm _ _ _ _ _ Hu) as Hv. pose proof (vm_ok_end _ _ _ _ Hv) as Hke.
  pose proof Hv as (Hk & Hd & Ho). pose proof Hk as (_ & Hnd & Hf & _).
  apply Forall_cons in Hf as [Hp Hf]. apply NoDup_cons in Hnd as [Hpl Hnd].
  destruct (page_phys _ _ Hke Hp) as (_ & _ & _ & _ & Hp0).
  destruct (kalloc_ok k (p :: l) Hk Hr) as (k1 & E1 & Hk1 & Hr1 & Ee & Em & Hf1).
  cbn [head tail from_option] in E1, Hk1. unfold id in E1.
  assert (¬ owns D ts p) as Hno by (intros Hx; apply (Ho p Hx); by left).
  assert (∀ n, us !! n ≠ Some p) as Hnu.
  { intros n Hn. destruct (uv_page _ _ _ _ _ Hu n p Hn) as (_ & _ & _ & Hx). apply Hx. by left. }
  exists k1. do 7 (split; [done|]). intros m Hpe k2.
  destruct (pgdir_frame _ (mem k) (mem k2) D ts Hd) as [Hd2 Hp2].
  { intros q Hq. apply Hpe; [by eapply owns_page|]. by intros ->. }
  split; [|split; [by apply kmem_ready_mem|split; [by apply mem_frame_set|exact Hp2]]]. split.
  - split; [|split].
    + eapply kmem_ok_frame; [exact Hk1|done|done|]. intros q Hq. rewrite Em. apply Hpe.
      * rewrite Forall_forall in Hf. by apply Hf.
      * by intros ->.
    + change (kernel_end k2) with (kernel_end k1). by rewrite Ee.
    + intros q Hq Hin. apply (Ho q Hq). by right.
  - intros n Hn. rewrite Hp2. by apply (uv_entry _ _ _ _ _ Hu).
  - intros n q Hq. destruct (uv_page _ _ _ _ _ Hu n q Hq) as (? & ? & ? & Hx). split; [done|].
    split_and!; [change (kernel_end k2) with (kernel_end k1); by rewrite Ee|done|].
    intros Hin. apply Hx. by right.
  - apply (uv_inj _ _ _ _ _ Hu).
Qed.

(** Taking a page off the free list and clearing it. *)
Lemma take_page k p l D ts us :
  uvm_ok k (p :: l) D ts us → kmem_ready k →
  ∃ k1, kalloc k = Ret p k1 ∧ (p ≠ 0) ∧
    let k2 := k1 <|mem ::= λ m, memset m p 0 PGSIZE|> in
    uvm_ok k2 l D ts us ∧ kmem_ready k2 ∧ mem_frame k k2 ∧ zero_page (mem k2) p ∧
    (∀ q, page_ok (kernel_end k) q → q ≠ p → page_eq (mem k) (mem k2) q) ∧
    (∀ va, pte_at (mem k2) D va = pte_at (mem k) D va) ∧
    page_ok (kernel_end k) p ∧ ¬ owns D ts p ∧ p ∉ l ∧ (∀ n, us !! n ≠ Some p).
Proof.
  intros Hu Hr. destruct (take_page_with k p l D ts us Hu Hr) as (k1 & E1 & Hp0 & Em & Hp & Hno & Hpl & Hnu & H).
  exists k1. split; [done|]. split; [done|].
  assert (∀ q, page_ok (kernel_end k) q → q ≠ p → page_eq (mem k) (memset (mem k1) p 0 PGSIZE) q) as Hpe.
  { intros q Hq Hne. rewrite Em. by eapply page_eq_memset. }
  destruct (H _ Hpe) as (H1 & H2 & H3 & H4). intros k2. change (mem k2) with (memset (mem k1) p 0 PGSIZE).
  split_and!; [exact H1|exact H2|exact H3| |exact Hpe|exact H4|exact Hp|exact Hno|exact Hpl|exact Hnu].
  intros b Hb. rewrite memset_spec, decide_True by (unfold PGSIZE in *; lia). done.
Qed.

Lemma pte_at_same m D va va' : same_page va va' → pte_at m D va = pte_at m D va'.
Proof. intros [E1 E2]. unfold pte_at. by rewrite E1, E2. Qed.

(** Adding a user page that is not mapped yet. *)
Lemma map_page k l D ts us n p perm :
  uvm_ok k l D ts us → kmem_ready k → 0 <= n < UPAGES → us !! n = None → 0 <= perm < PGSIZE →
  page_ok (kernel_end k) p → ¬ owns D ts p → p ∉ l → (∀ j, us !! j ≠ Some p) →
  ∃ r k' l' ts', mappages D (n * PGSIZE) PGSIZE (V2P p) perm k = Ret r k' ∧
    grown l l' D ts ts' ∧ vm_frame k k' l D ts ∧
    (∀ va, 0 <= va < 2 ^ 32 → pte_at (mem k') D va =
       if decide (r = 0 ∧ n * PGSIZE <= va < (n + 1) * PGSIZE) then new_pte (V2P p) perm 0
       else pte_at (mem k) D va) ∧
    (tables l l' ts ts' (PDX (n * PGSIZE)) (PDX (n * PGSIZE)) ∧ (r = -1 → ts' !! PDX (n * PGSIZE) = None)) ∧
    (r = 0 ∧ uvm_ok k' l' D ts' (<[n:=p]> us) ∨
     r = -1 ∧ l' = [] ∧ uvm_ok k' l' D ts' us).
Proof.
  intros Hu Hr Hn Hnone Hperm Hp Hno Hpl Hnu. pose proof (upage_range n Hn) as Hnr.
  pose proof (uv_vm _ _ _ _ _ Hu) as Hv. pose proof (vm_ok_end _ _ _ _ Hv) as Hke.
  destruct (page_phys _ _ Hke Hp) as (_ & Hpr & _). pose proof (user_pte _ _ perm Hke Hp Hperm) as (Hpte1 & Hpte2 & _).
  pose proof (uv_entry _ _ _ _ _ Hu n Hn) as Hent. rewrite Hnone in Hent.
  assert ((n * PGSIZE + PGSIZE - 1) / PGSIZE = n) as En1 by (unfold PGSIZE; zdiv).
  assert (n * PGSIZE / PGSIZE = n) as En2 by (unfold PGSIZE; zdiv).
  destruct (mappages_ok k l D ts (n * PGSIZE) PGSIZE (V2P p) perm) as
    (r & k' & l' & ts' & j & E & Hv' & Hg & Hf & Hm & Hres & Htb & Hfail); try done.
  - lia.
  - unfold KERNBASE, PGSIZE in *. lia.
  - unfold PHYSTOP in *. lia.
  - rewrite En1, En2. intros a Ha. assert (a / PGSIZE = n) as Han by lia.
    rewrite <- Hent. f_equal. apply pte_at_same.
    rewrite same_page_div, !u32_small by (unfold KERNBASE, PGSIZE in *; zdiv). lia.
  - rewrite En1, En2 in Hres. rewrite En2 in Hm. exists r, k', l', ts'. split; [done|].
    split; [done|]. split; [done|]. pose proof Hg as (Hg1 & Hg2 & _).
    pose proof (mem_frame_end _ _ (proj1 Hf)) as Ee.
    assert (∀ va, 0 <= va < 2 ^ 32 → pte_at (mem k') D va =
      if decide (r = 0 ∧ n * PGSIZE <= va < (n + 1) * PGSIZE) then new_pte (V2P p) perm 0
      else pte_at (mem k) D va) as Hpv.
    { intros va Hva. rewrite (Hm va Hva). destruct Hres as [[-> ->]|(-> & ? & _)].
      - destruct (decide (n * PGSIZE <= va < (n + 1) * PGSIZE)).
        + rewrite !decide_True by (split_and!; unfold PGSIZE in *; lia).
          by replace ((va - n * PGSIZE) / PGSIZE) with 0 by (unfold PGSIZE in *; zdiv).
        + by rewrite !decide_False by (unfold PGSIZE in *; lia).
      - assert (j = 0) as -> by lia. by rewrite !decide_False by (unfold PGSIZE; lia). }
    split; [exact Hpv|].
    assert (PDX (n * PGSIZE + PGSIZE - 1) = PDX (n * PGSIZE)) as Epd.
    { rewrite <- (PDX_page (n * PGSIZE + PGSIZE - 1)), En1; [done|]. unfold KERNBASE, PGSIZE in *. lia. }
    rewrite Epd in Htb, Hfail.
    split; [split; [done|]; intros Hx; destruct (Hfail Hx) as (i & Hi & ?); by replace (PDX (n * PGSIZE)) with i by lia|].
    assert (∀ i, 0 <= i < UPAGES → pte_at (mem k') D (i * PGSIZE) =
      if decide (r = 0 ∧ i = n) then new_pte (V2P p) perm 0
      else pte_at (mem k) D (i * PGSIZE)) as Hpi.
    { intros i Hi. pose proof (upage_range i Hi). rewrite Hpv by (unfold KERNBASE in *; lia).
      destruct (decide (r = 0 ∧ i = n)) as [[-> ->]|]; [by rewrite decide_True by (unfold PGSIZE; lia)|].
      by rewrite decide_False by (unfold PGSIZE; lia). }
    destruct Hres as [[-> ->]|(-> & ? & ->)]; [left|right]; split_and!; try done; split; try done.
    + intros i Hi. rewrite (Hpi i Hi), lookup_insert.
      destruct (decide (n = i)) as [<-|]; [by rewrite decide_True|].
      rewrite decide_False by (intros [_ ?]; done). by apply (uv_entry _ _ _ _ _ Hu).
    + intros i q. rewrite lookup_insert_Some, Ee. intros [[<- <-]|[_ Hq]].
      * split; [done|]. split_and!; [done| |by intros ?%Hg1]. intros [|]%Hg2; done.
      * destruct (uv_page _ _ _ _ _ Hu i q Hq) as (? & ? & ? & ?). split; [done|].
        split_and!; [done| |by intros ?%Hg1]. intros [|]%Hg2; done.
    + intros i i' q. rewrite !lookup_insert_Some.
      intros [[<- <-]|[_ Hi]] [[<- Hq]|[_ Hi']]; try done.
      * by destruct (Hnu i').
      * subst q. by destruct (Hnu i).
      * by eapply (uv_inj _ _ _ _ _ Hu).
    + intros i Hi. rewrite (Hpi i Hi), decide_False by (intros [? _]; done).
      by apply (uv_entry _ _ _ _ _ Hu).
    + intros i q Hq. rewrite Ee. destruct (uv_page _ _ _ _ _ Hu i q Hq) as (? & ? & ? & ?).
      split; [done|]. split_and!; [done| |apply not_elem_of_nil]. intros [|]%Hg2; done.
    + apply (uv_inj _ _ _ _ _ Hu).
Qed.

Section allocuvm.
Context (k0 : kernel) (l0 : list Z) (D : Z) (ts0 us0 : gmap Z Z) (old : Z).

(** The growth from [us0] to [us], with [n] pages now: the old pages are
    kept, the new ones were free and are clear, no page is lost, and memory
    that belongs to neither is untouched. *)
Record growth (k : kernel) (l : list Z) (ts us : gmap Z Z) : Prop := {
  gr_ok : uvm_ok k l D ts us;
  gr_ready : kmem_ready k;
  gr_frame : mem_frame k0 k;
  gr_free : l ⊆ l0;
  gr_own : ∀ p, owns D ts p → owns D ts0 p ∨ p ∈ l0;
  gr_mono : ∀ p, owns D ts0 p → owns D ts p;
  gr_old : ∀ n, in_range 0 old n → us !! n = us0 !! n;
  gr_new : ∀ n p, us !! n = Some p → ¬ in_range 0 old n → p ∈ l0 ∧ zero_page (mem k) p;
  gr_keep : ∀ p, p ∈ l0 → p ∈ l ∨ owns D ts p ∨ ∃ n, us !! n = Some p;
  gr_pages : ∀ q, page_ok (kernel_end k0) q → ¬ owns D ts0 q → q ∉ l0 → page_eq (mem k0) (mem k) q
}.

Lemma zero_page_eq m m' p : page_eq m m' p → zero_page m p → zero_page m' p.
Proof. intros H Hz b Hb. rewrite H; auto. Qed.

(** The first page number at or above [old]. *)
Definition first_new : Z := (old + PGSIZE - 1) / PGSIZE.

Lemma first_new_range n : 0 <= old → 0 <= n → n < first_new ↔ in_range 0 old n.
Proof. unfold first_new, in_range, PGSIZE. intros. zdiv. Qed.

(** Adding one page keeps the growth. *)
Lemma growth_step k l ts us n p k2 k' l' ts' :
  growth k (p :: l) ts us → sized us (n * PGSIZE) → 0 <= old → first_new <= n →
  (∀ q, page_ok (kernel_end k) q → q ≠ p → page_eq (mem k) (mem k2) q) → mem_frame k k2 →
  zero_page (mem k2) p → kernel_end k2 = kernel_end k →
  grown l l' D ts ts' → vm_frame k2 k' l D ts → uvm_ok k' l' D ts' (<[n:=p]> us) →
  growth k' l' ts' (<[n:=p]> us) ∧ sized (<[n:=p]> us) ((n + 1) * PGSIZE).
Proof.
  intros [G1 G2 G3 G4 G4b G4c G5 G6 G7 G8] Hs Ho Hn Hpe Hf2 Hz Ee Hg (Hf & Hr & Hq) Hu.
  pose proof Hg as (Hg1 & Hg2 & Hg3 & Hg4).
  destruct (uv_vm _ _ _ _ _ G1) as (Hk & Hd & Hown).
  pose proof Hk as (_ & Hnd & Hfo & _). apply NoDup_cons in Hnd as [Hpl _].
  apply Forall_cons in Hfo as [Hpo _].
  assert (¬ owns D ts p) as Hno by (intros Hx; apply (Hown p Hx); by left).
  assert (0 <= first_new) as H0 by (unfold first_new, PGSIZE; zdiv).
  assert (¬ in_range 0 old n) as Hnr by (rewrite <- first_new_range; lia).
  assert (p ∈ l0) as Hp0 by (apply G4; by left).
  assert (us !! n = None) as Hnone.
  { destruct (us !! n) eqn:E; [|done]. exfalso. destruct (Hs n) as [Hs' _].
    specialize (Hs' ltac:(by rewrite E)). unfold in_range in Hs'. lia. }
  split; [split|]; try done.
  - eapply mem_frame_trans; [exact G3|]. by eapply mem_frame_trans.
  - intros q Hq'. apply G4. right. by apply Hg1.
  - intros q [Hq'|Hq']%Hg2; [by apply G4b|]. right. apply G4. by right.
  - intros q Hq'. by apply Hg3, G4c.
  - intros i Hi. rewrite lookup_insert_ne; [by apply G5|]. by intros ->.
  - intros i q Hi Hir. apply lookup_insert_Some in Hi as [[<- <-]|[Hne Hi]].
    + split; [done|]. eapply zero_page_eq; [|exact Hz]. apply Hq; [by rewrite Ee|done|done].
    + destruct (G6 i q Hi Hir) as [Hq0 Hqz]. split; [done|].
      destruct (uv_page _ _ _ _ _ G1 i q Hi) as (_ & Hqo & Hqn & Hql).
      apply not_elem_of_cons in Hql as [Hqp Hql].
      eapply zero_page_eq; [|exact Hqz]. eapply page_eq_trans; [by apply Hpe|].
      apply Hq; [by rewrite Ee|done|done].
  - intros q Hq0. destruct (G7 q Hq0) as [Hin|[Hown'|[i Hi]]].
    + apply elem_of_cons in Hin as [->|Hin].
      * right. right. exists n. apply lookup_insert_eq.
      * destruct (Hg4 q Hin); auto.
    + right. left. by apply Hg3.
    + right. right. exists i. rewrite lookup_insert_ne; [done|]. intros <-. congruence.
  - intros q Hqo Hqn Hql. eapply page_eq_trans; [by apply G8|].
    assert (¬ owns D ts q) as Hqn' by (intros [|]%G4b; done).
    assert (q ∉ p :: l) as Hql' by (intros ?; by apply Hql, G4).
    apply not_elem_of_cons in Hql' as [Hqp Hql'].
    rewrite <- (mem_frame_end _ _ G3) in Hqo.
    eapply page_eq_trans; [by apply Hpe|]. apply Hq; [by rewrite Ee|done|done].
  - intros i. rewrite lookup_insert_is_Some. rewrite (Hs i). unfold in_range, PGSIZE.
    destruct (decide (n = i)); lia.
Qed.
(** Undoing a growth that could not go on. *)
Lemma alloc_undo k l ts us n new :
  uvm_ok k l D ts us → kmem_ready k → sized us (n * PGSIZE) → sized us0 old → 0 <= old →
  first_new <= n → n * PGSIZE < new → new <= KERNBASE →
  (∀ i, in_range 0 old i → us !! i = us0 !! i) →
  ∃ k' l', deallocuvm D new old k = Ret old k' ∧ uvm_ok k' l' D ts us0 ∧ kmem_ready k' ∧
    mem_frame k k' ∧
    (∀ p, p ∈ l' ↔ p ∈ l ∨ ∃ i, us !! i = Some p ∧ ¬ in_range 0 old i) ∧
    (∀ q, page_ok (kernel_end k) q → ¬ owns D ts q →
       (∀ i, us !! i = Some q → in_range 0 old i) → page_eq (mem k) (mem k') q).
Proof.
  intros Hu Hr Hs Hs0 Ho Hn Hlt Hb Hold.
  assert (old <= n * PGSIZE) as Hon by (unfold first_new, PGSIZE in *; zdiv).
  destruct (deallocuvm_ok k l D ts us new old Hu Hr) as (k' & l' & us' & E & F); [lia|done|].
  fold first_new in F. assert (∀ i, is_Some (us !! i) →
    in_range (first_new * PGSIZE) new i ↔ ¬ in_range 0 old i) as Hr'.
  { intros i Hi%Hs. unfold in_range, first_new, PGSIZE in *. zdiv. }
  assert (us' = us0) as ->.
  { apply map_eq. intros i. rewrite (fr_us _ _ _ _ _ _ _ _ _ _ F).
    destruct (us !! i) as [p|] eqn:Ei.
    - destruct (decide (in_range 0 old i)) as [Hi|Hi].
      + rewrite decide_False, <- Hold, Ei; [done|done|]. rewrite Hr' by by rewrite Ei. tauto.
      + rewrite decide_True by (rewrite Hr' by (by rewrite Ei); done).
        destruct (us0 !! i) eqn:E0; [|done]. exfalso. apply Hi, Hs0. by rewrite E0.
    - assert (us0 !! i = None) as ->; [|by case_decide].
      destruct (us0 !! i) eqn:E0; [|done]. exfalso.
      assert (in_range 0 old i) as Hi by (apply Hs0; by rewrite E0). rewrite (Hold i Hi) in Ei. congruence. }
  destruct F as [F1 F2 F3 _ F5 _ F7]. exists k', l'. split_and!; try done.
  - intros p. rewrite F5. split; (intros [|(i & Hi & Hx)]; [by left|right; exists i; split; [done|]]);
      apply Hr' in Hx || apply Hr'; done || by rewrite Hi.
  - intros q Hq Hno Hi. apply F7; [done..|]. intros i Hqi Hx. apply Hr' in Hx; [|by rewrite Hqi].
    by apply Hx, Hi.
Qed.

(** The growth failed: the user pages are as before, and no page is lost. *)
Record undone (k : kernel) (l : list Z) (ts : gmap Z Z) : Prop := {
  un_ok : uvm_ok k l D ts us0;
  un_ready : kmem_ready k;
  un_frame : mem_frame k0 k;
  un_free : l ⊆ l0;
  un_keep : ∀ p, p ∈ l0 → p ∈ l ∨ owns D ts p;
  un_pages : ∀ q, page_ok (kernel_end k0) q → ¬ owns D ts0 q → q ∉ l0 → page_eq (mem k0) (mem k) q
}.

(** [kalloc] when there is no free page. *)
Lemma no_page k ts us :
  uvm_ok k [] D ts us → kmem_ready k →
  ∃ k1, kalloc k = Ret 0 k1 ∧ uvm_ok k1 [] D ts us ∧ kmem_ready k1 ∧ mem_frame k k1 ∧ mem k1 = mem k.
Proof.
  intros [(Hk & Hd & Ho) He Hp Hi] Hr.
  destruct (kalloc_ok k [] Hk Hr) as (k1 & E1 & Hk1 & Hr1 & Ee & Em & Hf1).
  exists k1. split_and!; try done. split; [|by rewrite Em|by rewrite Ee|done].
  split_and!; [done|by rewrite Ee, Em|done].
Qed.

(** An old page is not one of the pages that were free. *)
Lemma growth_old_page (us : gmap Z Z) i p :
  uvm_ok k0 l0 D ts0 us0 → (∀ i, in_range 0 old i → us !! i = us0 !! i) →
  us !! i = Some p → in_range 0 old i → p ∈ l0 → False.
Proof.
  intros Hu G5 Hi Hx Hp. rewrite (G5 i Hx) in Hi.
  by destruct (uv_page _ _ _ _ _ Hu i p Hi) as (_ & _ & _ & []).
Qed.

(** Ending a growth without memory for the next page. *)
Lemma growth_no_page k ts us n new :
  growth k [] ts us → sized us (n * PGSIZE) → sized us0 old → 0 <= old → first_new <= n →
  n * PGSIZE < new → new <= KERNBASE → uvm_ok k0 l0 D ts0 us0 →
  ∃ k1 k' l', kalloc k = Ret 0 k1 ∧ deallocuvm D new old k1 = Ret old k' ∧ undone k' l' ts.
Proof.
  intros [G1 G2 G3 G4 G4b G4c G5 G6 G7 G8] Hs Hs0 Ho Hn Hlt Hb Hu0.
  destruct (no_page k ts us G1 G2) as (k1 & E1 & Hu1 & Hr1 & Hf1 & Em).
  destruct (alloc_undo k1 [] ts us n new) as (k' & l' & E' & Hu' & Hr' & Hf' & Hl' & Hq'); try done.
  exists k1, k', l'. split_and!; try done. split; try done.
  - eapply mem_frame_trans; [exact G3|]. by eapply mem_frame_trans.
  - intros p [Hx|(i & Hi & Hx)]%Hl'; [by apply elem_of_nil in Hx|]. by apply (G6 i p).
  - intros p Hp. destruct (G7 p Hp) as [Hx|[|[i Hi]]]; [by apply elem_of_nil in Hx|by right|].
    left. rewrite Hl'. right.
    exists i. split; [done|]. intros Hx. by eapply growth_old_page.
  - intros q Hqo Hqn Hql. eapply page_eq_trans; [by apply G8|]. rewrite <- Em. apply Hq'.
    + by rewrite (mem_frame_end _ _ Hf1), (mem_frame_end _ _ G3).
    + by intros [|]%G4b.
    + intros i Hi. destruct (decide (in_range 0 old i)) as [|Hx]; [done|].
      by destruct (G6 i q Hi Hx).
Qed.

(** Ending a growth without memory for the page table of page [p]. *)
Lemma growth_no_table k k2 k' p l ts ts' us n new :
  growth k (p :: l) ts us → sized us (n * PGSIZE) → sized us0 old → 0 <= old → first_new <= n →
  n * PGSIZE < new → new <= KERNBASE → uvm_ok k0 l0 D ts0 us0 →
  (∀ q, page_ok (kernel_end k) q → q ≠ p → page_eq (mem k) (mem k2) q) → mem_frame k k2 →
  grown l [] D ts ts' → vm_frame k2 k' l D ts → uvm_ok k' [] D ts' us →
  ∃ k3 k4 l', deallocuvm D new old k' = Ret old k3 ∧ kfree p k3 = Ret tt k4 ∧
    undone k4 l' ts'.
Proof.
  intros [G1 G2 G3 G4 G4b G4c G5 G6 G7 G8] Hs Hs0 Ho Hn Hlt Hb Hu0 Hpe Hf2 Hg (Hf & Hr & Hq) Hu.
  pose proof Hg as (_ & Hg2 & Hg3 & Hg4).
  destruct (uv_vm _ _ _ _ _ G1) as (Hk & _ & Hown).
  pose proof Hk as (_ & Hnd & Hfo & _). apply NoDup_cons in Hnd as [Hpl _].
  apply Forall_cons in Hfo as [Hpo _].
  assert (p ∈ l0) as Hp0 by (apply G4; by left).
  assert (∀ i, us !! i ≠ Some p) as Hpu.
  { intros i Hi. destruct (uv_page _ _ _ _ _ G1 i p Hi) as (_ & _ & _ & Hx). apply Hx. by left. }
  pose proof (mem_frame_end _ _ Hf2) as Ee2. pose proof (mem_frame_end _ _ Hf) as Ee.
  pose proof (mem_frame_end _ _ G3) as Ee0.
  destruct (alloc_undo k' [] ts' us n new) as (k3 & l3 & E3 & Hu3 & Hr3 & Hf3 & Hl3 & Hq3); try done.
  pose proof (mem_frame_end _ _ Hf3) as Ee3.
  assert (¬ owns D ts' p) as Hno.
  { intros [Hx|Hx]%Hg2; [apply (Hown p Hx); by left|done]. }
  assert (p ∉ l3) as Hp3.
  { intros [Hx|(i & Hi & _)]%Hl3; [by apply elem_of_nil in Hx|by apply (Hpu i)]. }
  destruct (free_extra k3 l3 D ts' us0 p Hu3 Hr3) as (k4 & E4 & Hu4 & Hr4 & Hf4 & Hs4);
    [by rewrite Ee3, Ee, Ee2|done|done| |].
  { intros i Hi. by destruct (uv_page _ _ _ _ _ Hu0 i p Hi) as (_ & _ & _ & []). }
  exists k3, k4, (p :: l3). split_and!; try done. split; try done.
  - eapply mem_frame_trans; [exact G3|]. eapply mem_frame_trans; [exact Hf2|].
    eapply mem_frame_trans; [exact Hf|]. by eapply mem_frame_trans.
  - intros q [->|Hx]%elem_of_cons; [done|]. apply Hl3 in Hx as [Hx|(i & Hi & Hx)];
      [by apply elem_of_nil in Hx|]. by apply (G6 i q).
  - intros q Hq0. rewrite elem_of_cons, Hl3. destruct (G7 q Hq0) as [Hin|[Hx|[i Hi]]].
    + apply elem_of_cons in Hin as [->|Hin]; [by left; left|].
      destruct (Hg4 q Hin) as [Hx|]; [by apply elem_of_nil in Hx|by right].
    + right. by apply Hg3.
    + left. right. right. exists i. split; [done|]. intros Hx. by eapply growth_old_page.
  - intros q Hqo Hqn Hql. assert (q ≠ p) as Hqp by (by intros ->).
    assert (q ∉ l) as Hql' by (intros Hx; apply Hql, G4; by right).
    assert (¬ owns D ts q) as Hqn' by (by intros [|]%G4b).
    eapply page_eq_trans; [by apply G8|]. rewrite <- Ee0 in Hqo.
    eapply page_eq_trans; [by apply Hpe|].
    rewrite <- Ee2 in Hqo. eapply page_eq_trans; [by apply Hq|]. rewrite <- Ee in Hqo.
    eapply page_eq_trans; [apply Hq3; [done| |]|apply Hs4; [by rewrite Ee3|done]].
    + by intros [|]%Hg2.
    + intros i Hi. destruct (decide (in_range 0 old i)) as [|Hx]; [done|]. by destruct (G6 i q Hi Hx).
Qed.

(** The pages that growing to [new] takes when it has come to page [n]: those of
    the process, and the page tables that are missing. *)
Definition missing_tables (ts : gmap Z Z) (lo hi : Z) : gset Z :=
  list_to_set (seqZ lo (hi - lo + 1)) ∖ dom ts.
Definition grow_cost (ts : gmap Z Z) (n new : Z) : nat :=
  Z.to_nat ((new + PGSIZE - 1) / PGSIZE - n) + size (missing_tables ts (PDX (n * PGSIZE)) (PDX (new - 1))).

Lemma elem_of_missing ts lo hi i : i ∈ missing_tables ts lo hi ↔ lo <= i <= hi ∧ ts !! i = None.
Proof.
  unfold missing_tables. rewrite elem_of_difference, elem_of_list_to_set, elem_of_seqZ, elem_of_dom, <- eq_None_not_Some.
  split; intros [? ?]; split; done || lia.
Qed.

Lemma grow_cost_step l l' ts ts' n new :
  0 <= n → n * PGSIZE < new → new <= KERNBASE →
  tables l l' ts ts' (PDX (n * PGSIZE)) (PDX (n * PGSIZE)) →
  (length l' < grow_cost ts' (n + 1) new)%nat → (S (length l) < grow_cost ts n new)%nat.
Proof.
  intros Hn Hlt Hb (T1 & T2 & T3) Hc. unfold grow_cost in *. set (d := PDX (n * PGSIZE)) in *.
  assert (d <= PDX ((n + 1) * PGSIZE)) as Hd by (apply PDX_mono; unfold KERNBASE, PGSIZE in *; lia).
  assert (d <= PDX (new - 1)) as Hd' by (apply PDX_mono; unfold KERNBASE, PGSIZE in *; lia).
  assert (Z.to_nat ((new + PGSIZE - 1) / PGSIZE - n) = S (Z.to_nat ((new + PGSIZE - 1) / PGSIZE - (n + 1)))) as ->.
  { unfold PGSIZE in *. zdiv. }
  assert (size ts' + size (missing_tables ts' (PDX ((n + 1) * PGSIZE)) (PDX (new - 1))) <=
    size ts + size (missing_tables ts d (PDX (new - 1))))%nat as Hs; [|lia].
  assert (missing_tables ts' (PDX ((n + 1) * PGSIZE)) (PDX (new - 1)) ⊆ missing_tables ts d (PDX (new - 1)) ∖ (dom ts' ∖ dom ts)) as Hsub.
  { intros i [Hi Hi']%elem_of_missing. apply elem_of_difference. split.
    - apply elem_of_missing. split; [lia|]. by eapply lookup_weaken_None.
    - intros [Hx _]%elem_of_difference. apply elem_of_dom in Hx as [? Hx]. congruence. }
  apply subseteq_size in Hsub.
  assert (dom ts' ∖ dom ts ⊆ missing_tables ts d (PDX (new - 1))) as Hin.
  { intros i [Hx Hy]%elem_of_difference. apply elem_of_dom, T3 in Hx as [Hx|Hx]; [by apply elem_of_dom in Hx|].
    apply elem_of_missing. split; [lia|]. by apply not_elem_of_dom. }
  rewrite size_difference in Hsub by done. apply subseteq_size in Hin as Hin'.
  assert (dom ts ⊆ dom ts') as Hdom by (by apply subseteq_dom).
  rewrite size_difference, !size_dom in Hsub, Hin' by done. apply subseteq_size in Hdom. rewrite !size_dom in Hdom. lia.
Qed.

Lemma grow_cost_fail l ts ts' n new :
  0 <= n → n * PGSIZE < new → new <= KERNBASE →
  tables l [] ts ts' (PDX (n * PGSIZE)) (PDX (n * PGSIZE)) → ts' !! PDX (n * PGSIZE) = None →
  (S (length l) < grow_cost ts n new)%nat.
Proof.
  intros Hn Hlt Hb (T1 & T2 & T3) Hnone. set (d := PDX (n * PGSIZE)) in *.
  assert (dom ts' ⊆ dom ts) as Hd.
  { intros i Hx. apply elem_of_dom. apply elem_of_dom in Hx as Hx'. destruct (T3 i Hx') as [|Hi]; [done|].
    replace i with d in Hx' by lia. rewrite Hnone in Hx'. by destruct Hx'. }
  apply subseteq_size in Hd. rewrite !size_dom in Hd. cbn [length] in T2.
  assert (d ∈ missing_tables ts d (PDX (new - 1))) as Hin.
  { apply elem_of_missing. split; [|by eapply lookup_weaken_None]. split; [lia|].
    apply PDX_mono; unfold KERNBASE, PGSIZE in *; lia. }
  apply singleton_subseteq_l, subseteq_size in Hin. rewrite size_singleton in Hin.
  assert (1 <= Z.to_nat ((new + PGSIZE - 1) / PGSIZE - n))%nat by (unfold PGSIZE in *; zdiv).
  unfold grow_cost. fold d. lia.
Qed.

(** The loop of [allocuvm]. *)
Lemma alloc_loop_ok fuel k l ts us n new :
  growth k l ts us → sized us (n * PGSIZE) → sized us0 old → 0 <= old → first_new <= n →
  (n - 1) * PGSIZE < new → new <= KERNBASE → uvm_ok k0 l0 D ts0 us0 →
  new - n * PGSIZE <= (Z.of_nat fuel - 1) * PGSIZE → (0 < fuel)%nat →
  ∃ k' l' ts',
    (allocuvm_loop fuel D (n * PGSIZE) old new k = Ret 0 k' ∧ undone k' l' ts' ∧ (length l < grow_cost ts n new)%nat) ∨
    ∃ us', allocuvm_loop fuel D (n * PGSIZE) old new k = Ret new k' ∧ growth k' l' ts' us' ∧
      sized us' new.
Proof.
  revert k l ts us n. induction fuel as [|fuel IH]; intros k l ts us n G Hs Hs0 Ho Hn Hnew Hb Hu0 Hf H0; [lia|].
  cbn [allocuvm_loop]. destruct (Z.ltb_spec (n * PGSIZE) new) as [Hlt|Hge]; cbn [negb].
  2: { exists k, l, ts. right. exists us. split_and!; try done. intros i. rewrite (Hs i).
       unfold in_range, PGSIZE in *. lia. }
  assert (0 <= n) as Hn0 by (unfold first_new, PGSIZE in *; zdiv).
  assert (0 <= n < UPAGES) as Hnu by (unfold UPAGES, KERNBASE, PGSIZE in *; zdiv).
  assert (0 < fuel)%nat as Hf0 by (unfold PGSIZE in *; lia).
  destruct l as [|p l].
  { destruct (growth_no_page k ts us n new) as (k1 & k' & l' & E1 & E2 & Hun); try done.
    exists k', l', ts. left. rewrite (bind_Ret _ _ _ _ _ E1). cbn [Z.eqb].
    rewrite (bind_Ret _ _ _ _ _ E2). split; [done|]. split; [done|]. unfold grow_cost. cbn. unfold PGSIZE in *. zdiv. }
  pose proof (gr_ok _ _ _ _ G) as Hu. pose proof (gr_ready _ _ _ _ G) as Hr.
  destruct (take_page k p l D ts us Hu Hr) as
    (k1 & E1 & Hp0 & Hu2 & Hr2 & Hf2 & Hz & Hpe & Hpte & Hpo & Hno & Hpl & Hpu).
  rewrite (bind_Ret _ _ _ _ _ E1). destruct (Z.eqb_spec p 0); [done|]. rewrite bind_modify.
  set (k2 := k1 <|mem ::= _|>) in *. pose proof (mem_frame_end _ _ Hf2) as Ee2.
  assert (us !! n = None) as Hnone.
  { apply eq_None_not_Some. intros Hx%Hs. unfold in_range in Hx. lia. }
  destruct (map_page k2 l D ts us n p (Z.lor PTE_W PTE_U)) as (r & k3 & l3 & ts3 & E3 & Hg & Hvf & _ & [Htb Hfail] & Hres); try done;
    [by rewrite Ee2|]. rewrite (bind_Ret _ _ _ _ _ E3).
  destruct Hres as [[-> Hu3]|(-> & -> & Hu3)]; cbn [Z.ltb Z.compare].
  - destruct (growth_step k l ts us n p k2 k3 l3 ts3) as [G3 Hs3]; try done.
    assert (u32 (n * PGSIZE + PGSIZE) = (n + 1) * PGSIZE) as ->.
    { rewrite u32_small; [lia|]. pose proof (upage_range n Hnu). unfold KERNBASE, PGSIZE in *. lia. }
    destruct (IH k3 l3 ts3 (<[n:=p]> us) (n + 1)) as (k' & l' & ts' & H); try done; try (unfold PGSIZE in *; lia).
    exists k', l', ts'. destruct H as [(E & Hun & Hc)|H]; [left|by right]. split; [done|]. split; [done|].
    by eapply grow_cost_step.
  - destruct (growth_no_table k k2 k3 p l ts ts3 us n new) as (k4 & k5 & l5 & E4 & E5 & Hun); try done.
    exists k5, l5, ts3. left. rewrite (bind_Ret _ _ _ _ _ E4), (bind_Ret _ _ _ _ _ E5). split; [done|]. split; [done|].
    eapply grow_cost_fail; try done. by apply Hfail.
Qed.
End allocuvm.

Lemma allocuvm_ok k l D ts us old new :
  uvm_ok k l D ts us → kmem_ready k → sized us old → 0 <= old → 0 <= new < 2 ^ 32 →
  (KERNBASE <= new → allocuvm D old new k = Ret 0 k) ∧
  (new < old → new < KERNBASE → allocuvm D old new k = Ret old k) ∧
  (old <= new → new < KERNBASE → ∃ k' l' ts',
    (allocuvm D old new k = Ret 0 k' ∧ undone k l D ts us k' l' ts' ∧
       (length l < grow_cost ts (first_new old) new)%nat) ∨
    ∃ us', allocuvm D old new k = Ret new k' ∧ growth k l D ts us old k' l' ts' us' ∧
      sized us' new).
Proof.
  intros Hu Hr Hs Ho Hn. unfold allocuvm. split_and!.
  - intros H. by rewrite (proj2 (Z.leb_le _ _) H).
  - intros H1 H2. destruct (Z.leb_spec KERNBASE new); [lia|]. by rewrite (proj2 (Z.ltb_lt _ _) H1).
  - intros H1 H2. destruct (Z.leb_spec KERNBASE new); [lia|]. destruct (Z.ltb_spec new old); [lia|].
    rewrite PGROUNDUP_user by lia. fold (first_new old).
    eapply (alloc_loop_ok k l D ts us old); try done; try (unfold first_new, PGSIZE in *; zdiv); try lia.
    + split; try done; auto; [apply mem_frame_refl|].
      intros n p Hp Hx. exfalso. apply Hx, Hs. by rewrite Hp.
    + intros n. rewrite (Hs n). unfold first_new, in_range, PGSIZE. zdiv.
Qed.

(** The pages of a space that was shrunk. *)
Lemma freed_sized k k' l l' D ts us us' old new :
  freed_range k k' l l' D ts us us' ((new + PGSIZE - 1) / PGSIZE * PGSIZE) old → 0 <= new < old →
  sized us old → sized us' new.
Proof.
  intros F Hn Hs n. rewrite (fr_us _ _ _ _ _ _ _ _ _ _ F).
  specialize (Hs n). destruct (decide (in_range _ _ n)) as [Hx|Hx].
  - split; [by intros [? [=]]|]. unfold in_range, PGSIZE in *. zdiv.
  - rewrite Hs. clear - Hx Hn. unfold in_range, PGSIZE in *. Z.to_euclidean_division_equations. lia.
Qed.

(** Address spaces only depend on memory and the free list. *)
Lemma uvm_ok_same k k' l D ts us :
  mem k' = mem k → freelist k' = freelist k → kernel_end k' = kernel_end k →
  uvm_ok k l D ts us → uvm_ok k' l D ts us.
Proof.
  intros E1 E2 E3 [H1 H2 H3 H4]. split; unfold vm_ok, kmem_ok in *; rewrite ?E1, ?E2, ?E3; done.
Qed.

(** ** Properties *)

(** [mappages] on a range whose pages are not mapped yet: it returns 0 and
    the entries of exactly these pages are the ones asked for, or it returns
    -1, the free list is empty and the entries of a proper prefix of the pages
    are set; in both cases every page that was free is still free or is now a
    page table of the directory. *)
Theorem mappages_correct k l D ts va size pa perm :
  vm_ok k l D ts → kmem_ready k → 0 <= va → 0 < size → va + size <= 2 ^ 32 → 0 <= pa < 2 ^ 32 →
  (∀ a, va / PGSIZE <= a / PGSIZE <= (va + size - 1) / PGSIZE →
     has (pte_at (mem k) D a) PTE_P = false) →
  let n := (va + size - 1) / PGSIZE - va / PGSIZE + 1 in
  ∃ r k' l' ts' j, mappages D va size pa perm k = Ret r k' ∧
    vm_ok k' l' D ts' ∧ mapped (mem k) (mem k') D (va / PGSIZE * PGSIZE) pa perm j ∧
    (r = 0 ∧ j = n ∨ r = -1 ∧ 0 <= j < n ∧ l' = []) ∧
    (∀ p, p ∈ l → p ∈ l' ∨ owns D ts' p) ∧ vm_frame k k' l D ts.
Proof.
  intros Hv Hr H0 Hs Hlim Hpa Hun n.
  destruct (mappages_ok k l D ts va size pa perm) as
    (r & k' & l' & ts' & j & E & Hv' & (_ & _ & _ & Hg) & Hf & Hm & Hres & _); try done.
  exists r, k', l', ts', j. done.
Qed.

(** C19: [allocuvm] on every branch.  A size in the kernel's half is refused
    and a smaller size is returned unchanged.  Otherwise the pages below the
    old size are kept, the new ones are zeroed pages that were free, and the
    space has exactly the pages below the new size; or the free pages are fewer
    than the new pages and the page tables missing for them, the result is 0
    and the user pages are those from before.  In each case no page is lost,
    and memory that is neither free nor part of the directory is unchanged. *)
Theorem allocuvm_correct k l D ts us old new :
  uvm_ok k l D ts us → kmem_ready k → sized us old → 0 <= old → 0 <= new < 2 ^ 32 →
  (KERNBASE <= new → allocuvm D old new k = Ret 0 k) ∧
  (new < old → new < KERNBASE → allocuvm D old new k = Ret old k) ∧
  (old <= new → new < KERNBASE → ∃ k' l' ts',
    (allocuvm D old new k = Ret 0 k' ∧ undone k l D ts us k' l' ts' ∧
       (length l < grow_cost ts (first_new old) new)%nat) ∨
    ∃ us', allocuvm D old new k = Ret new k' ∧ growth k l D ts us old k' l' ts' us' ∧
      sized us' new).
Proof. apply allocuvm_ok. Qed.

(** [deallocuvm] shrinks a space: exactly the pages at or above the new
    size go to the free list, the entries of the others and of the kernel's
    half do not change, and neither does any other page of memory. *)
Theorem deallocuvm_correct k l D ts us old new :
  uvm_ok k l D ts us → kmem_ready k → 0 <= new < old → old <= KERNBASE →
  ∃ k' l' us', deallocuvm D old new k = Ret new k' ∧ (sized us old → sized us' new) ∧
    freed_range k k' l l' D ts us us' ((new + PGSIZE - 1) / PGSIZE * PGSIZE) old.
Proof.
  intros Hu Hr Hn Ho. destruct (deallocuvm_ok k l D ts us old new) as (k' & l' & us' & E & F); try done.
  exists k', l', us'. split_and!; [done| |done]. by eapply freed_sized.
Qed.

(** [freevm] gives back everything: afterwards the free list has exactly
    the pages it had before, the user pages, the page tables and the page of
    the directory, each once; only the free list and memory change, and no
    page that is not free afterwards does. *)
Theorem freevm_correct k l D ts us :
  uvm_ok k l D ts us → kmem_ready k →
  ∃ k' l', freevm D k = Ret tt k' ∧ kmem_ok k' l' ∧ kmem_ready k' ∧ mem_frame k k' ∧
    pages_kept k k' l' ∧ ∀ p, p ∈ l' ↔ p ∈ l ∨ owns D ts p ∨ ∃ n, us !! n = Some p.
Proof. apply freevm_ok. Qed.

(** ** Witnesses *)

(** One free page, and an empty directory in another page. *)
Definition k_space : kernel := k_empty <|freelist := 0x80200000|>.
Definition space_dir : Z := 0x80300000.

Lemma empty_rd32 a : rd32 ∅ a = 0.
Proof. unfold rd32, rd. by rewrite !lookup_empty. Qed.

Lemma k_space_ok : uvm_ok k_space [0x80200000] space_dir ∅ ∅.
Proof.
  assert (kmem_ok k_space [0x80200000]) as Hk.
  { split; [split; [done|apply (empty_rd32 0x80200000)]|]. split; [apply NoDup_singleton|].
    split; [|done]. by apply Forall_singleton. }
  assert (∀ va, pte_at (mem k_space) space_dir va = 0) as Hp.
  { intros va. unfold pte_at. change (mem k_space) with (∅ : gmap Z Z). by rewrite empty_rd32. }
  split.
  - split; [exact Hk|]. split.
    + split; [by split| |done|done]. intros i _. rewrite lookup_empty.
      change (mem k_space) with (∅ : gmap Z Z). by rewrite empty_rd32.
    + intros p [->|[i Hi]]; [|done]. by intros ?%list_elem_of_singleton.
  - intros n _. by rewrite lookup_empty, Hp.
  - done.
  - done.
Qed.

Lemma sized_empty : sized ∅ 0.
Proof.
  intros n. rewrite lookup_empty. unfold in_range. split; [by intros [? [=]]|lia].
Qed.

Lemma mappages_correct_witness :
  ∃ r k' l' ts' j, mappages space_dir 0x1000 0x2000 0 PTE_U k_space = Ret r k' ∧
    mapped (mem k_space) (mem k') space_dir 0x1000 0 PTE_U j ∧
    (r = 0 ∧ j = 2 ∨ r = -1 ∧ 0 <= j < 2 ∧ l' = []) ∧ vm_ok k' l' space_dir ts'.
Proof.
  destruct (mappages_correct k_space [0x80200000] space_dir ∅ 0x1000 0x2000 0 PTE_U
    (uv_vm _ _ _ _ _ k_space_ok) (λ H, k_empty_ready H)) as
    (r & k' & l' & ts' & j & E & Hv & Hm & Hres & _); [lia..| |].
  - intros a _. change (mem k_space) with (∅ : gmap Z Z). unfold pte_at. by rewrite empty_rd32.
  - exists r, k', l', ts', j. exact (conj E (conj Hm (conj Hres Hv))).
Defined.

(** Two free pages. *)
Definition k_two : kernel :=
  k_empty <|freelist := 0x80200000|> <|mem := wr32 ∅ 0x80200000 0x80201000|>.

Lemma k_two_rd a : a + 4 <= 0x80200000 ∨ 0x80200004 <= a → rd32 (mem k_two) a = 0.
Proof. intros Ha. change (mem k_two) with (wr32 ∅ 0x80200000 0x80201000). by rewrite rd32_wr32_ne, empty_rd32 by lia. Qed.

Lemma k_two_ok : uvm_ok k_two [0x80200000; 0x80201000] space_dir ∅ ∅.
Proof.
  assert (kmem_ok k_two [0x80200000; 0x80201000]) as Hk.
  { split; [split; [done|split; [done|apply k_two_rd; lia]]|]. split; [by apply (bool_decide_unpack _)|].
    split; [|done]. by repeat constructor. }
  split.
  - split; [exact Hk|]. split.
    + split; [by split| |done|done]. intros i Hi. rewrite lookup_empty, k_two_rd by (unfold space_dir; lia). done.
    + intros p [->|[i Hi]]; [|done]. by apply (bool_decide_unpack _).
  - intros n Hn. rewrite lookup_empty. unfold pte_at. rewrite k_two_rd; [done|].
    pose proof (PDX_range (n * PGSIZE)). unfold space_dir. lia.
  - done.
  - done.
Qed.

Lemma allocuvm_correct_witness :
  allocuvm space_dir 0 KERNBASE k_space = Ret 0 k_space ∧
  (∃ k', allocuvm space_dir 0 0x1000 k_space = Ret 0 k') ∧
  ∃ k' us, allocuvm space_dir 0 0x1000 k_two = Ret 0x1000 k' ∧ sized us 0x1000.
Proof.
  split; [|split].
  - destruct (allocuvm_correct k_space _ _ _ _ 0 KERNBASE k_space_ok (λ H, k_empty_ready H)
      sized_empty) as (H & _); [done|by unfold KERNBASE|]. exact (H (Z.le_refl _)).
  - destruct (allocuvm_correct k_space _ _ _ _ 0 0x1000 k_space_ok (λ H, k_empty_ready H)
      sized_empty) as (_ & _ & H); [lia..|].
    destruct H as (k' & l' & ts' & [[E _]|(us' & E & G & Hs)]); [lia|by unfold KERNBASE|exists k'; exact E|exfalso].
    assert (match allocuvm space_dir 0 0x1000 k_space with Ret r _ => r = 0 | _ => False end) as Ev
      by (vm_compute; reflexivity). rewrite E in Ev. discriminate Ev.
  - destruct (allocuvm_correct k_two _ _ _ _ 0 0x1000 k_two_ok (λ H, k_empty_ready H)
      sized_empty) as (_ & _ & H); [lia..|].
    destruct H as (k' & l' & ts' & [(_ & _ & Hc)|(us' & E & _ & Hs)]); [lia|by unfold KERNBASE|exfalso|exists k', us'; exact (conj E Hs)].
    revert Hc. apply Nat.le_ngt. apply (bool_decide_unpack _). vm_compute. reflexivity.
Defined.

Lemma deallocuvm_correct_witness :
  ∃ k' l' us', deallocuvm space_dir 0x2800 0x1000 k_space = Ret 0x1000 k' ∧
    freed_range k_space k' [0x80200000] l' space_dir ∅ ∅ us' 0x1000 0x2800.
Proof.
  destruct (deallocuvm_correct k_space _ _ _ _ 0x2800 0x1000 k_space_ok (λ H, k_empty_ready H)) as
    (k' & l' & us' & E & _ & F); [lia|by unfold KERNBASE|]. exists k', l', us'. exact (conj E F).
Defined.

Lemma freevm_correct_witness :
  ∃ k' l', freevm space_dir k_space = Ret tt k' ∧ kmem_ok k' l' ∧
    ∀ p, p ∈ l' ↔ p ∈ [0x80200000] ∨ owns space_dir ∅ p ∨ ∃ n, (∅ : gmap Z Z) !! n = Some p.
Proof.
  destruct (freevm_correct k_space _ _ _ _ k_space_ok (λ H, k_empty_ready H)) as
    (k' & l' & E & Hk & _ & _ & _ & Hl). exists k', l'. exact (conj E (conj Hk Hl)).
Defined.
