(* ===== verification/Bytes.v ===== *)
(** Memory holds bytes: the allocator and the page table code only ever store
    values between 0 and 255.  The property is a type class of computations,
    found by instance search along their structure. *)

From stdpp Require Import base gmap strings list.
From Stdlib Require Import ZArith Lia.
From S2P Require Import Prelude CString Mmu State Spinlock Kalloc Vm.
#[local] Open Scope Z_scope.

(** When [m] returns, memory holds bytes if it did before. *)
Class KeepsBytes {A} (m : M kernel A) : Prop :=
  keeps_bytes k r k' : bytes_ok (mem k) → m k = Ret r k' → bytes_ok (mem k').

(** ** Structure *)

#[global] Instance kb_ret {A} (a : A) : KeepsBytes (ret a).
Proof. intros k r k' Hb [= <- <-]. done. Qed.
#[global] Instance kb_gets {A} (f : kernel → A) : KeepsBytes (gets f).
Proof. intros k r k' Hb [= <- <-]. done. Qed.
#[global] Instance kb_panic {A} msg : KeepsBytes (panic msg : M kernel A).
Proof. intros k r k' _. done. Qed.
#[global] Instance kb_fault {A} : KeepsBytes (fault : M kernel A).
Proof. intros k r k' _. done. Qed.
#[global] Instance kb_spin {A} : KeepsBytes ((λ _, Spin) : M kernel A).
Proof. intros k r k' _. done. Qed.
#[global] Instance kb_loop {A} : KeepsBytes ((λ _, Loop) : M kernel A).
Proof. intros k r k' _. done. Qed.
#[global] Instance kb_bind {A B} (m : M kernel A) (f : A → M kernel B) :
  KeepsBytes m → (∀ a, KeepsBytes (f a)) → KeepsBytes (bind m f).
Proof.
  intros Hm Hf k r k' Hb. unfold bind, obind. destruct (m k) as [a k1| | | | |] eqn:E; try done.
  apply Hf. by eapply Hm.
Qed.
#[global] Instance kb_if {A} (b : bool) (m m' : M kernel A) :
  KeepsBytes m → KeepsBytes m' → KeepsBytes (if b then m else m').
Proof. by destruct b. Qed.
#[global] Instance kb_option {A B} (o : option A) (f : A → M kernel B) m :
  (∀ a, KeepsBytes (f a)) → KeepsBytes m → KeepsBytes (match o with Some a => f a | None => m end).
Proof. by destruct o. Qed.

Lemma kb_modify (f : kernel → kernel) :
  (∀ k, bytes_ok (mem k) → bytes_ok (mem (f k))) → KeepsBytes (modify f).
Proof. intros Hf k r k' Hb [= <- <-]. by apply Hf. Qed.

(** ** Stores *)

Lemma bytes_wr32 m a v : bytes_ok m → bytes_ok (wr32 m a v).
Proof. intros Hm b. rewrite wr32_spec. destruct (decide _); [apply u8_range|apply Hm]. Qed.
Lemma bytes_memset m a c n : 0 <= n → bytes_ok m → bytes_ok (memset m a c n).
Proof. intros Hn Hm b. rewrite memset_spec by done. destruct (decide _); [apply u8_range|apply Hm]. Qed.
Lemma bytes_memmove m d s n : 0 <= n → bytes_ok m → bytes_ok (memmove m d s n).
Proof. intros Hn Hm b. rewrite memmove_spec by done. destruct (decide _); apply Hm. Qed.

(** A state change that is one store, or none. *)
Ltac keep_store :=
  apply kb_modify; intros; rsimpl;
  lazymatch goal with
  | |- bytes_ok (wr32 _ _ _) => apply bytes_wr32; assumption
  | |- bytes_ok (memset _ _ _ _) => apply bytes_memset; [done|assumption]
  | |- bytes_ok (memmove _ _ _ _) => apply bytes_memmove; [done|assumption]
  | |- _ => assumption
  end.
#[global] Hint Extern 1 (KeepsBytes (modify _)) => keep_store : typeclass_instances.

(** Unfold and search. *)
Ltac keep x := intros; unfold x; apply _.

(** ** The code *)

#[local] Opaque memset memmove wr32.
#[local] Typeclasses Opaque ret gets modify panic fault bind acquire release kmem_acquire kmem_release
  kalloc kfree ld32 st32 walkpgdir mappages deallocuvm freevm setupkvm allocuvm copyuvm
  mappages_loop deallocuvm_loop free_tables map_kernel allocuvm_loop copyuvm_loop.

#[global] Instance kb_get_cpu i : KeepsBytes (get_cpu i).
Proof. intros k r k' Hb. unfold get_cpu. destruct (cpus k !! i); by intros [= <- <-]. Qed.
#[global] Instance kb_get_lock l : KeepsBytes (get_lock l).
Proof. intros k r k' Hb. unfold get_lock. destruct (locks k !! l); by intros [= <- <-]. Qed.
#[global] Instance kb_set_lock l x : KeepsBytes (set_lock l x).
Proof. keep set_lock. Qed.
#[global] Instance kb_set_cpu l x : KeepsBytes (set_cpu l x).
Proof. keep set_cpu. Qed.
#[global] Instance kb_mycpu : KeepsBytes mycpu.
Proof. unfold mycpu, readeflags_if. apply _. Qed.
#[global] Instance kb_pushcli : KeepsBytes pushcli.
Proof. unfold pushcli, readeflags_if, cli. apply _. Qed.
#[global] Instance kb_popcli : KeepsBytes popcli.
Proof. unfold popcli, readeflags_if, sti. apply _. Qed.
#[global] Instance kb_holding l : KeepsBytes (holding l).
Proof. keep holding. Qed.
#[global] Instance kb_blame {A} lk msg : KeepsBytes (@blame A lk msg).
Proof. keep @blame. Qed.
#[global] Instance kb_acquire l : KeepsBytes (acquire l).
Proof. keep acquire. Qed.
#[global] Instance kb_release l : KeepsBytes (release l).
Proof. keep release. Qed.

#[global] Instance kb_kmem_acquire : KeepsBytes kmem_acquire.
Proof. keep kmem_acquire. Qed.
#[global] Instance kb_kmem_release : KeepsBytes kmem_release.
Proof. keep kmem_release. Qed.
#[global] Instance kb_kalloc : KeepsBytes kalloc.
Proof. keep kalloc. Qed.
#[global] Instance kb_kfree v : KeepsBytes (kfree v).
Proof. keep kfree. Qed.

#[global] Instance kb_ld32 a : KeepsBytes (ld32 a).
Proof. keep ld32. Qed.
#[global] Instance kb_st32 a v : KeepsBytes (st32 a v).
Proof. keep st32. Qed.
#[global] Instance kb_walkpgdir d va b : KeepsBytes (walkpgdir d va b).
Proof. keep walkpgdir. Qed.
#[global] Instance kb_mappages_loop n d a l pa perm : KeepsBytes (mappages_loop n d a l pa perm).
Proof. revert a pa. induction n; intros a pa; cbn [mappages_loop]; apply _. Qed.
#[global] Instance kb_mappages d va size pa perm : KeepsBytes (mappages d va size pa perm).
Proof. keep mappages. Qed.
#[global] Instance kb_deallocuvm_loop n d a sz : KeepsBytes (deallocuvm_loop n d a sz).
Proof. revert a. induction n; intros a; cbn [deallocuvm_loop]; apply _. Qed.
#[global] Instance kb_deallocuvm d old new : KeepsBytes (deallocuvm d old new).
Proof. keep deallocuvm. Qed.
#[global] Instance kb_free_tables n d i : KeepsBytes (free_tables n d i).
Proof. revert i. induction n; intros i; cbn [free_tables]; apply _. Qed.
#[global] Instance kb_freevm d : KeepsBytes (freevm d).
Proof. keep freevm. Qed.
#[global] Instance kb_map_kernel d rows : KeepsBytes (map_kernel d rows).
Proof. induction rows as [|[[[v s] e] f] rows IH]; cbn [map_kernel]; apply _. Qed.
#[global] Instance kb_setupkvm : KeepsBytes setupkvm.
Proof. keep setupkvm. Qed.
#[global] Instance kb_allocuvm_loop n d a old new : KeepsBytes (allocuvm_loop n d a old new).
Proof. revert a. induction n; intros a; cbn [allocuvm_loop]; apply _. Qed.
#[global] Instance kb_allocuvm d old new : KeepsBytes (allocuvm d old new).
Proof. keep allocuvm. Qed.
#[global] Instance kb_copyuvm_loop n s d i sz : KeepsBytes (copyuvm_loop n s d i sz).
Proof. revert i. induction n; intros i; cbn [copyuvm_loop]; cbv zeta; apply _. Qed.
#[global] Instance kb_copyuvm d sz : KeepsBytes (copyuvm d sz).
Proof. keep copyuvm. Qed.
