(* ===== verification/Space.v ===== *)
(** * Copying an address space

    [setupkvm] and [copyuvm] of [vm.c]: the kernel's half of a new page
    directory, and the copy of a process's memory that [fork] makes.  The
    definitions are in [Vm]; this file has what they guarantee. *)

From stdpp Require Import base gmap strings list.
From Stdlib Require Import ZArith Lia.
From S2P Require Import Prelude CString Mmu State Spinlock Kalloc Vm.
#[local] Open Scope Z_scope.

#[local] Opaque memset memmove.

(** ** Specification *)

(** The bytes of page [p] are those of page [q] in [m0]. *)
Definition same_bytes (m0 : gmap Z Z) (q : Z) (m : gmap Z Z) (p : Z) : Prop :=
  ∀ i, 0 <= i < PGSIZE → rd m (p + i) = rd m0 (q + i).

(** The rows of [kmap] are whole pages above [lo], in order, without overlap. *)
Fixpoint rows_ok (lo : Z) (rows : list (Z * Z * Z * Z)) : Prop :=
  match rows with
  | [] => True
  | (virt, phys_start, phys_end, perm) :: rows =>
      let size := u32 (phys_end - phys_start) in
      lo <= virt ∧ virt mod PGSIZE = 0 ∧ 0 < size ∧ size mod PGSIZE = 0 ∧ virt + size <= 2 ^ 32 ∧
      0 <= phys_start < 2 ^ 32 ∧ rows_ok (virt + size) rows
  end.

(** Every row of [rows] is mapped. *)
Definition rows_mapped (m : gmap Z Z) (D : Z) (rows : list (Z * Z * Z * Z)) : Prop :=
  ∀ virt phys_start phys_end perm, (virt, phys_start, phys_end, perm) ∈ rows →
  ∀ va, virt <= va < virt + u32 (phys_end - phys_start) →
    pte_at m D va = new_pte phys_start perm ((va - virt) / PGSIZE).

(** The kernel's data begins on a page boundary, between its code and the top
    of memory. *)
Definition data_ok (data : Z) : Prop := data mod PGSIZE = 0 ∧ KERNLINK < data < P2V PHYSTOP.

Lemma kmap_rows data : data_ok data → rows_ok KERNBASE (kmap data).
Proof.
  unfold data_ok, kmap, P2V, KERNLINK, KERNBASE, EXTMEM, PHYSTOP, PGSIZE. intros [Hm Hd].
  change (u32 (0xE000000 + 0x80000000)) with 0x8E000000 in Hd.
  assert (V2P data = data - 0x80000000) as E.
  { unfold V2P, KERNBASE. rewrite (u32_small data), u32_small by lia. done. }
  cbn [rows_ok]. rewrite E. change (V2P (0x80000000 + 0x100000)) with 0x100000. unfold PGSIZE, DEVSPACE.
  change (u32 (0x100000 - 0)) with 0x100000. change (u32 (0 - 0xFE000000)) with 0x2000000.
  rewrite !u32_small by lia. split_and!; try done; zdiv.
Qed.

(** ** Counting pages *)

Lemma size_below (f : gmap Z Z) n :
  0 <= n → (∀ i x, f !! i = Some x → 0 <= i < n) → Z.of_nat (size f) <= n.
Proof.
  intros Hn Hf. rewrite <- (Z2Nat.id n Hn). apply inj_le.
  rewrite <- (length_map_to_list f), <- (length_fmap fst).
  rewrite <- (length_seqZ 0 n). apply submseteq_length, NoDup_submseteq; [apply NoDup_fst_map_to_list|].
  intros i Hi. apply list_elem_of_fmap in Hi as ([j x] & -> & Hj%elem_of_map_to_list).
  apply elem_of_seqZ. specialize (Hf j x Hj). cbn. lia.
Qed.

(** The pages of a list are all among those of a directory, its tables and its
    user pages, but for those in [l]. *)
Lemma pages_bound (l0 l : list Z) D (ts us : gmap Z Z) :
  NoDup l0 → (∀ p, p ∈ l0 → p ∈ l ∨ owns D ts p ∨ ∃ n, us !! n = Some p) →
  (length l0 ≤ length l + 1 + size ts + size us)%nat.
Proof.
  intros Hnd Hin. transitivity (length (l ++ [D] ++ (map_to_list ts).*2 ++ (map_to_list us).*2)).
  - apply submseteq_length, NoDup_submseteq; [done|]. intros p Hp.
    rewrite !elem_of_app, list_elem_of_singleton.
    destruct (Hin p Hp) as [?|[[?|[i Hi]]|[i Hi]]]; [by auto..| |].
    + right. right. left. apply list_elem_of_fmap. exists (i, p). by rewrite elem_of_map_to_list.
    + right. right. right. apply list_elem_of_fmap. exists (i, p). by rewrite elem_of_map_to_list.
  - rewrite !length_app, !length_fmap, !length_map_to_list. cbn. lia.
Qed.

(** ** The new directory *)

(** The memory [k0] has the free pages [l0] and a space with directory [D] and
    pages [us0]; the new directory is [D']. *)
Section copy.
Context (k0 : kernel) (l0 : list Z) (D : Z) (us0 : gmap Z Z) (D' : Z).

(** A copy in progress: the pages [us] so far have the bytes and the flags of
    the pages they copy; the new directory and its pages were free, no free
    page is lost, and pages that were not free have not changed. *)
Record copied (k : kernel) (l : list Z) (ts us : gmap Z Z) : Prop := {
  cp_new : uvm_ok k l D' ts us;
  cp_ready : kmem_ready k;
  cp_frame : mem_frame k0 k;
  cp_own : ∀ p, p ∈ l ∨ owns D' ts p → p ∈ l0;
  cp_keep : ∀ p, p ∈ l0 → p ∈ l ∨ owns D' ts p ∨ ∃ n, us !! n = Some p;
  cp_page : ∀ n p, us !! n = Some p → p ∈ l0 ∧ ∃ q, us0 !! n = Some q ∧
    same_bytes (mem k0) q (mem k) p ∧
    PTE_FLAGS (pte_at (mem k) D' (n * PGSIZE)) = PTE_FLAGS (pte_at (mem k0) D (n * PGSIZE));
  cp_rest : pages_kept k0 k l0
}.

(** The copy was given up: the free pages are those there were, in some
    order. *)
Record given_up (k : kernel) (l : list Z) : Prop := {
  gu_kmem : kmem_ok k l;
  gu_ready : kmem_ready k;
  gu_frame : mem_frame k0 k;
  gu_free : ∀ p, p ∈ l ↔ p ∈ l0;
  gu_rest : pages_kept k0 k l0
}.

Lemma copied_end k l ts us : copied k l ts us → kernel_end k = kernel_end k0.
Proof. intros C. apply mem_frame_end, C. Qed.

(** Once there is at most one page left, there were not many to begin with:
    the directory, at most 1024 page tables and the copied pages. *)
Lemma copied_exhausted k l ts us n :
  NoDup l0 → copied k l ts us → (length l ≤ 1)%nat → sized us (n * PGSIZE) → 0 <= n →
  Z.of_nat (length l0) <= 2 + NPDENTRIES + n.
Proof.
  intros Hnd C Hl Hs Hn. pose proof (pages_bound l0 l D' ts us Hnd (cp_keep _ _ _ _ C)).
  assert (Z.of_nat (size ts) <= NPDENTRIES).
  { apply size_below; [done|]. intros i t Hi. destruct (uv_vm _ _ _ _ _ (cp_new _ _ _ _ C)) as (_ & Hd & _).
    by apply (dir_table _ _ _ _ Hd i t). }
  assert (Z.of_nat (size us) <= n).
  { apply size_below; [done|]. intros i x Hi. destruct (Hs i) as [Hs' _].
    specialize (Hs' ltac:(by rewrite Hi)). unfold in_range, PGSIZE in *. lia. }
  lia.
Qed.

(** Freeing the new directory gives up the copy. *)
Lemma gives_up k l ts us :
  copied k l ts us → ∃ k' l', freevm D' k = Ret tt k' ∧ given_up k' l'.
Proof.
  intros C. pose proof (copied_end _ _ _ _ C) as Ee. destruct C as [Hu Hr Hf Ho Hk Hp Hq].
  destruct (freevm_ok k l D' ts us Hu Hr) as (k' & l' & E & Hk' & Hr' & Hf' & Hq' & Hl').
  assert (∀ p, p ∈ l' ↔ p ∈ l0) as Hl.
  { intros p. rewrite Hl'. split; [|apply Hk]. intros [?|[?|[n Hn]]]; [by eauto..|]. by apply (Hp n p). }
  exists k', l'. split; [done|]. split; [done|done|by eapply mem_frame_trans|done|].
  eapply pages_kept_trans; [exact Ee|exact Hq| |reflexivity].
  intros q Hqo Hn. apply Hq'; [done|]. by rewrite Hl.
Qed.

(** Mapping in the kernel's half does not disturb the copy. *)
Lemma copied_grow k l ts us k' l' ts' :
  copied k l ts us → uvm_ok k' l' D' ts' us → grown l l' D' ts ts' → vm_frame k k' l D' ts →
  (∀ n, 0 <= n < UPAGES → pte_at (mem k') D' (n * PGSIZE) = pte_at (mem k) D' (n * PGSIZE)) →
  copied k' l' ts' us.
Proof.
  intros C Hu' (G1 & G2 & G3 & G4) (Hf' & Hr' & Hq') Hpte. pose proof (copied_end _ _ _ _ C) as Ee.
  destruct C as [Hu Hr Hf Ho Hk Hp Hq]. split; [done|done|by eapply mem_frame_trans| | | |].
  - intros p [Hx%G1|[Hx|Hx]%G2]; apply Ho; by auto.
  - intros p [Hx|[Hx|Hx]]%Hk; [|by auto..]. destruct (G4 p Hx); auto.
  - intros n p Hn. destruct (Hp n p Hn) as (Hp0 & q & Hq0 & Hs & Hfl). split; [done|].
    destruct (uv_page _ _ _ _ _ Hu n p Hn) as (Hnu & Hpo & Hno & Hnl).
    exists q. split; [done|]. split; [|by rewrite Hpte].
    intros i Hi. rewrite <- (Hs i Hi). apply (Hq' p Hpo Hno Hnl). lia.
  - eapply pages_kept_trans; [exact Ee|exact Hq| |reflexivity].
    intros q Hqo Hn. apply Hq'; [done|intros ?; apply Hn, Ho; by auto|intros ?; apply Hn, Ho; by auto].
Qed.

(** A mapping that leaves the user's entries alone. *)
Lemma uvm_ok_kernel k l ts us k' l' ts' :
  uvm_ok k l D' ts us → vm_ok k' l' D' ts' → grown l l' D' ts ts' → vm_frame k k' l D' ts →
  (∀ n, 0 <= n < UPAGES → pte_at (mem k') D' (n * PGSIZE) = pte_at (mem k) D' (n * PGSIZE)) →
  uvm_ok k' l' D' ts' us.
Proof.
  intros [Hv He Hp Hi] Hv' (G1 & G2 & _) (Hf & _) Hpte. split; [done| | |done].
  - intros n Hn. rewrite Hpte by done. by apply He.
  - intros n p Hn. destruct (Hp n p Hn) as (H1 & H2 & H3 & H4). rewrite (mem_frame_end _ _ Hf).
    split; [done|]. split; [done|]. split; [by intros [|]%G2|by intros ?%G1].
Qed.

(** A row of the table. *)
Lemma map_row k l ts us virt size pa perm :
  copied k l ts us → KERNBASE <= virt → virt mod PGSIZE = 0 → 0 < size → size mod PGSIZE = 0 →
  virt + size <= 2 ^ 32 → 0 <= pa < 2 ^ 32 →
  (∀ va, virt <= va < 2 ^ 32 → has (pte_at (mem k) D' va) PTE_P = false) →
  ∃ r k' l' ts', mappages D' virt size pa perm k = Ret r k' ∧ copied k' l' ts' us ∧
    (r = 0 ∧ (∀ va, 0 <= va < 2 ^ 32 → pte_at (mem k') D' va =
       if decide (virt <= va < virt + size) then new_pte pa perm ((va - virt) / PGSIZE)
       else pte_at (mem k) D' va) ∨ r = -1 ∧ l' = []).
Proof.
  intros C Hlo Hv Hs Hsm Htop Hpa Hun. pose proof (cp_new _ _ _ _ C) as Hu.
  assert (virt / PGSIZE * PGSIZE = virt) as Ev by (unfold PGSIZE in *; zdiv).
  destruct (mappages_ok k l D' ts virt size pa perm (uv_vm _ _ _ _ _ Hu) (cp_ready _ _ _ _ C))
    as (r & k' & l' & ts' & j & E & Hvm & Hg & Hf & Hm & Hres & _); [unfold KERNBASE in *; lia|done..| |].
  { intros a Ha. apply Hun. unfold PGSIZE in *. zdiv. }
  rewrite Ev in Hm.
  assert (∀ n, 0 <= n < UPAGES → pte_at (mem k') D' (n * PGSIZE) = pte_at (mem k) D' (n * PGSIZE)) as Hpte.
  { intros n Hn. pose proof (upage_range n Hn). rewrite Hm by (unfold KERNBASE in *; lia).
    by rewrite decide_False by lia. }
  exists r, k', l', ts'. split; [done|]. split; [eapply copied_grow; [done|by eapply uvm_ok_kernel|done..]|].
  destruct Hres as [[-> ->]|(-> & _ & ->)]; [|by right]. left. split; [done|]. intros va Hva.
  rewrite (Hm va Hva). replace (virt + _ * PGSIZE) with (virt + size); [done|].
  unfold PGSIZE in *. zdiv.
Qed.

Lemma rows_ok_lo lo rows virt ps pe perm :
  rows_ok lo rows → (virt, ps, pe, perm) ∈ rows → lo <= virt ∧ virt + u32 (pe - ps) <= 2 ^ 32.
Proof.
  revert lo. induction rows as [|[[[v s] e] f] rows IH]; intros lo Hr Hin; [by apply elem_of_nil in Hin|].
  destruct Hr as (H1 & _ & H3 & _ & H5 & _ & Hr). apply elem_of_cons in Hin as [[= -> -> -> ->]|Hin]; [done|].
  destruct (IH _ Hr Hin). lia.
Qed.

Lemma map_kernel_ok rows lo k l ts :
  NoDup l0 → copied k l ts ∅ → rows_ok lo rows → KERNBASE <= lo →
  (∀ va, lo <= va < 2 ^ 32 → has (pte_at (mem k) D' va) PTE_P = false) →
  (∃ k' l', map_kernel D' rows k = Ret 0 k' ∧ given_up k' l' ∧
     Z.of_nat (length l0) <= 2 + NPDENTRIES) ∨
  ∃ k' l' ts', map_kernel D' rows k = Ret D' k' ∧ copied k' l' ts' ∅ ∧ rows_mapped (mem k') D' rows ∧
    ∀ va, 0 <= va < lo → pte_at (mem k') D' va = pte_at (mem k) D' va.
Proof.
  intros Hnd. revert lo k l ts. induction rows as [|[[[virt ps] pe] perm] rows IH]; intros lo k l ts C Hr Hlo Hun.
  { right. exists k, l, ts. split; [done|]. split; [done|]. split; [|done].
    intros v s e f Hin. by apply elem_of_nil in Hin. }
  cbn [rows_ok map_kernel] in *. destruct Hr as (H1 & H2 & H3 & H4 & H5 & H6 & Hr).
  destruct (map_row k l ts ∅ virt (u32 (pe - ps)) ps perm C) as (r & k1 & l1 & ts1 & E1 & C1 & Hres);
    [lia|done..|intros; apply Hun; lia|]. rewrite (bind_Ret _ _ _ _ _ E1).
  destruct Hres as [[-> Hm]|[-> ->]]; cbn [Z.ltb Z.compare].
  2: { destruct (gives_up k1 [] ts1 ∅ C1) as (k' & l' & E & Hg). left. exists k', l'.
       rewrite (bind_Ret _ _ _ _ _ E). split; [done|]. split; [done|].
       pose proof (copied_exhausted k1 [] ts1 ∅ 0 Hnd C1 ltac:(cbn; lia) sized_empty). lia. }
  unfold KERNBASE in *.
  destruct (IH (virt + u32 (pe - ps)) k1 l1 ts1 C1 Hr) as [Hx|(k' & l' & ts' & E & C' & Hrm & Hlow)];
    [lia| |by left|].
  { intros va Hva. rewrite Hm by lia. rewrite decide_False by lia. apply Hun. lia. }
  right. exists k', l', ts'. split; [done|]. split; [done|]. split.
  - intros v s e f [[= -> -> -> ->]|Hin]%elem_of_cons va Hva; [|by eapply Hrm].
    rewrite Hlow by lia. rewrite Hm by lia. by rewrite decide_True.
  - intros va Hva. rewrite Hlow by lia. rewrite Hm by lia. by rewrite decide_False by lia.
Qed.
End copy.

(** A fresh directory: a cleared page. *)
Lemma new_dir k0 p l D us0 :
  kmem_ok k0 (p :: l) → kmem_ready k0 →
  ∃ k1, kalloc k0 = Ret p k1 ∧ p ≠ 0 ∧ kernel_data k1 = kernel_data k0 ∧
    let k2 := k1 <|mem ::= λ m, memset m p 0 PGSIZE|> in
    copied k0 (p :: l) D us0 p k2 l ∅ ∅ ∧ ∀ va, pte_at (mem k2) p va = 0.
Proof.
  intros Hk Hr. pose proof Hk as (_ & Hnd & Hfo & He).
  apply NoDup_cons in Hnd as [Hpl _]. apply Forall_cons in Hfo as [Hp Hl].
  destruct (page_phys _ _ He Hp) as (_ & _ & _ & _ & Hp0).
  destruct (kalloc_ok k0 (p :: l) Hk Hr) as (k1 & E1 & Hk1 & Hr1 & Ee & Em & Hf1).
  exists k1. split; [exact E1|]. split; [done|]. split; [by destruct Hf1 as [-> _]|]. intros k2.
  assert (∀ i, 0 <= i < 1024 → rd32 (mem k2) (p + 4 * i) = 0) as Hz by (intros; by apply rd32_zeroed).
  assert (∀ va, pte_at (mem k2) p va = 0) as Hpte.
  { intros va. unfold pte_at. by rewrite Hz by apply PDX_range. }
  assert (∀ q, page_ok (kernel_end k0) q → q ≠ p → page_eq (mem k0) (mem k2) q) as Hpe.
  { intros q Hq Hne. rewrite <- Em. by eapply page_eq_memset. }
  assert (∀ q, owns p ∅ q → q = p) as Ho by (intros q [|[i Hi]]; done).
  split; [|exact Hpte]. split.
  - split; [|intros n _; by rewrite lookup_empty, Hpte|done|done]. split; [|split].
    + eapply kmem_ok_frame; [exact Hk1|done|done|]. intros q Hq. rewrite Em. apply Hpe; [|by intros ->].
      rewrite Forall_forall in Hl. by apply Hl.
    + change (kernel_end k2) with (kernel_end k1). rewrite Ee. split; [done| |done|done].
      intros i Hi. rewrite lookup_empty. by rewrite Hz.
    + by intros q ->%Ho.
  - exact (kmem_ready_mem k1 (memset (mem k1) p 0 PGSIZE) Hr1).
  - exact (mem_frame_set k0 k1 (memset (mem k1) p 0 PGSIZE) Hf1).
  - intros q [Hq| ->%Ho]; [by right|by left].
  - intros q [->|Hq]%elem_of_cons; [right; left; by left|by left].
  - done.
  - intros q Hq Hn. apply Hpe; [done|]. intros ->. apply Hn. by left.
Qed.

(** Without a free page there is no directory. *)
Lemma given_up_none k0 :
  kmem_ok k0 [] → kmem_ready k0 → ∃ k1, kalloc k0 = Ret 0 k1 ∧ given_up k0 [] k1 [].
Proof.
  intros Hk Hr. destruct (kalloc_ok k0 [] Hk Hr) as (k1 & E1 & Hk1 & Hr1 & Ee & Em & Hf1).
  exists k1. split; [exact E1|]. split; [done..|]. intros q _ _. by rewrite Em.
Qed.

Lemma setupkvm_ok k0 l0 D us0 :
  kmem_ok k0 l0 → kmem_ready k0 → data_ok (kernel_data k0) →
  (∃ k' l', setupkvm k0 = Ret 0 k' ∧ given_up k0 l0 k' l' ∧ Z.of_nat (length l0) <= 2 + NPDENTRIES) ∨
  ∃ D' k' l' ts, setupkvm k0 = Ret D' k' ∧ D' ≠ 0 ∧ copied k0 l0 D us0 D' k' l' ts ∅ ∧
    rows_mapped (mem k') D' (kmap (kernel_data k0)).
Proof.
  intros Hk Hr Hd. unfold setupkvm. destruct l0 as [|p l].
  { destruct (given_up_none k0 Hk Hr) as (k1 & E & G). left. exists k1, [].
    rewrite (bind_Ret _ _ _ _ _ E). by split. }
  destruct (new_dir k0 p l D us0 Hk Hr) as (k1 & E1 & Hp0 & Ed & C & Hz).
  rewrite (bind_Ret _ _ _ _ _ E1). destruct (Z.eqb_spec p 0); [done|]. rewrite bind_modify.
  change (DEVSPACE <? P2V PHYSTOP) with false. cbv iota. rewrite bind_gets.
  set (k2 := k1 <|mem ::= _|>) in *. change (kernel_data k2) with (kernel_data k1). rewrite Ed.
  destruct (map_kernel_ok k0 (p :: l) D us0 p (kmap (kernel_data k0)) KERNBASE k2 l ∅) as
    [H|(k' & l' & ts' & E & C' & Hm & _)]; [apply Hk|exact C|by apply kmap_rows|done|by intros va _; rewrite Hz|by left|].
  right. exists p, k', l', ts'. done.
Qed.

(** ** Copying the pages *)

(** The flags of a present entry. *)
Lemma flags_present e :
  has e PTE_P = true → Z.lor (PTE_FLAGS e) PTE_P = PTE_FLAGS e ∧ 0 <= PTE_FLAGS e < PGSIZE.
Proof.
  unfold has, PTE_P. change 1 with (Z.ones 1) at 1. rewrite Z.land_ones by lia. intros H%negb_true_iff%Z.eqb_neq.
  rewrite PTE_FLAGS_arith. pose proof (Z.mod_pos_bound (u32 e) PGSIZE ltac:(done)) as Hr.
  split; [|done]. set (f := u32 e mod PGSIZE) in *.
  assert (f = Z.lor (Z.shiftl (f / 2) 1) 1) as ->.
  - rewrite lor_shift_add by lia. unfold f, u32, wrapu, PGSIZE in *. zdiv.
  - by rewrite <- Z.lor_assoc, Z.lor_diag.
Qed.

(** A space none of whose pages was free is not affected by a change of pages
    that were. *)
Lemma other_space k0 l0 D ts us k l :
  uvm_ok k0 l0 D ts us → mem_frame k0 k → kmem_ok k l → l ⊆ l0 → pages_kept k0 k l0 →
  uvm_ok k l D ts us ∧ ∀ va, pte_at (mem k) D va = pte_at (mem k0) D va.
Proof.
  intros [(Hk & Hd & Ho) He Hp Hi] Hf Hk' Hl Hq. pose proof (mem_frame_end _ _ Hf) as Ee.
  destruct (pgdir_frame _ (mem k0) (mem k) D ts Hd) as [Hd' Hpte].
  { intros q Hqo. apply Hq; [by eapply owns_page|by apply Ho]. }
  split; [|done]. split; [|intros n Hn; rewrite Hpte; by apply He| |done].
  - split; [done|]. split; [by rewrite Ee|]. intros q Hqo ?. by apply (Ho q Hqo), Hl.
  - intros n p Hn. destruct (Hp n p Hn) as (H1 & H2 & H3 & H4). rewrite Ee. split; [done|].
    split; [done|]. split; [done|]. by intros ?%Hl.
Qed.

Section copy_loop.
Context (k0 : kernel) (l0 : list Z) (D : Z) (ts0 us0 : gmap Z Z) (D' : Z).
Context (Hsrc : uvm_ok k0 l0 D ts0 us0) (Hbytes : bytes_ok (mem k0)).
Notation copied := (copied k0 l0 D us0 D').

(** What [walkpgdir] finds in the source for page [n]. *)
Lemma source_entry k l ts us n q :
  copied k l ts us → us0 !! n = Some q →
  ∃ a, walkpgdir D (n * PGSIZE) false k = Ret a k ∧ a ≠ 0 ∧
    rd32 (mem k) a = pte_at (mem k0) D (n * PGSIZE) ∧
    has (pte_at (mem k0) D (n * PGSIZE)) PTE_P = true ∧
    P2V (PTE_ADDR (pte_at (mem k0) D (n * PGSIZE))) = q ∧
    page_ok (kernel_end k0) q ∧ q ∉ l0 ∧ 0 <= n < UPAGES.
Proof.
  intros C Hq. destruct (uv_page _ _ _ _ _ Hsrc n q Hq) as (Hn & Hpo & _ & Hnl).
  pose proof (uv_entry _ _ _ _ _ Hsrc n Hn) as He. rewrite Hq in He. destruct He as [He1 He2].
  destruct (other_space k0 l0 D ts0 us0 k l Hsrc (cp_frame _ _ _ _ _ _ _ _ _ C)) as [Hu Hpte].
  { apply (cp_new _ _ _ _ _ _ _ _ _ C). }
  { intros x Hx. apply (cp_own _ _ _ _ _ _ _ _ _ C). by left. }
  { apply C. }
  pose proof (uv_vm _ _ _ _ _ Hu) as Hv. pose proof Hv as (_ & Hd & _).
  destruct (ts0 !! PDX (n * PGSIZE)) as [t|] eqn:Ht.
  2: { rewrite <- Hpte in He1. by rewrite (pte_at_none _ _ _ _ _ Hd Ht) in He1. }
  exists (t + 4 * PTX (n * PGSIZE)). split; [by eapply walk_found|].
  split; [by apply Z.eqb_neq; eapply entry_addr|]. rewrite <- Hpte at 1.
  by rewrite (pte_at_some _ _ _ _ _ _ Hd Ht).
Qed.

(** Both ways the attempt to map page [p] may end. *)
Lemma copied_tried k p l ts us k2 k3 l3 ts3 :
  copied k (p :: l) ts us → (∀ q, page_ok (kernel_end k) q → q ≠ p → page_eq (mem k) (mem k2) q) →
  mem_frame k k2 → grown l l3 D' ts ts3 → vm_frame k2 k3 l D' ts →
  (∀ n, 0 <= n < UPAGES → is_Some (us !! n) →
     pte_at (mem k3) D' (n * PGSIZE) = pte_at (mem k) D' (n * PGSIZE)) →
  mem_frame k0 k3 ∧ kmem_ready k3 ∧ (∀ x, x ∈ p :: l3 ∨ owns D' ts3 x → x ∈ l0) ∧
  (∀ x, x ∈ l0 → x ∈ p :: l3 ∨ owns D' ts3 x ∨ ∃ n, us !! n = Some x) ∧ pages_kept k0 k3 l0 ∧
  ∀ n x, us !! n = Some x → x ∈ l0 ∧ ∃ q, us0 !! n = Some q ∧
    same_bytes (mem k0) q (mem k3) x ∧
    PTE_FLAGS (pte_at (mem k3) D' (n * PGSIZE)) = PTE_FLAGS (pte_at (mem k0) D (n * PGSIZE)).
Proof.
  intros C Hpe Hf2 (G1 & G2 & G3 & G4) (Hf3 & Hr3 & Hq3) Hpte.
  pose proof (copied_end _ _ _ _ _ _ _ _ _ C) as Ee. pose proof (mem_frame_end _ _ Hf2) as Ee2.
  destruct C as [Hu Hr Hf Ho Hk Hp Hq].
  split; [eapply mem_frame_trans; [exact Hf|by eapply mem_frame_trans]|]. split; [done|].
  split; [|split; [|split]].
  - intros x [[->|Hx%G1]%elem_of_cons|[Hx|Hx]%G2]; apply Ho; rewrite ?elem_of_cons; by auto.
  - intros x [[->|Hx]%elem_of_cons|[Hx|Hx]]%Hk; rewrite ?elem_of_cons; [by auto| |by auto..].
    destruct (G4 x Hx); auto.
  - intros q Hqo Hn. eapply page_eq_trans; [by apply Hq|].
    eapply page_eq_trans; [apply Hpe; [by rewrite Ee|]|apply Hq3; [by rewrite Ee2, Ee|..]].
    + intros ->. apply Hn, Ho. left. by left.
    + intros ?. by apply Hn, Ho; right.
    + intros ?. apply Hn, Ho. left. by right.
  - intros n x Hn. destruct (Hp n x Hn) as (Hx0 & q & Hq0 & Hs & Hfl). split; [done|].
    destruct (uv_page _ _ _ _ _ Hu n x Hn) as (Hnu & Hxo & Hno & Hnl).
    apply not_elem_of_cons in Hnl as [Hxp Hnl].
    exists q. split; [done|]. split; [|by rewrite Hpte by (done || by rewrite Hn)].
    intros i Hi. rewrite <- (Hs i Hi). transitivity (rd (mem k2) (x + i)).
    + apply (Hq3 x); [by rewrite Ee2|done|done|lia].
    + apply (Hpe x); [done|done|lia].
Qed.

(** No page for the copy. *)
Lemma copy_no_page k ts us :
  copied k [] ts us →
  ∃ k1 k' l', kalloc k = Ret 0 k1 ∧ freevm D' k1 = Ret tt k' ∧ given_up k0 l0 k' l'.
Proof.
  intros C. destruct (no_page D' k ts us) as (k1 & E1 & Hu1 & Hr1 & Hf1 & Em); [apply C..|].
  assert (copied k1 [] ts us) as C1.
  { eapply copied_grow; [exact C|done|apply grown_refl| |by rewrite Em].
    split; [done|]. split; [done|]. intros q _ _ _. by rewrite Em. }
  destruct (gives_up _ _ _ _ _ _ _ _ _ C1) as (k' & l' & E & G). exists k1, k', l'. done.
Qed.

(** No page table for the copy [p]. *)
Lemma copy_no_table k p l ts us k2 k3 ts3 :
  copied k (p :: l) ts us → (∀ q, page_ok (kernel_end k) q → q ≠ p → page_eq (mem k) (mem k2) q) →
  mem_frame k k2 → grown l [] D' ts ts3 → vm_frame k2 k3 l D' ts →
  (∀ n, 0 <= n < UPAGES → is_Some (us !! n) →
     pte_at (mem k3) D' (n * PGSIZE) = pte_at (mem k) D' (n * PGSIZE)) →
  page_ok (kernel_end k) p → ¬ owns D' ts p → p ∉ l → (∀ n, us !! n ≠ Some p) →
  uvm_ok k3 [] D' ts3 us →
  ∃ k4, kfree p k3 = Ret tt k4 ∧ copied k4 [p] ts3 us.
Proof.
  intros C Hpe Hf2 Hg Hvf Hpte Hp Hno Hpl Hnu Hu3. pose proof (copied_end _ _ _ _ _ _ _ _ _ C) as Ee.
  destruct (copied_tried k p l ts us k2 k3 [] ts3) as (T1 & T2 & T3 & T4 & T5 & T6); [done..|].
  pose proof (mem_frame_end _ _ T1) as Ee3. assert (p ∈ l0) as Hp0 by (apply T3; left; by left).
  destruct (free_extra k3 [] D' ts3 us p Hu3 T2) as (k4 & E4 & Hu4 & Hr4 & Hf4 & Hs4).
  { by rewrite Ee3, <- Ee. } { intros [|]%Hg; done. } { apply not_elem_of_nil. } { done. }
  rewrite Ee3 in Hs4. exists k4. split; [done|].
  destruct (pgdir_frame (kernel_end k0) (mem k3) (mem k4) D' ts3) as [_ Hpte4].
  { rewrite <- Ee3. apply Hu3. }
  { intros x Hx. apply Hs4; [rewrite <- Ee3; eapply owns_page; [apply Hu3|done]|].
    intros ->. destruct Hg as (_ & Hg2 & _). by destruct (Hg2 p Hx). }
  split; [done|done|by eapply mem_frame_trans|done|done| |].
  - intros n x Hn. destruct (T6 n x Hn) as (Hx & q & Hq & Hs & Hfl). split; [done|]. exists q.
    split; [done|]. split; [|by rewrite Hpte4].
    destruct (uv_page _ _ _ _ _ Hu3 n x Hn) as (_ & Hxo & _). rewrite Ee3 in Hxo.
    intros i Hi. rewrite <- (Hs i Hi). apply (Hs4 x); [done|intros ->; by apply (Hnu n)|lia].
  - intros q Hq Hn. eapply page_eq_trans; [by apply T5|]. apply Hs4; [done|]. by intros ->.
Qed.

(** One page. *)
Lemma copy_step k p l ts us n q :
  copied k (p :: l) ts us → us !! n = None → us0 !! n = Some q →
  ∃ k1 r k3, kalloc k = Ret p k1 ∧ p ≠ 0 ∧
    mappages D' (n * PGSIZE) PGSIZE (V2P p) (PTE_FLAGS (pte_at (mem k0) D (n * PGSIZE)))
      (k1 <|mem ::= λ m, memmove m p q PGSIZE|>) = Ret r k3 ∧
    (r = 0 ∧ (∃ l3 ts3, copied k3 l3 ts3 (<[n:=p]> us)) ∧
       (∀ va, KERNBASE <= va < 2 ^ 32 → pte_at (mem k3) D' va = pte_at (mem k) D' va) ∨
     r = -1 ∧ ∃ k4 ts4, kfree p k3 = Ret tt k4 ∧ copied k4 [p] ts4 us).
Proof.
  intros C Hnone Hq. destruct (source_entry k (p :: l) ts us n q C Hq) as (a & _ & _ & _ & HeP & _ & Hqo & Hql & Hn).
  destruct (flags_present _ HeP) as [Hfl Hflr]. pose proof (copied_end _ _ _ _ _ _ _ _ _ C) as Ee.
  destruct (take_page_with k p l D' ts us) as (k1 & E1 & Hp0 & Em & Hp & Hno & Hpl & Hnu & Ht); [apply C..|].
  assert (p ∈ l0) as Hpl0 by (apply (cp_own _ _ _ _ _ _ _ _ _ C); left; by left).
  assert (q ≠ p) as Hqp by (by intros ->). rewrite <- Ee in Hqo.
  assert (∀ b, rd (memmove (mem k1) p q PGSIZE) b =
    if decide (p <= b < p + PGSIZE) then rd (mem k0) (q + (b - p)) else rd (mem k) b) as Hmv.
  { intros b. pose proof (cp_rest _ _ _ _ _ _ _ _ _ C q ltac:(by rewrite <- Ee) Hql) as Hqe.
    pose proof (pages_apart _ q p Hqo Hp Hqp). rewrite Em, memmove_apart; [|done|lia|].
    - destruct (decide _); [|done]. apply Hqe. lia.
    - intros i Hi. rewrite Hqe by done. apply Hbytes. }
  assert (∀ x, page_ok (kernel_end k) x → x ≠ p → page_eq (mem k) (memmove (mem k1) p q PGSIZE) x) as Hpe.
  { intros x Hx Hne b Hb. pose proof (pages_apart _ x p Hx Hp Hne). by rewrite Hmv, decide_False by lia. }
  destruct (Ht _ Hpe) as (Hu2 & Hr2 & Hf2 & Hpt2). set (k2 := k1 <|mem := _|>) in *.
  destruct (map_page k2 l D' ts us n p (PTE_FLAGS (pte_at (mem k0) D (n * PGSIZE)))) as
    (r & k3 & l3 & ts3 & E3 & Hg & Hvf & Hpv & _ & Hres); [exact Hu2|exact Hr2|done|done|done|by rewrite (mem_frame_end _ _ Hf2)|done..|].
  exists k1, r, k3. split; [done|]. split; [done|]. split; [exact E3|].
  assert (∀ i, 0 <= i < UPAGES → is_Some (us !! i) →
    pte_at (mem k3) D' (i * PGSIZE) = pte_at (mem k) D' (i * PGSIZE)) as Hold.
  { intros i Hi Hs. pose proof (upage_range i Hi). rewrite Hpv, Hpt2 by (unfold KERNBASE in *; lia).
    rewrite decide_False; [done|]. intros [_ Hx]. assert (i = n) as -> by (unfold PGSIZE in *; lia).
    rewrite Hnone in Hs. by destruct Hs. }
  destruct Hres as [[-> Hu3]|(-> & -> & Hu3)]; [left|right]; (split; [done|]).
  - pose proof (upage_range n Hn). destruct (copied_tried k p l ts us k2 k3 l3 ts3) as (T1 & T2 & T3 & T4 & T5 & T6); [done..|].
    split.
    2: { intros va Hva. rewrite Hpv, Hpt2 by (unfold KERNBASE in *; lia). rewrite decide_False; [done|].
         unfold KERNBASE, PGSIZE, UPAGES in *. intros [_ ?]. zdiv. }
    exists l3, ts3. split; [done|done|done| | | |done].
    + intros x [Hx|Hx]; apply T3; [left; by right|by right].
    + intros x [[->|Hx]%elem_of_cons|[Hx|[i Hi]]]%T4; [|by auto|by auto|].
      * right. right. exists n. apply lookup_insert_eq.
      * right. right. exists i. rewrite lookup_insert_ne; [done|]. intros <-. congruence.
    + intros i x [[<- <-]|[Hne Hi]]%lookup_insert_Some; [|by apply T6]. split; [done|]. exists q. split; [done|].
      split.
      * intros j Hj. transitivity (rd (mem k2) (p + j)).
        -- destruct Hvf as (_ & _ & Hvp). apply (Hvp p); [by rewrite (mem_frame_end _ _ Hf2)|done|done|lia].
        -- change (mem k2) with (memmove (mem k1) p q PGSIZE). rewrite Hmv, decide_True by lia. f_equal. lia.
      * rewrite Hpv, decide_True by (unfold KERNBASE, PGSIZE in *; lia).
        destruct (user_pte (kernel_end k) p (PTE_FLAGS (pte_at (mem k0) D (n * PGSIZE)))) as (_ & _ & ->);
          [eapply vm_ok_end, uv_vm, C|done|done|exact Hfl].
  - destruct (copy_no_table k p l ts us k2 k3 ts3) as (k4 & E4 & C4); [done..|]. exists k4, ts3. done.
Qed.

Lemma sized_insert us n p :
  sized us (n * PGSIZE) → 0 <= n → sized (<[n:=p]> us) ((n + 1) * PGSIZE).
Proof.
  intros Hs Hn i. rewrite lookup_insert_is_Some, (Hs i). unfold in_range, PGSIZE.
  destruct (decide (n = i)); lia.
Qed.

Lemma copy_short k l ts us n sz :
  copied k l ts us → (length l ≤ 1)%nat → sized us (n * PGSIZE) → 0 <= n → n * PGSIZE < sz →
  Z.of_nat (length l0) <= 2 + NPDENTRIES + sz / PGSIZE.
Proof.
  intros C Hl Hs Hn Hlt. destruct (uv_vm _ _ _ _ _ Hsrc) as ((_ & Hnd & _) & _).
  pose proof (copied_exhausted k0 l0 D us0 D' k l ts us n Hnd C Hl Hs Hn). unfold PGSIZE in *. zdiv.
Qed.

Lemma copy_loop_ok fuel k l ts us n sz :
  copied k l ts us → sized us (n * PGSIZE) → sized us0 sz → 0 <= n → (n - 1) * PGSIZE < sz →
  sz <= KERNBASE → sz - n * PGSIZE <= (Z.of_nat fuel - 1) * PGSIZE → (0 < fuel)%nat →
  (∃ k' l', copyuvm_loop fuel D D' (n * PGSIZE) sz k = Ret 0 k' ∧ given_up k0 l0 k' l' ∧
     Z.of_nat (length l0) <= 2 + NPDENTRIES + sz / PGSIZE) ∨
  ∃ k' l' ts' us', copyuvm_loop fuel D D' (n * PGSIZE) sz k = Ret D' k' ∧ copied k' l' ts' us' ∧
    sized us' sz ∧ ∀ va, KERNBASE <= va < 2 ^ 32 → pte_at (mem k') D' va = pte_at (mem k) D' va.
Proof.
  revert k l ts us n. induction fuel as [|fuel IH]; intros k l ts us n C Hs Hs0 Hn Hlo Hb Hf H0; [lia|].
  cbn [copyuvm_loop]. destruct (Z.ltb_spec (n * PGSIZE) sz) as [Hlt|Hge]; cbn [negb].
  2: { right. exists k, l, ts, us. split; [done|]. split; [done|]. split; [|done].
       intros i. rewrite (Hs i). unfold in_range, PGSIZE in *. lia. }
  destruct (us0 !! n) as [q|] eqn:Hq.
  2: { exfalso. destruct (Hs0 n) as [_ Hx]. destruct Hx as [? Hx]; [unfold in_range, PGSIZE in *; lia|congruence]. }
  destruct (source_entry k l ts us n q C Hq) as (a & Ew & Ha & Er & HeP & Heq & _ & _ & Hnu).
  rewrite (bind_Ret _ _ _ _ _ Ew). destruct (Z.eqb_spec a 0); [done|].
  unfold ld32. rewrite bind_gets, Er, HeP, Heq. cbn [negb].
  destruct l as [|p l].
  { destruct (copy_no_page k ts us C) as (k1 & k' & l' & E1 & E2 & G). left. exists k', l'.
    rewrite (bind_Ret _ _ _ _ _ E1). cbn [Z.eqb]. rewrite (bind_Ret _ _ _ _ _ E2).
    split; [done|]. split; [done|]. eapply copy_short; [exact C|cbn; lia|done..]. }
  assert (us !! n = None) as Hnone.
  { apply eq_None_not_Some. intros Hx%Hs. unfold in_range in Hx. lia. }
  destruct (copy_step k p l ts us n q C Hnone Hq) as (k1 & r & k3 & E1 & Hp0 & E3 & Hres).
  rewrite (bind_Ret _ _ _ _ _ E1). destruct (Z.eqb_spec p 0); [done|].
  rewrite bind_modify, (bind_Ret _ _ _ _ _ E3).
  destruct Hres as [(-> & (l3 & ts3 & C3) & Hk3)|(-> & k4 & ts4 & E4 & C4)]; cbn [Z.ltb Z.compare].
  - assert (u32 (n * PGSIZE + PGSIZE) = (n + 1) * PGSIZE) as ->.
    { rewrite u32_small; [lia|]. pose proof (upage_range n Hnu). unfold KERNBASE, PGSIZE in *. lia. }
    destruct (IH k3 l3 ts3 (<[n:=p]> us) (n + 1)) as [H|(k' & l' & ts' & us' & E & C' & Hs' & Hk')];
      [done|by apply sized_insert|done|lia|unfold PGSIZE in *; lia|done|unfold PGSIZE in *; lia|unfold PGSIZE in *; lia|by left|].
    right. exists k', l', ts', us'. split; [done|]. split; [done|]. split; [done|].
    intros va Hva. by rewrite Hk', Hk3.
  - destruct (gives_up _ _ _ _ _ _ _ _ _ C4) as (k' & l' & E & G). left. exists k', l'.
    rewrite (bind_Ret _ _ _ _ _ E4), (bind_Ret _ _ _ _ _ E).
    split; [done|]. split; [done|]. eapply copy_short; [exact C4|cbn; lia|done..].
Qed.
End copy_loop.

(** The whole copy. *)
Lemma copyuvm_ok k l D ts us sz :
  uvm_ok k l D ts us → kmem_ready k → bytes_ok (mem k) → data_ok (kernel_data k) →
  sized us sz → 0 <= sz <= KERNBASE →
  ∃ k' l', uvm_ok k' l' D ts us ∧
    ((copyuvm D sz k = Ret 0 k' ∧ given_up k l k' l' ∧
        Z.of_nat (length l) <= 2 + NPDENTRIES + sz / PGSIZE) ∨
     ∃ D' ts' us', copyuvm D sz k = Ret D' k' ∧ D' ≠ 0 ∧ copied k l D us D' k' l' ts' us' ∧
       sized us' sz ∧ rows_mapped (mem k') D' (kmap (kernel_data k))).
Proof.
  intros Hu Hr Hb Hd Hs Hsz. unfold copyuvm.
  assert (∀ k' l', given_up k l k' l' → uvm_ok k' l' D ts us) as Hgu.
  { intros k' l' [G1 G2 G3 G4 G5]. eapply (other_space k l); [done..| |done]. intros x. apply G4. }
  destruct (setupkvm_ok k l D us) as [(k1 & l1 & E1 & G & Hsh)|(D' & k1 & l1 & ts1 & E1 & HD & C & Hm)];
    [apply Hu|done|done| |]; rewrite (bind_Ret _ _ _ _ _ E1).
  { exists k1, l1. split; [by apply Hgu|]. left. split; [done|]. split; [done|].
    assert (0 <= sz / PGSIZE) by (apply Z.div_pos; [lia|done]). lia. }
  destruct (Z.eqb_spec D' 0); [done|].
  destruct (copy_loop_ok k l D ts us D' Hu Hb (S (Z.to_nat (sz / PGSIZE + 1))) k1 l1 ts1 ∅ 0 sz) as
    [(k' & l' & E & G & Hsh)|(k' & l' & ts' & us' & E & C' & Hs' & Hk')];
    [exact C|intros i; rewrite lookup_empty; unfold in_range, PGSIZE; split; [by intros []|lia]|done|lia|unfold PGSIZE; lia|lia| |lia| |].
  { unfold PGSIZE. zdiv. }
  { exists k', l'. split; [by apply Hgu|]. left. done. }
  exists k', l'. split.
  { eapply (other_space k l); [done|apply C'|apply C'| |apply C']. intros x Hx. apply (cp_own _ _ _ _ _ _ _ _ _ C'). by left. }
  right. exists D', ts', us'. split; [done|]. split; [done|]. split; [done|]. split; [done|].
  intros v s e f Hin va Hva. destruct (rows_ok_lo KERNBASE _ _ _ _ _ (kmap_rows _ Hd) Hin).
  rewrite Hk' by lia. by eapply Hm.
Qed.

(** ** Properties *)

(** C8: [copyuvm] of a space whose user pages are those below [sz].  Either it
    returns a new directory with its own copy of every page below [sz], each
    with the bytes and the permissions of the original, and with the kernel
    mapped as in every directory; or it returns 0 and every page it took is
    free again.  That only happens when there are not more free pages than a
    directory, 1024 page tables, one page, and the pages of the copy.  In
    both cases the original is as it was, only pages that were free have
    changed, and no page is lost. *)
Theorem copyuvm_correct k l D ts us sz :
  uvm_ok k l D ts us → kmem_ready k → bytes_ok (mem k) → data_ok (kernel_data k) →
  sized us sz → 0 <= sz <= KERNBASE →
  ∃ k' l', uvm_ok k' l' D ts us ∧
    ((copyuvm D sz k = Ret 0 k' ∧ given_up k l k' l' ∧
        Z.of_nat (length l) <= 2 + NPDENTRIES + sz / PGSIZE) ∨
     ∃ D' ts' us', copyuvm D sz k = Ret D' k' ∧ D' ≠ 0 ∧ copied k l D us D' k' l' ts' us' ∧
       sized us' sz ∧ rows_mapped (mem k') D' (kmap (kernel_data k))).
Proof. apply copyuvm_ok. Qed.

(** ** Witnesses *)

(** Memory that is zero but for the links of a free list. *)
Fixpoint links (l : list Z) : gmap Z Z :=
  match l with
  | [] => ∅
  | p :: l => wr32 (links l) p (default 0 (head l))
  end.

Lemma links_zero l a : (∀ p, p ∈ l → p + 4 <= a ∨ a < p) → rd (links l) a = 0.
Proof.
  induction l as [|p l IH]; intros Ha; cbn [links]; [done|].
  pose proof (Ha p ltac:(by left)). rewrite wr32_spec, decide_False by lia. apply IH. intros q Hq. apply Ha. by right.
Qed.

Lemma links_bytes l : bytes_ok (links l).
Proof.
  induction l as [|p l IH]; intros a; cbn [links]; [unfold rd; rewrite lookup_empty; cbn; lia|].
  rewrite wr32_spec. destruct (decide _); [apply u8_range|apply IH].
Qed.

Lemma chain_frame m m' h l : (∀ p, p ∈ l → rd32 m' p = rd32 m p) → chain m h l → chain m' h l.
Proof.
  revert h. induction l as [|p l IH]; intros h Hm; [done|]. cbn. intros [-> Hc]. split; [done|].
  rewrite Hm by (by left). apply IH; [|done]. intros q Hq. apply Hm. by right.
Qed.

Lemma links_chain e l :
  KERNLINK <= e → NoDup l → Forall (page_ok e) l → chain (links l) (default 0 (head l)) l.
Proof.
  intros He. induction l as [|p l IH]; intros Hnd Hf; [done|].
  apply NoDup_cons in Hnd as [Hp Hnd]. apply Forall_cons in Hf as [Hpo Hf]. cbn [chain links head default].
  split; [done|]. rewrite rd32_wr32_same, u32_small.
  - eapply chain_frame; [|by apply IH]. intros q Hq. apply rd32_wr32_ne.
    rewrite Forall_forall in Hf. assert (q ≠ p) as Hne by (by intros ->).
    pose proof (pages_apart e q p (Hf q Hq) Hpo Hne). unfold PGSIZE in *. lia.
  - destruct l as [|q l]; [done|]. apply Forall_cons in Hf as [[_ Hq] _].
    unfold KERNLINK, KERNBASE, EXTMEM, PHYSTOP in *. cbn. lia.
Qed.

(** An empty space and 1100 free pages, from 0x80400000 on. *)
Definition many : list Z := (λ i, 0x80400000 + i * PGSIZE) <$> seqZ 0 1100.
Definition k_many : kernel := k_empty <|mem := links many|> <|freelist := 0x80400000|>.

Lemma elem_of_many p : p ∈ many ↔ ∃ i, p = 0x80400000 + i * PGSIZE ∧ 0 <= i < 1100.
Proof.
  unfold many. rewrite list_elem_of_fmap. split; intros (i & -> & Hi); exists i; (split; [done|]);
    rewrite elem_of_seqZ in *; lia.
Qed.

Lemma k_many_kmem : kmem_ok k_many many.
Proof.
  assert (NoDup many) as Hnd.
  { apply NoDup_fmap_2; [|apply NoDup_seqZ]. intros x y. unfold PGSIZE. lia. }
  assert (Forall (page_ok 0x80110000) many) as Hf.
  { apply Forall_forall. intros p (i & -> & Hi)%elem_of_many.
    split; unfold KERNBASE, PHYSTOP, PGSIZE; [zdiv|lia]. }
  split; [|by repeat split]. by apply (links_chain 0x80110000).
Qed.

Lemma k_many_ready : kmem_ready k_many.
Proof. unfold kmem_ready. discriminate. Qed.

Lemma k_many_zero a : 0x80300000 <= a < 0x80400000 → rd (mem k_many) a = 0.
Proof. intros Ha. apply links_zero. intros p (i & -> & Hi)%elem_of_many. unfold PGSIZE. lia. Qed.

Lemma k_many_ok : uvm_ok k_many many space_dir ∅ ∅.
Proof.
  assert (∀ i, 0 <= i < 1024 → rd32 (mem k_many) (space_dir + 4 * i) = 0) as Hz.
  { intros i Hi. unfold rd32. by rewrite !k_many_zero by (unfold space_dir; lia). }
  assert (∀ va, pte_at (mem k_many) space_dir va = 0) as Hp.
  { intros va. unfold pte_at. by rewrite Hz by apply PDX_range. }
  split; [|intros n _; by rewrite lookup_empty, Hp|done|done].
  split; [exact k_many_kmem|]. split.
  - split; [by split| |done|done]. intros i Hi. rewrite lookup_empty. by rewrite Hz.
  - intros p [->|[i Hi]]; [|done]. intros (i & Hi & ?)%elem_of_many. unfold space_dir, PGSIZE in *. lia.
Qed.

Lemma copyuvm_correct_witness :
  ∃ k' l' D', uvm_ok k' l' space_dir ∅ ∅ ∧ copyuvm space_dir 0 k_many = Ret D' k' ∧ D' ≠ 0 ∧
    rows_mapped (mem k') D' (kmap 0x80108000).
Proof.
  destruct (copyuvm_correct k_many many space_dir ∅ ∅ 0 k_many_ok k_many_ready)
    as (k' & l' & Hu & [(_ & _ & Hl)|(D' & ts' & us' & E & HD & _ & _ & Hm)]).
  - apply links_bytes.
  - split; [done|]. split; done.
  - exact sized_empty.
  - done.
  - exfalso. unfold many in Hl. rewrite length_fmap, length_seqZ in Hl. by apply Hl.
  - exists k', l', D'. split; [exact Hu|]. split; [exact E|]. split; [exact HD|exact Hm].
Defined.
