(* ===== verification/User.v ===== *)
(** Memory as the kernel's own loads and stores see it.

    The kernel dereferences user pointers directly: they are translated by
    the page directory that [cr3] points to.  Kernel addresses are mapped to
    themselves by every directory that [setupkvm] builds. *)

From stdpp Require Import base gmap strings list.
From Stdlib Require Import ZArith Lia.
From S2P Require Import Prelude CString Mmu State Disk Spinlock Kalloc Vm.
#[local] Open Scope Z_scope.

(** ** Loads and stores *)

(** The address of the byte in the kernel's part of the address space.  A
    store needs a writable page, also for the kernel: [entry.S] sets
    [CR0_WP]. *)
Definition translate (k : kernel) (store : bool) (va : Z) : option Z :=
  if KERNBASE <=? va then Some va else
  let e := pte_at (mem k) (P2V (cr3 k)) va in
  if has e PTE_P && (negb store || has e PTE_W) then Some (P2V (PTE_ADDR e) + va mod PGSIZE) else None.

Definition ld8 (va : Z) : M kernel Z := λ k,
  match translate k false va with Some a => Ret (rd (mem k) a) k | None => Fault end.
Definition st8 (va v : Z) : M kernel unit := λ k,
  match translate k true va with
  | Some a => Ret tt (k <|mem ::= <[a:=u8 v]>|>)
  | None => Fault
  end.

Fixpoint vload (n : nat) (va : Z) : M kernel (list Z) :=
  match n with
  | O => ret []
  | S n => let! b := ld8 va in let! bs := vload n (u32 (va + 1)) in ret (b :: bs)
  end.

Fixpoint vstore (va : Z) (bs : list Z) : M kernel unit :=
  match bs with
  | [] => ret tt
  | b :: bs => st8 va b;;; vstore (u32 (va + 1)) bs
  end.

(** A 32-bit load and store. *)
Definition vld32 (va : Z) : M kernel Z := let! bs := vload 4 va in ret (unle bs).
Definition vst32 (va v : Z) : M kernel unit := vstore va (le 4 (u32 v)).

(** ** Where [readi] puts its data and [writei] takes it from

    The destination of a read is an address, or a variable of the caller
    whose bytes are collected.  [put d bs] stores the bytes at [d] and gives
    the next place. *)
Class Sink (A : Type) := put : A → list Z → M kernel A.
Class Source (A : Type) := fetch : A → nat → M kernel (list Z * A).

#[global] Instance sink_mem : Sink Z := λ va bs,
  vstore va bs;;; ret (u32 (va + Z.of_nat (length bs))).
#[global] Instance sink_local : Sink (list Z) := λ acc bs, ret (acc ++ bs).
#[global] Instance source_mem : Source Z := λ va n,
  let! bs := vload n va in ret (bs, u32 (va + Z.of_nat n)).
#[global] Instance source_local : Source (list Z) := λ l n,
  if (n <=? length l)%nat then ret (take n l, drop n l) else fault.

(** ** Lemmas *)

(** Two bytes at different places. *)
Lemma translate_kernel k s va : KERNBASE <= va → translate k s va = Some va.
Proof. intros H. unfold translate. destruct (Z.leb_spec KERNBASE va); [done|lia]. Qed.

(** A kernel address is read and written in place. *)
Lemma ld8_kernel k va : KERNBASE <= va → ld8 va k = Ret (rd (mem k) va) k.
Proof. intros H. unfold ld8. by rewrite translate_kernel. Qed.

Lemma st8_kernel k va v :
  KERNBASE <= va → st8 va v k = Ret tt (k <|mem ::= <[va:=u8 v]>|>).
Proof. intros H. unfold st8. by rewrite translate_kernel. Qed.

(** Loading changes nothing, and gives as many bytes as asked for. *)
Lemma vload_Ret n va k bs k' : vload n va k = Ret bs k' → k' = k ∧ length bs = n.
Proof.
  revert va bs k'. induction n as [|n IH]; intros va bs k' H; cbn in H.
  - by injection H as <- <-.
  - apply bind_Ret_inv in H as (b & k1 & H1 & H2).
    assert (k1 = k) as -> by (unfold ld8 in H1; case_match; by simplify_eq).
    apply bind_Ret_inv in H2 as (bs' & k2 & H2 & H3). apply IH in H2 as [-> Hl].
    injection H3 as <- <-. cbn. by rewrite Hl.
Qed.

(** *** What a process sees of its memory *)

(** The address [i] bytes further on. *)
Definition nextn (i : nat) (va : Z) : Z := Nat.iter i (λ a, u32 (a + 1)) va.

Lemma nextn_S i va : nextn i (u32 (va + 1)) = nextn (S i) va.
Proof. unfold nextn. by rewrite Nat.iter_succ_r. Qed.

(** The kernel can load the bytes [bs] at [va]. *)
Definition sees (k : kernel) (va : Z) (bs : list Z) : Prop := vload (length bs) va k = Ret bs k.

(** Loads and stores depend on the memory and the page directory in use. *)
Definition same_view (k k' : kernel) : Prop := mem k' = mem k ∧ cr3 k' = cr3 k.

Lemma translate_view k k' s va : same_view k k' → translate k' s va = translate k s va.
Proof. intros [E1 E2]. unfold translate. by rewrite E1, E2. Qed.

Lemma sees_lookup k va bs i b : sees k va bs → bs !! i = Some b → ld8 (nextn i va) k = Ret b k.
Proof.
  revert va i. induction bs as [|b' bs IH]; intros va i H Hi; [done|]. unfold sees in H. cbn in H.
  apply bind_Ret_inv in H as (c & k1 & H1 & H2).
  assert (k1 = k) as -> by (unfold ld8 in H1; case_match; by simplify_eq).
  apply bind_Ret_inv in H2 as (cs & k2 & H2 & H3). pose proof (vload_Ret _ _ _ _ _ H2) as [-> _].
  injection H3 as -> ->. destruct i as [|i]; [cbn in *; by simplify_eq|].
  rewrite <- nextn_S. by apply IH.
Qed.

Lemma ld8_view k k' va b : same_view k k' → ld8 va k = Ret b k → ld8 va k' = Ret b k'.
Proof.
  intros Hv. unfold ld8. rewrite (translate_view k k') by done. destruct Hv as [-> _].
  case_match; [|done]. by intros [= ->].
Qed.

(** The bytes one by one. *)
Lemma sees_intro k va bs : (∀ i b, bs !! i = Some b → ld8 (nextn i va) k = Ret b k) → sees k va bs.
Proof.
  revert va. induction bs as [|b bs IH]; intros va H; [done|]. unfold sees. cbn [length vload].
  erewrite bind_Ret by exact (H 0%nat b eq_refl). erewrite bind_Ret; [done|].
  apply IH. intros i c Hi. rewrite nextn_S. by apply H.
Qed.

Lemma sees_view k k' va bs : same_view k k' → sees k va bs → sees k' va bs.
Proof. intros Hv H. apply sees_intro. intros i b Hi. eapply ld8_view; [done|]. by eapply sees_lookup. Qed.

(** The memories agree but at the places [f i], [i < n]. *)
Definition same_but (n : nat) (f : nat → Z) (m m' : gmap Z Z) : Prop :=
  ∀ a, (∀ i, (i < n)%nat → a ≠ f i) → rd m' a = rd m a.

(** The kernel can store [n] bytes at [va]: they go to the different places
    [f i], and storing there does not change the translation. *)
Definition stores (k : kernel) (va : Z) (n : nat) (f : nat → Z) : Prop :=
  (∀ i j, (i < n)%nat → (j < n)%nat → f i = f j → i = j) ∧
  ∀ k' i, cr3 k' = cr3 k → same_but n f (mem k) (mem k') → (i < n)%nat →
    translate k' true (nextn i va) = Some (f i).

Lemma same_but_refl n f m : same_but n f m m.
Proof. by intros a _. Qed.

Lemma stores_view k k' va n f :
  cr3 k' = cr3 k → same_but n f (mem k) (mem k') → stores k va n f → stores k' va n f.
Proof.
  intros Ec Em [Hinj H]. split; [done|]. intros k2 i Ec2 Em2 Hi. apply H; [congruence| |done].
  intros a Ha. by rewrite (Em2 a Ha), (Em a Ha).
Qed.

(** One byte of them. *)
Lemma put_byte k va n f i b :
  stores k va n f → (i < n)%nat →
  put (nextn i va) [b] k = Ret (nextn (S i) va) (k <|mem ::= λ m, wr m (f i) b|>) ∧
  same_but n f (mem k) (wr (mem k) (f i) b) ∧ stores (k <|mem ::= λ m, wr m (f i) b|>) va n f.
Proof.
  intros [Hinj H] Hi. assert (same_but n f (mem k) (wr (mem k) (f i) b)) as Hb.
  { intros a Ha. rewrite rd_wr, decide_False; [done|]. intros <-. by apply (Ha i). }
  split_and!; [|done|].
  - unfold put, sink_mem. cbn [vstore]. rewrite bind_assoc. unfold st8 at 1.
    erewrite bind_Ret; [|rewrite (H k i eq_refl (same_but_refl _ _ _) Hi); reflexivity]. done.
  - by apply (stores_view k).
Qed.
