(* ===== verification/Kbd.v ===== *)
(** The keyboard driver: the tables of [kbd.h] and the translation of scan
    codes in [kbd.c]. *)

From Stdlib Require Import ZArith Lia Ascii String.
From stdpp Require Import base list strings.
From S2P Require Import Prelude.
#[local] Open Scope Z_scope.

(** ** The tables *)

(** The code of a character constant. *)
Definition chr (c : ascii) : Z := Z.of_N (N_of_ascii c).
(** The codes of the characters of a string literal. *)
Definition chars (s : string) : list Z := chr <$> list_ascii_of_string s.
Arguments chr _%_char_scope.
Arguments chars _%_string_scope.

Definition NO : Z := 0.
Definition SHIFT : Z := 1.
Definition CTL : Z := 2.
Definition ALT : Z := 4.
Definition CAPSLOCK : Z := 8.
Definition NUMLOCK : Z := 16.
Definition SCROLLLOCK : Z := 32.
Definition E0ESC : Z := 64.

Definition KEY_HOME : Z := 0xE0.
Definition KEY_END : Z := 0xE1.
Definition KEY_UP : Z := 0xE2.
Definition KEY_DN : Z := 0xE3.
Definition KEY_LF : Z := 0xE4.
Definition KEY_RT : Z := 0xE5.
Definition KEY_PGUP : Z := 0xE6.
Definition KEY_PGDN : Z := 0xE7.
Definition KEY_INS : Z := 0xE8.
Definition KEY_DEL : Z := 0xE9.

(** [C('x')], as it is stored in a [uchar]. *)
Definition C (x : ascii) : Z := u8 (chr x - chr "@").
Arguments C _%_char_scope.

(** An array of 256 [uchar]s: the first cells in order, and cells with a
    designated index; the others are 0. *)
Definition table (dense : list Z) (sparse : list (nat * Z)) : list Z :=
  foldr (λ '(i, v), <[i:=v]>) (dense ++ replicate (256 - length dense) 0) sparse.

Definition shiftcode : list Z :=
  table [] [(29, CTL); (42, SHIFT); (54, SHIFT); (56, ALT); (157, CTL); (184, ALT)]%nat.

Definition togglecode : list Z :=
  table [] [(58, CAPSLOCK); (69, NUMLOCK); (70, SCROLLLOCK)]%nat.

(** The keys that follow an escape, in all three maps: their codes are
    0xC8, 0xD0, 0xC9, 0xD1, 0xCB, 0xCD, 0x97, 0xCF, 0xD2 and 0xD3. *)
Definition escaped : list (nat * Z) :=
  [(200, KEY_UP); (208, KEY_DN); (201, KEY_PGUP); (209, KEY_PGDN); (203, KEY_LF); (205, KEY_RT);
   (151, KEY_HOME); (207, KEY_END); (210, KEY_INS); (211, KEY_DEL)]%nat.

Definition newline : Z := 10.
Definition tab : Z := 9.
Definition backspace : Z := 8.
Definition quote : Z := 34.

(** The last rows of [normalmap] and [shiftmap], from 0x38 on. *)
Definition keypad : list Z :=
  [NO; chr " "; NO; NO; NO; NO; NO; NO; NO; NO; NO; NO; NO; NO; NO] ++ chars "789-456+1230." ++ [NO; NO; NO; NO].

Definition normalmap : list Z :=
  table ([NO; 0x1B] ++ chars "1234567890-=" ++ [backspace; tab] ++
         chars "qwertyuiop[]" ++ [newline; NO] ++ chars "asdfghjkl;'`" ++ [NO] ++ chars "\zxcvbnm,./" ++
         [NO; chr "*"] ++ keypad)
        ([(156, newline); (181, chr "/")]%nat ++ escaped).

Definition shiftmap : list Z :=
  table ([NO; 27] ++ chars "!@#$%^&*()_+" ++ [backspace; tab] ++
         chars "QWERTYUIOP{}" ++ [newline; NO] ++ chars "ASDFGHJKL:" ++ [quote] ++ chars "~" ++ [NO] ++ chars "|ZXCVBNM<>?" ++
         [NO; chr "*"] ++ keypad)
        ([(156, newline); (181, chr "/")]%nat ++ escaped).

Definition ctlmap : list Z :=
  table (replicate 16 NO ++
         [C "Q"; C "W"; C "E"; C "R"; C "T"; C "Y"; C "U"; C "I"; C "O"; C "P"; NO; NO; 13; NO;
          C "A"; C "S"; C "D"; C "F"; C "G"; C "H"; C "J"; C "K"; C "L"; NO;
          NO; NO; NO; C "\"; C "Z"; C "X"; C "C"; C "V"; C "B"; C "N"; C "M"; NO; NO; C "/"; NO; NO])
        ([(156%nat, 13); (181%nat, C "/")] ++ escaped).

(** [charcode[4]] *)
Definition charcode : list (list Z) := [normalmap; shiftmap; ctlmap; ctlmap].

(** ** The code *)

Definition cell (t : list Z) (i : Z) : Z := nth (Z.to_nat i) t 0.

(** [kbdgetc] with the data byte [data] at the port, and the value of its
    static variable: the new value, and the result. *)
Definition kbd_data (shift data : Z) : Z * Z :=
  if data =? 0xE0 then (Z.lor shift E0ESC, 0)
  else if negb (Z.land data 0x80 =? 0) then
    let data := if negb (Z.land shift E0ESC =? 0) then data else Z.land data 0x7F in
    (Z.land shift (Z.lnot (Z.lor (cell shiftcode data) E0ESC)), 0)
  else
    let '(data, shift) :=
      if negb (Z.land shift E0ESC =? 0) then (Z.lor data 0x80, Z.land shift (Z.lnot E0ESC))
      else (data, shift) in
    let shift := Z.lor shift (cell shiftcode data) in
    let shift := Z.lxor shift (cell togglecode data) in
    let c := cell (nth (Z.to_nat (Z.land shift (Z.lor CTL SHIFT))) charcode []) data in
    (shift,
     if negb (Z.land shift CAPSLOCK =? 0) then
       if (chr "a" <=? c) && (c <=? chr "z") then c + (chr "A" - chr "a")
       else if (chr "A" <=? c) && (c <=? chr "Z") then c + (chr "a" - chr "A")
       else c
     else c).

(** A sequence of scan codes. *)
Fixpoint kbd_run (shift : Z) (codes : list Z) : Z * list Z :=
  match codes with
  | [] => (shift, [])
  | d :: codes =>
      let '(shift, c) := kbd_data shift d in
      let '(shift, cs) := kbd_run shift codes in (shift, c :: cs)
  end.

(** ** Specification *)

(** What holds of every state of the modifiers and every byte: the results
    are bytes, a released key gives nothing, and only an escape code leaves
    the escape flag set. *)
Definition kbd_case_ok (shift data : Z) : bool :=
  let '(shift', c) := kbd_data shift data in
  (0 <=? shift') && (shift' <? 128) && (0 <=? c) && (c <? 256) &&
  (if 128 <=? data then c =? 0 else true) &&
  Bool.eqb (negb (Z.land shift' E0ESC =? 0)) (data =? 0xE0).

Definition range (n : nat) : list Z := Z.of_nat <$> seq 0 n.

Lemma range_spec n x : 0 <= x < Z.of_nat n → x ∈ range n.
Proof.
  intros H. unfold range. apply list_elem_of_fmap. exists (Z.to_nat x). split; [lia|].
  apply elem_of_seq. lia.
Qed.

Lemma kbd_cases : forallb (λ s, forallb (kbd_case_ok s) (range 256)) (range 128) = true.
Proof. vm_compute. reflexivity. Qed.

Lemma kbd_case shift data : 0 <= shift < 128 → 0 <= data < 256 → kbd_case_ok shift data = true.
Proof.
  intros Hs Hd. pose proof kbd_cases as H. rewrite forallb_forall in H.
  specialize (H shift (proj1 (list_elem_of_In _ _) (range_spec 128 shift Hs))). cbv beta in H.
  rewrite forallb_forall in H. apply H, list_elem_of_In. by apply range_spec.
Qed.

Lemma kbd_data_range shift d :
  0 <= shift < 128 → 0 <= d < 256 →
  0 <= fst (kbd_data shift d) < 128 ∧ 0 <= snd (kbd_data shift d) < 256.
Proof.
  intros Hs Hd. pose proof (kbd_case shift d Hs Hd) as H. unfold kbd_case_ok in H.
  destruct (kbd_data shift d) as [shift' c]. cbn [fst snd].
  apply andb_true_iff in H as [H _]. apply andb_true_iff in H as [H _].
  apply andb_true_iff in H as [H H4]. apply andb_true_iff in H as [H H3]. apply andb_true_iff in H as [H1 H2]. lia.
Qed.

(** [kbdgetc], from any state of the modifier keys it can reach and for any
    sequence of bytes the keyboard may send: every table access is in range,
    the state stays a set of the seven flags, every character is a byte, and
    there is one result for each byte sent. *)
Theorem kbd_run_bounds (shift : Z) (codes : list Z) :
  0 <= shift < 128 → Forall (λ d, 0 <= d < 256) codes →
  let '(shift', cs) := kbd_run shift codes in
  0 <= shift' < 128 ∧ Forall (λ c, 0 <= c < 256) cs ∧ length cs = length codes.
Proof.
  intros Hs Hc. revert shift Hs. induction Hc as [|d codes Hd _ IH]; intros shift Hs; cbn [kbd_run]; [done|].
  pose proof (kbd_data_range shift d Hs Hd) as [H1 H2].
  destruct (kbd_data shift d) as [shift' c]. cbn [fst snd] in *.
  specialize (IH shift' ltac:(lia)). destruct (kbd_run shift' codes) as [shift'' cs].
  destruct IH as (A & B & D). split_and!; [lia..| |cbn; lia]. constructor; [lia|done].
Qed.

(** Shift, the letter H, release, then the letter I and the up arrow. *)
Lemma kbd_run_bounds_witness :
  kbd_run 0 [0x2A; 0x23; 0xAA; 0x17; 0xE0; 0x48] = (0, [0; chr "H"; 0; chr "i"; 0; KEY_UP]) ∧
  let '(shift', cs) := kbd_run 0 [0x2A; 0x23; 0xAA; 0x17; 0xE0; 0x48] in
  0 <= shift' < 128 ∧ Forall (λ c, 0 <= c < 256) cs ∧ length cs = 6%nat.
Proof.
  split; [vm_compute; reflexivity|].
  apply (kbd_run_bounds 0 [0x2A; 0x23; 0xAA; 0x17; 0xE0; 0x48]); [lia|repeat constructor; lia].
Defined.
