(* ===== verification/Apic.v ===== *)
(** The interrupt controllers and the clock: [picirq.c], [ioapic.c], [lapic.c],
    and the initialisation of the serial port in [uart.c].

    The controllers are hardware: the code is a program of accesses to ports
    and memory-mapped registers ([Ata.hprog]).  [microdelay] does nothing. *)

From stdpp Require Import base gmap list strings.
From Stdlib Require Import ZArith Lia Ascii.
From S2P Require Import Prelude Effects CString Mmu State Kbd Ata.
#[local] Open Scope Z_scope.

Definition load (a : Z) : hprog Z := let* r := pcall (Load a) in PRet (u32 (hnum r)).
Definition store (a v : Z) : hprog unit := pcall (Store a (u32 v));;* PRet tt.

(** ** [picirq.c] *)

Definition IO_PIC1 : Z := 0x20.
Definition IO_PIC2 : Z := 0xA0.

Definition picinit : hprog unit :=
  outb (IO_PIC1 + 1) 0xFF;;*
  outb (IO_PIC2 + 1) 0xFF.

(** ** [ioapic.c] *)

Definition IOAPIC : Z := 0xFEC00000.
Definition REG_ID : Z := 0x00.
Definition REG_VER : Z := 0x01.
Definition REG_TABLE : Z := 0x10.
Definition INT_DISABLED : Z := 0x00010000.

(** The members [reg] and [data] of [struct ioapic]. *)
Definition io_reg : Z := IOAPIC.
Definition io_data : Z := IOAPIC + 16.

Definition ioapicread (reg : Z) : hprog Z :=
  store io_reg reg;;*
  load io_data.

Definition ioapicwrite (reg data : Z) : hprog unit :=
  store io_reg reg;;*
  store io_data data.

Fixpoint ioapic_mask (n : nat) (i : Z) : hprog unit :=
  match n with
  | O => PRet tt
  | S n =>
      ioapicwrite (REG_TABLE + 2 * i) (Z.lor INT_DISABLED (T_IRQ0 + i));;*
      ioapicwrite (REG_TABLE + 2 * i + 1) 0;;*
      ioapic_mask n (i + 1)
  end.

(** The result is what is printed with [cprintf]. *)
Definition ioapicinit (ioapicid : Z) : hprog (list Z) :=
  let* ver := ioapicread REG_VER in
  let maxintr := Z.land (Z.shiftr ver 16) 0xFF in
  let* r := ioapicread REG_ID in
  let id := Z.shiftr r 24 in
  let msg := if negb (id =? ioapicid)
    then chars "ioapicinit: id isn't equal to ioapicid; not a MP" ++ [newline] else [] in
  ioapic_mask (Z.to_nat (maxintr + 1)) 0;;*
  PRet msg.

Definition ioapicenable (irq cpunum : Z) : hprog unit :=
  ioapicwrite (REG_TABLE + 2 * irq) (T_IRQ0 + irq);;*
  ioapicwrite (REG_TABLE + 2 * irq + 1) (Z.shiftl cpunum 24).

(** ** [uart.c] *)

Definition COM1 : Z := 0x3f8.

(** [uartputc] once the port is there. *)
Fixpoint uart_wait (n : nat) : hprog unit :=
  match n with
  | O => PRet tt
  | S n =>
      let* r := inb (COM1 + 5) in
      if Z.land r 0x20 =? 0 then uart_wait n else PRet tt
  end.

Definition uart_putc (c : Z) : hprog unit :=
  uart_wait 128;;*
  outb (COM1 + 0) c.

Fixpoint uart_puts (s : list Z) : hprog unit :=
  match s with
  | [] => PRet tt
  | c :: s => uart_putc c;;* uart_puts s
  end.

(** The result is the value of [uart]. *)
Definition uartinit : hprog bool :=
  outb (COM1 + 2) 0;;*
  outb (COM1 + 3) 0x80;;*
  outb (COM1 + 0) (115200 / 9600);;*
  outb (COM1 + 1) 0;;*
  outb (COM1 + 3) 0x03;;*
  outb (COM1 + 4) 0;;*
  outb (COM1 + 1) 0x01;;*
  let* s := inb (COM1 + 5) in
  if s =? 0xFF then PRet false else
  inb (COM1 + 2);;*
  inb (COM1 + 0);;*
  ioapicenable IRQ_COM1 0;;*
  uart_puts (chars "xv6..." ++ [newline]);;*
  PRet true.

(** ** [lapic.c] *)

Module Lapic.

Definition ID : Z := 0x0020 / 4.
Definition VER : Z := 0x0030 / 4.
Definition TPR : Z := 0x0080 / 4.
Definition EOI : Z := 0x00B0 / 4.
Definition SVR : Z := 0x00F0 / 4.
Definition ENABLE : Z := 0x00000100.
Definition ESR : Z := 0x0280 / 4.
Definition ICRLO : Z := 0x0300 / 4.
Definition INIT : Z := 0x00000500.
Definition STARTUP : Z := 0x00000600.
Definition DELIVS : Z := 0x00001000.
Definition ASSERT : Z := 0x00004000.
Definition LEVEL : Z := 0x00008000.
Definition BCAST : Z := 0x00080000.
Definition ICRHI : Z := 0x0310 / 4.
Definition TIMER : Z := 0x0320 / 4.
Definition X1 : Z := 0x0000000B.
Definition PERIODIC : Z := 0x00020000.
Definition PCINT : Z := 0x0340 / 4.
Definition LINT0 : Z := 0x0350 / 4.
Definition LINT1 : Z := 0x0360 / 4.
Definition ERROR : Z := 0x0370 / 4.
Definition MASKED : Z := 0x00010000.
Definition TICR : Z := 0x0380 / 4.
Definition TDCR : Z := 0x03E0 / 4.

Section lapic.
(** The address of the registers; 0 if there is no local APIC. *)
Context (lapic : Z).

Definition lapicw (index value : Z) : hprog unit :=
  store (lapic + 4 * index) value;;*
  load (lapic + 4 * ID);;*
  PRet tt.

(** The loop that waits for the delivery of an interrupt. *)
Fixpoint delivered (fuel : nat) : hprog unit :=
  match fuel with
  | O => PStuck
  | S fuel =>
      let* r := load (lapic + 4 * ICRLO) in
      if Z.land r DELIVS =? 0 then PRet tt else delivered fuel
  end.

Definition lapicinit (fuel : nat) : hprog unit :=
  if lapic =? 0 then PRet tt else
  lapicw SVR (Z.lor ENABLE (T_IRQ0 + IRQ_SPURIOUS));;*
  lapicw TDCR X1;;*
  lapicw TIMER (Z.lor PERIODIC (T_IRQ0 + IRQ_TIMER));;*
  lapicw TICR 10000000;;*
  lapicw LINT0 MASKED;;*
  lapicw LINT1 MASKED;;*
  (let* ver := load (lapic + 4 * VER) in
   if 4 <=? Z.land (Z.shiftr ver 16) 0xFF then lapicw PCINT MASKED else PRet tt);;*
  lapicw ERROR (T_IRQ0 + IRQ_ERROR);;*
  lapicw ESR 0;;*
  lapicw ESR 0;;*
  lapicw EOI 0;;*
  lapicw ICRHI 0;;*
  lapicw ICRLO (Z.lor (Z.lor BCAST INIT) LEVEL);;*
  delivered fuel;;*
  lapicw TPR 0.

Definition lapicid : hprog Z :=
  if lapic =? 0 then PRet 0 else
  let* r := load (lapic + 4 * ID) in
  PRet (Z.shiftr r 24).

Definition lapiceoi : hprog unit :=
  if lapic =? 0 then PRet tt else lapicw EOI 0.

Definition CMOS_PORT : Z := 0x70.
Definition CMOS_RETURN : Z := 0x71.

(** A 16-bit store to memory. *)
Definition wr16 (m : gmap Z Z) (a v : Z) : gmap Z Z := wr (wr m a v) (a + 1) (Z.shiftr v 8).

(** The result is the memory with the warm reset vector. *)
Definition lapicstartap (m : gmap Z Z) (apicid addr : Z) : hprog (gmap Z Z) :=
  outb CMOS_PORT 0xF;;*
  outb (CMOS_PORT + 1) 0x0A;;*
  let wrv := P2V (Z.lor (Z.shiftl 0x40 4) 0x67) in
  let m := wr16 m wrv 0 in
  let m := wr16 m (wrv + 2) (Z.shiftr addr 4) in
  lapicw ICRHI (Z.shiftl apicid 24);;*
  lapicw ICRLO (Z.lor (Z.lor INIT LEVEL) ASSERT);;*
  lapicw ICRLO (Z.lor INIT LEVEL);;*
  lapicw ICRHI (Z.shiftl apicid 24);;*
  lapicw ICRLO (Z.lor STARTUP (Z.shiftr addr 12));;*
  lapicw ICRHI (Z.shiftl apicid 24);;*
  lapicw ICRLO (Z.lor STARTUP (Z.shiftr addr 12));;*
  PRet m.
End lapic.

(** *** The clock *)

Definition CMOS_STATA : Z := 0x0a.
Definition CMOS_STATB : Z := 0x0b.
Definition CMOS_UIP : Z := 128.

(** [struct rtcdate]. *)
Record rtcdate := Date { second : Z; minute : Z; hour : Z; day : Z; month : Z; year : Z }.

#[global] Instance rtcdate_eq_dec : EqDecision rtcdate.
Proof. solve_decision. Defined.

Definition cmos_read (r : Z) : hprog Z :=
  outb CMOS_PORT r;;*
  inb CMOS_RETURN.

Definition fill_rtcdate : hprog rtcdate :=
  let* second := cmos_read 0x00 in
  let* minute := cmos_read 0x02 in
  let* hour := cmos_read 0x04 in
  let* day := cmos_read 0x07 in
  let* month := cmos_read 0x08 in
  let* year := cmos_read 0x09 in
  PRet (Date second minute hour day month year).

(** The loop that reads the time until it is stable. *)
Fixpoint cmos_stable (fuel : nat) : hprog rtcdate :=
  match fuel with
  | O => PStuck
  | S fuel =>
      let* t1 := fill_rtcdate in
      let* a := cmos_read CMOS_STATA in
      if negb (Z.land a CMOS_UIP =? 0) then cmos_stable fuel else
      let* t2 := fill_rtcdate in
      if bool_decide (t1 = t2) then PRet t1 else cmos_stable fuel
  end.

Definition conv (x : Z) : Z := Z.shiftr x 4 * 10 + Z.land x 0xf.

Definition convert (t : rtcdate) : rtcdate :=
  Date (conv (second t)) (conv (minute t)) (conv (hour t)) (conv (day t)) (conv (month t)) (conv (year t)).

Definition cmostime (fuel : nat) : hprog rtcdate :=
  let* sb := cmos_read CMOS_STATB in
  let bcd := Z.land sb 4 =? 0 in
  let* t1 := cmos_stable fuel in
  let t1 := if bcd then convert t1 else t1 in
  PRet (Date (second t1) (minute t1) (hour t1) (day t1) (month t1) (year t1 + 2000)).

End Lapic.

(** ** The I/O APIC *)

(** An I/O APIC that behaves as its data sheet says: the register whose number
    is written to [reg] is read or written through [data]. *)
Class Ioapic {H : Type} (answer : hwop → H → hwreply * H) := {
  io_view : H → gmap Z Z;
  io_write h r d : 0 <= d < 2 ^ 32 →
    ∃ h1 h2, answer (Store io_reg r) h = (HDone, h1) ∧ answer (Store io_data d) h1 = (HDone, h2) ∧
      io_view h2 = <[r:=d]> (io_view h);
  io_read h r :
    ∃ h1 h2 v, answer (Store io_reg r) h = (HDone, h1) ∧ answer (Load io_data) h1 = (HNum v, h2) ∧
      0 <= v < 2 ^ 32 ∧ v = default 0 (io_view h !! r) ∧ io_view h2 = io_view h
}.

(** The two registers of interrupt [i], and whether they say that it is
    delivered to a CPU. *)
Definition entry (v : gmap Z Z) (i : Z) : option (Z * Z) :=
  match v !! (REG_TABLE + 2 * i), v !! (REG_TABLE + 2 * i + 1) with
  | Some lo, Some hi => Some (lo, hi)
  | _, _ => None
  end.

Section ioapic.
Context {H : Type} (answer : hwop → H → hwreply * H) `{!Ioapic answer}.

Lemma ioapicwrite_run r d h :
  0 <= r < 2 ^ 32 → 0 <= d < 2 ^ 32 →
  ∃ h', (∀ A (f : hprog A), prun answer (ioapicwrite r d;;* f) h = prun answer f h') ∧ io_view h' = <[r:=d]> (io_view h).
Proof.
  intros Hr Hd. destruct (io_write h r d Hd) as (h1 & h2 & E1 & E2 & Ev). exists h2. split; [|done].
  intros A f. cbn. rewrite (u32_small r), (u32_small d), E1 by done. cbn. by rewrite E2.
Qed.

Lemma ioapicread_run r h :
  0 <= r < 2 ^ 32 →
  ∃ h', (∀ A (f : Z → hprog A), prun answer (let* x := ioapicread r in f x) h =
      prun answer (f (default 0 (io_view h !! r))) h') ∧ io_view h' = io_view h.
Proof.
  intros Hr. destruct (io_read h r) as (h1 & h2 & v & E1 & E2 & Hv & -> & Ev). exists h2. split; [|done].
  intros A f. cbn. rewrite (u32_small r), E1 by done. cbn. rewrite E2. cbn. by rewrite u32_small.
Qed.

Lemma entry_insert v (r d j : Z) :
  r ≠ REG_TABLE + 2 * j → r ≠ REG_TABLE + 2 * j + 1 → entry (<[r:=d]> v) j = entry v j.
Proof. intros H1 H2. unfold entry. by rewrite !lookup_insert_ne by done. Qed.

Lemma entry_set v lo hi j :
  entry (<[REG_TABLE + 2 * j + 1:=hi]> (<[REG_TABLE + 2 * j:=lo]> v)) j = Some (lo, hi).
Proof. unfold entry. by rewrite lookup_insert_ne, lookup_insert_eq, lookup_insert_eq by lia. Qed.

Lemma masked_range i : 0 <= i < 256 → 0 <= Z.lor INT_DISABLED (T_IRQ0 + i) < 2 ^ 32.
Proof.
  intros Hi. unfold INT_DISABLED, T_IRQ0. split; [apply Z.lor_nonneg; lia|].
  apply Z.log2_lt_pow2; [|rewrite Z.log2_lor by lia; apply Z.max_lub_lt; apply Z.log2_lt_pow2; lia].
  assert (0 <= Z.lor 0x10000 (32 + i)) by (apply Z.lor_nonneg; lia).
  destruct (Z.eq_dec (Z.lor 0x10000 (32 + i)) 0) as [E|]; [|lia]. apply Z.lor_eq_0_l in E. lia.
Qed.

Lemma ioapic_mask_run n i h :
  0 <= i → i + Z.of_nat n <= 256 →
  ∃ h', (∀ A (f : hprog A), prun answer (ioapic_mask n i;;* f) h = prun answer f h') ∧
    ∀ j, entry (io_view h') j =
      if decide (i <= j < i + Z.of_nat n) then Some (Z.lor INT_DISABLED (T_IRQ0 + j), 0) else entry (io_view h) j.
Proof.
  revert i h. induction n as [|n IH]; intros i h Hi Hn.
  { exists h. split; [done|]. intros j. by rewrite decide_False by lia. }
  destruct (ioapicwrite_run (REG_TABLE + 2 * i) (Z.lor INT_DISABLED (T_IRQ0 + i)) h) as (h1 & R1 & E1);
    [unfold REG_TABLE; lia|apply masked_range; lia|].
  destruct (ioapicwrite_run (REG_TABLE + 2 * i + 1) 0 h1) as (h2 & R2 & E2); [unfold REG_TABLE; lia|lia|].
  destruct (IH (i + 1) h2) as (h' & R & E); [lia..|]. exists h'. split.
  { intros A f. cbn [ioapic_mask]. by rewrite prun_assoc, R1, prun_assoc, R2. }
  intros j. rewrite E. destruct (decide (j = i)) as [->|Hne].
  - rewrite decide_False, decide_True, E2, E1 by lia. apply entry_set.
  - rewrite E2, E1, !entry_insert by (unfold REG_TABLE; lia). repeat case_decide; try done; lia.
Qed.

Lemma ioapicenable_run irq cpunum h :
  0 <= irq < 256 → 0 <= cpunum < 256 →
  ∃ h', (∀ A (f : hprog A), prun answer (ioapicenable irq cpunum;;* f) h = prun answer f h') ∧
    ∀ j, entry (io_view h') j = if decide (j = irq) then Some (T_IRQ0 + irq, Z.shiftl cpunum 24) else entry (io_view h) j.
Proof.
  intros Hi Hc. rewrite Z.shiftl_mul_pow2 by lia.
  destruct (ioapicwrite_run (REG_TABLE + 2 * irq) (T_IRQ0 + irq) h) as (h1 & R1 & E1); [unfold REG_TABLE; lia|unfold T_IRQ0; lia|].
  destruct (ioapicwrite_run (REG_TABLE + 2 * irq + 1) (cpunum * 2 ^ 24) h1) as (h2 & R2 & E2); [unfold REG_TABLE; lia|lia|].
  exists h2. split.
  { intros A f. unfold ioapicenable. rewrite Z.shiftl_mul_pow2 by lia. by rewrite prun_assoc, R1, R2. }
  intros j. rewrite E2, E1. case_decide as Ej; [subst; apply entry_set|]. rewrite !entry_insert by (unfold REG_TABLE; lia). done.
Qed.
End ioapic.

(** The interrupts that the drivers enable, one after the other. *)
Fixpoint enable_all (l : list (Z * Z)) : hprog unit :=
  match l with
  | [] => PRet tt
  | (irq, cpunum) :: l => ioapicenable irq cpunum;;* enable_all l
  end.

(** The highest interrupt, from the version register. *)
Definition maxintr_of (v : gmap Z Z) : Z := Z.land (Z.shiftr (default 0 (v !! REG_VER)) 16) 0xFF.

Lemma enable_all_run {H : Type} (answer : hwop → H → hwreply * H) `{!Ioapic answer} l h :
  NoDup l.*1 → Forall (λ e, 0 <= e.1 < 256 ∧ 0 <= e.2 < 256) l →
  ∃ h', prun answer (enable_all l) h = Some (tt, h') ∧
    (∀ irq c, (irq, c) ∈ l → entry (io_view h') irq = Some (T_IRQ0 + irq, Z.shiftl c 24)) ∧
    ∀ j, j ∉ l.*1 → entry (io_view h') j = entry (io_view h) j.
Proof.
  revert h. induction l as [|[irq c] l IH]; intros h Hd Hl.
  { exists h. split; [done|]. split; [|done]. intros ? ? []%not_elem_of_nil. }
  cbn [fmap list_fmap] in Hd. apply NoDup_cons in Hd as [Hni Hd]. apply Forall_cons in Hl as [[Hi Hc] Hl]. cbn [fst snd] in *.
  destruct (ioapicenable_run answer irq c h Hi Hc) as (h1 & R1 & E1). cbn [enable_all]. rewrite R1.
  destruct (IH h1 Hd Hl) as (h' & R & E & E'). exists h'. split; [done|]. split.
  - intros irq' c' [[= -> ->]|Hin]%elem_of_cons; [|by apply E]. rewrite E', E1, decide_True by done. done.
  - intros j [Hj1 Hj2]%not_elem_of_cons. rewrite E', E1, decide_False by done. done.
Qed.

(** ** Properties *)

(** After [ioapicinit] and the calls of [ioapicenable], exactly the
    enabled interrupts are delivered, each with its vector and to its CPU; the
    others, up to the highest that the chip has, are masked. *)
Theorem ioapic_routes {H : Type} (answer : hwop → H → hwreply * H) (Hio : Ioapic answer) (ioapicid : Z)
    (l : list (Z * Z)) (h : H)
    (Hd : NoDup l.*1) (Hl : Forall (λ e, 0 <= e.1 < 256 ∧ 0 <= e.2 < 256) l) :
  ∃ h', prun answer (ioapicinit ioapicid;;* enable_all l) h = Some (tt, h') ∧
    (∀ irq c, (irq, c) ∈ l → entry (io_view h') irq = Some (T_IRQ0 + irq, Z.shiftl c 24)) ∧
    ∀ j, 0 <= j <= maxintr_of (io_view h) → j ∉ l.*1 →
      entry (io_view h') j = Some (Z.lor INT_DISABLED (T_IRQ0 + j), 0).
Proof.
  unfold ioapicinit. rewrite prun_assoc.
  destruct (ioapicread_run answer REG_VER h) as (h1 & R1 & E1); [unfold REG_VER; lia|]. rewrite R1, prun_assoc.
  destruct (ioapicread_run answer REG_ID h1) as (h2 & R2 & E2); [unfold REG_ID; lia|]. rewrite R2, prun_assoc.
  fold (maxintr_of (io_view h)). set (n := maxintr_of (io_view h)).
  assert (0 <= n < 256) as Hn by (unfold n, maxintr_of; rewrite (Z.land_ones _ 8) by lia; apply Z.mod_pos_bound; lia).
  destruct (ioapic_mask_run answer (Z.to_nat (n + 1)) 0 h2) as (h3 & R3 & E3); [lia..|]. rewrite R3. cbn [pbind].
  destruct (enable_all_run answer l h3 Hd Hl) as (h' & R & E & E'). exists h'. split; [done|]. split; [done|].
  intros j Hj Hnj. rewrite E', E3, decide_True by (done || lia). done.
Qed.

(** The store operations of a run, as register numbers and values. *)
Definition stores (lapic : Z) (t : list (hwop * hwreply)) : list (Z * Z) :=
  omap (λ x, match x.1 with Store a v => Some ((a - lapic) / 4, v) | _ => None end) t.

(** A program that makes these stores, whatever else it reads. *)
Definition sends (lapic : Z) (p : hprog unit) (l : list (Z * Z)) : Prop :=
  ∃ t, does p t (Some tt) ∧ stores lapic t = l.

Lemma sends_bind lapic p q l l' : sends lapic p l → sends lapic q l' → sends lapic (p;;* q) (l ++ l').
Proof.
  intros (t & D & <-) (t' & D' & <-). exists (t ++ t'). split; [by eapply does_bind|]. apply omap_app.
Qed.

Lemma sends_lapicw lapic i v : sends lapic (Lapic.lapicw lapic i v) [(i, u32 v)].
Proof.
  exists [(Store (lapic + 4 * i) (u32 v), HDone); (Load (lapic + 4 * Lapic.ID), HNum 0)]. split; [repeat constructor|].
  cbn. do 2 f_equal. replace (lapic + 4 * i - lapic) with (i * 4) by lia. by apply Z.div_mul.
Qed.

Lemma sends_delivered lapic busy done fuel :
  Forall (λ r, Z.land (u32 r) Lapic.DELIVS ≠ 0) busy → Z.land (u32 done) Lapic.DELIVS = 0 → (length busy < fuel)%nat →
  sends lapic (Lapic.delivered lapic fuel) [].
Proof.
  intros Hb Hd. revert fuel. induction Hb as [|r busy Hr Hb IH]; intros [|fuel] Hf; cbn [length] in Hf; [lia| |lia|].
  - exists [(Load (lapic + 4 * Lapic.ICRLO), HNum done)]. split; [|done]. apply does_call. cbn. rewrite Hd. constructor.
  - destruct (IH fuel) as (t & D & E); [lia|]. exists ((Load (lapic + 4 * Lapic.ICRLO), HNum r) :: t). split; [|exact E].
    apply does_call. cbn [hnum pbind]. destruct (Z.eqb_spec (Z.land (u32 r) Lapic.DELIVS) 0); done.
Qed.

(** [lapicinit] on a machine with a local APIC: the timer is periodic with
    the vector that [trap] counts ticks on, the two interrupt lines are masked,
    spurious interrupts and errors have their vectors; it returns as soon as
    the interrupt command is delivered. *)
Theorem lapicinit_correct (lapic ver done : Z) (busy : list Z) (fuel : nat)
    (Hlapic : lapic ≠ 0) (Hbusy : Forall (λ r, Z.land (u32 r) Lapic.DELIVS ≠ 0) busy)
    (Hdone : Z.land (u32 done) Lapic.DELIVS = 0) (Hfuel : (length busy < fuel)%nat) :
  ∃ t, does (Lapic.lapicinit lapic fuel) t (Some tt) ∧
    stores lapic t =
      [(60, 0x13F); (248, 0xB); (200, 0x20020); (224, 10000000); (212, 0x10000); (216, 0x10000)] ++
      (if 4 <=? Z.land (Z.shiftr (u32 ver) 16) 0xFF then [(208, 0x10000)] else []) ++
      [(220, 51); (160, 0); (160, 0); (44, 0); (196, 0); (192, 0x88500); (32, 0)].
Proof.
  change (sends lapic (Lapic.lapicinit lapic fuel)
    ([(Lapic.SVR, u32 0x13F)] ++ [(Lapic.TDCR, u32 0xB)] ++ [(Lapic.TIMER, u32 0x20020)] ++ [(Lapic.TICR, u32 10000000)] ++
     [(Lapic.LINT0, u32 0x10000)] ++ [(Lapic.LINT1, u32 0x10000)] ++
     (if 4 <=? Z.land (Z.shiftr (u32 ver) 16) 0xFF then [(Lapic.PCINT, u32 0x10000)] else []) ++
     [(Lapic.ERROR, u32 51)] ++ [(Lapic.ESR, u32 0)] ++ [(Lapic.ESR, u32 0)] ++ [(Lapic.EOI, u32 0)] ++
     [(Lapic.ICRHI, u32 0)] ++ [(Lapic.ICRLO, u32 0x88500)] ++ [] ++ [(Lapic.TPR, u32 0)])).
  unfold Lapic.lapicinit. destruct (Z.eqb_spec lapic 0); [done|].
  do 6 (apply sends_bind; [apply sends_lapicw|]). apply sends_bind.
  { destruct (sends_lapicw lapic Lapic.PCINT 0x10000) as (t & D & E).
    exists ((Load (lapic + 4 * Lapic.VER), HNum ver) :: (if 4 <=? Z.land (Z.shiftr (u32 ver) 16) 0xFF then t else [])). split.
    - apply does_call. cbn [hnum pbind]. destruct (4 <=? Z.land (Z.shiftr (u32 ver) 16) 0xFF); [exact D|constructor].
    - cbn. destruct (4 <=? Z.land (Z.shiftr (u32 ver) 16) 0xFF); [exact E|done]. }
  do 6 (apply sends_bind; [apply sends_lapicw|]). apply sends_bind; [by eapply sends_delivered|apply sends_lapicw].
Qed.

(** *** The clock *)

(** The reads that find the registers of the clock as in [d]. *)
Definition date_run (d : Lapic.rtcdate) : list (hwop * hwreply) :=
  mjoin (map (λ rv, [(Outb 0x70 rv.1, HDone); (Inb 0x71, HNum rv.2)])
    [(0x00, Lapic.second d); (0x02, Lapic.minute d); (0x04, Lapic.hour d);
     (0x07, Lapic.day d); (0x08, Lapic.month d); (0x09, Lapic.year d)]).

Definition date_bytes (d : Lapic.rtcdate) : Prop :=
  Forall (λ x, 0 <= x < 256) [Lapic.second d; Lapic.minute d; Lapic.hour d; Lapic.day d; Lapic.month d; Lapic.year d].

Lemma fill_does d : date_bytes d → does Lapic.fill_rtcdate (date_run d) (Some d).
Proof.
  destruct d as [s mi h d mo y]. intros Hb. unfold date_bytes in Hb. cbn in Hb. rewrite !Forall_cons in Hb.
  destruct Hb as (H1 & H2 & H3 & H4 & H5 & H6 & _).
  assert (does Lapic.fill_rtcdate (date_run (Lapic.Date s mi h d mo y))
    (Some (Lapic.Date (u8 s) (u8 mi) (u8 h) (u8 d) (u8 mo) (u8 y)))) as H by (repeat constructor).
  rewrite !u8_small in H by done. exact H.
Qed.

Lemma cmos_read_does r v : 0 <= v < 256 → does (Lapic.cmos_read r) [(Outb 0x70 (u8 r), HDone); (Inb 0x71, HNum v)] (Some v).
Proof.
  intros Hv. assert (does (Lapic.cmos_read r) [(Outb 0x70 (u8 r), HDone); (Inb 0x71, HNum v)] (Some (u8 v))) as H by (repeat constructor).
  by rewrite (u8_small v Hv) in H.
Qed.

(** One turn of the loop, where the status register [a] shows an update in
    progress, or the time changed while it was read. *)
Inductive retry : list (hwop * hwreply) → Prop :=
  | retry_update t1 a : date_bytes t1 → 0 <= a < 256 → Z.land a 128 ≠ 0 →
      retry (date_run t1 ++ [(Outb 0x70 0x0a, HDone); (Inb 0x71, HNum a)])
  | retry_changed t1 a t2 : date_bytes t1 → date_bytes t2 → 0 <= a < 256 → Z.land a 128 = 0 → t1 ≠ t2 →
      retry (date_run t1 ++ [(Outb 0x70 0x0a, HDone); (Inb 0x71, HNum a)] ++ date_run t2).

Lemma cmos_stable_does tries d a fuel :
  Forall retry tries → date_bytes d → 0 <= a < 256 → Z.land a 128 = 0 → (length tries < fuel)%nat →
  does (Lapic.cmos_stable fuel)
    (mjoin tries ++ date_run d ++ [(Outb 0x70 0x0a, HDone); (Inb 0x71, HNum a)] ++ date_run d) (Some d).
Proof.
  intros Ht Hd Ha Hu. revert fuel. induction Ht as [|t tries Ht _ IH]; intros [|fuel] Hf; cbn [length] in Hf; [lia| |lia|];
    cbn [Lapic.cmos_stable].
  - change (mjoin []) with (@nil (hwop * hwreply)). cbn [app]. eapply does_bind; [by apply fill_does|].
    eapply (does_bind _ _ [_; _]); [by apply (cmos_read_does 0x0a)|]. cbn beta. change Lapic.CMOS_UIP with 128. rewrite Hu. cbn [Z.eqb negb].
    rewrite <- (app_nil_r (date_run d)). eapply does_bind; [by apply fill_does|]. rewrite bool_decide_eq_true_2 by done. constructor.
  - change (mjoin (?x :: ?l)) with (x ++ mjoin l). rewrite <- app_assoc.
    destruct Ht as [t1 a' H1 H2 H3|t1 a' t2 H1 H2 H3 H4 H5]; rewrite <- !app_assoc.
    + eapply does_bind; [by apply fill_does|]. eapply (does_bind _ _ [_; _]); [by apply (cmos_read_does 0x0a)|].
      cbn beta. change Lapic.CMOS_UIP with 128. destruct (Z.eqb_spec (Z.land a' 128) 0); [done|]. cbn [negb]. apply IH. lia.
    + eapply does_bind; [by apply fill_does|]. eapply (does_bind _ _ [_; _]); [by apply (cmos_read_does 0x0a)|].
      cbn beta. change Lapic.CMOS_UIP with 128. rewrite H4. cbn [Z.eqb negb]. eapply does_bind; [by apply fill_does|].
      rewrite bool_decide_eq_false_2 by done. apply IH. lia.
Qed.

(** Binary coded decimals. *)
Definition bcd (v : Z) : Z := 16 * (v / 10) + v mod 10.

Lemma conv_bcd v : 0 <= v < 100 → Lapic.conv (bcd v) = v.
Proof.
  intros Hv. assert (Forall (λ i : nat, Lapic.conv (bcd (Z.of_nat i)) = Z.of_nat i) (seq 0 100)) as H
    by (by apply (bool_decide_unpack _)).
  rewrite Forall_forall in H. specialize (H (Z.to_nat v)). rewrite Z2Nat.id in H by lia. apply H, elem_of_seq. lia.
Qed.

Lemma bcd_range v : 0 <= v < 100 → 0 <= bcd v < 256.
Proof. intros Hv. unfold bcd. zdiv. Qed.

(** How the clock holds a date: as binary coded decimals unless bit 2 of
    status register B is set. *)
Definition encoded (sb : Z) (d : Lapic.rtcdate) : Lapic.rtcdate :=
  let f := if Z.land sb 4 =? 0 then bcd else id in
  Lapic.Date (f (Lapic.second d)) (f (Lapic.minute d)) (f (Lapic.hour d)) (f (Lapic.day d)) (f (Lapic.month d)) (f (Lapic.year d)).

(** [cmostime] reads the clock until it has seen the same date twice
    outside an update, and returns that date, decoded from either format of
    the clock, in this century. *)
Theorem cmostime_correct (fuel : nat) (sb a : Z) (d : Lapic.rtcdate) (tries : list (list (hwop * hwreply)))
    (Hsb : 0 <= sb < 256) (Ha : 0 <= a < 256) (Hu : Z.land a 128 = 0) (Htries : Forall retry tries)
    (Hd : Forall (λ x, 0 <= x < 100)
      [Lapic.second d; Lapic.minute d; Lapic.hour d; Lapic.day d; Lapic.month d; Lapic.year d])
    (Hf : (length tries < fuel)%nat) :
  does (Lapic.cmostime fuel)
    ([(Outb 0x70 0x0b, HDone); (Inb 0x71, HNum sb)] ++
     mjoin tries ++ date_run (encoded sb d) ++ [(Outb 0x70 0x0a, HDone); (Inb 0x71, HNum a)] ++ date_run (encoded sb d))
    (Some (Lapic.Date (Lapic.second d) (Lapic.minute d) (Lapic.hour d) (Lapic.day d) (Lapic.month d) (Lapic.year d + 2000))).
Proof.
  destruct d as [s mi h d mo y]. cbn in Hd. rewrite !Forall_cons in Hd. destruct Hd as (H1 & H2 & H3 & H4 & H5 & H6 & _).
  unfold Lapic.cmostime. eapply does_bind; [by apply (cmos_read_does 0x0b)|]. cbn beta.
  match goal with |- does _ ?t _ => rewrite <- (app_nil_r t) end.
  eapply does_bind; [apply cmos_stable_does; try done; unfold date_bytes, encoded; cbn|].
  - destruct (Z.land sb 4 =? 0); rewrite !Forall_cons; (split_and!; [..|done]); cbn; try lia; by apply bcd_range.
  - unfold encoded, Lapic.convert. cbn. destruct (Z.land sb 4 =? 0); cbn; [rewrite !conv_bcd by done|]; constructor.
Qed.

(** ** Witnesses *)

(** An I/O APIC with 24 interrupts. *)
Definition chip_answer (op : hwop) (c : Z * gmap Z Z) : hwreply * (Z * gmap Z Z) :=
  match op with
  | Store a v => if a =? io_reg then (HDone, (v, c.2)) else (HDone, (c.1, <[c.1:=v]> c.2))
  | Load _ => (HNum (u32 (default 0 (c.2 !! c.1))), c)
  | _ => (HDone, c)
  end.

#[global] Program Instance chip_ioapic : Ioapic chip_answer := { io_view c := u32 <$> c.2 }.
Next Obligation.
  intros [sel regs] r d Hd. exists (r, regs), (r, <[r:=d]> regs). split; [done|]. split; [done|]. cbn.
  by rewrite fmap_insert, u32_small.
Qed.
Next Obligation.
  intros [sel regs] r. exists (r, regs), (r, regs), (u32 (default 0 (regs !! r))). split; [done|]. split; [done|].
  split; [apply u32_range|]. split; [|done]. cbn. rewrite lookup_fmap. by destruct (regs !! r).
Qed.

Lemma ioapic_routes_witness :
  ∃ h', prun chip_answer (ioapicinit 0;;* enable_all [(IRQ_IDE, 1); (IRQ_KBD, 0)]) (0, {[REG_VER := 0x170011]}) = Some (tt, h') ∧
    (∀ irq c, (irq, c) ∈ [(IRQ_IDE, 1); (IRQ_KBD, 0)] → entry (io_view h') irq = Some (T_IRQ0 + irq, Z.shiftl c 24)) ∧
    ∀ j, 0 <= j <= maxintr_of (io_view (0, {[REG_VER := 0x170011]})) → j ∉ [IRQ_IDE; IRQ_KBD] →
      entry (io_view h') j = Some (Z.lor INT_DISABLED (T_IRQ0 + j), 0).
Proof.
  apply (ioapic_routes chip_answer _ 0 [(IRQ_IDE, 1); (IRQ_KBD, 0)]).
  - apply (bool_decide_unpack _). vm_compute. reflexivity.
  - repeat (apply Forall_cons_2; [split; split; reflexivity || discriminate|]). constructor.
Defined.

Lemma lapicinit_correct_witness :
  ∃ t, does (Lapic.lapicinit 0xFEE00000 2) t (Some tt) ∧
    stores 0xFEE00000 t =
      [(60, 0x13F); (248, 0xB); (200, 0x20020); (224, 10000000); (212, 0x10000); (216, 0x10000); (208, 0x10000);
       (220, 51); (160, 0); (160, 0); (44, 0); (196, 0); (192, 0x88500); (32, 0)].
Proof.
  apply (lapicinit_correct 0xFEE00000 0x50014 0 [0x1000] 2); [discriminate|repeat constructor; discriminate|reflexivity|cbn; lia].
Defined.

Lemma cmostime_correct_witness :
  let d := Lapic.Date 59 30 12 24 12 25 in
  let d' := Lapic.Date 0 31 12 24 12 25 in
  does (Lapic.cmostime 2)
    ([(Outb 0x70 0x0b, HDone); (Inb 0x71, HNum 2)] ++
     mjoin [date_run (encoded 2 d') ++ [(Outb 0x70 0x0a, HDone); (Inb 0x71, HNum 0x80)]] ++
     date_run (encoded 2 d) ++ [(Outb 0x70 0x0a, HDone); (Inb 0x71, HNum 0)] ++ date_run (encoded 2 d))
    (Some (Lapic.Date 59 30 12 24 12 2025)).
Proof.
  apply (cmostime_correct 2 2 0 (Lapic.Date 59 30 12 24 12 25)); [lia|lia|reflexivity| | |cbn; lia].
  - apply Forall_cons_2; [|constructor]. apply retry_update; [|lia|discriminate].
    apply (bool_decide_unpack (Forall _ _)). vm_compute. reflexivity.
  - apply (bool_decide_unpack (Forall _ _)). vm_compute. reflexivity.
Defined.
