(* ===== verification/Print.v ===== *)
(** Printing on the console, from [console.c] and [uart.c]: the serial port,
    the screen, and [cprintf]. *)

From stdpp Require Import base gmap strings list.
From Stdlib Require Import ZArith Lia Ascii.
From S2P Require Import Prelude CString Mmu State Disk Spinlock Kalloc Vm User Kbd.
#[local] Open Scope Z_scope.

(** ** Output *)

Definition upd_console (f : console_t → console_t) : M kernel unit := modify (λ k, k <|console ::= f|>).

(** [uartputc]: the wait for the transmitter is bounded, and the byte is sent
    in any case. *)
Definition uartputc (c : Z) : M kernel unit :=
  let! u := gets (λ k, uart (console k)) in
  when u do upd_console (λ x, x <|com1 ::= cons (u8 c)|>).

Definition BACKSPACE : Z := 0x100.
(** The memory of the screen: cells of 16 bits. *)
Definition crt : Z := P2V 0xb8000.
Definition set_cell (pos v : Z) : M kernel unit :=
  modify (λ k, k <|mem ::= λ m, wr (wr m (crt + 2 * pos) v) (crt + 2 * pos + 1) (Z.shiftr v 8)|>).

(** The character at the cursor [pos], and the cursor after it. *)
Definition cga_place (c pos : Z) : M kernel Z :=
  if c =? newline then ret (pos + (80 - pos mod 80))
  else if c =? BACKSPACE then ret (if 0 <? pos then pos - 1 else pos)
  else set_cell pos (Z.lor (Z.land c 0xff) 0x0700);;; ret (pos + 1).

(** Scroll up when the cursor is below the last line. *)
Definition cga_scroll (pos : Z) : M kernel Z :=
  if 24 <=? pos / 80 then
    modify (λ k, k <|mem ::= λ m, memmove m crt (crt + 2 * 80) (2 * 23 * 80)|>);;;
    let pos := pos - 80 in
    modify (λ k, k <|mem ::= λ m, memset m (crt + 2 * pos) 0 (2 * (24 * 80 - pos))|>);;;
    ret pos
  else ret pos.

(** The cursor is kept in two 8-bit registers of the display. *)
Definition cgaputc (c : Z) : M kernel unit :=
  let! pos := gets (λ k, crt_pos (console k)) in
  let! pos := cga_place c pos in
  if (pos <? 0) || (25 * 80 <? pos) then panic "pos under/overflow" else
  let! pos := cga_scroll pos in
  upd_console (λ x, x <|crt_pos := 256 * u8 (Z.shiftr pos 8) + u8 pos|>);;;
  set_cell pos (Z.lor (chr " ") 0x0700).

Definition consputc (c : Z) : M kernel unit :=
  let! p := gets (λ k, panicked (console k)) in
  if p then cli;;; (λ _, Spin) else
  (if c =? BACKSPACE then uartputc backspace;;; uartputc (chr " ");;; uartputc backspace
   else uartputc c);;;
  cgaputc c.

(** A string, up to its end. *)
Fixpoint consputs (s : list Z) : M kernel unit :=
  match s with
  | [] => ret tt
  | c :: s => consputc c;;; consputs s
  end.

Definition digits : list Z := chars "0123456789abcdef".

(** The first loop of [printint]: the digits of [x], least first. *)
Fixpoint int_digits (fuel : nat) (x base : Z) : list Z :=
  match fuel with
  | O => []
  | S fuel =>
      nth (Z.to_nat (x mod base)) digits 0 ::
      (if x / base =? 0 then [] else int_digits fuel (x / base) base)
  end.

(** The characters [printint] prints.  32 turns are enough for a [uint]. *)
Definition int_chars (xx base : Z) (sign : bool) : list Z :=
  let neg := sign && (xx <? 0) in
  let x := if neg then u32 (- xx) else u32 xx in
  reverse (int_digits 32 x base ++ (if neg then [chr "-"] else [])).

Definition printint (xx base : Z) (sign : bool) : M kernel unit := consputs (int_chars xx base sign).

(** An argument of [cprintf]: a word, or a pointer to a string. *)
Inductive arg := Word (v : Z) | Str (s : list Z).

(** The characters of a string in memory. *)
Fixpoint mem_string (fuel : nat) (s : Z) : M kernel unit :=
  match fuel with
  | O => λ _, Loop
  | S fuel => let! c := ld8 s in if c =? 0 then ret tt else consputc c;;; mem_string fuel (u32 (s + 1))
  end.

Fixpoint cprintf_loop `{Turns} (fmt : list Z) (args : list arg) : M kernel unit :=
  match fmt with
  | [] => ret tt
  | c :: fmt =>
      if negb (c =? chr "%") then consputc c;;; cprintf_loop fmt args else
      match fmt with
      | [] => ret tt
      | c :: fmt =>
          if c =? chr "d" then
            match args with
            | Word v :: args => printint (i32 v) 10 true;;; cprintf_loop fmt args
            | _ => fault
            end
          else if (c =? chr "x") || (c =? chr "p") then
            match args with
            | Word v :: args => printint (i32 v) 16 false;;; cprintf_loop fmt args
            | _ => fault
            end
          else if c =? chr "s" then
            match args with
            | Str s :: args => consputs s;;; cprintf_loop fmt args
            | Word v :: args =>
                (if v =? 0 then consputs (chars "(null)") else mem_string turns v);;;
                cprintf_loop fmt args
            | [] => fault
            end
          else if c =? chr "%" then consputc (chr "%");;; cprintf_loop fmt args
          else consputc (chr "%");;; consputc c;;; cprintf_loop fmt args
      end
  end.

(** The format is a list of characters, which is never null: the check of
    [fmt == 0] cannot fail. *)
Definition cprintf `{Turns} (fmt : list Z) (args : list arg) : M kernel unit :=
  let! locking := gets (λ k, cons_locking (console k)) in
  (when locking do acquire LCons);;;
  cprintf_loop fmt args;;;
  when locking do release LCons.

(** ** The screen as a terminal *)

(** A cell of the screen memory and its 24 lines of 80 cells. *)
Definition cell (m : gmap Z Z) (i : Z) : Z := rd m (crt + 2 * i) + 256 * rd m (crt + 2 * i + 1).
Definition screen (m : gmap Z Z) : list Z := (λ i : nat, cell m (Z.of_nat i)) <$> seq 0 1920.

Definition blank : Z := 0x0720.

(** What putting a character does to the lines and the cursor. *)
Definition term_place (c : Z) (t : list Z * Z) : list Z * Z :=
  let '(s, pos) := t in
  if c =? newline then (s, pos + (80 - pos mod 80))
  else if c =? BACKSPACE then (s, if 0 <? pos then pos - 1 else pos)
  else (<[Z.to_nat pos:=0x0700 + c mod 256]> s, pos + 1).

Definition term_scroll (t : list Z * Z) : list Z * Z :=
  let '(s, pos) := t in
  if pos <? 1920 then (s, pos)
  else (take 1840 (drop 80 s) ++ replicate 80 0, pos - 80).

Definition term_put (c : Z) (t : list Z * Z) : list Z * Z :=
  let '(s, pos) := term_scroll (term_place c t) in (<[Z.to_nat pos:=blank]> s, pos).

Lemma length_screen m : length (screen m) = 1920%nat.
Proof. unfold screen. by rewrite length_fmap, length_seq. Qed.

Lemma screen_lookup m i : (i < 1920)%nat → screen m !! i = Some (cell m (Z.of_nat i)).
Proof. intros Hi. unfold screen. by rewrite list_lookup_fmap, lookup_seq_lt. Qed.

(** Equality of a screen with a list of its length. *)
Lemma screen_ext m s :
  length s = 1920%nat → (∀ i, (i < 1920)%nat → s !! i = Some (cell m (Z.of_nat i))) → screen m = s.
Proof.
  intros Hl H. apply list_eq. intros i. destruct (decide (i < 1920)%nat) as [Hi|Hi].
  - by rewrite screen_lookup, H.
  - by rewrite !lookup_ge_None_2 by (rewrite ?length_screen; lia).
Qed.

Definition put_cell (m : gmap Z Z) (pos v : Z) : gmap Z Z :=
  wr (wr m (crt + 2 * pos) v) (crt + 2 * pos + 1) (Z.shiftr v 8).

Lemma u16_bytes v : u8 v + 256 * u8 (Z.shiftr v 8) = u16 v.
Proof. unfold u8, u16, wrapu. rewrite Z.shiftr_div_pow2 by lia. zdiv. Qed.

Lemma cell_put m pos v i : cell (put_cell m pos v) i = if decide (i = pos) then u16 v else cell m i.
Proof.
  unfold cell, put_cell. rewrite !rd_wr. repeat case_decide; try lia. apply u16_bytes.
Qed.

Lemma screen_put m pos v :
  0 <= pos < 1920 → screen (put_cell m pos v) = <[Z.to_nat pos:=u16 v]> (screen m).
Proof.
  intros Hp. apply screen_ext; [by rewrite length_insert, length_screen|]. intros i Hi.
  rewrite list_insert_lookup by (rewrite length_screen; lia). rewrite cell_put.
  case_decide; case_decide; subst; try lia; [done|]. by apply screen_lookup.
Qed.

(** Scrolling up by a line. *)
Lemma screen_scroll m pos :
  bytes_ok m → 0 <= pos <= 1840 →
  screen (memset (memmove m crt (crt + 2 * 80) (2 * 23 * 80)) (crt + 2 * pos) 0 (2 * (24 * 80 - pos))) =
  take (Z.to_nat pos) (drop 80 (screen m)) ++ replicate (1920 - Z.to_nat pos) 0.
Proof.
  intros Hb Hp. apply screen_ext.
  { rewrite length_app, length_take, length_drop, length_replicate, length_screen. lia. }
  intros i Hi. unfold cell. rewrite !memset_spec, !memmove_spec by (done || lia).
  destruct (decide (i < Z.to_nat pos)%nat) as [Hlt|Hge].
  - rewrite lookup_app_l by (rewrite length_take, length_drop, length_screen; lia).
    rewrite lookup_take_lt, lookup_drop, screen_lookup by lia. unfold cell.
    repeat (case_decide; try lia). do 3 f_equal; [|f_equal]; lia.
  - rewrite lookup_app_r; rewrite length_take, length_drop, length_screen; [|lia].
    rewrite lookup_replicate_2 by lia. repeat (case_decide; try lia). done.
Qed.

(** Only the screen memory differs. *)
Definition off_screen (m m' : gmap Z Z) : Prop := same_outside m m' crt (2 * 1920).

Lemma off_screen_put m pos v : 0 <= pos < 1920 → off_screen m (put_cell m pos v).
Proof. intros Hp b Hb. unfold put_cell. rewrite !rd_wr, !decide_False by lia. done. Qed.

Lemma off_screen_trans m m1 m2 : off_screen m m1 → off_screen m1 m2 → off_screen m m2.
Proof. intros H1 H2 b Hb. by rewrite H2, H1. Qed.

Lemma off_screen_scroll m pos :
  bytes_ok m → 0 <= pos <= 1840 →
  off_screen m (memset (memmove m crt (crt + 2 * 80) (2 * 23 * 80)) (crt + 2 * pos) 0 (2 * (24 * 80 - pos))).
Proof.
  intros Hb Hp b Hn. rewrite memset_spec by lia. rewrite decide_False by lia.
  rewrite memmove_spec by (done || lia). by rewrite decide_False by lia.
Qed.

Lemma bytes_ok_scroll m pos :
  bytes_ok m → 0 <= pos <= 1840 →
  bytes_ok (memset (memmove m crt (crt + 2 * 80) (2 * 23 * 80)) (crt + 2 * pos) 0 (2 * (24 * 80 - pos))).
Proof.
  intros Hb Hp a. rewrite memset_spec by lia. rewrite memmove_spec by (done || lia).
  repeat case_decide; [done|apply Hb..].
Qed.

Lemma bytes_ok_put m pos v : bytes_ok m → bytes_ok (put_cell m pos v).
Proof. intros H. by do 2 apply wr_bytes_ok. Qed.

(** The terminal that the screen memory and the cursor show. *)
Definition term (k : kernel) : list Z * Z := (screen (mem k), crt_pos (console k)).
Definition term_wf (k : kernel) : Prop := bytes_ok (mem k) ∧ 0 <= crt_pos (console k) < 1920.

(** Printing changes the screen memory and the console's own state. *)
Definition printed (k k' : kernel) : Prop :=
  k' = k <|mem := mem k'|> <|console := console k'|> ∧ off_screen (mem k) (mem k').

Lemma colour c : u16 (Z.lor (Z.land c 0xff) 0x0700) = 0x0700 + c mod 256.
Proof.
  pose proof (Z.add_lor_land (Z.land c 0xff) 0x0700) as E. rewrite <- Z.land_assoc in E.
  change (Z.land 0xff 0x0700) with 0 in E. rewrite Z.land_0_r in E.
  change 0xff with (Z.ones 8) in *. rewrite Z.land_ones in * by lia. change (2 ^ 8) with 256 in *.
  pose proof (Z.mod_pos_bound c 256 ltac:(lia)). unfold u16. rewrite wrapu_small; lia.
Qed.

Lemma cga_place_Ret c k pos :
  bytes_ok (mem k) → 0 <= pos < 1920 →
  ∃ m pos', cga_place c pos k = Ret pos' (k <|mem := m|>) ∧
    term_place c (screen (mem k), pos) = (screen m, pos') ∧
    bytes_ok m ∧ off_screen (mem k) m ∧ 0 <= pos' <= 1920.
Proof.
  intros Hb Hp. assert (k <|mem := mem k|> = k) as Ek by kext. unfold cga_place, term_place.
  destruct (c =? newline); [|destruct (c =? BACKSPACE)].
  - exists (mem k), (pos + (80 - pos mod 80)). rewrite Ek. split_and!; [done..|zdiv|zdiv].
  - eexists (mem k), _. rewrite Ek. split_and!; [done..| |]; destruct (Z.ltb_spec 0 pos); lia.
  - exists (put_cell (mem k) pos (Z.lor (Z.land c 0xff) 0x0700)), (pos + 1).
    split_and!; [done| | | |lia|lia].
    + by rewrite screen_put, colour.
    + by apply bytes_ok_put.
    + by apply off_screen_put.
Qed.

Lemma cga_scroll_Ret k pos :
  bytes_ok (mem k) → 0 <= pos <= 1920 →
  ∃ m pos', cga_scroll pos k = Ret pos' (k <|mem := m|>) ∧
    term_scroll (screen (mem k), pos) = (screen m, pos') ∧
    bytes_ok m ∧ off_screen (mem k) m ∧ 0 <= pos' < 1920.
Proof.
  intros Hb Hp. assert (k <|mem := mem k|> = k) as Ek by kext. unfold cga_scroll, term_scroll.
  destruct (Z.leb_spec 24 (pos / 80)) as [Hs|Hs]; destruct (Z.ltb_spec pos 1920); [zdiv| | |zdiv].
  - assert (pos = 1920) as -> by lia. change (1920 - 80) with 1840.
    eexists (memset (memmove (mem k) crt (crt + 2 * 80) (2 * 23 * 80)) (crt + 2 * 1840) 0 (2 * (24 * 80 - 1840))), 1840.
    split_and!; [|by rewrite screen_scroll by (done || lia)|by apply bytes_ok_scroll; [|lia]|
      by apply off_screen_scroll; [|lia]|lia|lia].
    rewrite bind_modify. cbn zeta. rewrite bind_modify. unfold ret. f_equal.
  - exists (mem k), pos. rewrite Ek. split_and!; [done..|lia|lia].
Qed.

Lemma cgaputc_Ret c k :
  term_wf k →
  ∃ k', cgaputc c k = Ret tt k' ∧ term k' = term_put c (term k) ∧ term_wf k' ∧ printed k k' ∧
    console k' = (console k) <|crt_pos := crt_pos (console k')|>.
Proof.
  intros [Hb Hp]. unfold cgaputc, term, term_put. rewrite bind_gets. set (pos := crt_pos (console k)) in *.
  destruct (cga_place_Ret c k pos Hb Hp) as (m1 & pos1 & E1 & E2 & Hb1 & Ho1 & Hp1).
  rewrite (bind_Ret _ _ _ _ _ E1), E2.
  destruct (Z.ltb_spec pos1 0); [lia|]. destruct (Z.ltb_spec (25 * 80) pos1); [lia|]. cbn [orb].
  destruct (cga_scroll_Ret (k <|mem := m1|>) pos1) as (m2 & pos2 & E3 & E4 & Hb2 & Ho2 & Hp2); [done..|].
  rewrite (bind_Ret _ _ _ _ _ E3). change (mem (k <|mem := m1|>)) with m1 in *. rewrite E4.
  assert (256 * u8 (Z.shiftr pos2 8) + u8 pos2 = pos2) as Epos.
  { rewrite Z.add_comm, u16_bytes. apply wrapu_small. lia. }
  eexists. split; [reflexivity|]. unfold term_wf, printed. rsimpl. rewrite Epos. split_and!.
  - f_equal. by apply (screen_put m2 pos2 (Z.lor (chr " ") 0x0700)).
  - by apply (bytes_ok_put m2 pos2).
  - lia.
  - lia.
  - kext.
  - eapply off_screen_trans; [exact Ho1|]. eapply off_screen_trans; [exact Ho2|].
    by apply (off_screen_put m2 pos2).
  - done.
Qed.

(** *** Characters *)

(** The bytes a character sends to the serial port. *)
Definition uart_bytes (c : Z) : list Z := if c =? BACKSPACE then [backspace; 32; backspace] else [u8 c].

(** The console can print. *)
Definition con_ok (k : kernel) : Prop := term_wf k ∧ panicked (console k) = false.

(** [cs] has been printed between [k] and [k']; [com1] has the last byte
    first. *)
Definition shows (cs : list Z) (k k' : kernel) : Prop :=
  term k' = foldl (flip term_put) (term k) cs ∧ con_ok k' ∧ printed k k' ∧
  console k' = (console k) <|crt_pos := crt_pos (console k')|>
    <|com1 := if uart (console k) then reverse (concat (uart_bytes <$> cs)) ++ com1 (console k) else com1 (console k)|>.

Lemma shows_nil k : con_ok k → shows [] k k.
Proof.
  intros Hc. split_and!; [done|done| |]; [split; [kext|by intros b]|]. cbn.
  destruct (console k) as [? ? ? [] ? ? ? ? ?]; done.
Qed.

Lemma shows_app cs cs' k k1 k2 : shows cs k k1 → shows cs' k1 k2 → shows (cs ++ cs') k k2.
Proof.
  intros (A1 & A2 & [A3 A4] & A5) (B1 & B2 & [B3 B4] & B5). split_and!; [|done| |].
  - by rewrite foldl_app, <- A1.
  - split; [rewrite B3, A3; kext|by eapply off_screen_trans].
  - rewrite B5, A5. rsimpl. rewrite fmap_app, concat_app, reverse_app.
    destruct (console k) as [? ? ? [] ? ? ? ? ?]; cbn; rewrite <- ?app_assoc; done.
Qed.

Lemma uartputc_Ret c k :
  uartputc c k = Ret tt (k <|console ::= λ x, x <|com1 := if uart x then u8 c :: com1 x else com1 x|>|>).
Proof.
  unfold uartputc. rewrite bind_gets. destruct (uart (console k)) eqn:E; unfold upd_console, modify, ret; f_equal.
  - kext. by rewrite E.
  - apply kernel_ext; try reflexivity. rsimpl. rewrite E. by destruct (console k).
Qed.

Lemma consputc_Ret c k : con_ok k → ∃ k', consputc c k = Ret tt k' ∧ shows [c] k k'.
Proof.
  intros [Hw Hp]. unfold consputc. rewrite bind_gets, Hp.
  assert (∃ k1, (if c =? BACKSPACE then uartputc backspace;;; uartputc (chr " ");;; uartputc backspace
      else uartputc c) k = Ret tt k1 ∧ k1 = k <|console ::= λ x, x <|com1 := if uart x
        then reverse (uart_bytes c) ++ com1 x else com1 x|>|>) as (k1 & E & Ek).
  { eexists. split; [|reflexivity]. unfold uart_bytes. destruct (c =? BACKSPACE); [|apply uartputc_Ret].
    rewrite (bind_Ret _ _ _ _ _ (uartputc_Ret _ _)), (bind_Ret _ _ _ _ _ (uartputc_Ret _ _)), uartputc_Ret.
    f_equal. apply kernel_ext; try reflexivity. rsimpl. destruct (console k) as [? ? ? [] ? ? ? ? ?]. all: done. }
  rewrite (bind_Ret _ _ _ _ _ E).
  destruct (cgaputc_Ret c k1) as (k' & E' & Ht & Hw' & [Hf Ho] & Hc); [by subst k1|].
  exists k'. split; [done|]. subst k1. split_and!; [done|split; [done|]|split; [|done]|].
  - by rewrite Hc.
  - rewrite Hf. kext.
  - rewrite Hc. cbn. rewrite app_nil_r. done.
Qed.

Lemma consputs_Ret s k : con_ok k → ∃ k', consputs s k = Ret tt k' ∧ shows s k k'.
Proof.
  revert k. induction s as [|c s IH]; intros k Hk; cbn [consputs].
  { exists k. split; [done|]. by apply shows_nil. }
  destruct (consputc_Ret c k Hk) as (k1 & E1 & H1). rewrite (bind_Ret _ _ _ _ _ E1).
  destruct (IH k1) as (k2 & E2 & H2); [apply H1|]. exists k2. split; [done|].
  by apply (shows_app [c] s k k1 k2).
Qed.

(** *** Formats *)

(** The text that a format and its arguments stand for; [None] when an
    argument is missing or of the wrong kind. *)
Fixpoint render (fmt : list Z) (args : list arg) : option (list Z) :=
  match fmt with
  | [] => Some []
  | c :: fmt =>
      if negb (c =? chr "%") then cons c <$> render fmt args else
      match fmt with
      | [] => Some []
      | c :: fmt =>
          if c =? chr "d" then
            match args with Word v :: args => app (int_chars (i32 v) 10 true) <$> render fmt args | _ => None end
          else if (c =? chr "x") || (c =? chr "p") then
            match args with Word v :: args => app (int_chars (i32 v) 16 false) <$> render fmt args | _ => None end
          else if c =? chr "s" then
            match args with
            | Str s :: args => app s <$> render fmt args
            | Word 0 :: args => app (chars "(null)") <$> render fmt args
            | _ => None
            end
          else if c =? chr "%" then cons c <$> render fmt args
          else app [chr "%"; c] <$> render fmt args
      end
  end.

Lemma cprintf_loop_Ret `{Turns} n fmt args cs k :
  (length fmt <= n)%nat → con_ok k → render fmt args = Some cs →
  ∃ k', cprintf_loop fmt args k = Ret tt k' ∧ shows cs k k'.
Proof.
  revert fmt args cs k. induction n as [|n IH]; intros fmt args cs k Hn Hk Hr.
  { destruct fmt; [|cbn in Hn; lia]. cbn in Hr. simplify_eq. exists k. split; [done|]. by apply shows_nil. }
  (* print [s], then go on *)
  assert (∀ s (m : M kernel unit) fmt args cs,
    (∀ k, con_ok k → ∃ k', m k = Ret tt k' ∧ shows s k k') → (length fmt <= n)%nat →
    app s <$> render fmt args = Some cs →
    ∃ k', (m;;; cprintf_loop fmt args) k = Ret tt k' ∧ shows cs k k') as Hstep.
  { intros s m f a cs' Hm Hl Hr'. apply fmap_Some in Hr' as (cs2 & Hr2 & ->).
    destruct (Hm k Hk) as (k1 & E1 & H1). rewrite (bind_Ret _ _ _ _ _ E1).
    destruct (IH f a cs2 k1) as (k2 & E2 & H2); [done|apply H1|done|]. exists k2. split; [done|].
    by apply (shows_app s cs2 k k1 k2). }
  destruct fmt as [|c fmt]; cbn [render cprintf_loop] in *.
  { simplify_eq. exists k. split; [done|]. by apply shows_nil. }
  cbn in Hn. destruct (negb (c =? chr "%")).
  { apply (Hstep [c]); [|lia|done]. intros. by apply consputc_Ret. }
  destruct fmt as [|d fmt]; [simplify_eq; exists k; split; [done|by apply shows_nil]|]. cbn in Hn.
  destruct (d =? chr "d"); [|destruct ((d =? chr "x") || (d =? chr "p")); [|destruct (d =? chr "s"); [|destruct (Z.eqb_spec d (chr "%")) as [->|]]]].
  - destruct args as [|[v|s] args]; [done| |done]. eapply Hstep; [|lia|exact Hr]. intros. by apply consputs_Ret.
  - destruct args as [|[v|s] args]; [done| |done]. eapply Hstep; [|lia|exact Hr]. intros. by apply consputs_Ret.
  - destruct args as [|[v|s] args]; [done| |].
    + destruct v; [|done..]. eapply Hstep; [|lia|exact Hr]. intros. by apply consputs_Ret.
    + eapply Hstep; [|lia|exact Hr]. intros. by apply consputs_Ret.
  - apply (Hstep [chr "%"]); [|lia|done]. intros. by apply consputc_Ret.
  - rewrite <- (bind_assoc _ (λ _, consputc d) (λ _, cprintf_loop fmt args)).
    eapply (Hstep [chr "%"; d]); [|lia|done]. intros k1 Hk1.
    destruct (consputc_Ret (chr "%") k1 Hk1) as (k2 & E2 & H2). rewrite (bind_Ret _ _ _ _ _ E2).
    destruct (consputc_Ret d k2) as (k3 & E3 & H3); [apply H2|]. exists k3. split; [done|].
    by apply (shows_app [chr "%"] [d] k1 k2 k3).
Qed.

(** Printing in a critical section. *)
Lemma term_same k k' : mem k = mem k' → console k = console k' → term k = term k' ∧ (con_ok k → con_ok k').
Proof. intros E1 E2. unfold con_ok, term_wf, term. by rewrite E1, E2. Qed.

Lemma leave_printed k l m c :
  leave k ((enter l k) <|mem := m|> <|console := c|>) = (touch k) <|mem := m|> <|console := c|>.
Proof. by apply kernel_ext. Qed.

Lemma shows_enter cs k l k2 :
  ready k → lock_free k l → shows cs (enter l k) k2 →
  release l k2 = Ret tt (leave k k2) ∧ shows cs (touch k) (leave k k2).
Proof.
  intros Hr Hl (A1 & A2 & [A3 A4] & A5).
  assert (leave k k2 = (touch k) <|mem := mem k2|> <|console := console k2|>) as E.
  { rewrite A3 at 1. apply leave_printed. }
  split; [apply release_leave; [done..|rewrite A3; by split_and!]|].
  destruct (term_same (touch k) (enter l k) eq_refl eq_refl) as [Et _].
  assert (mem (leave k k2) = mem k2) as Em by done. assert (console (leave k k2) = console k2) as Ec by done.
  destruct (term_same k2 (leave k k2) (eq_sym Em) (eq_sym Ec)) as [Et2 Hc].
  unfold shows, printed. rewrite <- Et2, Et, Em, Ec. split; [exact A1|]. split; [exact (Hc A2)|].
  split; [|exact A5]. split; [exact E|exact A4].
Qed.

Lemma cprintf_shows `{Turns} fmt args cs k :
  con_ok k → ready k → lock_free k LCons → render fmt args = Some cs →
  ∃ k', cprintf fmt args k = Ret tt k' ∧ shows cs (if cons_locking (console k) then touch k else k) k'.
Proof.
  intros Hk Hr Hl Hf. unfold cprintf. rewrite bind_gets. destruct (cons_locking (console k)).
  - erewrite bind_Ret by (by apply acquire_enter).
    destruct (cprintf_loop_Ret (length fmt) fmt args cs (enter LCons k)) as (k2 & E & Hs); [done..|].
    rewrite (bind_Ret _ _ _ _ _ E). destruct (shows_enter cs k LCons k2 Hr Hl Hs) as [E2 Hs2]. eauto.
  - rewrite bind_ret_l. destruct (cprintf_loop_Ret (length fmt) fmt args cs k) as (k2 & E & Hs); [done..|].
    rewrite (bind_Ret _ _ _ _ _ E). eauto.
Qed.

(** *** Numbers *)

(** The value of a digit, and of digits in writing order. *)
Definition digit_val (c : Z) : Z := if c <=? chr "9" then c - chr "0" else c - chr "a" + 10.
Definition digits_val (base : Z) (cs : list Z) : Z := foldl (λ v c, base * v + digit_val c) 0 cs.

Lemma digit_val_nth i : 0 <= i < 16 → digit_val (nth (Z.to_nat i) digits 0) = i.
Proof.
  intros Hi. assert (Forall (λ i : nat, digit_val (nth i digits 0) = Z.of_nat i) (seq 0 16)) as H
    by (by apply (bool_decide_unpack _)).
  rewrite Forall_forall in H. rewrite H; [lia|]. apply elem_of_seq. lia.
Qed.

Lemma int_digits_val fuel x base :
  2 <= base <= 16 → 0 <= x < 2 ^ Z.of_nat fuel → (0 < fuel)%nat →
  digits_val base (reverse (int_digits fuel x base)) = x.
Proof.
  intros Hb. revert x. induction fuel as [|fuel IH]; intros x Hx Hf; [lia|]. cbn [int_digits].
  pose proof (Z.mod_pos_bound x base ltac:(lia)) as Hm. pose proof (Z.div_mod x base ltac:(lia)) as Hd.
  rewrite reverse_cons. unfold digits_val. rewrite foldl_app. cbn [foldl]. rewrite digit_val_nth by lia.
  fold (digits_val base (reverse (if x / base =? 0 then [] else int_digits fuel (x / base) base))).
  destruct (Z.eqb_spec (x / base) 0) as [E|E]; [cbn; lia|].
  rewrite Nat2Z.inj_succ, Z.pow_succ_r in Hx by lia.
  destruct fuel as [|fuel]; [cbn in Hx; by rewrite Z.div_small in E by lia|].
  rewrite IH; [lia| |lia]. split; [apply Z.div_pos; lia|]. apply Z.div_lt_upper_bound; nia.
Qed.

(** The number of digits. *)
Lemma int_digits_length fuel x base (d : nat) :
  2 <= base → (0 < d)%nat → 0 <= x < base ^ Z.of_nat d → (0 < length (int_digits (S fuel) x base) <= d)%nat.
Proof.
  intros Hb. revert x d. induction fuel as [|fuel IH]; intros x d Hd Hx.
  { cbn. destruct (x / base =? 0); cbn; lia. }
  remember (S fuel) as f. cbn [int_digits]. destruct (Z.eqb_spec (x / base) 0) as [E|E]; [cbn; lia|].
  cbn [length]. destruct d as [|[|d]]; [lia| |].
  { rewrite Z.pow_1_r, Z.div_small in * by lia. done. }
  subst f. rewrite Nat2Z.inj_succ, Z.pow_succ_r in Hx by lia. specialize (IH (x / base) (S d)).
  assert (x / base < base ^ Z.of_nat (S d)) by (apply Z.div_lt_upper_bound; lia).
  pose proof (Z.div_pos x base ltac:(lia) ltac:(lia)). lia.
Qed.

(** No leading zero. *)
Lemma int_digits_last fuel x base :
  2 <= base <= 16 → 0 < x < 2 ^ Z.of_nat fuel → last (int_digits fuel x base) ≠ Some (chr "0").
Proof.
  intros Hb. revert x. induction fuel as [|fuel IH]; intros x Hx; [done|]. cbn [int_digits].
  pose proof (Z.mod_pos_bound x base ltac:(lia)) as Hm. pose proof (Z.div_mod x base ltac:(lia)) as Hd.
  destruct (Z.eqb_spec (x / base) 0) as [E|E].
  - cbn [last]. intros E0. apply (f_equal (λ o, digit_val (default 0 o))) in E0.
    change (default 0 (Some ?x)) with x in E0. rewrite digit_val_nth in E0 by lia. rewrite E in Hd. change (digit_val (chr "0")) with 0 in E0. lia.
  - rewrite Nat2Z.inj_succ, Z.pow_succ_r in Hx by lia. pose proof (Z.div_pos x base ltac:(lia) ltac:(lia)).
    assert (x / base < 2 ^ Z.of_nat fuel) by (apply Z.div_lt_upper_bound; nia).
    specialize (IH (x / base) ltac:(lia)). rewrite last_cons. destruct (last (int_digits _ _ _)) eqn:El; [done|].
    apply last_None in El. destruct fuel; [cbn in *; lia|done].
Qed.

(** ** Properties *)

(** C31: [cprintf], called with its lock free: for a format whose arguments
    match, exactly the formatted text goes to the serial port and to the
    terminal that the screen memory shows; the call always returns, the
    cursor stays on the screen, and nothing but the screen memory and the
    state of the console changes.  With locking on, the lock is taken and
    given back. *)
Theorem cprintf_correct (T : Turns) (fmt : list Z) (args : list arg) (cs : list Z) (k : kernel) :
  con_ok k → ready k → lock_free k LCons → render fmt args = Some cs →
  ∃ k', cprintf fmt args k = Ret tt k' ∧
    shows cs (if cons_locking (console k) then touch k else k) k'.
Proof.
  apply cprintf_shows.
Qed.

(** The characters [printint] prints are the number, in decimal with a
    sign (the smallest [int] included) or in hexadecimal: without leading
    zeros, and never more than the 16 that its buffer holds. *)
Theorem printint_correct (xx base : Z) (sign : bool) :
  - 2 ^ 31 <= xx < 2 ^ 31 → base = 10 ∨ base = 16 →
  (length (int_chars xx base sign) <= 16)%nat ∧
  ∃ ds, int_chars xx base sign = (if sign && (xx <? 0) then chr "-" :: ds else ds) ∧ ds ≠ [] ∧
    digits_val base ds = (if sign && (xx <? 0) then - xx else u32 xx) ∧
    (xx ≠ 0 → hd 0 ds ≠ chr "0").
Proof.
  intros Hx Hb. unfold int_chars. assert (∃ fuel, fuel = 32%nat) as [fuel Ef] by eauto. rewrite <- Ef. set (neg := sign && (xx <? 0)).
  set (x := if neg then u32 (- xx) else u32 xx).
  assert (2 <= base <= 16) as Hb' by (destruct Hb; lia).
  assert (0 <= x < 2 ^ 32) as Hxr by (unfold x; destruct neg; apply u32_range).
  assert ((if neg then - xx else u32 xx) = x) as Ex.
  { unfold x, neg. destruct sign; cbn [andb]; [|done]. destruct (Z.ltb_spec xx 0); [|done].
    symmetry. apply u32_small. lia. }
  assert (0 < length (int_digits fuel x base) <= 10)%nat as Hlen.
  { rewrite Ef. apply (int_digits_length 31); [lia..|]. destruct Hb as [-> | ->]; cbn; lia. }
  split. { rewrite length_reverse, length_app. destruct neg; cbn [length]; lia. }
  exists (reverse (int_digits fuel x base)). rewrite reverse_app. split_and!.
  - by destruct neg.
  - intros E. apply (f_equal length) in E. rewrite length_reverse in E. cbn in E. lia.
  - rewrite Ex. apply int_digits_val; [lia|by rewrite Ef|lia].
  - intros Hne. assert (0 < x) as Hpos.
    { rewrite <- Ex. destruct neg eqn:En; [unfold neg in En; destruct (Z.ltb_spec xx 0); [lia|by rewrite andb_false_r in En]|].
      unfold u32, wrapu. zdiv. }
    pose proof (int_digits_last fuel x base Hb' ltac:(rewrite Ef; cbn; lia)) as Hl. rewrite <- head_reverse in Hl.
    clear - Hl. destruct (reverse (int_digits fuel x base)) as [|d ds]; [done|]. intros Ed. apply Hl. by rewrite <- Ed.
Qed.

(** A kernel whose console has its lock, its serial port, and an empty
    screen. *)
Definition demo_console : kernel :=
  (bss 0x80110000) <|cpus := [MkCpu 0 0 0 false None]|> <|console ::= λ c, c <|uart := true|> <|cons_locking := true|>|>.

Lemma demo_console_ok : con_ok demo_console ∧ ready demo_console ∧ lock_free demo_console LCons.
Proof.
  split_and!.
  - split; [|done]. split; [|done]. by intros a.
  - exists (MkCpu 0 0 0 false None). by repeat split.
  - by exists EmptyString.
Qed.

Lemma cprintf_correct_witness :
  ∃ k', @cprintf 1%nat (chars "%d%%") [Word 42] demo_console = Ret tt k' ∧ com1 (console k') = chars "%24".
Proof.
  destruct demo_console_ok as (H1 & H2 & H3).
  destruct (cprintf_correct 1%nat (chars "%d%%") [Word 42] (chars "42%") demo_console H1 H2 H3 eq_refl)
    as (k' & E & _ & _ & _ & Ec). exists k'. split; [exact E|]. rewrite Ec. reflexivity.
Defined.

Lemma printint_correct_witness :
  int_chars (- 2 ^ 31) 10 true = chars "-2147483648" ∧ (length (int_chars (- 2 ^ 31) 10 true) <= 16)%nat.
Proof.
  split; [reflexivity|]. apply (printint_correct (- 2 ^ 31) 10 true); [lia|by left].
Defined.
