(* ===== verification/Proc.v ===== *)
(** The process table of [proc.c]: allocation of processes, [sched] and the
    calls that give up the CPU, [sleep] and [wakeup], [kill], and the part of
    [vm.c] that switches address spaces.

    Messages printed on the console are left out. *)

From stdpp Require Import base gmap strings list.
From Stdlib Require Import ZArith Lia.
From S2P Require Import Prelude Heap CString Mmu State Spinlock Kalloc Vm.
#[local] Open Scope Z_scope.

(** ** The code *)

(** Read and write [*p] for a [struct proc *p]. *)
Definition lookup_proc (k : kernel) (p : pptr) : option proc :=
  match p with PT i => ptable k !! i | HP i => heap_arr k !! i end.
Definition update_proc (p : pptr) (f : proc → proc) (k : kernel) : kernel :=
  match p with
  | PT i => k <|ptable ::= alter f i|>
  | HP i => k <|heap_arr ::= alter f i|>
  end.
Definition get_proc (p : pptr) : M kernel proc := λ k,
  match lookup_proc k p with Some pr => Ret pr k | None => Fault end.
Definition upd_proc (p : pptr) (f : proc → proc) : M kernel unit :=
  let! _ := get_proc p in modify (update_proc p f).

(** Use of a pointer that may be null. *)
Definition deref {A} (p : option A) : M kernel A := get_some p.

Definition pinit : M kernel unit := initlock LPtable "ptable".

Definition myproc : M kernel (option pptr) :=
  pushcli;;;
  let! i := mycpu in
  let! c := get_cpu i in
  popcli;;;
  ret (c_proc c).

(** [sizeof(struct trapframe)]. *)
Definition TFSIZE : Z := 76.

(** The index of the first process with a property. *)
Definition find_proc (P : proc → bool) (l : list proc) : option nat :=
  fst <$> list_find P l.

Definition allocproc : M kernel (option pptr) :=
  acquire LPtable;;;
  let! r := gets (λ k, find_proc (λ p, bool_decide (p_state p = UNUSED)) (ptable k)) in
  match r with
  | None => release LPtable;;; ret None
  | Some i =>
      let p := PT i in
      upd_proc p (λ pr, pr <|p_state := EMBRYO|>);;;
      (let! n := gets nextpid in
       upd_proc p (λ pr, pr <|p_pid := n|>);;;
       modify (λ k, k <|nextpid := i32 (n + 1)|>));;;
      release LPtable;;;
      let! ks := kalloc in
      upd_proc p (λ pr, pr <|p_kstack := ks|>);;;
      if ks =? 0 then
        upd_proc p (λ pr, pr <|p_state := UNUSED|>);;;
        ret None
      else
        upd_proc p (λ pr, pr <|p_tf := u32 (ks + KSTACKSIZE - TFSIZE)|>);;;
        upd_proc p (λ pr, pr <|p_context := CtxForkret|>);;;
        ret (Some p)
  end.

Definition getticks : M kernel Z :=
  acquire LTicks;;;
  let! xticks := gets ticks in
  release LTicks;;;
  ret (i32 xticks).

(** [sched]: the [swtch] saves the caller's registers in [p->context] and
    goes to the scheduler. *)
Definition sched : M kernel unit :=
  let! p := myproc in
  let! h := holding LPtable in
  if negb h then panic "sched ptable.lock" else
  let! i := mycpu in
  let! c := get_cpu i in
  if negb (ncli c =? 1) then panic "sched locks" else
  let! p := deref p in
  let! pr := get_proc p in
  if bool_decide (p_state pr = RUNNING) then panic "sched running" else
  let! f := readeflags_if in
  if f then panic "sched interruptible" else
  let! i := mycpu in
  let! c := get_cpu i in
  upd_proc p (λ pr, pr <|p_context := CtxSaved|>);;;
  suspend;;;
  let! i := mycpu in
  let! c' := get_cpu i in
  set_cpu i (c' <|intena := intena c|>).

Definition yield : M kernel unit :=
  acquire LPtable;;;
  let! p := myproc in
  let! p := deref p in
  upd_proc p (λ pr, pr <|p_state := RUNNABLE|>);;;
  sched;;;
  release LPtable.

(** A lock is passed by its name, which is never null: the check of [lk == 0]
    cannot fail. *)
Definition sleep (chan : channel) (lk : lockid) : M kernel unit :=
  let! p := myproc in
  match p with
  | None => panic "sleep"
  | Some p =>
      (when negb (bool_decide (lk = LPtable)) do
         (acquire LPtable;;; release lk));;;
      upd_proc p (λ pr, pr <|p_chan := Some chan|>);;;
      upd_proc p (λ pr, pr <|p_state := SLEEPING|>);;;
      sched;;;
      upd_proc p (λ pr, pr <|p_chan := None|>);;;
      when negb (bool_decide (lk = LPtable)) do
        (release LPtable;;; acquire lk)
  end.

Definition wake (chan : option channel) (p : proc) : proc :=
  if bool_decide (p_state p = SLEEPING ∧ p_chan p = chan) then p <|p_state := RUNNABLE|> else p.

Definition wakeup1 (chan : option channel) : M kernel unit :=
  modify (λ k, k <|ptable ::= map (wake chan)|>).

Definition wakeup (chan : channel) : M kernel unit :=
  acquire LPtable;;;
  wakeup1 (Some chan);;;
  release LPtable.

Definition kill (pid : Z) : M kernel Z :=
  acquire LPtable;;;
  let! r := gets (λ k, find_proc (λ p, p_pid p =? pid) (ptable k)) in
  match r with
  | Some i =>
      upd_proc (PT i) (λ pr, pr <|p_killed := true|>);;;
      (let! pr := get_proc (PT i) in
       when bool_decide (p_state pr = SLEEPING) do
         upd_proc (PT i) (λ pr, pr <|p_state := RUNNABLE|>));;;
      release LPtable;;;
      ret 0
  | None => release LPtable;;; ret (-1)
  end.

(** From [vm.c].  The task state segment keeps only the kernel stack here:
    its other fields get constants. *)
Definition switchuvm (p : option pptr) : M kernel unit :=
  match p with
  | None => panic "switchuvm: no process"
  | Some p =>
      let! pr := get_proc p in
      if p_kstack pr =? 0 then panic "switchuvm: no kstack" else
      if p_pgdir pr =? 0 then panic "switchuvm: no pgdir" else
      pushcli;;;
      let! i := mycpu in
      let! c := get_cpu i in
      set_cpu i (c <|ts_esp0 := u32 (p_kstack pr + KSTACKSIZE)|>);;;
      modify (λ k, k <|cr3 := V2P (p_pgdir pr)|>);;;
      popcli
  end.

(** ** Specification *)

(** The running CPU is between critical sections: its locks are free where
    the code takes them. *)
Definition calm (k : kernel) : Prop := ready k ∧ lock_free k LPtable.

(** The same with room for one more critical section around it, as the
    interrupt handlers have that wake a process. *)
Definition rested (k : kernel) : Prop := roomy k ∧ lock_free k LPtable.

(** Process [p] has left the CPU, or is about to be given it: the scheduler's
    lock is held, it is the only one, and interrupts are off. *)
Definition handover (k : kernel) (p : pptr) : Prop :=
  lock_held k LPtable (cur k) ∧ eflags_if k = false ∧
  ∃ c, on_cpu k (cur k) c ∧ ncli c = 1 ∧ c_proc c = Some p.

(** ** Lemmas *)

(** Reading the CPU between [pushcli] and [popcli]. *)
Lemma peek_Ret {A} k c (f : nat → cpu → A) :
  on_cpu k (cur k) c → cpu_ok k c →
  (pushcli;;; let! i := mycpu in let! c := get_cpu i in popcli;;; ret (f i c)) k =
  Ret (f (cur k) (cpu_push (eflags_if k) c)) (touch k).
Proof.
  intros H Hok. erewrite bind_Ret by (by eapply pushcli_Ret).
  assert (on_cpu (k <|eflags_if := false|> <|cpus ::= <[cur k:=cpu_push (eflags_if k) c]>|>)
    (cur k) (cpu_push (eflags_if k) c)) as H1.
  { eapply on_cpu_set; [by apply on_cpu_if|apply apicid_push]. }
  erewrite bind_Ret by (by eapply mycpu_Ret). erewrite bind_Ret by (by eapply get_cpu_Ret).
  erewrite bind_Ret.
  apply (room_less _ 1) in Hok; [|lia].
  2: { eapply popcli_Ret; [done..|]. destruct Hok. rewrite ncli_push; lia. }
  rewrite (flag_restored k c Hok), cpu_pop_push by (destruct Hok; lia). unfold ret. f_equal.
  rewrite (touch_insert _ _ _ H). kext. apply list_insert_insert_eq.
Qed.

Lemma myproc_Ret k : ready k → myproc k = Ret (curproc k) (touch k).
Proof.
  intros (c & H & Hok). unfold myproc. rewrite (peek_Ret k c (λ _, c_proc) H Hok).
  unfold curproc. rewrite (proj2 H). cbn. by rewrite c_proc_push.
Qed.

Lemma holding_ready k l lk :
  ready k → locks k !! l = Some lk →
  holding l k = Ret (locked lk && bool_decide (lk_cpu lk = Some (cur k))) (touch k).
Proof.
  intros (c & H & Hok) Hl. apply (room_less _ 1) in Hok; [|lia]. erewrite holding_Ret by done. by erewrite touch_insert by done.
Qed.

Lemma getticks_Ret k :
  ready k → lock_free k LTicks → getticks k = Ret (i32 (ticks k)) (touch k).
Proof.
  intros H Hl. unfold getticks. erewrite bind_Ret by (by apply acquire_enter).
  rewrite bind_gets. erewrite bind_Ret by (by apply release_leave).
  unfold ret. by f_equal.
Qed.

Lemma wakeup_Ret k chan :
  ready k → lock_free k LPtable →
  wakeup chan k = Ret tt (touch (k <|ptable ::= map (wake (Some chan))|>)).
Proof.
  intros H Hl. unfold wakeup. erewrite critical_Ret; [|done..]. by f_equal.
Qed.

Lemma lookup_proc_update k p f :
  lookup_proc (update_proc p f k) p = f <$> lookup_proc k p.
Proof. destruct p as [i|i]; cbn [lookup_proc update_proc]; rsimpl; apply list_lookup_alter_eq. Qed.

Lemma get_proc_Ret k p pr : lookup_proc k p = Some pr → get_proc p k = Ret pr k.
Proof. intros H. unfold get_proc. by rewrite H. Qed.

(** [p] points to a process structure. *)
Definition valid (k : kernel) (p : pptr) : Prop := is_Some (lookup_proc k p).

Lemma upd_proc_Ret k p f : valid k p → upd_proc p f k = Ret tt (update_proc p f k).
Proof. intros [pr H]. unfold upd_proc. by erewrite bind_Ret by (by apply get_proc_Ret). Qed.

Lemma valid_update k p q f : valid k p → valid (update_proc q f k) p.
Proof.
  unfold valid. destruct p as [i|i], q as [j|j]; cbn [lookup_proc update_proc]; rsimpl; try done;
  rewrite !lookup_lt_is_Some, length_alter; done.
Qed.

Lemma valid_eq k k' p :
  ptable k' = ptable k → heap_arr k' = heap_arr k → valid k p → valid k' p.
Proof. unfold valid. intros E1 E2. destruct p as [i|i]; cbn; by rewrite ?E1, ?E2. Qed.

#[export] Hint Resolve valid_update : kern.

(** Run an update of [*p] that is known to be valid. *)
Ltac run_upd := erewrite bind_Ret by (apply upd_proc_Ret; auto with kern).

Lemma hw_same_update_proc k p f : hw_same k (update_proc p f k).
Proof. by destruct p. Qed.

Lemma update_proc_compose k p f g :
  update_proc p f (update_proc p g k) = update_proc p (λ pr, f (g pr)) k.
Proof.
  destruct p as [i|i]; cbn [update_proc]; kext; apply (list_alter_alter_eq f g).
Qed.

Lemma find_proc_Some P l i :
  find_proc P l = Some i →
  ∃ pr, l !! i = Some pr ∧ P pr = true ∧ ∀ j q, l !! j = Some q → (j < i)%nat → P q = false.
Proof.
  unfold find_proc. intros ([i' pr] & H & ->)%fmap_Some.
  apply list_find_Some in H as (H1 & H2 & H3). exists pr. split_and!; [done|by destruct (P pr)|].
  intros j q Hj Hlt. specialize (H3 j q Hj Hlt). by destruct (P q).
Qed.

Lemma find_proc_intro P l i pr :
  l !! i = Some pr → P pr = true → (∀ j q, l !! j = Some q → (j < i)%nat → P q = false) →
  find_proc P l = Some i.
Proof.
  intros Hi Hp Hlt. unfold find_proc. apply fmap_Some. exists (i, pr). split; [|done].
  apply list_find_Some. split_and!; [done|by rewrite Hp|].
  intros j q Hj Hl. rewrite (Hlt j q Hj Hl). by intros [].
Qed.

Lemma find_proc_None P l i pr : find_proc P l = None → l !! i = Some pr → P pr = false.
Proof.
  unfold find_proc. intros H%fmap_None Hi. rewrite list_find_None, Forall_lookup in H.
  specialize (H i pr Hi). by destruct (P pr).
Qed.

Definition is_unused (p : proc) : bool := bool_decide (p_state p = UNUSED).

(** The process [allocproc] sets up, with and without memory for its stack. *)
Definition embryo (pid ks : Z) (pr : proc) : proc :=
  pr <|p_state := EMBRYO|> <|p_pid := pid|> <|p_kstack := ks|>
     <|p_tf := u32 (ks + KSTACKSIZE - TFSIZE)|> <|p_context := CtxForkret|>.
Definition stillborn (pid : Z) (pr : proc) : proc :=
  pr <|p_state := UNUSED|> <|p_pid := pid|> <|p_kstack := 0|>.

Lemma kmem_touch_id k : touch k = k → kmem_touch k = k.
Proof. unfold kmem_touch. by destruct (use_lock k). Qed.

Lemma allocproc_none k :
  calm k → find_proc is_unused (ptable k) = None → allocproc k = Ret None (touch k).
Proof.
  intros [H Hl] Hn. unfold allocproc. erewrite bind_Ret by (by apply acquire_enter).
  rewrite bind_gets. change (ptable (enter LPtable k)) with (ptable k).
  unfold is_unused in Hn. rewrite Hn. by erewrite bind_Ret by (by apply release_leave).
Qed.

(** The part of [allocproc] under the lock. *)
Lemma allocproc_slot k i (m : M kernel (option pptr)) :
  calm k → find_proc is_unused (ptable k) = Some i →
  (upd_proc (PT i) (λ pr, pr <|p_state := EMBRYO|>);;;
   (let! n := gets nextpid in
    upd_proc (PT i) (λ pr, pr <|p_pid := n|>);;;
    modify (λ k, k <|nextpid := i32 (n + 1)|>));;;
   release LPtable;;; m) (enter LPtable k) =
  m (touch (k <|ptable ::= alter (λ pr, pr <|p_state := EMBRYO|> <|p_pid := nextpid k|>) i|>
              <|nextpid := i32 (nextpid k + 1)|>)).
Proof.
  intros [H Hl] (pr & Hi & _)%find_proc_Some.
  assert (valid (enter LPtable k) (PT i)) as Hv by (by eexists).
  run_upd. rewrite bind_assoc, bind_gets, bind_assoc. run_upd.
  rewrite bind_modify, update_proc_compose. erewrite bind_Ret by (by apply release_leave).
  f_equal.
Qed.

(** The allocator's lock can be taken inside the kernel's other calls. *)
Definition kmem_calm (k : kernel) : Prop := use_lock k = true → lock_free k LKmem.

Lemma kmem_calm_ready k : ready k → kmem_calm k → kmem_ready k.
Proof. intros H Hk Hu. split; [done|by apply Hk]. Qed.

Lemma allocproc_some k i :
  calm k → kmem_calm k → find_proc is_unused (ptable k) = Some i → freelist k ≠ 0 →
  allocproc k = Ret (Some (PT i))
    (touch (k <|ptable ::= alter (embryo (nextpid k) (freelist k)) i|>
              <|nextpid := i32 (nextpid k + 1)|> <|freelist ::= rd32 (mem k)|>)).
Proof.
  intros Hc Hk Hf Hm. pose proof Hc as [H Hl]. unfold allocproc.
  erewrite bind_Ret by (by apply acquire_enter).
  rewrite bind_gets. change (ptable (enter LPtable k)) with (ptable k).
  unfold is_unused in Hf. rewrite Hf. rewrite allocproc_slot by done.
  set (k1 := k <|ptable ::= _|> <|nextpid := _|>).
  assert (ready k1) as H1 by (by eapply ready_same).
  destruct (find_proc_Some _ _ _ Hf) as (pr & Hi & _).
  erewrite bind_Ret.
  2: { apply kalloc_Ret, kmem_calm_ready; [by apply ready_touch|done]. }
  rewrite kmem_touch_id by (by apply touch_touch).
  change (freelist (touch k1)) with (freelist k).
  destruct (Z.eqb_spec (freelist k) 0); [done|].
  set (k2 := (touch k1) <|freelist := _|>).
  assert (valid k2 (PT i)) as Hv by (apply (valid_update k (PT i) (PT i)); by eexists).
  run_upd. run_upd. run_upd. unfold ret. f_equal. rewrite !update_proc_compose.
  cbn [update_proc]. unfold k2, k1, touch. kext. by rewrite list_alter_alter_eq.
Qed.

Lemma allocproc_nomem k i :
  calm k → kmem_calm k → find_proc is_unused (ptable k) = Some i → freelist k = 0 →
  allocproc k = Ret None
    (touch (k <|ptable ::= alter (stillborn (nextpid k)) i|>
              <|nextpid := i32 (nextpid k + 1)|>)).
Proof.
  intros Hc Hk Hf Hm. pose proof Hc as [H Hl]. unfold allocproc.
  erewrite bind_Ret by (by apply acquire_enter).
  rewrite bind_gets. change (ptable (enter LPtable k)) with (ptable k).
  unfold is_unused in Hf. rewrite Hf. rewrite allocproc_slot by done.
  set (k1 := k <|ptable ::= _|> <|nextpid := _|>).
  assert (ready k1) as H1 by (by eapply ready_same).
  destruct (find_proc_Some _ _ _ Hf) as (pr & Hi & _).
  erewrite bind_Ret.
  2: { apply kalloc_Ret, kmem_calm_ready; [by apply ready_touch|done]. }
  rewrite kmem_touch_id by (by apply touch_touch).
  change (freelist (touch k1)) with (freelist k). rewrite Hm. cbn [Z.eqb].
  assert (valid (touch k1) (PT i)) as Hv by (apply (valid_update k (PT i) (PT i)); by eexists).
  run_upd. run_upd. unfold ret. f_equal. rewrite !update_proc_compose.
  cbn [update_proc]. unfold k1, touch. kext. rewrite list_alter_alter_eq.
  apply list_alter_ext; [|done]. intros x. by destruct x.
Qed.

(** *** Giving up the CPU *)

Lemma on_cpu_det k i i' c c' : on_cpu k i c → on_cpu k i' c' → i = i' ∧ c = c'.
Proof. intros [H1 H2] [H3 H4]. by simplify_eq. Qed.

Lemma handover_holds k p : handover k p → holds k LPtable.
Proof. intros (H1 & H2 & c & H3 & H4 & _). split_and!; [done..|]. exists c. split; [done|lia]. Qed.

Lemma handover_curproc k p : handover k p → curproc k = Some p.
Proof. intros (_ & _ & c & H & _ & Hp). unfold curproc. by rewrite (proj2 H). Qed.

Lemma handover_update k p q f : handover k p → handover (update_proc q f k) p.
Proof. by destruct q. Qed.

#[export] Hint Resolve handover_update handover_holds : kern.

Lemma holding_held k l : holds k l → holding l k = Ret true k.
Proof.
  intros Hh. pose proof Hh as ([nm Hl] & He & c & H & Hn).
  erewrite holding_Ret_nested by (done || lia). cbn. by rewrite bool_decide_true.
Qed.

(** The rest of [sched] after the [swtch] back, for a thread that had
    [intena] set to [b]. *)
Definition sched_resume (b : bool) : M kernel unit :=
  let! i := mycpu in
  let! c' := get_cpu i in
  set_cpu i (c' <|intena := b|>).

Lemma sched_Suspend k p pr :
  handover k p → lookup_proc k p = Some pr → p_state pr ≠ RUNNING →
  sched k = Suspend (update_proc p (λ pr, pr <|p_context := CtxSaved|>) k)
    (sched_resume (cur_intena k)).
Proof.
  intros Hh Hp Hs. pose proof (handover_holds _ _ Hh) as Hl.
  pose proof Hh as (_ & He & c & H & Hn & _). unfold sched.
  erewrite bind_Ret by (apply myproc_Ret; by eapply holds_ready).
  rewrite (handover_curproc _ _ Hh), (touch_holds _ _ Hl).
  erewrite bind_Ret by (by apply holding_held). cbn [negb].
  erewrite bind_Ret by (by eapply mycpu_Ret). erewrite bind_Ret by (by eapply get_cpu_Ret).
  rewrite Hn. cbn [Z.eqb Pos.eqb negb deref get_some]. rewrite bind_ret_l.
  erewrite bind_Ret by (by apply get_proc_Ret). rewrite bool_decide_false by done.
  unfold readeflags_if. rewrite bind_gets, He.
  erewrite bind_Ret by (by eapply mycpu_Ret). erewrite bind_Ret by (by eapply get_cpu_Ret).
  erewrite bind_Ret by (apply upd_proc_Ret; by eexists).
  replace (cur_intena k) with (intena c) by (unfold cur_intena; by rewrite (proj2 H)).
  reflexivity.
Qed.

(** The state a resumed thread continues in. *)
Definition resumed (b : bool) (k : kernel) : kernel :=
  k <|cpus ::= alter (λ c, c <|intena := b|>) (cur k)|>.

Lemma sched_resume_Ret b k p : handover k p → sched_resume b k = Ret tt (resumed b k).
Proof.
  intros (_ & He & c & H & _). unfold sched_resume, resumed.
  erewrite bind_Ret by (by eapply mycpu_Ret). erewrite bind_Ret by (by eapply get_cpu_Ret).
  unfold set_cpu, modify. f_equal. kext. symmetry. by eapply list_alter_insert, H.
Qed.

Lemma on_cpu_resumed b k i c :
  on_cpu k i c → on_cpu (resumed b k) i (c <|intena := b|>).
Proof.
  intros H. unfold resumed. rewrite (on_cpu_cur _ _ _ H).
  by apply (on_cpu_alter k i c (λ c, c <|intena := b|>)).
Qed.

Lemma handover_resumed b k p : handover k p → handover (resumed b k) p.
Proof.
  intros (Hl & He & c & H & Hn & Hp). pose proof (on_cpu_resumed b k _ c H) as H1.
  unfold handover. rewrite (on_cpu_cur _ _ _ H1). split_and!; [done..|].
  by exists (c <|intena := b|>).
Qed.

(** The state in which [sleep] switches away, and the rest of the thread. *)
Definition asleep (p : pptr) (chan : channel) (k : kernel) : kernel :=
  update_proc p (λ pr, pr <|p_chan := Some chan|> <|p_state := SLEEPING|>
                          <|p_context := CtxSaved|>) k.
Definition sleep_resume (p : pptr) (lk : lockid) (b : bool) : M kernel unit :=
  sched_resume b;;;
  upd_proc p (λ pr, pr <|p_chan := None|>);;;
  when negb (bool_decide (lk = LPtable)) do (release LPtable;;; acquire lk).

Lemma sleep_tail k p pr chan (m : M kernel unit) :
  handover k p → lookup_proc k p = Some pr →
  (upd_proc p (λ pr, pr <|p_chan := Some chan|>);;;
   upd_proc p (λ pr, pr <|p_state := SLEEPING|>);;; sched;;; m) k =
  Suspend (asleep p chan k) (sched_resume (cur_intena k);;; m).
Proof.
  intros Hh Hp. assert (valid k p) as Hv by (by eexists). run_upd. run_upd.
  rewrite update_proc_compose.
  erewrite bind_Suspend.
  2: { eapply sched_Suspend; [by apply handover_update|by rewrite lookup_proc_update, Hp|done]. }
  rewrite update_proc_compose. unfold asleep. f_equal. f_equal. by destruct p.
Qed.

(** The CPU holds exactly [lk] and runs [p]. *)
Definition holds_only (k : kernel) (lk : lockid) (p : pptr) : Prop :=
  lock_held k lk (cur k) ∧ eflags_if k = false ∧
  ∃ c, on_cpu k (cur k) c ∧ ncli c = 1 ∧ c_proc c = Some p.

Lemma holds_only_holds k lk p : holds_only k lk p → holds k lk.
Proof. intros (H1 & H2 & c & H3 & H4 & _). split_and!; [done..|]. exists c. split; [done|lia]. Qed.

(** From one lock to another: take [l'], drop [l]. *)
Lemma swap_lock k l l' p :
  holds_only k l p → l ≠ l' → lock_free k l' →
  (acquire l';;; release l) k = Ret tt (dropped l (enter l' k)) ∧
  holds_only (dropped l (enter l' k)) l' p ∧ lock_free (dropped l (enter l' k)) l ∧
  cur_intena (dropped l (enter l' k)) = cur_intena k.
Proof.
  intros Ho Hne Hf. pose proof (holds_only_holds _ _ _ Ho) as Hl.
  pose proof (holds_ready _ _ Hl) as Hr. pose proof Ho as ([nm Hk] & He & c & H & Hn & Hp).
  pose proof Hf as [nm' Hf']. assert (on_cpu (enter l' k) (cur k) (cpu_push false c)) as H1.
  { erewrite enter_acquired by done. rewrite <- He. by apply on_cpu_acquired. }
  pose proof (on_cpu_cur _ _ _ H1) as Hc1.
  assert (holds (enter l' k) l) as Hh.
  { unfold holds. rewrite Hc1. split_and!; [|done|].
    - exists nm. unfold enter. rsimpl. by rewrite lookup_alter_ne.
    - exists (cpu_push false c). split; [done|]. rewrite ncli_push; lia. }
  pose proof (on_cpu_dropped (enter l' k) l _ ltac:(rewrite Hc1; exact H1)) as H2.
  rewrite Hc1, cpu_pop_push, cpu_note_id in H2 by lia.
  pose proof (on_cpu_cur _ _ _ H2) as Hc2. split_and!.
  - erewrite bind_Ret by (by apply acquire_enter). by apply release_dropped.
  - unfold holds_only. rewrite Hc2. split_and!; [| |by exists c].
    + exists nm'. rewrite locks_dropped_ne by done. unfold enter. rsimpl.
      by rewrite (map_alter_insert _ _ _ _ Hf'), lookup_insert_eq.
    + unfold dropped. rsimpl. rewrite Hc1, (proj2 H1), ncli_push, Hn by lia. done.
  - by apply lock_free_dropped.
  - unfold cur_intena. by rewrite Hc2, (proj2 H2), (proj2 H).
Qed.

(** Where [sleep] ends up before it calls [sched]. *)
Definition sleep_lock (lk : lockid) (k : kernel) : kernel :=
  if bool_decide (lk = LPtable) then k else dropped lk (enter LPtable k).

Lemma sleep_Suspend k p pr chan lk :
  holds_only k lk p → (lk ≠ LPtable → lock_free k LPtable) → lookup_proc k p = Some pr →
  handover (sleep_lock lk k) p ∧
  sleep chan lk k =
    Suspend (asleep p chan (sleep_lock lk k)) (sleep_resume p lk (cur_intena k)).
Proof.
  intros Ho Hf Hp. pose proof (holds_only_holds _ _ _ Ho) as Hl.
  unfold sleep. erewrite bind_Ret by (apply myproc_Ret; by eapply holds_ready).
  rewrite (touch_holds _ _ Hl). replace (curproc k) with (Some p)
    by (destruct Ho as (_ & _ & c & H & _ & <-); unfold curproc; by rewrite (proj2 H)).
  unfold sleep_lock, sleep_resume. case_bool_decide as E; cbn [negb].
  - subst lk. split; [done|]. rewrite bind_ret_l. by apply sleep_tail with pr.
  - destruct (swap_lock k lk LPtable p) as (H1 & H2 & H3 & H4); [auto..|]. split; [done|].
    rewrite (bind_Ret _ _ _ _ _ H1), <- H4. apply sleep_tail with pr; [done|].
    rewrite <- Hp. by destruct p.
Qed.

Lemma curproc_enter k l : ready k → lock_free k l → curproc (enter l k) = curproc k.
Proof.
  intros (c & H & _) [nm Hf].
  assert (on_cpu (enter l k) (cur k) (cpu_push (eflags_if k) c)) as H1.
  { erewrite enter_acquired by done. by apply on_cpu_acquired. }
  unfold curproc. rewrite (on_cpu_cur _ _ _ H1), (proj2 H1), (proj2 H). apply c_proc_push.
Qed.

Lemma cur_update_proc p f k : cur (update_proc p f k) = cur k.
Proof. by destruct p. Qed.

Lemma lock_free_update p f k l : lock_free (update_proc p f k) l ↔ lock_free k l.
Proof. by destruct p. Qed.

(** Drop the scheduler's lock and take [lk], on any CPU. *)
Lemma retake_lock k p lk :
  handover k p → lk ≠ LPtable → lock_free k lk →
  ∃ k', (release LPtable;;; acquire lk) k = Ret tt k' ∧ holds_only k' lk p ∧
    lock_free k' LPtable ∧ cur_intena k' = cur_intena k ∧
    ptable k' = ptable k ∧ heap_arr k' = heap_arr k.
Proof.
  intros Hh Hne [nm Hf]. pose proof (handover_holds _ _ Hh) as Hl.
  pose proof Hh as (_ & He & c & H & Hn & Hp).
  set (k1 := dropped LPtable k). assert (roomy k1) as Hr by (by apply ready_dropped).
  assert (lock_free k1 lk) as Hf1 by (exists nm; unfold k1; by rewrite locks_dropped_ne).
  pose proof (on_cpu_dropped k LPtable c H) as H1. fold k1 in H1.
  assert (on_cpu (enter lk k1) (cur k) (cpu_push (eflags_if k1) (cpu_pop c))) as H2.
  { destruct Hf1 as [nm1 Hf1]. erewrite enter_acquired by done. by apply on_cpu_acquired. }
  pose proof (holds_enter k1 lk Hr Hf1) as (Hh1 & Hh2 & _).
  exists (enter lk k1). pose proof (on_cpu_cur _ _ _ H2) as Hc. split_and!; try done.
  - erewrite bind_Ret by (by apply release_dropped). apply acquire_enter; [by apply roomy_ready|done].
  - unfold holds_only. rewrite Hc in *. split_and!; try done. eexists. split; [done|].
    rewrite c_proc_push. unfold cpu_push, cpu_pop. rsimpl. rewrite Hn. change (i32 (1 - 1)) with 0.
    cbn [Z.eqb]. rsimpl. rewrite Hn. done.
  - apply lock_free_enter; [done|]. by apply lock_free_dropped.
  - unfold cur_intena. rewrite Hc, (proj2 H2), (proj2 H). unfold cpu_push, cpu_pop. rsimpl.
    rewrite Hn. change (i32 (1 - 1)) with 0. cbn [Z.eqb]. rsimpl. unfold k1, dropped. rsimpl.
    by rewrite (proj2 H), Hn.
Qed.

Lemma cur_intena_resumed b k p : handover k p → cur_intena (resumed b k) = b.
Proof.
  intros (_ & _ & c & H & _). pose proof (on_cpu_resumed b k _ c H) as H1.
  unfold cur_intena. by rewrite (on_cpu_cur _ _ _ H1), (proj2 H1).
Qed.

Lemma cur_intena_update p f k : cur_intena (update_proc p f k) = cur_intena k.
Proof. by destruct p. Qed.

Lemma sleep_resume_Ret k p pr lk b :
  handover k p → lookup_proc k p = Some pr → lk ≠ LPtable → lock_free k lk →
  ∃ k', sleep_resume p lk b k = Ret tt k' ∧ holds_only k' lk p ∧ lock_free k' LPtable ∧
    cur_intena k' = b ∧ lookup_proc k' p = Some (pr <|p_chan := None|>).
Proof.
  intros Hh Hp Hne Hf. unfold sleep_resume.
  erewrite bind_Ret by (by eapply sched_resume_Ret).
  assert (valid (resumed b k) p) as Hv by (by apply (valid_eq k); [..|eexists]).
  run_upd. rewrite bool_decide_false by done. cbn [negb].
  set (k1 := update_proc p _ (resumed b k)).
  destruct (retake_lock k1 p lk) as (k' & H1 & H2 & H3 & H4 & H5 & H6); [|done|..].
  - by apply handover_update, handover_resumed.
  - by apply lock_free_update.
  - exists k'. split_and!; try done.
    + rewrite H4. unfold k1. rewrite cur_intena_update. by eapply cur_intena_resumed.
    + transitivity (lookup_proc k1 p); [destruct p; cbn; by rewrite ?H5, ?H6|].
      unfold k1. rewrite lookup_proc_update.
      replace (lookup_proc (resumed b k) p) with (Some pr) by (rewrite <- Hp; by destruct p). done.
Qed.

(** The CPU runs [p] and holds no lock. *)
Definition running (k : kernel) (p : pptr) : Prop :=
  ∃ c, on_cpu k (cur k) c ∧ ncli c = 0 ∧ c_proc c = Some p.

Lemma running_roomy k p : running k p → roomy k.
Proof. intros (c & H & Hn & _). exists c. split; [done|]. by split; [lia|]. Qed.

Lemma running_ready k p : running k p → ready k.
Proof. intros H. by eapply roomy_ready, running_roomy. Qed.

Lemma running_touch k p : running k p → running (touch k) p.
Proof.
  intros Hr. pose proof (running_ready _ _ Hr) as Hrd. destruct Hr as (c & H & Hn & Hp).
  exists (cpu_note (eflags_if k) c). rewrite (cur_touch _ Hrd). split; [by apply on_cpu_touch|].
  rewrite c_proc_note. unfold cpu_note. destruct (_ =? _); by split.
Qed.

Lemma handover_enter k p : running k p → lock_free k LPtable → handover (enter LPtable k) p.
Proof.
  intros Hr Hf. pose proof (running_roomy _ _ Hr) as Hrd. destruct Hr as (c & H & Hn & Hp).
  pose proof Hf as [nm Hf']. assert (on_cpu (enter LPtable k) (cur k) (cpu_push (eflags_if k) c)) as H1.
  { erewrite enter_acquired by done. by apply on_cpu_acquired. }
  destruct (holds_enter k LPtable Hrd Hf) as (Hl & He & _). split_and!; [done..|].
  rewrite (on_cpu_cur _ _ _ H1). eexists. split; [done|].
  by rewrite ncli_push, c_proc_push, Hn by lia.
Qed.

Lemma cur_intena_enter k p l :
  running k p → lock_free k l → cur_intena (enter l k) = eflags_if k.
Proof.
  intros (c & H & Hn & Hp) [nm Hf].
  assert (on_cpu (enter l k) (cur k) (cpu_push (eflags_if k) c)) as H1.
  { erewrite enter_acquired by done. by apply on_cpu_acquired. }
  unfold cur_intena. rewrite (on_cpu_cur _ _ _ H1), (proj2 H1). unfold cpu_push. by rewrite Hn.
Qed.

Definition yield_resume (b : bool) : M kernel unit := sched_resume b;;; release LPtable.

Lemma yield_Suspend k p pr :
  running k p → lock_free k LPtable → lookup_proc k p = Some pr →
  yield k = Suspend (update_proc p (λ pr, pr <|p_state := RUNNABLE|> <|p_context := CtxSaved|>)
                       (enter LPtable k)) (yield_resume (eflags_if k)).
Proof.
  intros Hr Hf Hp. pose proof (handover_enter k p Hr Hf) as Hh.
  pose proof (handover_holds _ _ Hh) as Hl. unfold yield.
  erewrite bind_Ret by (apply acquire_enter; [by eapply running_ready|done]).
  erewrite bind_Ret by (apply myproc_Ret; by eapply holds_ready).
  rewrite (touch_holds _ _ Hl), (handover_curproc _ _ Hh). cbn [deref get_some].
  rewrite bind_ret_l. assert (valid (enter LPtable k) p) as Hv by (by apply (valid_eq k); [..|eexists]).
  run_upd. erewrite bind_Suspend.
  2: { eapply sched_Suspend; [by apply handover_update| |].
       - rewrite lookup_proc_update. change (lookup_proc (enter LPtable k) p) with (lookup_proc k p).
         by rewrite Hp.
       - done. }
  rewrite update_proc_compose. f_equal. unfold yield_resume.
  by rewrite cur_intena_update, (cur_intena_enter k p).
Qed.

Lemma yield_resume_Ret k p b :
  handover k p →
  ∃ k', yield_resume b k = Ret tt k' ∧ running k' p ∧ lock_free k' LPtable ∧ eflags_if k' = b ∧
    ptable k' = ptable k ∧ heap_arr k' = heap_arr k.
Proof.
  intros Hh. pose proof (handover_resumed b _ _ Hh) as Hh1.
  pose proof (handover_holds _ _ Hh1) as Hl1. pose proof Hh1 as (_ & _ & c & H & Hn & Hp).
  exists (dropped LPtable (resumed b k)). unfold yield_resume.
  erewrite bind_Ret by (by eapply sched_resume_Ret). split_and!; try done.
  - by apply release_dropped.
  - pose proof (on_cpu_dropped _ LPtable c H) as H1. exists (cpu_pop c).
    rewrite (on_cpu_cur _ _ _ H1). split; [done|]. unfold cpu_pop. rsimpl. by rewrite Hn.
  - by apply lock_free_dropped.
  - pose proof (cur_intena_resumed b k p Hh) as Hi. unfold cur_intena in Hi.
    unfold dropped. rsimpl. rewrite (proj2 H), Hn in *. by rewrite Hi.
Qed.

Definition killed_proc (pr : proc) : proc :=
  pr <|p_killed := true|> <|p_state ::= λ s, if bool_decide (s = SLEEPING) then RUNNABLE else s|>.

Lemma kill_some k pid i :
  calm k → find_proc (λ p, p_pid p =? pid) (ptable k) = Some i →
  kill pid k = Ret 0 (touch (k <|ptable ::= alter killed_proc i|>)).
Proof.
  intros [H Hl] Hf. unfold kill. erewrite bind_Ret by (by apply acquire_enter).
  rewrite bind_gets. change (ptable (enter LPtable k)) with (ptable k). rewrite Hf.
  destruct (find_proc_Some _ _ _ Hf) as (pr & Hi & _).
  assert (valid (enter LPtable k) (PT i)) as Hv by (by eexists). run_upd.
  rewrite bind_assoc. erewrite bind_Ret.
  2: { apply get_proc_Ret. rewrite lookup_proc_update.
       replace (lookup_proc (enter LPtable k) (PT i)) with (Some pr) by done. done. }
  rsimpl. case_bool_decide as E.
  - run_upd. erewrite bind_Ret by (by apply release_leave). unfold ret. f_equal.
    rewrite update_proc_compose. unfold leave, touch. cbn [update_proc]. kext.
    apply (list_alter_at _ _ _ _ pr Hi). unfold killed_proc, update; cbn. by rewrite bool_decide_true.
  - rewrite bind_ret_l. erewrite bind_Ret by (by apply release_leave). unfold ret. f_equal.
    unfold leave, touch. cbn [update_proc]. kext.
    apply (list_alter_at _ _ _ _ pr Hi). unfold killed_proc, update; cbn. by rewrite bool_decide_false.
Qed.

Lemma kill_none k pid :
  calm k → find_proc (λ p, p_pid p =? pid) (ptable k) = None → kill pid k = Ret (-1) (touch k).
Proof.
  intros [H Hl] Hf. unfold kill. erewrite bind_Ret by (by apply acquire_enter).
  rewrite bind_gets. change (ptable (enter LPtable k)) with (ptable k). rewrite Hf.
  by erewrite bind_Ret by (by apply release_leave).
Qed.

(** *** Process identifiers *)

(** Processes in use have distinct identifiers below [nextpid]. *)
Definition pids_ok (k : kernel) : Prop :=
  (∀ i pr, ptable k !! i = Some pr → p_state pr ≠ UNUSED → 0 < p_pid pr < nextpid k) ∧
  (∀ i j pr pr', ptable k !! i = Some pr → ptable k !! j = Some pr' →
     p_state pr ≠ UNUSED → p_state pr' ≠ UNUSED → p_pid pr = p_pid pr' → i = j).

Lemma pids_ok_alter k k' i f :
  pids_ok k → 0 < nextpid k → ptable k' = alter f i (ptable k) → nextpid k' = nextpid k + 1 →
  (∀ pr, ptable k !! i = Some pr → p_state (f pr) ≠ UNUSED → p_pid (f pr) = nextpid k) →
  pids_ok k'.
Proof.
  intros [H1 H2] Hn Ht Hk Hf. unfold pids_ok. rewrite Ht, Hk. split.
  - intros j pr Hj Hs. rewrite list_lookup_alter in Hj. case_decide; subst.
    + apply fmap_Some in Hj as (pr' & Hj & ->). rewrite (Hf pr') by done. lia.
    + specialize (H1 j pr Hj Hs). lia.
  - intros j j' pr pr' Hj Hj' Hs Hs' E. rewrite list_lookup_alter in Hj, Hj'.
    destruct (decide (i = j)) as [<-|], (decide (i = j')) as [<-|]; [done| | |by eauto].
    + apply fmap_Some in Hj as (q & Hj & ->). rewrite (Hf q) in E by done.
      specialize (H1 j' pr' Hj' Hs'). lia.
    + apply fmap_Some in Hj' as (q & Hj' & ->). rewrite (Hf q) in E by done.
      specialize (H1 j pr Hj Hs). lia.
Qed.

(** *** [switchuvm] *)

(** What switching to a process needs. *)
Definition can_run (pr : proc) : Prop := p_kstack pr ≠ 0 ∧ p_pgdir pr ≠ 0.

(** The address space and kernel stack of [pr]. *)
Definition switched (pr : proc) (k : kernel) : kernel :=
  k <|cpus ::= alter (λ d, d <|ts_esp0 := u32 (p_kstack pr + KSTACKSIZE)|>) (cur k)|>
    <|cr3 := V2P (p_pgdir pr)|>.

Lemma on_cpu_switched k pr d :
  on_cpu k (cur k) d →
  on_cpu (switched pr k) (cur k) (d <|ts_esp0 := u32 (p_kstack pr + KSTACKSIZE)|>).
Proof. intros H. by apply (on_cpu_alter k (cur k) d (λ d, d <|ts_esp0 := _|>)). Qed.

Lemma switchuvm_Ret k p pr :
  ready k → lookup_proc k p = Some pr → can_run pr →
  switchuvm (Some p) k = Ret tt (touch (switched pr k)).
Proof.
  intros (d & H & Hok) Hp [Hs Hg]. unfold switchuvm.
  erewrite bind_Ret by (by apply get_proc_Ret).
  destruct (Z.eqb_spec (p_kstack pr) 0), (Z.eqb_spec (p_pgdir pr) 0); try done.
  erewrite bind_Ret by (by eapply pushcli_Ret).
  set (k1 := k <|eflags_if := false|> <|cpus ::= _|>).
  assert (on_cpu k1 (cur k) (cpu_push (eflags_if k) d)) as H1.
  { eapply on_cpu_set; [by apply on_cpu_if|apply apicid_push]. }
  erewrite bind_Ret by (by eapply mycpu_Ret). erewrite bind_Ret by (by eapply get_cpu_Ret).
  unfold set_cpu. rewrite !bind_modify.
  set (d2 := (cpu_push (eflags_if k) d) <|ts_esp0 := _|>).
  assert (on_cpu (k1 <|cpus ::= <[cur k:=d2]>|> <|cr3 := V2P (p_pgdir pr)|>) (cur k) d2) as H2.
  { by eapply (on_cpu_set k1 _ _ d2). }
  erewrite popcli_Ret; [|exact H2|done|].
  apply (room_less _ 1) in Hok; [|lia].
  2: { unfold d2. rsimpl. destruct Hok. rewrite ncli_push; lia. }
  replace ((ncli d2 =? 1) && intena d2) with (eflags_if k) by
    (symmetry; apply (flag_restored k d Hok)).
  f_equal. rewrite (touch_insert _ _ _ (on_cpu_switched k pr d H)). unfold switched, k1. kext.
  rewrite !list_insert_insert_eq, (list_alter_insert _ _ _ _ (proj2 H)), list_insert_insert_eq.
  f_equal. unfold d2, cpu_pop, cpu_push, cpu_note. rsimpl. destruct d as [? ? m ? ?].
  destruct Hok as [Hm _]. unfold update; cbn in *.
  destruct (m =? 0); cbn; rewrite (i32_small (m + 1)), i32_small by lia; f_equal; lia.
Qed.

(** ** Properties *)

(** Slot [i] is the first one that is not in use. *)
Definition first_unused (t : list proc) (i : nat) (pr : proc) : Prop :=
  t !! i = Some pr ∧ p_state pr = UNUSED ∧ ∀ j q, t !! j = Some q → (j < i)%nat → p_state q ≠ UNUSED.

Lemma find_first_unused t i : find_proc is_unused t = Some i → ∃ pr, first_unused t i pr.
Proof.
  intros Hf. destruct (find_proc_Some _ _ _ Hf) as (pr & Hi & Hu & Hlt). apply bool_decide_eq_true in Hu.
  exists pr. split; [done|]. split; [done|]. intros j q Hj Hl E. specialize (Hlt j q Hj Hl). unfold is_unused in Hlt.
  by rewrite bool_decide_true in Hlt.
Qed.

(** C20: [allocproc] on every branch.  Without an unused slot it returns 0 and
    changes nothing but the state of the CPU.  Otherwise the first unused slot
    is given the next identifier, which is used up.  If memory is left, the slot
    gets the first free page as its kernel stack and a context that starts in
    [forkret], and is returned.  If not, the slot is unused again, without a
    stack, and the result is 0.  No other slot changes, process identifiers stay
    distinct, and the locks and the interrupt flag are as before. *)
Theorem allocproc_correct (k : kernel) (Hc : calm k) (Hm : kmem_calm k) (Hp : pids_ok k)
    (Hn : 0 < nextpid k < 2 ^ 31 - 1) :
  ∃ r k', allocproc k = Ret r k' ∧ pids_ok k' ∧ locks k' = locks k ∧ eflags_if k' = eflags_if k ∧
    ((r = None ∧ (∀ i pr, ptable k !! i = Some pr → p_state pr ≠ UNUSED) ∧ k' = touch k) ∨
     ∃ i pr, first_unused (ptable k) i pr ∧ nextpid k' = nextpid k + 1 ∧
       if decide (freelist k = 0) then
         r = None ∧ freelist k' = 0 ∧
         ptable k' = <[i:=pr <|p_state := UNUSED|> <|p_pid := nextpid k|> <|p_kstack := 0|>]> (ptable k)
       else
         r = Some (PT i) ∧ freelist k' = rd32 (mem k) (freelist k) ∧
         ptable k' = <[i:=embryo (nextpid k) (freelist k) pr]> (ptable k)).
Proof.
  destruct (find_proc is_unused (ptable k)) as [i|] eqn:Hf.
  - destruct (find_first_unused _ _ Hf) as (pr & Hfu). pose proof Hfu as (Hi & Hu & _).
    assert (i32 (nextpid k + 1) = nextpid k + 1) as Hw by (apply i32_small; lia).
    destruct (decide (freelist k = 0)) as [Hz|Hz].
    + eexists _, _. split; [by eapply allocproc_nomem|]. split; [eapply pids_ok_alter; [done|lia|done|done|done]|].
      split; [done|]. split; [done|]. right. exists i, pr. split; [done|]. split; [exact Hw|]. split; [done|]. split; [done|].
      unfold touch. rsimpl. by rewrite (list_alter_insert _ _ _ _ Hi).
    + eexists _, _. split; [by eapply allocproc_some|]. split; [eapply pids_ok_alter; [done|lia|done|done|done]|].
      split; [done|]. split; [done|]. right. exists i, pr. split; [done|]. split; [exact Hw|]. split; [done|]. split; [done|].
      unfold touch. rsimpl. by rewrite (list_alter_insert _ _ _ _ Hi).
  - eexists _, _. split; [by apply allocproc_none|]. split; [done|]. split; [done|]. split; [done|]. left. split; [done|].
    split; [|done]. intros i pr Hi E. pose proof (find_proc_None _ _ _ _ Hf Hi) as Hb. unfold is_unused in Hb.
    by rewrite bool_decide_true in Hb.
Qed.

(** C17: [sleep].  Called by a process that holds just [lk], it switches away
    with the process marked [SLEEPING] on the channel, the scheduler's lock
    held and [lk] free, so a [wakeup] that runs under [lk] afterwards finds
    the process asleep.  When a scheduler switches back, on any CPU, with
    [lk] free, the call returns holding [lk] again and nothing else, with the
    channel cleared. *)
Theorem sleep_correct (k : kernel) (p : pptr) (pr : proc) (chan : channel) (lk : lockid) :
  holds_only k lk p → lk ≠ LPtable → lock_free k LPtable → lookup_proc k p = Some pr →
  ∃ s cont, sleep chan lk k = Suspend s cont ∧
    handover s p ∧ lock_free s lk ∧
    lookup_proc s p = Some (pr <|p_chan := Some chan|> <|p_state := SLEEPING|>
                               <|p_context := CtxSaved|>) ∧
    (∀ s' pr', handover s' p → lock_free s' lk → lookup_proc s' p = Some pr' →
       ∃ k', cont s' = Ret tt k' ∧ holds_only k' lk p ∧ lock_free k' LPtable ∧
         cur_intena k' = cur_intena k ∧ lookup_proc k' p = Some (pr' <|p_chan := None|>)).
Proof.
  intros Ho Hne Hf Hp. destruct (sleep_Suspend k p pr chan lk) as [Hh Hs]; [done..|].
  eexists _, _. split; [exact Hs|]. split_and!.
  - by apply handover_update.
  - apply lock_free_update. unfold sleep_lock. rewrite bool_decide_false by done.
    by destruct (swap_lock k lk LPtable p) as (_ & _ & ? & _).
  - unfold asleep. rewrite lookup_proc_update.
    replace (lookup_proc (sleep_lock lk k) p) with (lookup_proc k p); [by rewrite Hp|].
    unfold sleep_lock. case_bool_decide; by destruct p.
  - intros s' pr' Hh' Hf' Hp'. by apply sleep_resume_Ret.
Qed.

(** [wakeup] makes exactly the processes that sleep on the channel
    runnable; the rest of the table, the locks and the interrupt flag are as
    before. *)
Theorem wakeup_correct (k : kernel) (chan : channel) :
  calm k →
  ∃ k', wakeup chan k = Ret tt k' ∧ locks k' = locks k ∧ eflags_if k' = eflags_if k ∧
    length (ptable k') = length (ptable k) ∧
    (∀ i pr, ptable k !! i = Some pr →
       ptable k' !! i = Some (if decide (p_state pr = SLEEPING ∧ p_chan pr = Some chan)
                              then pr <|p_state := RUNNABLE|> else pr)) ∧
    (∀ i pr, ptable k' !! i = Some pr → p_state pr = SLEEPING → p_chan pr ≠ Some chan).
Proof.
  intros [H Hl]. eexists. split; [by apply wakeup_Ret|]. unfold touch. rsimpl.
  assert (∀ pr, wake (Some chan) pr = if decide (p_state pr = SLEEPING ∧ p_chan pr = Some chan)
    then pr <|p_state := RUNNABLE|> else pr) as E.
  { intros pr. unfold wake. case_bool_decide; by case_decide. }
  split_and!; try done.
  - apply length_map.
  - intros i pr Hi. rewrite <- E. by apply list_lookup_fmap_Some_2.
  - intros i pr Hi Hs. apply list_lookup_fmap_Some in Hi as (q & -> & Hq).
    rewrite E in Hs |- *. case_decide; [done|]. intros Hch. auto.
Qed.

(** [yield].  It switches away with the process marked [RUNNABLE] and the
    scheduler's lock held; when a scheduler switches back, on any CPU, it
    returns with no lock held and interrupts as they were at the call. *)
Theorem yield_correct (k : kernel) (p : pptr) (pr : proc) :
  running k p → lock_free k LPtable → lookup_proc k p = Some pr →
  ∃ s cont, yield k = Suspend s cont ∧ handover s p ∧
    lookup_proc s p = Some (pr <|p_state := RUNNABLE|> <|p_context := CtxSaved|>) ∧
    (∀ s', handover s' p →
       ∃ k', cont s' = Ret tt k' ∧ running k' p ∧ lock_free k' LPtable ∧
         eflags_if k' = eflags_if k ∧ ptable k' = ptable s').
Proof.
  intros Hr Hf Hp. eexists _, _. split; [by eapply yield_Suspend|]. split_and!.
  - by apply handover_update, handover_enter.
  - rewrite lookup_proc_update. change (lookup_proc (enter LPtable k) p) with (lookup_proc k p).
    by rewrite Hp.
  - intros s' Hs. destruct (yield_resume_Ret s' p (eflags_if k) Hs) as (k' & ? & ? & ? & ? & ? & _).
    by exists k'.
Qed.

(** [kill] marks the first process in the table that has the identifier,
    makes it runnable if it sleeps, and returns 0; without such a process it
    changes nothing and returns -1. *)
Theorem kill_correct (k : kernel) (pid : Z) :
  calm k →
  ∃ r k', kill pid k = Ret r k' ∧ locks k' = locks k ∧ eflags_if k' = eflags_if k ∧
    ((r = -1 ∧ ptable k' = ptable k ∧ ∀ i pr, ptable k !! i = Some pr → p_pid pr ≠ pid) ∨
     (r = 0 ∧ ∃ i pr, ptable k !! i = Some pr ∧ p_pid pr = pid ∧
        (∀ j q, ptable k !! j = Some q → (j < i)%nat → p_pid q ≠ pid) ∧
        ptable k' = <[i:=if decide (p_state pr = SLEEPING)
                         then pr <|p_killed := true|> <|p_state := RUNNABLE|>
                         else pr <|p_killed := true|>]> (ptable k))).
Proof.
  intros Hc. destruct (find_proc (λ p, p_pid p =? pid) (ptable k)) as [i|] eqn:Hf.
  - eexists _, _. split; [by apply kill_some|]. split_and!; try done. right. split; [done|].
    destruct (find_proc_Some _ _ _ Hf) as (pr & Hi & He & Hlt). apply Z.eqb_eq in He.
    exists i, pr. split_and!; try done.
    + intros j q Hj Hl. specialize (Hlt j q Hj Hl). lia.
    + unfold touch. rsimpl. rewrite (list_alter_insert _ _ _ _ Hi). f_equal.
      destruct pr. unfold killed_proc, update; cbn. case_bool_decide; by case_decide.
  - eexists _, _. split; [by apply kill_none|]. split_and!; try done. left. split_and!; try done.
    intros i pr Hi. pose proof (find_proc_None _ _ _ _ Hf Hi). cbn in *. lia.
Qed.

(** [kill] looks at unused slots too.  With a free slot of identifier 0,
    [kill(0)] reports success, and the next process that [allocproc] sets up
    in that slot starts out killed. *)
Theorem kill_unused_slot (k : kernel) (i : nat) (pr : proc) :
  calm k → kmem_calm k → freelist k ≠ 0 → ptable k !! i = Some pr → p_state pr = UNUSED →
  p_pid pr = 0 → (∀ j q, ptable k !! j = Some q → (j < i)%nat → p_state q ≠ UNUSED ∧ p_pid q ≠ 0) →
  ∃ k1 k2 pr', kill 0 k = Ret 0 k1 ∧ allocproc k1 = Ret (Some (PT i)) k2 ∧
    ptable k2 !! i = Some pr' ∧ p_state pr' = EMBRYO ∧ p_killed pr' = true.
Proof.
  intros [Hr Hl] Hk Hm Hi Hu Hp Hlt.
  assert (find_proc (λ p, p_pid p =? 0) (ptable k) = Some i) as Hf.
  { eapply find_proc_intro; [done|by rewrite Hp|]. intros j q Hj Hl'.
    apply Z.eqb_neq. by apply (Hlt j). }
  assert (find_proc is_unused (alter killed_proc i (ptable k)) = Some i) as Hf2.
  { eapply find_proc_intro; [by rewrite list_lookup_alter_eq, Hi| |].
    - unfold killed_proc, is_unused. rsimpl. by rewrite Hu.
    - intros j q Hj Hl'. rewrite list_lookup_alter_ne in Hj by lia. unfold is_unused.
      apply bool_decide_eq_false. by apply (Hlt j). }
  exists (touch (k <|ptable ::= alter killed_proc i|>)).
  assert (ready (touch (k <|ptable ::= alter killed_proc i|>))) as Hr2
    by (by apply ready_touch; eapply ready_same).
  eexists _, _. split; [by apply kill_some|]. split; [by apply allocproc_some|].
  unfold touch. rsimpl. rewrite !list_lookup_alter_eq, Hi. done.
Qed.

(** *** Concrete states *)

(** A kernel that runs process 1 of slot 0; process 2 of slot 1 sleeps until
    the next clock tick, and two pages are free. *)
Definition demo_proc (pid : Z) (s : procstate) : proc :=
  zero_proc <|p_pid := pid|> <|p_state := s|> <|p_kstack := 0x80300000|>
    <|p_pgdir := 0x80301000|>.
Definition demo : kernel :=
  (bss 0x80110000) <|cpus := [MkCpu 0 0 0 false (Some (PT 0))]|>
    <|ptable ::= <[0%nat:=demo_proc 1 RUNNING]>|>
    <|ptable ::= <[1%nat:=(demo_proc 2 SLEEPING) <|p_chan := Some ChTicks|>]>|>
    <|nextpid := 3|> <|freelist := 0x80200000|>.

Lemma demo_calm : calm demo.
Proof.
  split; [|by exists EmptyString]. exists (MkCpu 0 0 0 false (Some (PT 0))). by repeat split.
Qed.

Lemma demo_kmem : kmem_calm demo.
Proof. by exists EmptyString. Qed.

Lemma demo_running : running demo (PT 0).
Proof. exists (MkCpu 0 0 0 false (Some (PT 0))). by repeat split. Qed.

Lemma demo_lock : lock_free demo LPtable.
Proof. by exists EmptyString. Qed.

(** The slots of [demo] in use. *)
Lemma demo_slot i pr :
  ptable demo !! i = Some pr → p_state pr ≠ UNUSED →
  (i = 0%nat ∧ p_pid pr = 1) ∨ (i = 1%nat ∧ p_pid pr = 2).
Proof.
  intros H Hs. destruct i as [|[|i]]; [left|right|].
  - vm_compute in H. injection H as <-. by split.
  - vm_compute in H. injection H as <-. by split.
  - exfalso. change (ptable demo) with (demo_proc 1 RUNNING ::
      (demo_proc 2 SLEEPING) <|p_chan := Some ChTicks|> :: replicate 62 zero_proc) in H.
    cbn [lookup list_lookup] in H. apply lookup_replicate in H as [-> _]. done.
Qed.

Lemma demo_pids : pids_ok demo.
Proof.
  split.
  - intros i pr H Hs. change (nextpid demo) with 3.
    destruct (demo_slot i pr H Hs) as [[_ ->]|[_ ->]]; lia.
  - intros i j pr pr' H H' Hs Hs' E.
    destruct (demo_slot i pr H Hs) as [[-> E1]|[-> E1]],
      (demo_slot j pr' H' Hs') as [[-> E2]|[-> E2]]; done || lia.
Qed.

Lemma allocproc_correct_witness : ∃ r k', allocproc demo = Ret r k' ∧ pids_ok k' ∧ nextpid k' = 4.
Proof.
  destruct (allocproc_correct demo demo_calm demo_kmem demo_pids) as (r & k' & H1 & H2 & _ & _ & H);
    [vm_compute; by split|].
  exists r, k'. split; [exact H1|]. split; [exact H2|]. destruct H as [(_ & H & _)|(i & pr & _ & H & _)]; [|exact H].
  exfalso. apply (H 2%nat zero_proc); reflexivity.
Defined.

Definition demo_ticks : kernel :=
  demo <|cpus := [MkCpu 0 0 1 true (Some (PT 0))]|>
    <|locks ::= <[LTicks:=MkSpinlock true "time" (Some 0%nat)]>|>.

Lemma demo_ticks_holds : holds_only demo_ticks LTicks (PT 0).
Proof.
  split_and!; [by exists "time"|done|].
  exists (MkCpu 0 0 1 true (Some (PT 0))). by repeat split.
Qed.

Lemma sleep_correct_witness :
  ∃ s cont, sleep ChTicks LTicks demo_ticks = Suspend s cont ∧ handover s (PT 0) ∧
    lock_free s LTicks.
Proof.
  destruct (sleep_correct demo_ticks (PT 0) (demo_proc 1 RUNNING) ChTicks LTicks)
    as (s & cont & H1 & H2 & H3 & _); [apply demo_ticks_holds|done|by exists EmptyString|done|].
  exists s, cont. exact (conj H1 (conj H2 H3)).
Defined.

Lemma wakeup_correct_witness :
  ∃ k', wakeup ChTicks demo = Ret tt k' ∧
    ptable k' !! 1%nat = Some ((demo_proc 2 RUNNABLE) <|p_chan := Some ChTicks|>).
Proof.
  destruct (wakeup_correct demo ChTicks demo_calm) as (k' & H1 & _ & _ & _ & H2 & _).
  exists k'. split; [exact H1|]. exact (H2 1%nat _ eq_refl).
Defined.

Lemma yield_correct_witness :
  ∃ s cont, yield demo = Suspend s cont ∧ handover s (PT 0).
Proof.
  destruct (yield_correct demo (PT 0) (demo_proc 1 RUNNING))
    as (s & cont & H1 & H2 & _); [apply demo_running|apply demo_lock|done|].
  exists s, cont. exact (conj H1 H2).
Defined.

Lemma kill_correct_witness : ∃ k', kill 2 demo = Ret 0 k' ∧ locks k' = locks demo.
Proof.
  destruct (kill_correct demo 2 demo_calm)
    as (r & k' & H1 & H2 & _ & [(_ & _ & H)|(Hr & _)]).
  - destruct (H 1%nat _ eq_refl eq_refl).
  - subst r. exists k'. exact (conj H1 H2).
Defined.

Lemma kill_unused_slot_witness :
  ∃ k1 k2 pr', kill 0 demo = Ret 0 k1 ∧ allocproc k1 = Ret (Some (PT 2)) k2 ∧
    ptable k2 !! 2%nat = Some pr' ∧ p_state pr' = EMBRYO ∧ p_killed pr' = true.
Proof.
  apply (kill_unused_slot demo 2 zero_proc demo_calm demo_kmem); try done.
  intros [|[|j]] q H Hl; [| |lia]; vm_compute in H; injection H as <-; split; done.
Defined.
