(* ===== verification/Sleeplock.v ===== *)
(** The sleep locks of [sleeplock.c]. *)

From stdpp Require Import base gmap strings list.
From Stdlib Require Import ZArith Lia.
From S2P Require Import Prelude Heap CString Mmu State Spinlock Kalloc Vm Proc.
#[local] Open Scope Z_scope.

(** ** The code *)

(** Read and write [*lk]. *)
Definition get_sleep (s : sleepid) : M kernel sleeplock := λ k,
  match sleeplocks k !! s with Some l => Ret l k | None => Fault end.
Definition upd_sleep (s : sleepid) (f : sleeplock → sleeplock) : M kernel unit :=
  let! _ := get_sleep s in modify (λ k, k <|sleeplocks ::= alter f s|>).

Definition initsleeplock (s : sleepid) : M kernel unit :=
  initlock (LSleep s) "sleep lock";;;
  modify (λ k, k <|sleeplocks ::= <[s:=MkSleeplock false 0]>|>).

(** Sleep on [chan] as long as [busy] says so. *)
Fixpoint await (fuel : nat) (busy : M kernel bool) (chan : channel) (lk : lockid) : M kernel unit :=
  match fuel with
  | O => λ _, Loop
  | S fuel =>
      let! b := busy in
      if b then sleep chan lk;;; await fuel busy chan lk else ret tt
  end.

(** The process identifier of the running process. *)
Definition mypid : M kernel Z :=
  let! p := myproc in
  let! p := deref p in
  let! pr := get_proc p in
  ret (p_pid pr).

Definition acquiresleep `{Turns} (s : sleepid) : M kernel unit :=
  acquire (LSleep s);;;
  await turns (let! l := get_sleep s in ret (sl_locked l)) (ChSleep s) (LSleep s);;;
  upd_sleep s (λ l, l <|sl_locked := true|>);;;
  (let! pid := mypid in upd_sleep s (λ l, l <|sl_pid := pid|>));;;
  release (LSleep s).

Definition releasesleep (s : sleepid) : M kernel unit :=
  acquire (LSleep s);;;
  upd_sleep s (λ l, l <|sl_locked := false|>);;;
  upd_sleep s (λ l, l <|sl_pid := 0|>);;;
  wakeup (ChSleep s);;;
  release (LSleep s).

Definition holdingsleep (s : sleepid) : M kernel bool :=
  acquire (LSleep s);;;
  let! l := get_sleep s in
  let! r := (if sl_locked l then let! pid := mypid in ret (sl_pid l =? pid) else ret false) in
  release (LSleep s);;;
  ret r.

(** ** Lemmas *)

(** The pid of the running process. *)
Definition curpid (k : kernel) : option Z :=
  match curproc k with Some p => p_pid <$> lookup_proc k p | None => None end.

Lemma mypid_Ret k pid : ready k → curpid k = Some pid → mypid k = Ret pid (touch k).
Proof.
  intros H Hp. unfold curpid in Hp. destruct (curproc k) as [p|] eqn:Ep; [|done].
  destruct (lookup_proc k p) as [pr|] eqn:Er; [|done]. cbn in Hp. simplify_eq.
  unfold mypid. erewrite bind_Ret by (by apply myproc_Ret). rewrite Ep. cbn [deref get_some].
  unfold deref, get_some. rewrite bind_ret_l. erewrite bind_Ret; [done|].
  apply get_proc_Ret. by destruct p.
Qed.

Lemma lookup_proc_enter l k p : lookup_proc (enter l k) p = lookup_proc k p.
Proof. by destruct p. Qed.

Lemma curpid_enter k l : ready k → lock_free k l → curpid (enter l k) = curpid k.
Proof.
  intros H Hl. unfold curpid. rewrite curproc_enter by done. case_match; [|done].
  by rewrite lookup_proc_enter.
Qed.

Lemma mypid_enter k l pid :
  roomy k → lock_free k l → curpid k = Some pid → mypid (enter l k) = Ret pid (enter l k).
Proof.
  intros H Hl Hp. rewrite (mypid_Ret _ pid); [|by apply ready_enter|by rewrite curpid_enter by auto with kern].
  by rewrite (touch_holds (enter l k) l) by (by apply holds_enter).
Qed.

Lemma get_sleep_Ret k s l : sleeplocks k !! s = Some l → get_sleep s k = Ret l k.
Proof. intros H. unfold get_sleep. by rewrite H. Qed.

Lemma upd_sleep_Ret k s l f :
  sleeplocks k !! s = Some l → upd_sleep s f k = Ret tt (k <|sleeplocks ::= <[s:=f l]>|>).
Proof.
  intros H. unfold upd_sleep. erewrite bind_Ret by (by apply get_sleep_Ret). unfold modify. f_equal.
  kext. by apply map_alter_insert.
Qed.

(** The state in which sleep lock [s] is [l]. *)
Definition set_sleep (s : sleepid) (l : sleeplock) (k : kernel) : kernel :=
  k <|sleeplocks ::= <[s:=l]>|>.

Lemma acquiresleep_Ret `{Turns} k s l pid :
  roomy k → lock_free k (LSleep s) → sleeplocks k !! s = Some l → sl_locked l = false →
  curpid k = Some pid → (0 < turns)%nat →
  acquiresleep s k = Ret tt (touch (set_sleep s (MkSleeplock true pid) k)).
Proof.
  intros Hr Hf Hs Hl Hp Ht. pose proof (roomy_ready _ Hr) as Hr'. unfold acquiresleep. erewrite bind_Ret by (by apply acquire_enter).
  set (k1 := enter (LSleep s) k).
  assert (await turns (let! l := get_sleep s in ret (sl_locked l)) (ChSleep s) (LSleep s) k1
    = Ret tt k1) as E.
  { destruct turns as [|n]; [lia|]. cbn [await]. erewrite bind_Ret.
    2: { erewrite bind_Ret by (by apply get_sleep_Ret). rewrite Hl. reflexivity. } done. }
  rewrite (bind_Ret _ _ _ _ _ E). erewrite bind_Ret by (by eapply upd_sleep_Ret).
  set (k2 := k1 <|sleeplocks ::= _|>).
  assert (mypid k2 = Ret pid k2) as Em.
  { pose proof (holds_enter _ _ Hr Hf) as Hh. rewrite (mypid_Ret k2 pid).
    - by rewrite (touch_holds k2 (LSleep s)).
    - eapply ready_same; [|apply (ready_enter k (LSleep s)); done]. by split_and!.
    - rewrite <- Hp, <- (curpid_enter k (LSleep s)) by done. reflexivity. }
  rewrite bind_assoc, (bind_Ret _ _ _ _ _ Em).
  erewrite bind_Ret by (eapply upd_sleep_Ret; unfold k2; rsimpl; apply lookup_insert_eq).
  rewrite (release_leave k) by (done || by split_and!). f_equal. unfold leave, set_sleep, touch, k2, k1.
  kext. rewrite insert_insert_eq. done.
Qed.

Lemma releasesleep_Ret k s l :
  roomy k → lock_free k (LSleep s) → lock_free k LPtable → sleeplocks k !! s = Some l →
  releasesleep s k = Ret tt (touch (set_sleep s (MkSleeplock false 0)
    (k <|ptable ::= map (wake (Some (ChSleep s)))|>))).
Proof.
  intros Hr Hf Hp Hs. pose proof (roomy_ready _ Hr) as Hr'. unfold releasesleep. erewrite bind_Ret by (by apply acquire_enter).
  erewrite bind_Ret by (by eapply upd_sleep_Ret).
  erewrite bind_Ret by (eapply upd_sleep_Ret; rsimpl; apply lookup_insert_eq).
  set (k2 := _ <|sleeplocks ::= _|>).
  assert (hw_same (enter (LSleep s) k) k2) as Hs2 by by split_and!.
  assert (holds k2 (LSleep s)) as Hh by (by eapply holds_same, holds_enter).
  erewrite bind_Ret.
  2: { apply wakeup_Ret; [eapply ready_same; [done|by apply ready_enter]|].
       eapply lock_free_same; [done|by apply lock_free_enter]. }
  rewrite (touch_holds _ (LSleep s)) by (eapply holds_same; [|exact Hh]; by split_and!).
  rewrite (release_leave k) by (done || by split_and!). f_equal. unfold leave, set_sleep, touch, k2.
  kext. rewrite insert_insert_eq. done.
Qed.

Lemma holdingsleep_Ret k s l pid :
  roomy k → lock_free k (LSleep s) → sleeplocks k !! s = Some l → curpid k = Some pid →
  holdingsleep s k = Ret (sl_locked l && (sl_pid l =? pid)) (touch k).
Proof.
  intros Hr Hf Hs Hp. pose proof (roomy_ready _ Hr) as Hr'. unfold holdingsleep. erewrite bind_Ret by (by apply acquire_enter).
  erewrite bind_Ret by (by apply get_sleep_Ret).
  destruct (sl_locked l); cbn [andb].
  - rewrite bind_assoc. erewrite bind_Ret by (by apply mypid_enter). rewrite bind_ret_l.
    by erewrite bind_Ret by (by apply (release_leave k)).
  - rewrite bind_ret_l. by erewrite bind_Ret by (by apply (release_leave k)).
Qed.

(** *** Calls of one process while the others are quiet *)

(** The CPU runs the process [pid] and no spin lock is held. *)
Definition quiet (k : kernel) (pid : Z) : Prop :=
  roomy k ∧ curpid k = Some pid ∧ ∀ l, is_Some (locks k !! l) → lock_free k l.

(** The same processes, as far as their identifiers go. *)
Definition same_pids (k k' : kernel) : Prop :=
  ∀ p, p_pid <$> lookup_proc k' p = p_pid <$> lookup_proc k p.

(** From a quiet state to a quiet state of the same process. *)
Definition calmly (k k' : kernel) : Prop :=
  (∀ d, ready_in d k → ready_in d k' ∧ curproc k' = curproc k) ∧ locks k' = locks k ∧ same_pids k k'.

Lemma calmly_quiet k k' pid : calmly k k' → quiet k pid → quiet k' pid.
Proof.
  intros (H1 & H2 & H3) (Q1 & Q2 & Q3). destruct (H1 _ Q1) as [R1 R2]. split_and!; [done| |].
  - rewrite <- Q2. unfold curpid. rewrite R2. case_match; [|done]. apply H3.
  - intros l. unfold lock_free. rewrite H2. apply Q3.
Qed.

Lemma calmly_refl k : calmly k k.
Proof. by split_and!. Qed.

Lemma calmly_trans k k1 k2 : calmly k k1 → calmly k1 k2 → calmly k k2.
Proof.
  intros (A1 & A2 & A3) (B1 & B2 & B3). split_and!; [|congruence|].
  - intros d Hr. destruct (A1 d Hr) as [Hr1 E1]. destruct (B1 d Hr1) as [Hr2 E2]. split; congruence.
  - intros p. by rewrite B3, A3.
Qed.

Lemma calmly_touch k : ready k → calmly k (touch k).
Proof.
  intros Hr. split_and!; [|done|by intros []]. intros d' Hr'. split; [by apply ready_touch|by apply curproc_touch].
Qed.

Lemma calmly_same k k' : hw_same k k' → same_pids k k' → calmly k k'.
Proof.
  intros Hs Hp. split_and!; [|apply Hs|done]. intros d Hr. split; [by eapply ready_same|].
  unfold curproc. destruct Hs as (Ec & Ea & _). unfold cur. by rewrite Ec, Ea.
Qed.

Lemma same_pids_wake k chan : same_pids k (k <|ptable ::= map (wake chan)|>).
Proof.
  intros [i|i]; cbn; [|done]. rsimpl. rewrite list_lookup_fmap. destruct (ptable k !! i); [|done].
  cbn. unfold wake. by case_bool_decide.
Qed.

Lemma acquiresleep_quiet `{Turns} k s l pid :
  quiet k pid → is_Some (locks k !! LSleep s) → sleeplocks k !! s = Some l → sl_locked l = false →
  (0 < turns)%nat →
  ∃ k', acquiresleep s k = Ret tt k' ∧ calmly k k' ∧
    k' = k <|cpus := cpus k'|> <|sleeplocks ::= <[s:=MkSleeplock true pid]>|>.
Proof.
  intros (Hr & Hp & Hq) Hl Hs Hf Ht. eexists. split; [by eapply acquiresleep_Ret; try apply Hq|].
  split; [|unfold touch, set_sleep; kext]. eapply calmly_trans; [|apply calmly_touch].
  - apply calmly_same; [by split_and!|by intros []].
  - eapply ready_same; [|apply roomy_ready, Hr]. by split_and!.
Qed.

Lemma releasesleep_quiet k s l pid :
  quiet k pid → is_Some (locks k !! LSleep s) → is_Some (locks k !! LPtable) →
  sleeplocks k !! s = Some l →
  ∃ k', releasesleep s k = Ret tt k' ∧ calmly k k' ∧
    k' = k <|cpus := cpus k'|> <|ptable := ptable k'|> <|sleeplocks ::= <[s:=MkSleeplock false 0]>|>.
Proof.
  intros (Hr & Hp & Hq) Hl Hlp Hs. eexists. split; [by eapply releasesleep_Ret; try apply Hq|].
  split; [|unfold touch, set_sleep; kext]. eapply calmly_trans; [|apply calmly_touch].
  - apply calmly_same; [by split_and!|]. intros p. rewrite <- (same_pids_wake k (Some (ChSleep s)) p).
    by destruct p.
  - eapply ready_same; [|apply roomy_ready, Hr]. by split_and!.
Qed.

Lemma holdingsleep_quiet k s pid :
  quiet k pid → is_Some (locks k !! LSleep s) → sleeplocks k !! s = Some (MkSleeplock true pid) →
  ∃ k', holdingsleep s k = Ret true k' ∧ calmly k k' ∧ k' = k <|cpus := cpus k'|>.
Proof.
  intros (Hr & Hp & Hq) Hl Hs. exists (touch k). split_and!.
  - erewrite holdingsleep_Ret by (done || by apply Hq). cbn. by rewrite Z.eqb_refl.
  - by apply calmly_touch, roomy_ready.
  - unfold touch. kext.
Qed.

(** The critical sections of a quiet process. *)
Lemma acquire_quiet k l pid :
  quiet k pid → is_Some (locks k !! l) → acquire l k = Ret tt (enter l k).
Proof. intros (Hr & _ & Hq) Hl. apply acquire_enter; [by apply roomy_ready|by apply Hq]. Qed.

Lemma release_quiet k l pid k2 :
  quiet k pid → is_Some (locks k !! l) → hw_same (enter l k) k2 → same_pids k k2 →
  release l k2 = Ret tt (leave k k2) ∧ calmly k (leave k k2).
Proof.
  intros (Hr & Hp & Hq) Hl Hs Hpp. apply roomy_ready in Hr. split; [apply release_leave; [done|by apply Hq|done]|].
  assert (lapicid k2 = lapicid k) as Ha by apply Hs.
  split_and!; [|done|by intros p; rewrite <- (Hpp p); by destruct p].
  intros d Hd. split; [by apply ready_leave|].
  rewrite <- (curproc_touch k Hr). unfold curproc.
  by rewrite (hw_same_cur _ _ (hw_same_leave k k2 Ha)).
Qed.

(** *** Waiting for a sleep lock *)

(** [k'] is [k] but for the CPUs, the locks and the process tables. *)
Definition sched_frame (k k' : kernel) : Prop :=
  k' = k <|cpus := cpus k'|> <|eflags_if := eflags_if k'|> <|locks := locks k'|>
         <|ptable := ptable k'|> <|heap_arr := heap_arr k'|>.

Lemma sched_frame_refl k : sched_frame k k.
Proof. unfold sched_frame. kext. Qed.

Lemma sched_frame_trans k k1 k2 : sched_frame k k1 → sched_frame k1 k2 → sched_frame k k2.
Proof. unfold sched_frame. intros E1 E2. rewrite E2, E1. kext. Qed.

(** A call changes nothing but those fields. *)
Definition framed {A} (m : M kernel A) : Prop := ∀ k a k', m k = Ret a k' → sched_frame k k'.

Lemma framed_bind {A B} (m : M kernel A) (f : A → M kernel B) :
  framed m → (∀ a, framed (f a)) → framed (bind m f).
Proof.
  intros H1 H2 k b k' H. apply bind_Ret_inv in H as (a & k1 & E1 & E2).
  eapply sched_frame_trans; [by eapply H1|by eapply H2].
Qed.

Lemma framed_ret {A} (a : A) : framed (ret a).
Proof. intros k b k' [= _ <-]. apply sched_frame_refl. Qed.

Lemma framed_stop {A} (m : M kernel A) : (∀ k a k', m k ≠ Ret a k') → framed m.
Proof. intros H k a k' E. by destruct (H k a k'). Qed.

Lemma framed_gets {A} (f : kernel → A) : framed (gets f).
Proof. intros k a k' [= _ <-]. apply sched_frame_refl. Qed.

Lemma framed_modify (f : kernel → kernel) : (∀ k, sched_frame k (f k)) → framed (modify f).
Proof. intros H k a k' [= _ <-]. apply H. Qed.

Lemma framed_get_lock l : framed (get_lock l).
Proof. intros k a k' H. unfold get_lock in H. case_match; [|done]. injection H as _ <-. apply sched_frame_refl. Qed.

Lemma framed_get_cpu i : framed (get_cpu i).
Proof. intros k a k' H. unfold get_cpu in H. case_match; [|done]. injection H as _ <-. apply sched_frame_refl. Qed.

Lemma framed_get_proc p : framed (get_proc p).
Proof. intros k a k' H. unfold get_proc in H. case_match; [|done]. injection H as _ <-. apply sched_frame_refl. Qed.

Lemma framed_panic {A} msg : framed (panic (A := A) msg).
Proof. by apply framed_stop. Qed.

Lemma framed_fault {A} : framed (fault (A := A)).
Proof. by apply framed_stop. Qed.

Lemma framed_set_lock l lk : framed (set_lock l lk).
Proof. apply framed_modify. intros k. unfold sched_frame. kext. Qed.

Lemma framed_set_cpu i c : framed (set_cpu i c).
Proof. apply framed_modify. intros k. unfold sched_frame. kext. Qed.

Lemma framed_flag b : framed (modify (λ k, k <|eflags_if := b|>)).
Proof. apply framed_modify. intros k. unfold sched_frame. kext. Qed.

Lemma framed_update_proc p f : framed (modify (update_proc p f)).
Proof. apply framed_modify. intros k. destruct p; unfold sched_frame; kext. Qed.

Lemma framed_spin {A} : framed (λ _ : kernel, Spin : outcome kernel A).
Proof. by apply framed_stop. Qed.

Create HintDb framed.
#[export] Hint Resolve framed_ret framed_gets framed_get_lock framed_get_cpu framed_get_proc framed_panic
  framed_fault framed_set_lock framed_set_cpu framed_flag framed_update_proc framed_spin : framed.

(** Follow the structure of a call. *)
Ltac framed_tac :=
  repeat first
    [ progress eauto with framed
    | apply framed_bind; [|intros ?]
    | match goal with |- framed (match ?x with _ => _ end) => destruct x end ].

Lemma framed_mycpu : framed mycpu.
Proof. unfold mycpu, readeflags_if. framed_tac. Qed.
#[export] Hint Resolve framed_mycpu : framed.

Lemma framed_pushcli : framed pushcli.
Proof. unfold pushcli, readeflags_if, cli. framed_tac. Qed.

Lemma framed_popcli : framed popcli.
Proof. unfold popcli, readeflags_if, sti. framed_tac. Qed.
#[export] Hint Resolve framed_pushcli framed_popcli : framed.

Lemma framed_holding l : framed (holding l).
Proof. unfold holding. framed_tac. Qed.

Lemma framed_blame {A} lk msg : framed (blame (A := A) lk msg).
Proof. unfold blame. framed_tac. Qed.
#[export] Hint Resolve framed_holding framed_blame : framed.

Lemma framed_acquire l : framed (acquire l).
Proof. unfold acquire. framed_tac. Qed.

Lemma framed_release l : framed (release l).
Proof. unfold release. framed_tac. Qed.
#[export] Hint Resolve framed_acquire framed_release : framed.

Lemma framed_sleep_resume p lk b : framed (sleep_resume p lk b).
Proof. unfold sleep_resume, sched_resume, upd_proc. framed_tac. Qed.

(** The state in which process [p] sleeps on [chan] and has given up the
    CPU. *)
Definition asleep_on (p : pptr) (pid : Z) (chan : channel) (lk : lockid) (k : kernel) : Prop :=
  handover k p ∧ lock_free k lk ∧
  ∃ pr, lookup_proc k p = Some pr ∧ p_pid pr = pid ∧ p_state pr = SLEEPING ∧ p_chan pr = Some chan.

(** What a process that sleeps finds when it gets the CPU back: a scheduler
    gives it the CPU with the usual lock, [lk] is free, and its process
    structure is still its own. *)
Definition given_back (p : pptr) (pid : Z) (lk : lockid) (k : kernel) : Prop :=
  handover k p ∧ lock_free k lk ∧ p_pid <$> lookup_proc k p = Some pid.

(** In the critical section of [lk]. *)
Definition inside (p : pptr) (pid : Z) (lk : lockid) (k : kernel) : Prop :=
  holds_only k lk p ∧ lock_free k LPtable ∧ p_pid <$> lookup_proc k p = Some pid.

Lemma sleep_wp (L : Prop) (G : kernel → Prop) (R : kernel → kernel → Prop) Q k p pid chan lk :
  inside p pid lk k → lk ≠ LPtable →
  (∀ s, asleep_on p pid chan lk s → sched_frame k s → ptable s = ptable (asleep p chan k) → G s) →
  (∀ s s', R s s' → given_back p pid lk s') →
  (∀ s s' k', G s → sched_frame k s → R s s' → sched_frame s' k' → inside p pid lk k' → Q tt k') →
  wp L G R Q (sleep chan lk) k.
Proof.
  intros (Ho & Hf & Hp) Hne HG HR HQ. destruct (lookup_proc k p) as [pr|] eqn:Ep; [|done].
  cbn in Hp. destruct (sleep_Suspend k p pr chan lk) as [Hh Hs]; [done..|].
  unfold wp. rewrite Hs. cbn [owp].
  assert (sched_frame k (asleep p chan (sleep_lock lk k))) as Hfr.
  { unfold asleep, sleep_lock. rewrite bool_decide_false by done. destruct p; unfold sched_frame; kext. }
  assert (G (asleep p chan (sleep_lock lk k))) as HGs.
  { apply HG; [|done|unfold asleep, sleep_lock; rewrite bool_decide_false by done; by destruct p].
    split_and!.
      + by apply handover_update.
      + apply lock_free_update. unfold sleep_lock. rewrite bool_decide_false by done.
        by destruct (swap_lock k lk LPtable p) as (_ & _ & ? & _).
      + unfold asleep. rewrite lookup_proc_update.
        replace (lookup_proc (sleep_lock lk k) p) with (Some pr); [|symmetry].
        { eexists. split; [reflexivity|]. simplify_eq. done. }
        rewrite <- Ep. unfold sleep_lock. rewrite bool_decide_false by done. by destruct p. }
  split; [done|]. intros s' HRs. destruct (HR _ _ HRs) as (Hh' & Hf' & Hp').
  destruct (lookup_proc s' p) as [pr'|] eqn:Ep'; [|done]. cbn in Hp'.
  destruct (sleep_resume_Ret s' p pr' lk (cur_intena k)) as (k' & E & Ho' & Hl' & _ & Hk'); [done..|].
  rewrite E. cbn [owp]. eapply HQ; [exact HGs|exact Hfr|exact HRs|by eapply framed_sleep_resume|].
  split_and!; [done..|]. by rewrite Hk'.
Qed.

(** A loop of [sleep] calls: an invariant [I] of the data that [lk] protects
    holds at each turn. *)
Lemma await_wp (G : kernel → Prop) (R : kernel → kernel → Prop) Q (I : kernel → Prop)
  fuel busy k p pid chan lk :
  inside p pid lk k → I k → lk ≠ LPtable →
  (∀ k, inside p pid lk k → I k → ∃ b, busy k = Ret b k ∧ (b = false → Q tt k)) →
  (∀ k s, I k → asleep_on p pid chan lk s → sched_frame k s → G s) →
  (∀ s s', R s s' → given_back p pid lk s') →
  (∀ s s' k, G s → R s s' → sched_frame s' k → I k) →
  wp True G R Q (await fuel busy chan lk) k.
Proof.
  intros Hi HI Hne Hb HG HR HIs. revert k Hi HI.
  induction fuel as [|fuel IH]; intros k Hi HI; cbn [await]; [done|].
  destruct (Hb k Hi HI) as (b & E & Hq). apply wp_bind. eapply wp_Ret; [exact E|].
  destruct b; [|by apply Hq]. apply wp_bind. eapply sleep_wp; [done..|by eauto|done|].
  intros s s' k' Hs _ HRs Hf Hi'. apply IH; [done|]. by eapply HIs.
Qed.

(** The first turn of a loop that sleeps, and what follows when the process is
    given the CPU back. *)
Lemma await_sleeps k p pid chan lk n busy :
  inside p pid lk k → lk ≠ LPtable → busy k = Ret true k →
  ∃ s c, await (S n) busy chan lk k = Suspend s c ∧ asleep_on p pid chan lk s ∧ sched_frame k s ∧
    ∀ s', given_back p pid lk s' →
      ∃ k', c s' = await n busy chan lk k' ∧ inside p pid lk k' ∧ sched_frame s' k'.
Proof.
  intros (Ho & Hf & Hp) Hne Hb. destruct (lookup_proc k p) as [pr|] eqn:Ep; [|done]. cbn in Hp. simplify_eq.
  destruct (sleep_Suspend k p pr chan lk) as [Hh Hs]; [done..|]. cbn [await].
  rewrite (bind_Ret _ _ _ _ _ Hb), (bind_Suspend _ _ _ _ _ Hs). eexists _, _. split; [reflexivity|]. unfold asleep_on. split_and!.
  - by apply handover_update.
  - apply lock_free_update. unfold sleep_lock. rewrite bool_decide_false by done.
    by destruct (swap_lock k lk LPtable p) as (_ & _ & ? & _).
  - unfold asleep. rewrite lookup_proc_update. replace (lookup_proc (sleep_lock lk k) p) with (Some pr).
    { eexists. split; [reflexivity|]. done. }
    rewrite <- Ep. unfold sleep_lock. rewrite bool_decide_false by done. by destruct p.
  - unfold asleep, sleep_lock. rewrite bool_decide_false by done. destruct p; unfold sched_frame; kext.
  - intros s' (Hh' & Hf' & Hp'). destruct (lookup_proc s' p) as [pr'|] eqn:Ep'; [|done]. cbn in Hp'.
    destruct (sleep_resume_Ret s' p pr' lk (cur_intena k)) as (k' & E & Ho' & Hl' & _ & Hk'); [done..|].
    exists k'. rewrite (bind_Ret _ _ _ _ _ E). split; [done|]. split; [|by eapply framed_sleep_resume].
    split_and!; [done..|]. by rewrite Hk'.
Qed.

(** The release at the end of a critical section. *)
Lemma release_inside k p pid lk :
  inside p pid lk k →
  ∃ k', release lk k = Ret tt k' ∧ running k' p ∧ lock_free k' lk ∧ sched_frame k k' ∧
    (lk ≠ LPtable → lock_free k' LPtable) ∧ p_pid <$> lookup_proc k' p = Some pid ∧ ptable k' = ptable k.
Proof.
  intros (Ho & Hf & Hp). pose proof (holds_only_holds _ _ _ Ho) as Hh.
  destruct Ho as (Hl & He & c & Hc & Hn & Hcp). exists (dropped lk k).
  split; [by apply release_dropped|]. pose proof (on_cpu_dropped k lk c Hc) as Hc'. split_and!.
  - exists (cpu_pop c). rewrite (on_cpu_cur _ _ _ Hc'). split_and!; [done| |done].
    unfold cpu_pop. rsimpl. by rewrite Hn.
  - by apply lock_free_dropped.
  - unfold sched_frame, dropped. kext.
  - intros Hne. destruct Hf as [nm Hf]. exists nm. by rewrite locks_dropped_ne.
  - rewrite <- Hp. by destruct p.
  - done.
Qed.

(** Entering a critical section. *)
Lemma acquire_inside k p pid lk :
  running k p → lock_free k lk → lock_free k LPtable → lk ≠ LPtable →
  p_pid <$> lookup_proc k p = Some pid →
  acquire lk k = Ret tt (enter lk k) ∧ inside p pid lk (enter lk k).
Proof.
  intros Hr Hf Hpt Hne Hp. pose proof (running_roomy _ _ Hr) as Hrd.
  split; [by apply acquire_enter; [apply roomy_ready|]|]. destruct Hr as (c & Hc & Hn & Hcp).
  pose proof Hf as [nm Hl]. pose proof (on_cpu_acquired lk k _ c (MkSpinlock false nm None) Hc) as H1.
  rewrite <- (enter_acquired lk k (cur k) c _ Hc Hl) in H1. split_and!.
  - destruct (holds_enter k lk Hrd Hf) as (Hh & He & _). split_and!; [done..|].
    exists (cpu_push (eflags_if k) c). rewrite (on_cpu_cur _ _ _ H1).
    split_and!; [done| |by rewrite c_proc_push]. rewrite ncli_push; lia.
  - by apply lock_free_enter.
  - rewrite <- Hp. by destruct p.
Qed.

(** Reading and writing sleep locks does not concern the critical section. *)
Lemma inside_sleep p pid lk k f : inside p pid lk k → inside p pid lk (k <|sleeplocks ::= f|>).
Proof. intros (H1 & H2 & H3). split_and!; [done..|]. rewrite <- H3. by destruct p. Qed.

Lemma inside_same p pid lk k k' :
  hw_same k k' → p_pid <$> lookup_proc k' p = p_pid <$> lookup_proc k p →
  inside p pid lk k → inside p pid lk k'.
Proof.
  intros Hs Ep ((Hl & He & c & Hc & Hn & Hcp) & Hf & Hp).
  pose proof Hs as (_ & _ & Ei & Elk). split; [|split; [by eapply lock_free_same|by rewrite Ep]].
  unfold holds_only, lock_held in *. rewrite (hw_same_cur _ _ Hs), Elk, Ei. split_and!; [done..|].
  exists c. split; [by eapply on_cpu_same|done].
Qed.

Lemma myproc_inside p pid lk k : inside p pid lk k → myproc k = Ret (Some p) k.
Proof.
  intros (Ho & _ & _). pose proof (holds_only_holds _ _ _ Ho) as Hh.
  rewrite (myproc_Ret k) by (by eapply holds_ready). rewrite (touch_holds _ _ Hh). f_equal.
  destruct Ho as (_ & _ & c & Hc & _ & Hcp). unfold curproc. rewrite (proj2 Hc). by cbn.
Qed.

(** Waking others from a critical section. *)
Lemma wakeup_inside p pid lk k chan :
  inside p pid lk k →
  wakeup chan k = Ret tt (k <|ptable ::= map (wake (Some chan))|>) ∧
  inside p pid lk (k <|ptable ::= map (wake (Some chan))|>).
Proof.
  intros Hi. assert (inside p pid lk (k <|ptable ::= map (wake (Some chan))|>)) as Hi'.
  { apply (inside_same p pid lk k); [by split_and!|apply same_pids_wake|done]. }
  split; [|done]. pose proof Hi as (Ho & Hf & _). pose proof (holds_only_holds _ _ _ Ho) as Hh.
  rewrite wakeup_Ret by (done || by eapply holds_ready).
  by rewrite (touch_holds _ lk) by (by apply holds_only_holds with p, Hi').
Qed.

Lemma mypid_inside p pid lk k : inside p pid lk k → mypid k = Ret pid k.
Proof.
  intros (Ho & _ & Hp). pose proof (holds_only_holds _ _ _ Ho) as Hh.
  rewrite (mypid_Ret k pid); [by rewrite (touch_holds _ _ Hh)|by eapply holds_ready|].
  destruct Ho as (_ & _ & c & Hc & _ & Hcp). unfold curpid, curproc. rewrite (proj2 Hc). cbn.
  by rewrite Hcp.
Qed.

(** Nobody sleeps on [chan]. *)
Definition no_sleeper (chan : channel) (k : kernel) : Prop :=
  Forall (λ pr, ¬ (p_state pr = SLEEPING ∧ p_chan pr = Some chan)) (ptable k).

Lemma no_sleeper_wake chan k : no_sleeper chan (k <|ptable ::= map (wake (Some chan))|>).
Proof.
  unfold no_sleeper. rsimpl. apply Forall_forall. intros pr Hpr.
  apply list_elem_of_fmap in Hpr as (pr' & -> & _). unfold wake. case_bool_decide as E; [|done]. by intros [? _].
Qed.

(** Going to sleep on another channel. *)
Lemma no_sleeper_asleep chan chan' p k s :
  no_sleeper chan k → ptable s = ptable (asleep p chan' k) → chan' ≠ chan → no_sleeper chan s.
Proof.
  intros Hn E Hne. unfold no_sleeper in *. rewrite E. destruct p as [i|i]; cbn; [|done]. rsimpl.
  rewrite Forall_lookup in *. intros j pr Hj. destruct (decide (i = j)) as [<-|Hij].
  - rewrite list_lookup_alter_eq in Hj. destruct (ptable k !! i); [|done]. cbn in Hj. simplify_eq.
    rsimpl. intros [_ [= ?]]. done.
  - rewrite list_lookup_alter_ne in Hj by done. by eapply Hn.
Qed.

(** *** Calls that wait

    The rest [o] of a call that waits in state [s] until it is no longer
    [blocked], for [n] turns of its loop: it gives up the CPU in a state [G]
    allows, and when it is given back ([B]), it waits again if it is still
    blocked; otherwise it returns, with [Q] relating the state it found and the
    state it leaves. *)
Fixpoint waits {S A : Type} (G : S → S → Prop) (B : S → Prop) (blocked : S → bool) (Q : S → A → S → Prop)
    (n : nat) (s : S) (o : outcome S A) : Prop :=
  match n with
  | O => o = Loop
  | Datatypes.S n =>
      ∃ s1 c, o = Suspend s1 c ∧ G s s1 ∧
        ∀ s2, B s2 →
          if blocked s2 then waits G B blocked Q n s2 (c s2)
          else (0 < n)%nat → ∃ a s3, c s2 = Ret a s3 ∧ Q s2 a s3
  end.

Lemma waits_mono {S A} (G G' : S → S → Prop) (B : S → Prop) blocked (Q Q' : S → A → S → Prop) n s s' o :
  (∀ t, G s t → G' s' t) → (∀ s t, G s t → G' s t) → (∀ s a t, Q s a t → Q' s a t) →
  waits G B blocked Q n s o → waits G' B blocked Q' n s' o.
Proof.
  intros H1 H2 H3. revert s s' o H1. induction n as [|n IH]; intros s s' o H1; cbn [waits]; [done|].
  intros (s1 & c & E & HG & Hc). exists s1, c. split; [done|]. split; [by apply H1|]. intros s2 HB.
  specialize (Hc s2 HB). destruct (blocked s2); [eapply IH; [|done]; by apply H2|].
  intros Hn. destruct (Hc Hn) as (a & s3 & E3 & HQ). exists a, s3. split; [done|]. by apply H3.
Qed.

(** A loop of [sleep] calls and what follows it, if the condition of the loop
    only depends on data outside of the scheduler's. *)
Lemma await_waits {A} (I : kernel → Prop) blocked (f : M kernel A) Q busy p pid chan lk n k k0 :
  lk ≠ LPtable →
  (∀ k, I k → busy k = Ret (blocked k) k) →
  (∀ s k, sched_frame s k → I s → I k ∧ blocked k = blocked s) →
  (∀ s k, I s → sched_frame s k → inside p pid lk k → blocked s = false → ∃ a k', f k = Ret a k' ∧ Q s a k') →
  inside p pid lk k → sched_frame k0 k → I k0 → blocked k0 = true →
  waits (λ s s1, asleep_on p pid chan lk s1 ∧ sched_frame s s1) (λ s, given_back p pid lk s ∧ I s) blocked Q n k0
    ((await n busy chan lk;;; f) k).
Proof.
  intros Hne Hb Hfr Hf. revert k k0. induction n as [|n IH]; intros k k0 Hi Hk HI Hbl; [done|]. cbn [waits].
  destruct (Hfr _ _ Hk HI) as [HI1 Eb]. rewrite Hbl in Eb.
  destruct (await_sleeps k p pid chan lk n busy Hi Hne) as (s & c & E & Ha & Hs & Hc); [by rewrite Hb, Eb|].
  eexists s, _. split; [by apply bind_Suspend|]. split; [split; [done|by eapply sched_frame_trans]|].
  intros s2 [Hg HI2]. destruct (Hc s2 Hg) as (k' & E' & Hi' & Hs'). replace ((c;;; f) s2) with ((await n busy chan lk;;; f) k') by (unfold bind; by rewrite E').
  destruct (blocked s2) eqn:Eb2; [by apply IH|].
  intros Hn. destruct n as [|n]; [lia|]. cbn [await]. destruct (Hfr _ _ Hs' HI2) as [HI' Eb'].
  destruct (Hf s2 k' HI2 Hs' Hi' Eb2) as (a & k'' & E'' & HQ). exists a, k''. split; [|done].
  rewrite bind_assoc, (bind_Ret _ _ _ _ _ (Hb k' HI')), Eb', Eb2. done.
Qed.

(** ** Properties *)

(** The lock is taken. *)
Definition sleep_taken (s : sleepid) (k : kernel) : bool := from_option sl_locked false (sleeplocks k !! s).

(** The rest of [acquiresleep] after its loop. *)
Lemma acquiresleep_tail p pid s l k :
  inside p pid (LSleep s) k → sleeplocks k !! s = Some l →
  ∃ k', (upd_sleep s (λ l, l <|sl_locked := true|>);;;
      (let! pid := mypid in upd_sleep s (λ l, l <|sl_pid := pid|>));;;
      release (LSleep s)) k = Ret tt k' ∧
    running k' p ∧ lock_free k' (LSleep s) ∧ lock_free k' LPtable ∧
    sched_frame (k <|sleeplocks ::= <[s:=MkSleeplock true pid]>|>) k'.
Proof.
  intros Hi Hl. erewrite bind_Ret by (by eapply upd_sleep_Ret). rewrite bind_assoc.
  erewrite bind_Ret by (by eapply mypid_inside, inside_sleep).
  erewrite bind_Ret by (eapply upd_sleep_Ret; rsimpl; apply lookup_insert_eq).
  set (k2 := _ <|sleeplocks ::= _|>).
  destruct (release_inside k2 p pid (LSleep s)) as (k' & E & H1 & H2 & H3 & H4 & _); [by apply inside_sleep, inside_sleep|].
  exists k'. split; [done|]. split; [done|]. split; [done|]. split; [by apply H4|].
  replace (k <|sleeplocks ::= _|>) with k2; [done|]. unfold k2. kext. by rewrite insert_insert_eq.
Qed.

(** C28: [acquiresleep], called by process [p] with no lock held.  If the lock
    is free, the call takes it and returns at once.  If it is taken, the
    process gives up the CPU asleep on the lock's channel, with the lock's own
    spin lock free, so that the owner's [releasesleep] finds it, and everything
    outside of the scheduler's data as it was.  When the process gets the CPU
    back, it sleeps again if the lock is taken; otherwise it takes the lock,
    which then has the identifier of the process, and returns with no spin
    lock and nothing else changed. *)
Theorem acquiresleep_correct (T : Turns) (k : kernel) (p : pptr) (pid : Z) (s : sleepid) (l : sleeplock)
    (Hr : running k p) (Hf : lock_free k (LSleep s)) (Hpt : lock_free k LPtable)
    (Hp : p_pid <$> lookup_proc k p = Some pid) (Hs : sleeplocks k !! s = Some l) :
  if sl_locked l then
    waits (λ k1 k2, asleep_on p pid (ChSleep s) (LSleep s) k2 ∧ sched_frame k1 k2)
      (λ k2, given_back p pid (LSleep s) k2 ∧ is_Some (sleeplocks k2 !! s)) (sleep_taken s)
      (λ k2 _ k', running k' p ∧ lock_free k' (LSleep s) ∧ lock_free k' LPtable ∧
         sched_frame (k2 <|sleeplocks ::= <[s:=MkSleeplock true pid]>|>) k')
      T k (acquiresleep s k)
  else (0 < T)%nat → acquiresleep s k = Ret tt (touch (set_sleep s (MkSleeplock true pid) k)).
Proof.
  destruct (sl_locked l) eqn:Hl.
  - destruct (acquire_inside k p pid (LSleep s)) as [E Hi]; [done..|].
    unfold acquiresleep. rewrite (bind_Ret _ _ _ _ _ E). fold turns.
    eapply (await_waits (λ k, is_Some (sleeplocks k !! s))); [done|..|exact Hi|unfold sched_frame, enter; kext|by eexists|].
    + intros k1 [l1 Hl1]. unfold sleep_taken. by rewrite (bind_Ret _ _ _ _ _ (get_sleep_Ret _ _ _ Hl1)), Hl1.
    + intros k1 k2 -> Hx. unfold sleep_taken. done.
    + intros k1 k2 [l1 Hl1] Hfr Hi2 _.
      destruct (acquiresleep_tail p pid s l1 k2) as (k' & E' & R1 & R2 & R3 & R4); [done|by rewrite Hfr|].
      exists tt, k'. split; [done|]. split; [done|]. split; [done|]. split; [done|].
      eapply sched_frame_trans; [|exact R4]. rewrite Hfr. unfold sched_frame. kext.
    + unfold sleep_taken. by rewrite Hs.
  - intros Ht. eapply acquiresleep_Ret; [by eapply running_roomy|done..| |exact Ht].
    destruct Hr as (c & Hc & _ & Hcp). unfold curpid, curproc. rewrite (proj2 Hc). cbn. by rewrite Hcp.
Qed.

(** [demo] with one sleep lock. *)
Definition demo_sleep (l : sleeplock) : kernel :=
  demo <|locks ::= <[LSleep (SlInode 0):=zero_lock]>|> <|sleeplocks ::= <[SlInode 0:=l]>|>.

Lemma acquiresleep_correct_witness :
  @acquiresleep 1%nat (SlInode 0) (demo_sleep (MkSleeplock false 0)) =
    Ret tt (touch (set_sleep (SlInode 0) (MkSleeplock true 1) (demo_sleep (MkSleeplock false 0)))) ∧
  ∃ k1 c, @acquiresleep 2%nat (SlInode 0) (demo_sleep (MkSleeplock true 2)) = Suspend k1 c ∧
    asleep_on (PT 0) 1 (ChSleep (SlInode 0)) (LSleep (SlInode 0)) k1.
Proof.
  assert (∀ l, running (demo_sleep l) (PT 0)) as Hr.
  { intros l. exists (MkCpu 0 0 0 false (Some (PT 0))). by repeat split. }
  assert (∀ l, lock_free (demo_sleep l) (LSleep (SlInode 0)) ∧ lock_free (demo_sleep l) LPtable) as Hf.
  { intros l. split; by exists EmptyString. }
  split.
  - exact (acquiresleep_correct 1%nat (demo_sleep (MkSleeplock false 0)) (PT 0) 1 (SlInode 0) (MkSleeplock false 0)
      (Hr _) (proj1 (Hf _)) (proj2 (Hf _)) eq_refl eq_refl Nat.lt_0_1).
  - destruct (acquiresleep_correct 2%nat (demo_sleep (MkSleeplock true 2)) (PT 0) 1 (SlInode 0) (MkSleeplock true 2)
      (Hr _) (proj1 (Hf _)) (proj2 (Hf _)) eq_refl eq_refl) as (k1 & c & E & [Ha _] & _).
    exists k1, c. split; [exact E|exact Ha].
Defined.
