(* ===== verification/Bio.v ===== *)
(** The buffer cache of [bio.c] and the memory disk of [memide.c].

    The buffers form a circular doubly linked list through [head], most
    recently used first.  The disk driver is an interface: the cache calls
    [iderw], and two drivers implement it. *)

From stdpp Require Import base gmap strings functions list.
From Stdlib Require Import ZArith Lia FunctionalExtensionality.
From S2P Require Import Prelude Heap Ring CString Mmu State Disk Spinlock Kalloc Vm Proc Sleeplock.
#[local] Open Scope Z_scope.

(** ** The code *)

(** Read and write [*b] for a buffer of the array [bcache.buf]. *)
Definition get_buf (i : nat) : M kernel buf := λ k,
  match bufs k !! i with Some b => Ret b k | None => Fault end.
Definition upd_buf (i : nat) (f : buf → buf) : M kernel unit :=
  let! _ := get_buf i in modify (λ k, k <|bufs ::= alter f i|>).

(** The links of a buffer or of the head of the list. *)
Definition next_of (b : bptr) : M kernel bptr :=
  match b with BHead => gets bhead_next | BBuf i => let! b := get_buf i in ret (b_next b) end.
Definition prev_of (b : bptr) : M kernel bptr :=
  match b with BHead => gets bhead_prev | BBuf i => let! b := get_buf i in ret (b_prev b) end.
Definition set_next (b n : bptr) : M kernel unit :=
  match b with
  | BHead => modify (λ k, k <|bhead_next := n|>)
  | BBuf i => upd_buf i (λ b, b <|b_next := n|>)
  end.
Definition set_prev (b p : bptr) : M kernel unit :=
  match b with
  | BHead => modify (λ k, k <|bhead_prev := p|>)
  | BBuf i => upd_buf i (λ b, b <|b_prev := p|>)
  end.

(** [b->flags & flag] as a test. *)
Definition bflag (b : buf) (flag : Z) : bool := negb (Z.land (b_flags b) flag =? 0).

(** The driver's interface. *)
Class Driver := iderw : nat → M kernel unit.

(** Put buffer [i] at the front of the list. *)
Definition link_front (i : nat) : M kernel unit :=
  (let! n := gets bhead_next in set_next (BBuf i) n);;;
  set_prev (BBuf i) BHead;;;
  (let! n := gets bhead_next in set_prev n (BBuf i));;;
  modify (λ k, k <|bhead_next := BBuf i|>).

(** The loop of [binit] over the buffers. *)
Fixpoint binit_loop (n i : nat) : M kernel unit :=
  match n with
  | O => ret tt
  | S n =>
      (let! h := gets bhead_next in set_next (BBuf i) h);;;
      set_prev (BBuf i) BHead;;;
      initsleeplock (SlBuf i);;;
      (let! h := gets bhead_next in set_prev h (BBuf i));;;
      modify (λ k, k <|bhead_next := BBuf i|>);;;
      binit_loop n (S i)
  end.

Definition binit : M kernel unit :=
  initlock LBcache "bcache";;;
  modify (λ k, k <|bhead_prev := BHead|>);;;
  modify (λ k, k <|bhead_next := BHead|>);;;
  binit_loop NBUF 0.

(** The first loop of [bget]: the block is cached. *)
Fixpoint bget_cached (fuel : nat) (b : bptr) (dev blockno : Z) : M kernel (option nat) :=
  match fuel with
  | O => λ _, Loop
  | S fuel =>
      match b with
      | BHead => ret None
      | BBuf i =>
          let! x := get_buf i in
          if (b_dev x =? dev) && (b_blockno x =? blockno) then ret (Some i)
          else bget_cached fuel (b_next x) dev blockno
      end
  end.

(** The second loop of [bget]: a buffer to recycle. *)
Fixpoint bget_free (fuel : nat) (b : bptr) : M kernel (option nat) :=
  match fuel with
  | O => λ _, Loop
  | S fuel =>
      match b with
      | BHead => ret None
      | BBuf i =>
          let! x := get_buf i in
          if (b_refcnt x =? 0) && negb (bflag x B_DIRTY) then ret (Some i)
          else bget_free fuel (b_prev x)
      end
  end.

Section bio.
Context `{Turns} `{Driver}.

Definition bget (dev blockno : Z) : M kernel nat :=
  acquire LBcache;;;
  let! first := gets bhead_next in
  let! r := bget_cached (S NBUF) first dev blockno in
  match r with
  | Some i =>
      upd_buf i (λ b, b <|b_refcnt := u32 (b_refcnt b + 1)|>);;;
      release LBcache;;;
      acquiresleep (SlBuf i);;;
      ret i
  | None =>
      let! last := gets bhead_prev in
      let! r := bget_free (S NBUF) last in
      match r with
      | Some i =>
          upd_buf i (λ b, b <|b_dev := dev|>);;;
          upd_buf i (λ b, b <|b_blockno := blockno|>);;;
          upd_buf i (λ b, b <|b_flags := 0|>);;;
          upd_buf i (λ b, b <|b_refcnt := 1|>);;;
          release LBcache;;;
          acquiresleep (SlBuf i);;;
          ret i
      | None => panic "bget: no buffers"
      end
  end.

Definition bread (dev blockno : Z) : M kernel nat :=
  let! i := bget dev blockno in
  let! b := get_buf i in
  (when negb (bflag b B_VALID) do iderw i);;;
  ret i.

Definition bwrite (i : nat) : M kernel unit :=
  let! h := holdingsleep (SlBuf i) in
  if negb h then panic "bwrite" else
  upd_buf i (λ b, b <|b_flags := Z.lor (b_flags b) B_DIRTY|>);;;
  iderw i.
End bio.

(** Move buffer [i] to the front of the list. *)
Definition to_front (i : nat) : M kernel unit :=
  let! b := get_buf i in
  set_prev (b_next b) (b_prev b);;;
  (let! b := get_buf i in set_next (b_prev b) (b_next b));;;
  link_front i.

Definition brelse (i : nat) : M kernel unit :=
  let! h := holdingsleep (SlBuf i) in
  if negb h then panic "brelse" else
  releasesleep (SlBuf i);;;
  acquire LBcache;;;
  upd_buf i (λ b, b <|b_refcnt := u32 (b_refcnt b - 1)|>);;;
  (let! b := get_buf i in
   when b_refcnt b =? 0 do to_front i);;;
  release LBcache.

(** *** [memide.c] *)

Module Memide.

(** The block of the image in memory. *)
Definition block (k : kernel) (n : Z) : list Z := default zero_block (disk k !! n).

Definition iderw (i : nat) : M kernel unit :=
  let! h := holdingsleep (SlBuf i) in
  if negb h then panic "iderw: buf not locked" else
  let! b := get_buf i in
  if Z.land (b_flags b) (Z.lor B_VALID B_DIRTY) =? B_VALID then panic "iderw: nothing to do" else
  if negb (b_dev b =? 1) then panic "iderw: request not for disk 1" else
  let! size := gets disksize in
  if u32 size <=? b_blockno b then panic "iderw: block out of range" else
  (if bflag b B_DIRTY then
     upd_buf i (λ b, b <|b_flags := Z.land (b_flags b) (Z.lnot B_DIRTY)|>);;;
     let! b := get_buf i in
     modify (λ k, k <|disk ::= <[b_blockno b:=b_data b]>|>)
   else
     let! d := gets (λ k, block k (b_blockno b)) in
     upd_buf i (λ b, b <|b_data := d|>));;;
  upd_buf i (λ b, b <|b_flags := Z.lor (b_flags b) B_VALID|>).

End Memide.

Definition memide_driver : Driver := Memide.iderw.

(** ** The list of buffers *)

(** The links as functions. *)
Definition nx (k : kernel) (b : bptr) : bptr :=
  match b with BHead => bhead_next k | BBuf i => default BHead (b_next <$> bufs k !! i) end.
Definition pv (k : kernel) (b : bptr) : bptr :=
  match b with BHead => bhead_prev k | BBuf i => default BHead (b_prev <$> bufs k !! i) end.

(** The buffers in the list are [l], most recently used first: all of them,
    each once. *)
Definition lru (k : kernel) (l : list nat) : Prop :=
  ring (nx k) (pv k) BHead (BBuf <$> l) ∧ ∀ i, i ∈ l ↔ (i < length (bufs k))%nat.

(** A buffer without its links. *)
Definition payload (b : buf) : buf := b <|b_prev := BHead|> <|b_next := BHead|>.

(** Only links changed. *)
Definition links_frame (k k' : kernel) : Prop :=
  k' = k <|bufs := bufs k'|> <|bhead_prev := bhead_prev k'|> <|bhead_next := bhead_next k'|> ∧
  payload <$> bufs k' = payload <$> bufs k.

Definition is_node (k : kernel) (b : bptr) : Prop :=
  match b with BHead => True | BBuf i => (i < length (bufs k))%nat end.

Lemma links_frame_refl k : links_frame k k.
Proof. split; [kext|done]. Qed.

Lemma links_frame_trans k k1 k2 : links_frame k k1 → links_frame k1 k2 → links_frame k k2.
Proof.
  intros [E1 P1] [E2 P2]. split; [|congruence]. rewrite E2, E1. kext.
Qed.

Lemma links_frame_length k k' : links_frame k k' → length (bufs k') = length (bufs k).
Proof. intros [_ H]. apply (f_equal length) in H. by rewrite !length_fmap in H. Qed.

Lemma is_node_frame k k' b : links_frame k k' → is_node k b → is_node k' b.
Proof. intros H. destruct b; cbn; [done|]. by rewrite (links_frame_length _ _ H). Qed.

Lemma is_node_len k k' b : length (bufs k') = length (bufs k) → is_node k b → is_node k' b.
Proof. intros H. destruct b; cbn; [done|]. by rewrite H. Qed.

Lemma get_buf_Ret k i b : bufs k !! i = Some b → get_buf i k = Ret b k.
Proof. intros H. unfold get_buf. by rewrite H. Qed.

Lemma upd_buf_Ret k i b f :
  bufs k !! i = Some b → upd_buf i f k = Ret tt (k <|bufs ::= <[i:=f b]>|>).
Proof.
  intros H. unfold upd_buf. erewrite bind_Ret by (by apply get_buf_Ret). unfold modify. f_equal.
  kext. by apply list_alter_insert.
Qed.

Lemma payload_insert (bs : list buf) i b b' :
  bs !! i = Some b → payload b' = payload b → payload <$> <[i:=b']> bs = payload <$> bs.
Proof.
  intros H E. rewrite list_fmap_insert, E. apply list_insert_id. by rewrite list_lookup_fmap, H.
Qed.

Lemma link_fun (bs : list buf) (f : buf → bptr) i b b' h n :
  bs !! i = Some b → f b' = n →
  (λ x, match x with BHead => h | BBuf j => default BHead (f <$> <[i:=b']> bs !! j) end) =
  <[BBuf i:=n]> (λ x, match x with BHead => h | BBuf j => default BHead (f <$> bs !! j) end).
Proof.
  intros H E. extensionality x. destruct (decide (x = BBuf i)) as [->|Hne].
  - rewrite fn_lookup_insert, list_lookup_insert_eq by (by eapply lookup_lt_Some). by cbn.
  - rewrite fn_lookup_insert_ne by done. destruct x as [|j]; [done|].
    rewrite list_lookup_insert_ne by congruence. done.
Qed.

Lemma link_id (bs : list buf) (f : buf → bptr) i b b' :
  bs !! i = Some b → f b' = f b → ∀ j, f <$> <[i:=b']> bs !! j = f <$> bs !! j.
Proof.
  intros H E j. destruct (decide (i = j)) as [->|Hne].
  - rewrite list_lookup_insert_eq by (by eapply lookup_lt_Some).
    rewrite H. cbn. by rewrite E.
  - by rewrite list_lookup_insert_ne.
Qed.

Lemma set_next_ok k b n :
  is_node k b → ∃ k', set_next b n k = Ret tt k' ∧ nx k' = <[b:=n]> (nx k) ∧ pv k' = pv k ∧
    links_frame k k'.
Proof.
  intros Hb. destruct b as [|i]; cbn [set_next is_node] in *.
  - eexists. split; [done|]. split_and!; [|done|split; [kext|done]].
    extensionality x. destruct x; [by rewrite fn_lookup_insert|by rewrite fn_lookup_insert_ne].
  - apply lookup_lt_is_Some in Hb as [b Hb]. eexists. split; [by apply upd_buf_Ret|].
    split_and!; [by eapply (link_fun _ b_next)| |split; [kext|by eapply payload_insert]].
    extensionality x. destruct x as [|j]; [done|]. cbn. rsimpl.
    by erewrite (link_id _ b_prev) by done.
Qed.

Lemma set_prev_ok k b n :
  is_node k b → ∃ k', set_prev b n k = Ret tt k' ∧ pv k' = <[b:=n]> (pv k) ∧ nx k' = nx k ∧
    links_frame k k'.
Proof.
  intros Hb. destruct b as [|i]; cbn [set_prev is_node] in *.
  - eexists. split; [done|]. split_and!; [|done|split; [kext|done]].
    extensionality x. destruct x; [by rewrite fn_lookup_insert|by rewrite fn_lookup_insert_ne].
  - apply lookup_lt_is_Some in Hb as [b Hb]. eexists. split; [by apply upd_buf_Ret|].
    split_and!; [by eapply (link_fun _ b_prev)| |split; [kext|by eapply payload_insert]].
    extensionality x. destruct x as [|j]; [done|]. cbn. rsimpl.
    by erewrite (link_id _ b_next) by done.
Qed.

Lemma ring_nodes k l : lru k l → ∀ x, x ∈ BHead :: (BBuf <$> l) → is_node k x.
Proof.
  intros [_ Hl] x Hx. destruct x as [|i]; [done|]. cbn. apply Hl.
  apply elem_of_cons in Hx as [|Hx]; [done|]. by apply list_elem_of_fmap in Hx as (j & [= ->] & Hj).
Qed.

(** The neighbours of a node of a ring are nodes. *)
Lemma ring_next {N} (f g : N → N) h l x : ring f g h l → x ∈ h :: l → f x ∈ h :: l ∧ g x ∈ h :: l.
Proof.
  intros [_ Hw] Hx. apply elem_of_cons in Hx as [->|Hx].
  - split.
    + destruct l as [|c l]; cbn in Hw; destruct Hw as (-> & _); [by left|right; by left].
    + destruct (walk_last _ _ _ _ _ Hw) as [_ ->]. apply before_in.
  - apply list_elem_of_split in Hx as (l1 & l2 & ->). rewrite <- app_assoc in Hw. cbn in Hw.
    rewrite walk_app in Hw. destruct Hw as [Hw1 Hw2]. split.
    + destruct l2 as [|c l2]; cbn in Hw2; destruct Hw2 as (-> & _); [by left|].
      right. apply elem_of_app. right. right. by left.
    + destruct (walk_last _ _ _ _ _ Hw1) as [_ ->]. pose proof (before_in h l1) as Hb.
      apply elem_of_cons in Hb as [->|Hb]; [by left|]. right. apply elem_of_app. by left.
Qed.

Lemma nx_buf k i b : bufs k !! i = Some b → nx k (BBuf i) = b_next b ∧ pv k (BBuf i) = b_prev b.
Proof. intros H. cbn. by rewrite H. Qed.

(** Linking a buffer in after the head. *)
Lemma link_front_ok k i :
  is_node k (BBuf i) → is_node k (nx k BHead) →
  ∃ k', link_front i k = Ret tt k' ∧
    nx k' = (relink BHead (BBuf i) (nx k) (pv k)).1 ∧
    pv k' = (relink BHead (BBuf i) (nx k) (pv k)).2 ∧ links_frame k k'.
Proof.
  intros Hi Hn. unfold link_front, relink. cbn [fst snd]. rewrite bind_assoc, bind_gets.
  destruct (set_next_ok k (BBuf i) (bhead_next k)) as (k1 & E1 & N1 & P1 & F1); [done|].
  rewrite (bind_Ret _ _ _ _ _ E1).
  destruct (set_prev_ok k1 (BBuf i) BHead) as (k2 & E2 & P2 & N2 & F2); [by eapply is_node_frame|].
  rewrite (bind_Ret _ _ _ _ _ E2), bind_assoc, bind_gets.
  assert (bhead_next k2 = <[BBuf i:=bhead_next k]> (nx k) BHead) as Eh.
  { change (bhead_next k2) with (nx k2 BHead). by rewrite N2, N1. }
  assert (bhead_next k2 = bhead_next k) as Eh'.
  { by rewrite Eh, fn_lookup_insert_ne. }
  destruct (set_prev_ok k2 (bhead_next k2) (BBuf i)) as (k3 & E3 & P3 & N3 & F3).
  { rewrite Eh'. by do 2 (eapply is_node_frame; [done|]). }
  rewrite (bind_Ret _ _ _ _ _ E3).
  destruct (set_next_ok k3 BHead (BBuf i)) as (k4 & E4 & N4 & P4 & F4); [done|].
  exists k4. split; [exact E4|]. rewrite N4, N3, N2, N1, P4, P3, P2, P1, Eh. split_and!; [done..|].
  repeat (eapply links_frame_trans; [eassumption|]). apply links_frame_refl.
Qed.

(** Moving a buffer to the front of the list. *)
Lemma to_front_ok k l1 i l2 :
  lru k (l1 ++ i :: l2) →
  ∃ k', to_front i k = Ret tt k' ∧ lru k' (i :: l1 ++ l2) ∧ links_frame k k'.
Proof.
  intros Hl. pose proof (ring_nodes _ _ Hl) as Hnode. destruct Hl as [Hr Hin].
  assert (i ∈ l1 ++ i :: l2) as Hi by (apply elem_of_app; right; by left).
  pose proof Hi as Hib. apply Hin, lookup_lt_is_Some in Hib as [b Hb].
  destruct (nx_buf k i b Hb) as [En Ep].
  assert (BBuf i ∈ BHead :: (BBuf <$> (l1 ++ i :: l2))) as Hir
    by (right; by apply list_elem_of_fmap_2).
  destruct (ring_next _ _ _ _ _ Hr Hir) as [Hnn Hpn]. rewrite En in Hnn. rewrite Ep in Hpn.
  rewrite fmap_app, fmap_cons in Hr.
  destruct (ring_unlink _ _ _ _ _ _ Hr) as (Hr1 & Hn1 & Hp1). unfold unlink in Hr1, Hn1, Hp1.
  cbn [fst snd] in Hr1, Hn1, Hp1. rewrite En, Ep in Hr1, Hn1, Hp1. rewrite Hp1 in Hr1, Hn1.
  unfold to_front. erewrite bind_Ret by (by apply get_buf_Ret).
  destruct (set_prev_ok k (b_next b) (b_prev b)) as (k1 & E1 & P1 & N1 & F1); [by apply Hnode|].
  rewrite (bind_Ret _ _ _ _ _ E1).
  assert (i < length (bufs k1))%nat as Hi1 by (rewrite (links_frame_length _ _ F1); by apply Hin).
  apply lookup_lt_is_Some in Hi1 as [b1 Hb1]. destruct (nx_buf k1 i b1 Hb1) as [En1 Ep1].
  rewrite N1, En in En1. rewrite P1, Hp1 in Ep1. rewrite bind_assoc.
  erewrite bind_Ret by (by apply get_buf_Ret). rewrite <- En1, <- Ep1.
  destruct (set_next_ok k1 (b_prev b) (b_next b)) as (k2 & E2 & N2 & P2 & F2);
    [by eapply is_node_frame, Hnode|].
  rewrite (bind_Ret _ _ _ _ _ E2). rewrite N1 in N2. rewrite P1 in P2. rewrite <- N2, <- P2 in Hr1.
  assert (BBuf i ∉ BHead :: (BBuf <$> l1) ++ (BBuf <$> l2)) as Hni.
  { destruct Hr as [Hnd _]. apply NoDup_cons in Hnd as [_ Hnd].
    apply NoDup_app in Hnd as (_ & H1 & H2). apply NoDup_cons in H2 as [H2 _].
    intros [[=]|Hx]%elem_of_cons. apply elem_of_app in Hx as [Hx|Hx]; [|done].
    apply (H1 _ Hx). by left. }
  pose proof (ring_relink _ _ _ _ _ Hr1 Hni) as Hr2. cbv zeta in Hr2.
  assert (∀ x, is_node k x → is_node k2 x) as Hn2.
  { intros x Hx. by do 2 (eapply is_node_frame; [done|]). }
  destruct (link_front_ok k2 i) as (k3 & E3 & N3 & P3 & F3); [apply Hn2, (Hin i), Hi| |].
  { apply Hn2, Hnode. destruct (ring_next _ _ _ _ BHead Hr1 ltac:(by left)) as [Hx _].
    clear - Hx. rewrite fmap_app, fmap_cons. set_solver. }
  exists k3. split; [exact E3|]. split.
  - split; [by rewrite N3, P3, fmap_cons, fmap_app|]. intros j.
    rewrite (links_frame_length _ _ F3), (links_frame_length _ _ F2), (links_frame_length _ _ F1).
    rewrite <- Hin. clear. set_solver.
  - repeat (eapply links_frame_trans; [eassumption|]). apply links_frame_refl.
Qed.

(** ** The loops of [bget] *)

Definition buf_is (k : kernel) (dev n : Z) (i : nat) : bool :=
  match bufs k !! i with Some b => (b_dev b =? dev) && (b_blockno b =? n) | None => false end.

Definition buf_idle (k : kernel) (i : nat) : bool :=
  match bufs k !! i with Some b => (b_refcnt b =? 0) && negb (bflag b B_DIRTY) | None => false end.

Lemma bget_cached_ok k l fuel a dev n :
  walk (nx k) (pv k) a ((BBuf <$> l) ++ [BHead]) → (∀ i, i ∈ l → (i < length (bufs k))%nat) →
  (length l < fuel)%nat →
  bget_cached fuel (nx k a) dev n k = Ret (List.find (buf_is k dev n) l) k.
Proof.
  revert a fuel. induction l as [|i l IH]; intros a fuel Hw Hl Hf.
  - destruct fuel as [|fuel]; [cbn in Hf; lia|]. cbn in Hw. destruct Hw as (-> & _). done.
  - destruct fuel as [|fuel]; [cbn in Hf; lia|]. cbn [fmap list_fmap app walk] in Hw.
    destruct Hw as (-> & _ & Hw). cbn [bget_cached].
    destruct (lookup_lt_is_Some_2 (bufs k) i) as [b Hb]; [apply Hl; by left|].
    erewrite bind_Ret by (by apply get_buf_Ret). cbn [List.find].
    replace (buf_is k dev n i) with ((b_dev b =? dev) && (b_blockno b =? n))
      by (unfold buf_is; by rewrite Hb).
    case_match eqn:E; [done|]. destruct (nx_buf k i b Hb) as [<- _].
    apply (IH (BBuf i)); [done| |cbn in Hf; lia]. intros j Hj. apply Hl. by right.
Qed.

Lemma bget_free_ok k l fuel a :
  walk (pv k) (nx k) a ((BBuf <$> l) ++ [BHead]) → (∀ i, i ∈ l → (i < length (bufs k))%nat) →
  (length l < fuel)%nat →
  bget_free fuel (pv k a) k = Ret (List.find (buf_idle k) l) k.
Proof.
  revert a fuel. induction l as [|i l IH]; intros a fuel Hw Hl Hf.
  - destruct fuel as [|fuel]; [cbn in Hf; lia|]. cbn in Hw. destruct Hw as (-> & _). done.
  - destruct fuel as [|fuel]; [cbn in Hf; lia|]. cbn [fmap list_fmap app walk] in Hw.
    destruct Hw as (-> & _ & Hw). cbn [bget_free].
    destruct (lookup_lt_is_Some_2 (bufs k) i) as [b Hb]; [apply Hl; by left|].
    erewrite bind_Ret by (by apply get_buf_Ret). cbn [List.find].
    replace (buf_idle k i) with ((b_refcnt b =? 0) && negb (bflag b B_DIRTY))
      by (unfold buf_idle; by rewrite Hb).
    case_match eqn:E; [done|]. destruct (nx_buf k i b Hb) as [_ <-].
    apply (IH (BBuf i)); [done| |cbn in Hf; lia]. intros j Hj. apply Hl. by right.
Qed.

(** ** The cache and the disk *)

(** What a cached block, or one that is not cached, contains for the rest of
    the kernel. *)
Definition caches (n : Z) (b : buf) : Prop := b_dev b = 1 ∧ b_blockno b = n.

Definition content (k : kernel) (n : Z) : list Z :=
  match list_find (λ b, caches n b ∧ b_flags b ≠ 0) (bufs k) with
  | Some (_, b) => b_data b
  | None => Memide.block k n
  end.

(** A block waits in the cache to be written. *)
Definition dirty (k : kernel) (n : Z) : Prop :=
  ∃ i b, bufs k !! i = Some b ∧ caches n b ∧ b_flags b = Z.lor B_VALID B_DIRTY.

(** The cache while the process [pid] holds the buffers [H] and no other
    process uses the cache: the list is in order [l]; reference counts and
    sleep locks tell what is held; no block is cached twice; what is valid
    and not dirty agrees with the disk. *)
Record cache_ok (k : kernel) (pid : Z) (H : gset nat) (l : list nat) : Prop := {
  bc_lru : lru k l;
  bc_len : length (bufs k) = NBUF;
  bc_ref : ∀ i b, bufs k !! i = Some b → b_refcnt b = if decide (i ∈ H) then 1 else 0;
  bc_sleep : ∀ i, (i < NBUF)%nat → sleeplocks k !! SlBuf i =
    Some (if decide (i ∈ H) then MkSleeplock true pid else MkSleeplock false 0);
  bc_locks : is_Some (locks k !! LBcache) ∧ is_Some (locks k !! LPtable) ∧
    ∀ i, (i < NBUF)%nat → is_Some (locks k !! LSleep (SlBuf i));
  bc_uniq : ∀ i j b b' n, bufs k !! i = Some b → bufs k !! j = Some b' →
    caches n b → caches n b' → i = j;
  bc_flags : ∀ i b, bufs k !! i = Some b →
    b_flags b = 0 ∧ i ∉ H ∨ b_flags b = B_VALID ∨ b_flags b = Z.lor B_VALID B_DIRTY;
  bc_clean : ∀ i b n, bufs k !! i = Some b → caches n b → b_flags b = B_VALID →
    b_data b = Memide.block k n;
  bc_range : ∀ i b n, bufs k !! i = Some b → caches n b → 0 <= n < u32 (disksize k);
  bc_dev : ∀ i b, bufs k !! i = Some b → b_flags b = Z.lor B_VALID B_DIRTY → b_dev b = 1
}.

Lemma content_cached k i b n :
  (∀ i j b b', bufs k !! i = Some b → bufs k !! j = Some b' → caches n b → caches n b' → i = j) →
  bufs k !! i = Some b → caches n b → b_flags b ≠ 0 → content k n = b_data b.
Proof.
  intros Hu Hb Hc Hf. unfold content. destruct (list_find _ _) as [[j b']|] eqn:E.
  - apply list_find_Some in E as (Hj & [Hc' _] & _). assert (j = i) as -> by (by eapply Hu).
    by simplify_eq.
  - rewrite list_find_None, Forall_lookup in E. by destruct (E i b Hb).
Qed.

Lemma content_block k n :
  (∀ i b, bufs k !! i = Some b → caches n b → b_flags b = 0) → content k n = Memide.block k n.
Proof.
  intros Hn. unfold content. destruct (list_find _ _) as [[j b']|] eqn:E; [|done].
  apply list_find_Some in E as (Hj & [Hc Hf] & _). by destruct Hf; eapply Hn.
Qed.

(** A change of one buffer that keeps its links. *)
Lemma lru_upd k k' l i b b' :
  lru k l → bufs k !! i = Some b → bufs k' = <[i:=b']> (bufs k) → b_next b' = b_next b →
  b_prev b' = b_prev b → bhead_next k' = bhead_next k → bhead_prev k' = bhead_prev k → lru k' l.
Proof.
  intros [Hr Hl] Hb E En Ep Ehn Ehp. split.
  - replace (nx k') with (nx k); [replace (pv k') with (pv k); [done|]|];
      extensionality x; destruct x as [|j]; cbn; rewrite ?E; try done.
    + by erewrite (link_id _ b_prev).
    + by erewrite (link_id _ b_next).
  - intros j. rewrite E, length_insert. apply Hl.
Qed.

Lemma cache_upd k k' pid H H' l i b b' :
  cache_ok k pid H l → bufs k !! i = Some b → bufs k' = <[i:=b']> (bufs k) →
  b_next b' = b_next b → b_prev b' = b_prev b →
  bhead_next k' = bhead_next k → bhead_prev k' = bhead_prev k →
  locks k' = locks k → disksize k' = disksize k →
  (∀ j, (j < NBUF)%nat → sleeplocks k' !! SlBuf j = if decide (j = i)
     then Some (if decide (i ∈ H') then MkSleeplock true pid else MkSleeplock false 0)
     else sleeplocks k !! SlBuf j) →
  (∀ j, j ≠ i → j ∈ H' ↔ j ∈ H) → b_refcnt b' = (if decide (i ∈ H') then 1 else 0) →
  b_flags b' = 0 ∧ i ∉ H' ∨ b_flags b' = B_VALID ∨ b_flags b' = Z.lor B_VALID B_DIRTY →
  (∀ n, caches n b' → ∀ j b2, j ≠ i → bufs k !! j = Some b2 → ¬ caches n b2) →
  (∀ n, caches n b' → b_flags b' = B_VALID → b_data b' = Memide.block k' n) →
  (∀ n j b2, j ≠ i → bufs k !! j = Some b2 → caches n b2 → Memide.block k' n = Memide.block k n) →
  (∀ n, caches n b' → 0 <= n < u32 (disksize k)) →
  (b_flags b' = Z.lor B_VALID B_DIRTY → b_dev b' = 1) →
  cache_ok k' pid H' l.
Proof.
  intros [C1 C2 C3 C4 C5 C6 C7 C8 C9 C10] Hb E En Ep Ehn Ehp El Ed Hsl HH Hrf Hfl Hu Hc Hblk Hrg Hdv.
  pose proof (lookup_lt_Some _ _ _ Hb) as Hi.
  assert (∀ j x, bufs k' !! j = Some x → j = i ∧ x = b' ∨ j ≠ i ∧ bufs k !! j = Some x) as Hlk.
  { intros j x. rewrite E, list_insert_lookup by done. destruct (decide (i = j)).
    - intros [= <-]. left. split; congruence.
    - intros Hx. right. split; [congruence|done]. }
  split.
  - by eapply lru_upd.
  - by rewrite E, length_insert.
  - intros j x Hx. destruct (Hlk j x Hx) as [[-> ->]|[Hj Hx']]; [done|].
    rewrite (C3 j x Hx'). by rewrite (decide_ext _ _ _ _ (HH j Hj)).
  - intros j Hj. rewrite (Hsl j Hj). destruct (decide (j = i)) as [->|Hne]; [done|].
    rewrite (C4 j Hj). by rewrite (decide_ext _ _ _ _ (HH j Hne)).
  - by rewrite El.
  - intros j j' x x' n Hx Hx' Hcx Hcx'.
    destruct (Hlk j x Hx) as [[-> ->]|[Hj Hxx]], (Hlk j' x' Hx') as [[-> ->]|[Hj' Hxx']]; [done|..].
    + by destruct (Hu n Hcx j' x').
    + by destruct (Hu n Hcx' j x).
    + by eapply C6.
  - intros j x Hx. destruct (Hlk j x Hx) as [[-> ->]|[Hj Hx']]; [done|].
    rewrite (HH j Hj). by eapply C7.
  - intros j x n Hx Hcx Hf. destruct (Hlk j x Hx) as [[-> ->]|[Hj Hx']]; [by apply Hc|].
    rewrite (Hblk n j x) by done. by eapply C8.
  - intros j x n Hx Hcx. rewrite Ed. destruct (Hlk j x Hx) as [[-> ->]|[Hj Hx']]; [by apply Hrg|].
    by eapply C9.
  - intros j x Hx Hf. destruct (Hlk j x Hx) as [[-> ->]|[Hj Hx']]; [by apply Hdv|]. by eapply C10.
Qed.

(** The fields the cache changes. *)
Definition bio_frame (k k' : kernel) : Prop :=
  k' = k <|cpus := cpus k'|> <|ptable := ptable k'|> <|sleeplocks := sleeplocks k'|>
         <|bufs := bufs k'|> <|bhead_prev := bhead_prev k'|> <|bhead_next := bhead_next k'|>
         <|disk := disk k'|> ∧
  (∀ s, (∀ i, s ≠ SlBuf i) → sleeplocks k' !! s = sleeplocks k !! s).

Lemma bio_frame_refl k : bio_frame k k.
Proof. split; [kext|done]. Qed.

Lemma bio_frame_trans k k1 k2 : bio_frame k k1 → bio_frame k1 k2 → bio_frame k k2.
Proof.
  intros [E1 S1] [E2 S2]. split; [rewrite E2, E1; kext|]. intros s Hs. by rewrite S2, S1.
Qed.

Lemma caches_is k n i b : bufs k !! i = Some b → buf_is k 1 n i = true ↔ caches n b.
Proof.
  intros Hb. unfold buf_is, caches. rewrite Hb. rewrite andb_true_iff, !Z.eqb_eq. done.
Qed.

(** The block is cached, or there is a buffer for it. *)
Definition room (k : kernel) (H : gset nat) (n : Z) : Prop :=
  ∃ i b, bufs k !! i = Some b ∧ i ∉ H ∧ (caches n b ∨ b_flags b ≠ Z.lor B_VALID B_DIRTY).

Lemma bget_search k pid H l n :
  let k1 := enter LBcache k in cache_ok k pid H l → room k H n →
  (∀ i b, i ∈ H → bufs k !! i = Some b → ¬ caches n b) →
  ∃ i b, bufs k !! i = Some b ∧ i ∉ H ∧
    (caches n b ∧ bget_cached (S NBUF) (bhead_next k1) 1 n k1 = Ret (Some i) k1 ∨
     (∀ j b', bufs k !! j = Some b' → ¬ caches n b') ∧ b_flags b ≠ Z.lor B_VALID B_DIRTY ∧
     bget_cached (S NBUF) (bhead_next k1) 1 n k1 = Ret None k1 ∧
     bget_free (S NBUF) (bhead_prev k1) k1 = Ret (Some i) k1).
Proof.
  intros k1 C Hroom Hheld. pose proof (bc_lru _ _ _ _ C) as [[Hnd Hw] Hin].
  pose proof (bc_len _ _ _ _ C) as Hlen.
  assert (length l < S NBUF)%nat as Hll.
  { apply NoDup_cons in Hnd as [_ Hnd]. apply NoDup_fmap in Hnd; [|intros ? ?; congruence].
    assert (length l ≤ length (seq 0 NBUF))%nat as Hx.
    { apply submseteq_length, NoDup_submseteq; [done|]. intros x Hx. apply Hin in Hx.
      apply elem_of_seq. lia. }
    rewrite length_seq in Hx. lia. }
  pose proof (bget_cached_ok k1 l (S NBUF) BHead 1 n Hw) as Ec. cbn [nx] in Ec.
  rewrite Ec by (done || by intros j ?%Hin). clear Ec.
  change (buf_is k1 1 n) with (buf_is k 1 n). destruct (List.find (buf_is k 1 n) l) as [i|] eqn:Ef.
  - apply find_some in Ef as [Hi Hb]. apply list_elem_of_In, Hin, lookup_lt_is_Some in Hi as [b Hi].
    rewrite (caches_is k n i b Hi) in Hb. exists i, b. split_and!; [done| |by left].
    intros Hx. by apply (Hheld i b).
  - assert (∀ j b', bufs k !! j = Some b' → ¬ caches n b') as Hnone.
    { intros j b' Hj Hc. rewrite <- (caches_is k n j b' Hj) in Hc.
      rewrite (find_none _ _ Ef j) in Hc; [done|]. apply list_elem_of_In, Hin. by eapply lookup_lt_Some. }
    apply walk_rev in Hw. rewrite <- fmap_reverse in Hw.
    pose proof (bget_free_ok k1 (reverse l) (S NBUF) BHead Hw) as Eg. cbn [pv] in Eg.
    rewrite Eg; [|by intros j ?%elem_of_reverse%Hin|by rewrite length_reverse]. clear Eg.
    change (buf_idle k1) with (buf_idle k).
    destruct (List.find (buf_idle k) (reverse l)) as [i|] eqn:Eg.
    + apply find_some in Eg as [Hi Hb]. apply list_elem_of_In, elem_of_reverse, Hin, lookup_lt_is_Some in Hi as [b Hi].
      unfold buf_idle in Hb. rewrite Hi in Hb. apply andb_true_iff in Hb as [Hb1 Hb2].
      rewrite (bc_ref _ _ _ _ C i b Hi) in Hb1. exists i, b. split_and!; [done| |right; split_and!; try done].
      * intros Hx. by rewrite decide_True in Hb1.
      * intros Hx. unfold bflag in Hb2. by rewrite Hx in Hb2.
    + exfalso. destruct Hroom as (i & b & Hi & HiH & Hor).
      destruct Hor as [Hc|Hnd']; [by apply (Hnone i b)|].
      assert (buf_idle k i = false) as Hx.
      { apply (find_none _ _ Eg). apply list_elem_of_In, elem_of_reverse, Hin. by eapply lookup_lt_Some. }
      unfold buf_idle in Hx. rewrite Hi, (bc_ref _ _ _ _ C i b Hi), decide_False in Hx by done.
      unfold bflag in Hx. destruct (bc_flags _ _ _ _ C i b Hi) as [[E _]|[E|E]]; by rewrite E in Hx.
Qed.

(** Buffer [b] taken for block [n]. *)
Definition recycled (n : Z) (b : buf) : buf :=
  b <|b_dev := 1|> <|b_blockno := n|> <|b_flags := 0|> <|b_refcnt := 1|>.

Lemma upd_buf_twice {A} k i f g (m : M kernel A) :
  is_Some (bufs k !! i) →
  (upd_buf i f;;; upd_buf i g;;; m) k = (upd_buf i (λ b, g (f b));;; m) k.
Proof.
  intros [b Hb]. rewrite !(bind_Ret _ _ _ _ _ (upd_buf_Ret k i b _ Hb)).
  erewrite bind_Ret.
  2: { eapply upd_buf_Ret. rsimpl. apply list_lookup_insert_eq. by eapply lookup_lt_Some. }
  f_equal. kext. apply list_insert_insert_eq.
Qed.

Lemma bget_ok (T : Turns) k pid H l n :
  quiet k pid → cache_ok k pid H l → room k H n → (0 < T)%nat →
  (∀ i b, i ∈ H → bufs k !! i = Some b → ¬ caches n b) →
  ∃ i b b1 k', bget 1 n k = Ret i k' ∧ calmly k k' ∧ bufs k !! i = Some b ∧ i ∉ H ∧
    k' = k <|cpus := cpus k'|> <|sleeplocks ::= <[SlBuf i:=MkSleeplock true pid]>|>
           <|bufs ::= <[i:=b1]>|> ∧
    (caches n b ∧ b1 = b <|b_refcnt := 1|> ∨
     (∀ j b', bufs k !! j = Some b' → ¬ caches n b') ∧ b_flags b ≠ Z.lor B_VALID B_DIRTY ∧
     b1 = recycled n b).
Proof.
  intros Hq C Hroom HT Hheld.
  destruct (bget_search k pid H l n C Hroom Hheld) as (i & b & Hb & HiH & Hcase).
  pose proof (bc_locks _ _ _ _ C) as (Hlb & _ & Hls).
  pose proof (bc_ref _ _ _ _ C i b Hb) as Href. rewrite decide_False in Href by done.
  assert (i < NBUF)%nat as Hi by (rewrite <- (bc_len _ _ _ _ C); by eapply lookup_lt_Some).
  pose proof (bc_sleep _ _ _ _ C i Hi) as Hsl. rewrite decide_False in Hsl by done.
  unfold bget. erewrite bind_Ret by (by eapply acquire_quiet). rewrite bind_gets.
  set (k1 := enter LBcache k).
  (** the end of both branches *)
  assert (∀ b1, ∃ k', (release LBcache;;; acquiresleep (SlBuf i);;; ret i)
      (k1 <|bufs ::= <[i:=b1]>|>) = Ret i k' ∧ calmly k k' ∧
    k' = k <|cpus := cpus k'|> <|sleeplocks ::= <[SlBuf i:=MkSleeplock true pid]>|>
           <|bufs ::= <[i:=b1]>|>) as Hend.
  { intros b1. set (k2 := k1 <|bufs ::= _|>).
    destruct (release_quiet k LBcache pid k2 Hq Hlb) as [E2 C2]; [by split_and!|by intros []|].
    rewrite (bind_Ret _ _ _ _ _ E2).
    destruct (acquiresleep_quiet (leave k k2) (SlBuf i) (MkSleeplock false 0) pid) as (k' & E3 & C3 & Ek);
      [by eapply calmly_quiet|by apply Hls|done..|].
    rewrite (bind_Ret _ _ _ _ _ E3). exists k'. split_and!; [done|by eapply calmly_trans|].
    rewrite Ek. unfold leave, k2, k1, enter. kext. }
  destruct Hcase as [[Hc E1]|(Hnone & Hnd & E1 & E2)].
  - rewrite (bind_Ret _ _ _ _ _ E1). erewrite bind_Ret by (by eapply upd_buf_Ret).
    destruct (Hend (b <|b_refcnt := u32 (b_refcnt b + 1)|>)) as (k' & E' & C' & Ek').
    exists i, b, (b <|b_refcnt := 1|>), k'. rewrite Href in *. split_and!; try done. by left.
  - rewrite (bind_Ret _ _ _ _ _ E1), bind_gets, (bind_Ret _ _ _ _ _ E2).
    rewrite !upd_buf_twice by (by eexists). erewrite bind_Ret by (by eapply upd_buf_Ret).
    destruct (Hend (recycled n b)) as (k' & E' & C' & Ek').
    exists i, b, (recycled n b), k'. split_and!; try done. by right.
Qed.

(** *** The memory disk *)

Section memide.
Context (k : kernel) (pid : Z) (i : nat) (b : buf).
Context (Hq : quiet k pid) (Hl : is_Some (locks k !! LSleep (SlBuf i))).
Context (Hs : sleeplocks k !! SlBuf i = Some (MkSleeplock true pid)).
Context (Hb : bufs k !! i = Some b) (Hd : b_dev b = 1) (Hr : b_blockno b < u32 (disksize k)).

Lemma memide_read :
  b_flags b = 0 →
  ∃ k', Memide.iderw i k = Ret tt k' ∧ calmly k k' ∧
    k' = k <|cpus := cpus k'|>
           <|bufs ::= <[i:=b <|b_data := Memide.block k (b_blockno b)|> <|b_flags := B_VALID|>]>|>.
Proof.
  intros Hf. unfold Memide.iderw.
  destruct (holdingsleep_quiet k (SlBuf i) pid Hq Hl Hs) as (k1 & E1 & C1 & Ek1).
  rewrite (bind_Ret _ _ _ _ _ E1). cbn [negb].
  assert (bufs k1 !! i = Some b) as Hb1 by (by rewrite Ek1).
  erewrite bind_Ret by (by apply get_buf_Ret). rewrite Hf, Hd.
  change (Z.land 0 (Z.lor B_VALID B_DIRTY) =? B_VALID) with false. cbn [negb Z.eqb Pos.eqb].
  rewrite bind_gets. assert (disksize k1 = disksize k) as -> by (by rewrite Ek1).
  destruct (Z.leb_spec (u32 (disksize k)) (b_blockno b)); [lia|].
  unfold bflag. rewrite Hf. change (negb (Z.land 0 B_DIRTY =? 0)) with false. cbn iota.
  rewrite bind_assoc, bind_gets.
  assert (Memide.block k1 (b_blockno b) = Memide.block k (b_blockno b)) as -> by (by rewrite Ek1).
  rewrite <- bind_ret_tt, bind_assoc. rewrite upd_buf_twice by (by eexists).
  erewrite bind_Ret by (by eapply upd_buf_Ret). eexists. split; [done|]. rsimpl. rewrite Hf. split.
  - eapply calmly_trans; [exact C1|]. apply calmly_same; [by split_and!|by intros []].
  - rewrite Ek1. kext.
Qed.

Lemma memide_write :
  b_flags b = Z.lor B_VALID B_DIRTY →
  ∃ k', Memide.iderw i k = Ret tt k' ∧ calmly k k' ∧
    k' = k <|cpus := cpus k'|> <|bufs ::= <[i:=b <|b_flags := B_VALID|>]>|>
           <|disk ::= <[b_blockno b:=b_data b]>|>.
Proof.
  intros Hf. unfold Memide.iderw.
  destruct (holdingsleep_quiet k (SlBuf i) pid Hq Hl Hs) as (k1 & E1 & C1 & Ek1).
  rewrite (bind_Ret _ _ _ _ _ E1). cbn [negb].
  assert (bufs k1 !! i = Some b) as Hb1 by (by rewrite Ek1).
  erewrite bind_Ret by (by apply get_buf_Ret). rewrite Hf, Hd.
  change (Z.land (Z.lor B_VALID B_DIRTY) (Z.lor B_VALID B_DIRTY) =? B_VALID) with false.
  cbn [negb Z.eqb Pos.eqb].
  rewrite bind_gets. assert (disksize k1 = disksize k) as -> by (by rewrite Ek1).
  destruct (Z.leb_spec (u32 (disksize k)) (b_blockno b)); [lia|].
  unfold bflag. rewrite Hf. change (negb (Z.land (Z.lor B_VALID B_DIRTY) B_DIRTY =? 0)) with true.
  cbn iota. rewrite !bind_assoc. erewrite bind_Ret by (by eapply upd_buf_Ret).
  rewrite bind_assoc. erewrite bind_Ret.
  2: { apply get_buf_Ret. rsimpl. apply list_lookup_insert_eq. by eapply lookup_lt_Some. }
  rsimpl. rewrite bind_modify. erewrite upd_buf_Ret.
  2: { rsimpl. apply list_lookup_insert_eq. by eapply lookup_lt_Some. }
  eexists. split; [done|]. split.
  - eapply calmly_trans; [exact C1|]. apply calmly_same; [by split_and!|by intros []].
  - rewrite Ek1. kext. rewrite list_insert_insert_eq, Hf. done.
Qed.
End memide.

(** *** What the cache relies on *)

(** The caller of the driver: the process holds the buffer, which is for a
    block of the disk. *)
Definition may_rw (k : kernel) (pid : Z) (i : nat) (b : buf) : Prop :=
  quiet k pid ∧ is_Some (locks k !! LSleep (SlBuf i)) ∧
  sleeplocks k !! SlBuf i = Some (MkSleeplock true pid) ∧ bufs k !! i = Some b ∧
  b_dev b = 1 ∧ b_blockno b < u32 (disksize k).

(** A driver reads the block into a buffer that is not valid and writes a
    dirty one; the disk changes in one step, so that whoever looks on sees
    the disk as it was or as it will be. *)
Class DriverLaws (D : Driver) : Prop := {
  driver_read k pid i b : may_rw k pid i b → b_flags b = 0 →
    ∃ obs k', runs (iderw i k) obs tt k' ∧ Forall (λ s, disk s = disk k) obs ∧ calmly k k' ∧
      k' = k <|cpus := cpus k'|>
             <|bufs ::= <[i:=b <|b_data := Memide.block k (b_blockno b)|> <|b_flags := B_VALID|>]>|>;
  driver_write k pid i b : may_rw k pid i b → b_flags b = Z.lor B_VALID B_DIRTY →
    ∃ obs k', runs (iderw i k) obs tt k' ∧ Forall (λ s, disk s = disk k') obs ∧ calmly k k' ∧
      k' = k <|cpus := cpus k'|> <|bufs ::= <[i:=b <|b_flags := B_VALID|>]>|>
             <|disk ::= <[b_blockno b:=b_data b]>|>
}.

#[global] Instance memide_laws : DriverLaws memide_driver.
Proof.
  split; intros k pid i b (H1 & H2 & H3 & H4 & H5 & H6) Hf; exists [].
  - destruct (memide_read k pid i b) as (k' & E & C & Ek); [done..|]. exists k'.
    split_and!; [by apply runs_Ret|done..].
  - destruct (memide_write k pid i b) as (k' & E & C & Ek); [done..|]. exists k'.
    split_and!; [by apply runs_Ret|done..].
Qed.

(** The memory disk under observation: the machine may stop after each
    access. *)
Definition observed_driver : Driver := λ i, Memide.iderw i;;; suspend.

#[global] Instance observed_laws : DriverLaws observed_driver.
Proof.
  split; intros k pid i b (H1 & H2 & H3 & H4 & H5 & H6) Hf.
  - destruct (memide_read k pid i b) as (k' & E & C & Ek); [done..|]. exists [k'], k'.
    split_and!; [|by rewrite Ek; repeat constructor|done..].
    eapply runs_bind_Ret; [exact E|]. repeat constructor.
  - destruct (memide_write k pid i b) as (k' & E & C & Ek); [done..|]. exists [k'], k'.
    split_and!; [|by repeat constructor|done..].
    eapply runs_bind_Ret; [exact E|]. repeat constructor.
Qed.

(** *** The cache over a lawful driver *)


Lemma content_is k pid H l i b n :
  cache_ok k pid H l → bufs k !! i = Some b → caches n b → b_flags b ≠ 0 → content k n = b_data b.
Proof.
  intros C Hb Hc Hf. eapply content_cached; [|done..]. intros ? ? ? ? H1 H2 H3 H4.
  by eapply (bc_uniq _ _ _ _ C).
Qed.

(** The content of the blocks that one buffer does not hold after it
    changed. *)
Lemma content_other k k' pid H H' l l' i b b' m :
  cache_ok k pid H l → cache_ok k' pid H' l' → bufs k !! i = Some b → bufs k' !! i = Some b' →
  (∀ j, j ≠ i → bufs k' !! j = bufs k !! j) → ¬ caches m b' →
  Memide.block k' m = Memide.block k m → (caches m b → b_flags b ≠ Z.lor B_VALID B_DIRTY) →
  content k' m = content k m.
Proof.
  intros C C' Hb Hb' Hoj Hm Hblk Hnd. unfold content at 1.
  destruct (list_find _ (bufs k')) as [[j x]|] eqn:E.
  - apply list_find_Some in E as (Hj & [Hc Hf] & _).
    assert (j ≠ i) as Hne by (intros ->; simplify_eq; done). rewrite Hoj in Hj by done.
    symmetry. by eapply content_is.
  - rewrite list_find_None, Forall_lookup in E. rewrite Hblk.
    destruct (decide (caches m b ∧ b_flags b ≠ 0)) as [[Hc Hf]|Hno].
    + rewrite (content_is k pid H l i b m C Hb Hc Hf). symmetry. eapply (bc_clean _ _ _ _ C); [done..|].
      destruct (bc_flags _ _ _ _ C i b Hb) as [[? _]|[|?]]; [done..|]. by destruct (Hnd Hc).
    + symmetry. apply content_block. intros j x Hj Hc. destruct (decide (b_flags x = 0)) as [|Hf]; [done|].
      exfalso. destruct (decide (j = i)) as [->|Hne]; [simplify_eq; tauto|].
      rewrite <- Hoj in Hj by done. by apply (E j x Hj).
Qed.

(** What [bread] leaves: buffer [i], now [b2], holds block [n]. *)
Lemma bread_result k k2 pid H l n i b b2 :
  cache_ok k pid H l → 0 <= n < u32 (disksize k) → bufs k !! i = Some b → i ∉ H →
  k2 = k <|cpus := cpus k2|> <|sleeplocks ::= <[SlBuf i:=MkSleeplock true pid]>|>
         <|bufs ::= <[i:=b2]>|> →
  caches n b2 → b_refcnt b2 = 1 → b_next b2 = b_next b → b_prev b2 = b_prev b →
  (∀ j b', j ≠ i → bufs k !! j = Some b' → ¬ caches n b') →
  (caches n b ∧ b_flags b ≠ 0 ∧ b_flags b2 = b_flags b ∧ b_data b2 = b_data b ∨
   (caches n b → b_flags b = 0) ∧ b_flags b ≠ Z.lor B_VALID B_DIRTY ∧
   b_flags b2 = B_VALID ∧ b_data b2 = Memide.block k n) →
  bio_frame k k2 ∧ cache_ok k2 pid ({[i]} ∪ H) l ∧ bufs k2 !! i = Some b2 ∧
  b_data b2 = content k n ∧ (∀ m, content k2 m = content k m) ∧ (∀ m, dirty k2 m ↔ dirty k m) ∧
  (∀ j, j ≠ i → bufs k2 !! j = bufs k !! j).
Proof.
  intros C Hn Hb HiH Ek Hc2 Hr2 Hnx Hpv Hoth Hcase.
  assert (∀ m, Memide.block k2 m = Memide.block k m) as Hblk by (intros m; by rewrite Ek).
  assert (bufs k2 = <[i:=b2]> (bufs k)) as Ebufs by (by rewrite Ek).
  assert (bufs k2 !! i = Some b2) as Hb2.
  { rewrite Ebufs. apply list_lookup_insert_eq. by eapply lookup_lt_Some. }
  assert (∀ j, j ≠ i → bufs k2 !! j = bufs k !! j) as Hoj.
  { intros j Hj. rewrite Ebufs. by apply list_lookup_insert_ne. }
  assert (∀ m, caches m b2 → m = n) as Hm by (intros m [_ <-]; by destruct Hc2).
  assert (cache_ok k2 pid ({[i]} ∪ H) l) as C2.
  { eapply (cache_upd k k2 pid H); try done; try (by rewrite Ek).
    - intros j Hj. rewrite Ek. rsimpl. destruct (decide (j = i)) as [->|Hne].
      + rewrite lookup_insert_eq, decide_True by set_solver. done.
      + rewrite lookup_insert_ne by congruence. done.
    - clear. set_solver.
    - rewrite decide_True by set_solver. done.
    - right. destruct Hcase as [(_ & Hf & -> & _)|(_ & _ & -> & _)]; [|by left].
      destruct (bc_flags _ _ _ _ C i b Hb) as [[? _]|]; done.
    - intros m Hcm. rewrite (Hm m Hcm). done.
    - intros m Hcm Hf. rewrite (Hm m Hcm), Hblk.
      destruct Hcase as [(Hcb & _ & Ef & ->)|(_ & _ & _ & ->)]; [|done].
      eapply (bc_clean _ _ _ _ C); [done..|congruence].
    - intros m Hcm. by rewrite (Hm m Hcm).
    - intros _. apply Hc2. }
  assert (b_flags b2 ≠ 0) as Hf2.
  { destruct Hcase as [(_ & ? & -> & _)|(_ & _ & -> & _)]; done. }
  assert (b_data b2 = content k n) as Hdata.
  { destruct Hcase as [(Hcb & Hf & _ & ->)|(Hz & _ & _ & ->)]; symmetry.
    - by eapply content_is.
    - apply content_block. intros j b' Hj Hcj. destruct (decide (j = i)) as [->|Hne].
      + simplify_eq. by apply Hz.
      + by destruct (Hoth j b'). }
  split_and!; try done.
  - split; [rewrite Ek; kext|]. intros x Hx. rewrite Ek. rsimpl. by rewrite lookup_insert_ne.
  - intros m. destruct (decide (m = n)) as [->|Hmn].
    { rewrite <- Hdata. by eapply content_is. }
    eapply content_other; [exact C|exact C2|done..| |done|].
    + by intros ?%Hm.
    + destruct Hcase as [([_ Hcb] & _)|(_ & ? & _)]; [|done]. intros [_ ?]. congruence.
  - intros m. unfold dirty. split; intros (j & x & Hj & Hc & Hf).
    + destruct (decide (j = i)) as [->|Hne]; [|rewrite Hoj in Hj by done; by exists j, x].
      rewrite Hb2 in Hj. injection Hj as <-. rewrite (Hm m Hc).
      destruct Hcase as [(Hcb & _ & Ef & _)|(_ & _ & Ef & _)]; [|by rewrite Ef in Hf].
      exists i, b. split_and!; [done..|congruence].
    + destruct (decide (j = i)) as [->|Hne]; [|exists j, x; by rewrite Hoj].
      rewrite Hb in Hj. injection Hj as <-. exists i, b2.
      destruct Hcase as [(Hcb & _ & Ef & _)|(_ & ? & _)]; [|done].
      assert (m = n) as -> by (destruct Hc, Hcb; congruence). split_and!; [done..|congruence].
Qed.

(** [bread] returns a locked buffer with the content of the block, and no
    content changes. *)
Lemma bread_ok (T : Turns) (D : Driver) `{!DriverLaws D} k pid H l n :
  quiet k pid → cache_ok k pid H l → room k H n → (0 < T)%nat → 0 <= n < u32 (disksize k) →
  (∀ i b, i ∈ H → bufs k !! i = Some b → ¬ caches n b) →
  ∃ i b k' obs, runs (bread 1 n k) obs i k' ∧ Forall (λ s, disk s = disk k) obs ∧ calmly k k' ∧ bio_frame k k' ∧ i ∉ H ∧
    cache_ok k' pid ({[i]} ∪ H) l ∧ bufs k' !! i = Some b ∧ caches n b ∧ b_data b = content k n ∧
    (∀ m, content k' m = content k m) ∧ (∀ m, dirty k' m ↔ dirty k m) ∧ disk k' = disk k ∧
    (∀ j, j ≠ i → bufs k' !! j = bufs k !! j).
Proof.
  intros Hq C Hroom HT Hn Hheld.
  destruct (bget_ok T k pid H l n Hq C Hroom HT Hheld) as (i & b & b1 & k1 & E1 & C1 & Hb & HiH & Ek1 & Hcase).
  pose proof (lookup_lt_Some _ _ _ Hb) as Hilt. rewrite (bc_len _ _ _ _ C) in Hilt.
  pose proof (bc_locks _ _ _ _ C) as (Hlb & Hlp & Hls).
  unfold bread.
  assert (bufs k1 !! i = Some b1) as Hb1.
  { rewrite Ek1. rsimpl. apply list_lookup_insert_eq. by eapply lookup_lt_Some. }
  assert (∀ j b', j ≠ i → bufs k !! j = Some b' → ¬ caches n b') as Hoth.
  { intros j b' Hj Hjb Hc. destruct Hcase as [[Hcb _]|[Hno _]]; [|by apply (Hno j b')].
    apply Hj. by eapply (bc_uniq _ _ _ _ C). }
  assert (caches n b1 ∧ b_refcnt b1 = 1 ∧ b_next b1 = b_next b ∧ b_prev b1 = b_prev b) as
    (Hc1 & Hr1 & Hn1 & Hp1).
  { destruct Hcase as [[Hcb ->]|(_ & _ & ->)]; by split_and!. }
  destruct (bflag b1 B_VALID) eqn:Hv; cbn [negb].
  - assert (b1 = b <|b_refcnt := 1|> ∧ caches n b ∧ b_flags b ≠ 0) as (-> & Hcb & Hf).
    { destruct Hcase as [[Hcb ->]|(_ & _ & ->)]; [|done]. split_and!; [done..|].
      intros Hz. unfold bflag in Hv. rsimpl. by rewrite Hz in Hv. }
    destruct (bread_result k k1 pid H l n i b (b <|b_refcnt := 1|>)) as (R1 & R2 & R3 & R4 & R5 & R6 & R7);
      [done..|by left|]. eexists i, _, k1, []. split_and!; try done; [|by rewrite Ek1].
    eapply runs_bind_Ret; [exact E1|]. eapply runs_bind_Ret; [by apply get_buf_Ret|]. rewrite Hv. constructor.
  - assert (b_flags b1 = 0 ∧ (caches n b → b_flags b = 0) ∧ b_flags b ≠ Z.lor B_VALID B_DIRTY) as (Hf1 & Hz & Hnd).
    { destruct Hcase as [[Hcb ->]|(Hno & Hnd & ->)].
      - unfold bflag in Hv. rsimpl. destruct (bc_flags _ _ _ _ C i b Hb) as [[Hf _]|[Hf|Hf]];
          rewrite Hf in *; by split_and!.
      - split_and!; [done| |done]. intros Hcb. by destruct (Hno i b). }
    destruct (driver_read k1 pid i b1) as (obs & k2 & E2 & Ho & C2 & Ek2); [split_and!; try done|done|].
    { by eapply calmly_quiet. } { rewrite Ek1. by apply Hls. }
    { rewrite Ek1. rsimpl. apply lookup_insert_eq. } { apply Hc1. }
    { destruct Hc1 as [_ ->]. rewrite Ek1. apply Hn. }
    destruct (bread_result k k2 pid H l n i b
      (b1 <|b_data := Memide.block k1 (b_blockno b1)|> <|b_flags := B_VALID|>)) as
      (R1 & R2 & R3 & R4 & R5 & R6 & R7); try done.
    { rewrite Ek2, Ek1. kext. apply list_insert_insert_eq. }
    { right. split_and!; try done. destruct Hc1 as [_ <-]. rewrite Ek1. done. }
    eexists i, _, k2, obs. split_and!; try done.
    + eapply runs_bind_Ret; [exact E1|]. eapply runs_bind_Ret; [by apply get_buf_Ret|]. rewrite Hv. cbn [negb].
      by eapply runs_bind_ret.
    + by rewrite Ek1 in Ho.
    + by eapply calmly_trans.
    + by rewrite Ek2, Ek1.
Qed.

(** Buffers that hold the same block. *)
Definition same_block (b b' : buf) : Prop :=
  b_dev b' = b_dev b ∧ b_blockno b' = b_blockno b ∧ b_flags b' = b_flags b ∧ b_data b' = b_data b.

Definition same_blocks (k k' : kernel) : Prop :=
  Forall2 same_block (bufs k) (bufs k') ∧ disk k' = disk k.

Lemma same_blocks_lookup k k' i b :
  same_blocks k k' → bufs k !! i = Some b → ∃ b', bufs k' !! i = Some b' ∧ same_block b b'.
Proof. intros [H _] Hb. apply (Forall2_lookup_l _ _ _ _ _ H Hb). Qed.

Lemma same_blocks_lookup_r k k' i b' :
  same_blocks k k' → bufs k' !! i = Some b' → ∃ b, bufs k !! i = Some b ∧ same_block b b'.
Proof. intros [H _] Hb. apply (Forall2_lookup_r _ _ _ _ _ H Hb). Qed.

Lemma same_block_caches b b' n : same_block b b' → caches n b' ↔ caches n b.
Proof. intros (E1 & E2 & _). unfold caches. by rewrite E1, E2. Qed.

Lemma same_blocks_view k k' :
  same_blocks k k' → (∀ m, content k' m = content k m) ∧ (∀ m, dirty k' m ↔ dirty k m).
Proof.
  intros Hs. split; intros m.
  - unfold content, Memide.block. destruct Hs as [Hf ->].
    induction Hf as [|b b' bs bs' Hb _ IH]; cbn; [done|].
    pose proof (same_block_caches b b' m Hb) as Hc. destruct Hb as (_ & _ & Ef & Ed).
    assert (caches m b' ∧ b_flags b' ≠ 0 ↔ caches m b ∧ b_flags b ≠ 0) as Hi by (by rewrite Hc, Ef).
    destruct (decide (caches m b ∧ b_flags b ≠ 0)) as [Hd|Hd].
    + by rewrite decide_True by (by apply Hi).
    + rewrite decide_False by (by rewrite Hi).
      destruct (list_find _ bs) as [[]|], (list_find _ bs') as [[]|]; done.
  - unfold dirty. split; intros (i & b & Hb & Hc & Hf).
    + destruct (same_blocks_lookup_r _ _ _ _ Hs Hb) as (b0 & Hb0 & Hsb). exists i, b0.
      rewrite <- (same_block_caches b0 b m Hsb). destruct Hsb as (_ & _ & Ef & _). by rewrite <- Ef.
    + destruct (same_blocks_lookup _ _ _ _ Hs Hb) as (b0 & Hb0 & Hsb). exists i, b0.
      rewrite (same_block_caches b b0 m Hsb). destruct Hsb as (_ & _ & Ef & _). by rewrite Ef.
Qed.

Lemma same_blocks_payload k k' :
  payload <$> bufs k' = payload <$> bufs k → disk k' = disk k → same_blocks k k'.
Proof.
  intros H Hd. split; [|done]. apply Forall2_same_length_lookup. split.
  - apply (f_equal length) in H. by rewrite !length_fmap in H.
  - intros i b b' Hb Hb'. assert (payload b' = payload b) as E.
    { apply (f_equal (lookup i)) in H. rewrite !list_lookup_fmap, Hb, Hb' in H. by apply (inj Some) in H. }
    split_and!; [by apply (f_equal b_dev) in E|by apply (f_equal b_blockno) in E
      |by apply (f_equal b_flags) in E|by apply (f_equal b_data) in E].
Qed.

(** Moving a buffer in the list keeps the rest of the cache. *)
Lemma cache_links k k' pid H l l' :
  cache_ok k pid H l → payload <$> bufs k' = payload <$> bufs k → lru k' l' →
  sleeplocks k' = sleeplocks k ∧ locks k' = locks k ∧ disk k' = disk k ∧ disksize k' = disksize k →
  cache_ok k' pid H l'.
Proof.
  intros [C1 C2 C3 C4 C5 C6 C7 C8 C9 C10] Hp Hl (Es & El & Ed & Edz).
  assert (∀ i b', bufs k' !! i = Some b' → ∃ b, bufs k !! i = Some b ∧ payload b' = payload b) as Hlk.
  { intros i b' Hb'. apply (f_equal (lookup i)) in Hp. rewrite !list_lookup_fmap, Hb' in Hp.
    destruct (bufs k !! i) as [b|]; [|done]. exists b. split; [done|]. by apply (inj Some) in Hp. }
  assert (∀ b b', payload b' = payload b → b_dev b' = b_dev b ∧ b_blockno b' = b_blockno b ∧
    b_flags b' = b_flags b ∧ b_data b' = b_data b ∧ b_refcnt b' = b_refcnt b) as Hpl.
  { intros b b' Ep. split_and!; [by apply (f_equal b_dev) in Ep|by apply (f_equal b_blockno) in Ep
      |by apply (f_equal b_flags) in Ep|by apply (f_equal b_data) in Ep|by apply (f_equal b_refcnt) in Ep]. }
  split; try done.
  - apply (f_equal length) in Hp. rewrite !length_fmap in Hp. by rewrite Hp.
  - intros i b' Hb'. destruct (Hlk i b' Hb') as (b & Hb & (_ & _ & _ & _ & ->)%Hpl). by apply C3.
  - by rewrite Es.
  - by rewrite El.
  - intros i j b b' n Hb Hb' Hc Hc'.
    destruct (Hlk i b Hb) as (b0 & Hb0 & (E1 & E2 & _)%Hpl), (Hlk j b' Hb') as (b1 & Hb1 & (E3 & E4 & _)%Hpl).
    unfold caches in *. rewrite E1, E2 in Hc. rewrite E3, E4 in Hc'. by eapply C6.
  - intros i b' Hb'. destruct (Hlk i b' Hb') as (b & Hb & (_ & _ & -> & _)%Hpl). by apply C7.
  - intros i b' n Hb' Hc Hf. destruct (Hlk i b' Hb') as (b & Hb & (E1 & E2 & E3 & E4 & _)%Hpl).
    unfold caches, Memide.block in *. rewrite E1, E2, E3, E4, Ed in *. by eapply C8.
  - intros i b' n Hb' Hc. destruct (Hlk i b' Hb') as (b & Hb & (E1 & E2 & _)%Hpl).
    unfold caches in *. rewrite E1, E2, Edz in *. by eapply C9.
  - intros i b' Hb' Hf. destruct (Hlk i b' Hb') as (b & Hb & (E1 & _ & E3 & _)%Hpl).
    rewrite E1. rewrite E3 in Hf. by eapply C10.
Qed.

(** [brelse] gives the buffer back and makes it the most recently used. *)
Lemma brelse_ok k pid H l i :
  quiet k pid → cache_ok k pid H l → i ∈ H → (i < NBUF)%nat →
  ∃ k' l1 l2, brelse i k = Ret tt k' ∧ calmly k k' ∧ bio_frame k k' ∧ l = l1 ++ i :: l2 ∧
    cache_ok k' pid (H ∖ {[i]}) (i :: l1 ++ l2) ∧ same_blocks k k'.
Proof.
  intros Hq C Hi Hlt. pose proof (bc_locks _ _ _ _ C) as (Hlb & Hlp & Hls).
  assert (i < length (bufs k))%nat as Hlen by (by rewrite (bc_len _ _ _ _ C)).
  apply lookup_lt_is_Some in Hlen as [b Hb].
  pose proof (bc_ref _ _ _ _ C i b Hb) as Hr. rewrite decide_True in Hr by done.
  pose proof (bc_sleep _ _ _ _ C i Hlt) as Hs. rewrite decide_True in Hs by done.
  unfold brelse. destruct (holdingsleep_quiet k (SlBuf i) pid Hq (Hls i Hlt) Hs) as (k1 & E1 & C1 & Ek1).
  rewrite (bind_Ret _ _ _ _ _ E1). cbn [negb]. assert (quiet k1 pid) as Hq1 by by eapply calmly_quiet.
  destruct (releasesleep_quiet k1 (SlBuf i) (MkSleeplock true pid) pid Hq1) as (k2 & E2 & C2 & Ek2);
    [rewrite Ek1; by apply Hls|by rewrite Ek1|by rewrite Ek1|].
  rewrite (bind_Ret _ _ _ _ _ E2). assert (quiet k2 pid) as Hq2 by by eapply calmly_quiet.
  assert (is_Some (locks k2 !! LBcache)) as Hlb2 by (by rewrite Ek2, Ek1).
  erewrite bind_Ret by (by eapply acquire_quiet). set (k3 := enter LBcache k2).
  assert (bufs k3 !! i = Some b) as Hb3 by (change (bufs k3) with (bufs k2); by rewrite Ek2, Ek1).
  erewrite bind_Ret by (by eapply upd_buf_Ret). cbv beta. rewrite Hr.
  change (u32 (1 - 1)) with 0. set (b4 := b <|b_refcnt := 0|>). set (k4 := k3 <|bufs ::= _|>).
  assert (bufs k4 !! i = Some b4) as Hb4.
  { unfold k4. rsimpl. apply list_lookup_insert_eq. by eapply lookup_lt_Some. }
  rewrite bind_assoc. erewrite bind_Ret by (by apply get_buf_Ret).
  change (b_refcnt b4 =? 0) with true. cbn iota.
  set (kv := k <|sleeplocks ::= <[SlBuf i:=MkSleeplock false 0]>|> <|bufs ::= <[i:=b4]>|>).
  assert (bufs k4 = bufs kv) as Eb4.
  { unfold kv, k4, k3. rsimpl. change (bufs (enter LBcache k2)) with (bufs k2). by rewrite Ek2, Ek1. }
  assert (cache_ok kv pid (H ∖ {[i]}) l) as Cv.
  { eapply (cache_upd k kv pid H _ l i b b4 C Hb); try done.
    - intros j Hj. unfold kv. rsimpl. destruct (decide (j = i)) as [->|Hne].
      + rewrite lookup_insert_eq, decide_False by set_solver. done.
      + by rewrite lookup_insert_ne by congruence.
    - clear. set_solver.
    - rewrite decide_False by set_solver. done.
    - destruct (bc_flags _ _ _ _ C i b Hb) as [[_ ?]|?]; [done|by right].
    - intros n Hc j b2 Hj Hj2 Hc2. apply Hj. exact (bc_uniq _ _ _ _ C j i b2 b n Hj2 Hb Hc2 Hc).
    - intros n Hc Hf. exact (bc_clean _ _ _ _ C i b n Hb Hc Hf).
    - intros n Hc. exact (bc_range _ _ _ _ C i b n Hb Hc).
    - intros Hf. exact (bc_dev _ _ _ _ C i b Hb Hf). }
  pose proof (proj2 (bc_lru _ _ _ _ C)) as Hin.
  assert (i ∈ l) as (l1 & l2 & El)%list_elem_of_split.
  { apply Hin. by eapply lookup_lt_Some. }
  assert (lru k4 l) as L4.
  { eapply (lru_upd k k4 l i b b4); [apply C|done|by rewrite Eb4|done|done|..];
      unfold k4, k3; rsimpl; [change (bhead_next (enter LBcache k2)) with (bhead_next k2)
        |change (bhead_prev (enter LBcache k2)) with (bhead_prev k2)]; by rewrite Ek2, Ek1. }
  rewrite El in L4. destruct (to_front_ok k4 l1 i l2 L4) as (k5 & E5 & L5 & F5).
  rewrite (bind_Ret _ _ _ _ _ E5). pose proof F5 as [Ek5 Hp5].
  destruct (release_quiet k2 LBcache pid k5 Hq2 Hlb2) as [E6 C6].
  { rewrite Ek5. by split_and!. } { rewrite Ek5. by intros []. }
  assert (sleeplocks k2 = <[SlBuf i:=MkSleeplock false 0]> (sleeplocks k) ∧ locks k2 = locks k ∧
    disk k2 = disk k ∧ disksize k2 = disksize k) as (J1 & J2 & J3 & J4) by (by rewrite Ek2, Ek1).
  assert (sleeplocks (leave k2 k5) = sleeplocks k2 ∧ disk (leave k2 k5) = disk k2 ∧
    disksize (leave k2 k5) = disksize k2) as (K1 & K2 & K3).
  { unfold leave. rsimpl. rewrite Ek5. done. }
  exists (leave k2 k5), l1, l2. split_and!; try done.
  - eapply calmly_trans; [exact C1|]. by eapply calmly_trans.
  - eapply bio_frame_trans; [eapply (bio_frame_trans k k1 k2)|].
    + split; [rewrite Ek1; kext|]. intros x _. by rewrite Ek1.
    + split; [rewrite Ek2; kext|]. intros x Hx. rewrite Ek2. rsimpl. by rewrite lookup_insert_ne.
    + split; [unfold leave; rewrite Ek5; unfold k4, k3, enter; kext|]. intros x _. by rewrite K1.
  - eapply (cache_links kv); [exact Cv| |exact L5|].
    + change (bufs (leave k2 k5)) with (bufs k5). by rewrite Hp5, Eb4.
    + rewrite K1, K2, K3. by rewrite J1, J3, J4.
  - assert (disk (leave k2 k5) = disk k) as Ed by (by rewrite K2, J3).
    assert (same_blocks kv (leave k2 k5)) as [Hf _].
    { apply same_blocks_payload; [|done]. change (bufs (leave k2 k5)) with (bufs k5). by rewrite Hp5, Eb4. }
    split; [|done]. clear - Hf Hb. revert Hf. unfold kv. rsimpl. generalize (bufs (leave k2 k5)).
    intros bs Hf. rewrite Forall2_lookup in Hf |- *. intros j. specialize (Hf j).
    destruct (decide (i = j)) as [->|Hne]; [|by rewrite list_lookup_insert_ne in Hf].
    rewrite list_lookup_insert_eq in Hf by (by eapply lookup_lt_Some). rewrite Hb.
    inversion Hf as [x y Hxy E1 E2|]; subst. constructor. exact Hxy.
Qed.

(** New data in a held buffer: written to the disk, or marked dirty. *)
Lemma held_upd k k' pid H l i b n d f :
  cache_ok k pid H l → i ∈ H → bufs k !! i = Some b → caches n b →
  bufs k' = <[i:=b <|b_data := d|> <|b_flags := f|>]> (bufs k) →
  bhead_next k' = bhead_next k → bhead_prev k' = bhead_prev k → locks k' = locks k →
  disksize k' = disksize k → sleeplocks k' = sleeplocks k →
  (f = B_VALID ∧ disk k' = <[n:=d]> (disk k) ∨ f = Z.lor B_VALID B_DIRTY ∧ disk k' = disk k) →
  cache_ok k' pid H l ∧ (∀ m, content k' m = if decide (m = n) then d else content k m) ∧
  (∀ m, dirty k' m ↔ if decide (m = n) then f = Z.lor B_VALID B_DIRTY else dirty k m).
Proof.
  intros C Hi Hb Hc Eb Ehn Ehp El Ed Es Hf. set (b' := b <|b_data := d|> <|b_flags := f|>) in Eb.
  pose proof (lookup_lt_Some _ _ _ Hb) as Hlt.
  assert (f ≠ 0) as Hf0 by (by destruct Hf as [[-> _]|[-> _]]).
  assert (caches n b') as Hc' by exact Hc.
  assert (∀ m, caches m b → m = n) as Hm by (intros m [_ <-]; by destruct Hc).
  assert (∀ m, m ≠ n → Memide.block k' m = Memide.block k m) as Hblk.
  { intros m Hne. unfold Memide.block. destruct Hf as [[_ ->]|[_ ->]]; [|done]. by rewrite lookup_insert_ne. }
  assert (bufs k' !! i = Some b') as Hb' by (rewrite Eb; by apply list_lookup_insert_eq).
  assert (∀ j, j ≠ i → bufs k' !! j = bufs k !! j) as Hoj.
  { intros j Hj. rewrite Eb. by apply list_lookup_insert_ne. }
  assert (∀ j x, j ≠ i → bufs k !! j = Some x → ¬ caches n x) as Hoth.
  { intros j x Hj Hx Hcx. apply Hj. by eapply (bc_uniq _ _ _ _ C). }
  assert (cache_ok k' pid H l) as C'.
  { eapply (cache_upd k k' pid H H l i b b' C Hb); try done.
    - intros j Hj. rewrite Es. destruct (decide (j = i)) as [->|]; [|done].
      by rewrite (bc_sleep _ _ _ _ C i Hj).
    - exact (bc_ref _ _ _ _ C i b Hb).
    - right. by destruct Hf as [[-> _]|[-> _]]; [left|right].
    - intros m Hcm j x Hj Hx. rewrite (Hm m Hcm). by eapply Hoth.
    - intros m Hcm E. rewrite (Hm m Hcm). destruct Hf as [[_ Hd]|[-> _]]; [|done].
      unfold Memide.block. rewrite Hd, lookup_insert_eq. done.
    - intros m j x Hj Hx Hcx. apply Hblk. intros ->. by apply (Hoth j x).
    - intros m Hcm. exact (bc_range _ _ _ _ C i b m Hb Hcm).
    - intros _. apply Hc. }
  split_and!; [done|..]; intros m; destruct (decide (m = n)) as [->|Hne].
  - rewrite (content_is k' pid H l i b' n C' Hb' Hc' Hf0). done.
  - eapply content_other; [exact C|exact C'|done..| |by apply Hblk|].
    + by intros ?%Hm.
    + by intros ?%Hm.
  - unfold dirty. split; [|intros ->; exists i, b'; done].
    intros (j & x & Hj & Hcx & Hfx). destruct (decide (j = i)) as [->|Hji].
    + rewrite Hb' in Hj. by injection Hj as <-.
    + rewrite Hoj in Hj by done. by destruct (Hoth j x).
  - unfold dirty. split; intros (j & x & Hj & Hcx & Hfx); exists j, x;
      (destruct (decide (j = i)) as [->|Hji]; [exfalso; apply Hne, Hm; by simplify_eq|]).
    + by rewrite <- Hoj.
    + by rewrite Hoj.
Qed.

Lemma bwrite_ok (D : Driver) `{!DriverLaws D} k pid H l i b n d :
  quiet k pid → cache_ok k pid H l → i ∈ H → bufs k !! i = Some b → caches n b →
  ∃ k' obs, runs (bwrite i (k <|bufs ::= <[i:=b <|b_data := d|>]>|>)) obs tt k' ∧
    Forall (λ s, disk s = disk k') obs ∧ calmly k k' ∧
    bio_frame k k' ∧ cache_ok k' pid H l ∧ disk k' = <[n:=d]> (disk k) ∧
    bufs k' = <[i:=b <|b_data := d|> <|b_flags := B_VALID|>]> (bufs k) ∧
    (∀ m, content k' m = if decide (m = n) then d else content k m) ∧
    (∀ m, dirty k' m ↔ m ≠ n ∧ dirty k m).
Proof.
  intros Hq C Hi Hb Hc. pose proof (bc_locks _ _ _ _ C) as (_ & _ & Hls).
  pose proof (lookup_lt_Some _ _ _ Hb) as Hlt. pose proof Hlt as Hlt'. rewrite (bc_len _ _ _ _ C) in Hlt'.
  pose proof (bc_sleep _ _ _ _ C i Hlt') as Hs. rewrite decide_True in Hs by done.
  set (k0 := k <|bufs ::= _|>). set (b0 := b <|b_data := d|>) in k0.
  assert (quiet k0 pid) as Hq0.
  { eapply calmly_quiet; [|exact Hq]. apply calmly_same; [by split_and!|by intros []]. }
  unfold bwrite. destruct (holdingsleep_quiet k0 (SlBuf i) pid Hq0) as (k1 & E1 & C1 & Ek1);
    [by apply Hls|done|].
  assert (bufs k1 !! i = Some b0) as Hb1.
  { rewrite Ek1. unfold k0. rsimpl. by apply list_lookup_insert_eq. }
  set (b2 := b0 <|b_flags := Z.lor (b_flags b0) B_DIRTY|>). set (k2 := k1 <|bufs ::= <[i:=b2]>|>).
  assert (bufs k2 !! i = Some b2) as Hb2.
  { unfold k2. rsimpl. apply list_lookup_insert_eq. by eapply lookup_lt_Some. }
  assert (b_flags b2 = Z.lor B_VALID B_DIRTY) as Hf2.
  { unfold b2, b0. rsimpl. destruct (bc_flags _ _ _ _ C i b Hb) as [[_ ?]|[E|E]]; [done|..]; by rewrite E. }
  destruct (driver_write k2 pid i b2) as (obs & k3 & E3 & Ho & C3 & Ek3); [split_and!; try done|done|].
  { eapply calmly_quiet; [|exact Hq0]. eapply calmly_trans; [exact C1|].
    apply calmly_same; [by split_and!|by intros []]. }
  { unfold k2. rsimpl. rewrite Ek1. by apply Hls. } { unfold k2. rsimpl. by rewrite Ek1. }
  { apply Hc. } { unfold k2. rsimpl. rewrite Ek1. destruct Hc as [Hc1 Hc2].
    change (b_blockno b2) with (b_blockno b). rewrite Hc2. by apply (bc_range _ _ _ _ C i b n). }
  exists k3, obs. split.
  { eapply runs_bind_Ret; [exact E1|]. cbn [negb]. eapply runs_bind_Ret; [by eapply upd_buf_Ret|]. exact E3. }
  assert (disk k3 = <[n:=d]> (disk k)) as Hdisk.
  { rewrite Ek3. unfold k2. rsimpl. rewrite Ek1. by destruct Hc as [_ <-]. }
  assert (bufs k3 = <[i:=b <|b_data := d|> <|b_flags := B_VALID|>]> (bufs k)) as Hbufs.
  { rewrite Ek3. unfold k2. rsimpl. rewrite Ek1. unfold k0. rsimpl. by rewrite !list_insert_insert_eq. }
  assert (sleeplocks k3 = sleeplocks k ∧ locks k3 = locks k ∧ disksize k3 = disksize k ∧
    bhead_next k3 = bhead_next k ∧ bhead_prev k3 = bhead_prev k) as (J1 & J2 & J3 & J4 & J5).
  { rewrite Ek3. unfold k2. rsimpl. by rewrite Ek1. }
  destruct (held_upd k k3 pid H l i b n d B_VALID C Hi Hb Hc Hbufs J4 J5 J2 J3 J1) as (C' & Hct & Hdt);
    [by left|]. split_and!; try done.
  - eapply calmly_trans; [|exact C3]. eapply calmly_trans; [eapply calmly_trans; [|exact C1]|].
    + apply calmly_same; [by split_and!|by intros []].
    + apply calmly_same; [by split_and!|by intros []].
  - split; [|intros x _; by rewrite J1]. rewrite Ek3. unfold k2. rewrite Ek1. unfold k0. kext.
  - intros m. rewrite (Hdt m). destruct (decide (m = n)); [|tauto]. split; [done|tauto].
Qed.

(** ** Initialisation *)

(** One turn of the loop of [binit]. *)
Lemma binit_step k i n :
  is_node k (BBuf i) → is_node k (nx k BHead) →
  ∃ k', binit_loop (S n) i k = binit_loop n (S i) k' ∧
    nx k' = (relink BHead (BBuf i) (nx k) (pv k)).1 ∧
    pv k' = (relink BHead (BBuf i) (nx k) (pv k)).2 ∧
    payload <$> bufs k' = payload <$> bufs k ∧
    k' = k <|bufs := bufs k'|> <|bhead_prev := bhead_prev k'|> <|bhead_next := bhead_next k'|>
           <|locks ::= <[LSleep (SlBuf i):=MkSpinlock false "sleep lock" None]>|>
           <|sleeplocks ::= <[SlBuf i:=MkSleeplock false 0]>|>.
Proof.
  intros Hi Hn. unfold relink. cbn [fst snd binit_loop]. rewrite bind_assoc, bind_gets.
  destruct (set_next_ok k (BBuf i) (bhead_next k)) as (k1 & E1 & N1 & P1 & F1); [done|].
  rewrite (bind_Ret _ _ _ _ _ E1).
  destruct (set_prev_ok k1 (BBuf i) BHead) as (k2 & E2 & P2 & N2 & F2); [by eapply is_node_frame|].
  rewrite (bind_Ret _ _ _ _ _ E2). unfold initsleeplock, initlock, set_lock.
  rewrite bind_assoc, bind_modify, bind_modify, bind_assoc, bind_gets. set (k3 := k2 <|locks ::= _|> <|sleeplocks ::= _|>).
  assert (bhead_next k2 = <[BBuf i:=bhead_next k]> (nx k) BHead) as Eh.
  { change (bhead_next k2) with (nx k2 BHead). by rewrite N2, N1. }
  assert (bhead_next k2 = bhead_next k) as Eh' by (by rewrite Eh, fn_lookup_insert_ne).
  change (bhead_next k3) with (bhead_next k2).
  destruct (set_prev_ok k3 (bhead_next k2) (BBuf i)) as (k4 & E4 & P4 & N4 & F4).
  { rewrite Eh'. apply (is_node_len k2 k3); [done|]. by do 2 (eapply is_node_frame; [done|]). }
  rewrite (bind_Ret _ _ _ _ _ E4), bind_modify. cbv beta.
  destruct (set_next_ok k4 BHead (BBuf i)) as (k5 & E5 & N5 & P5 & F5); [done|].
  exists k5. split; [by injection E5 as <-|].
  change (nx k3) with (nx k2) in N4. change (pv k3) with (pv k2) in P4.
  rewrite N5, N4, N2, N1, P5, P4, P2, P1, Eh. split_and!; [done..| |].
  - rewrite (proj2 F5), (proj2 F4). change (bufs k3) with (bufs k2). by rewrite (proj2 F2), (proj2 F1).
  - destruct F5 as [-> _], F4 as [-> _]. unfold k3. destruct F2 as [-> _], F1 as [-> _]. kext.
Qed.

(** The state of [binit_loop] when buffers [0] to [i - 1] are linked. *)
Lemma binit_loop_ok n k i :
  ring (nx k) (pv k) BHead (BBuf <$> reverse (seq 0 i)) → (i + n = length (bufs k))%nat →
  ∃ k', binit_loop n i k = Ret tt k' ∧
    ring (nx k') (pv k') BHead (BBuf <$> reverse (seq 0 (i + n))) ∧
    payload <$> bufs k' = payload <$> bufs k ∧
    (∀ j, (i <= j < i + n)%nat → sleeplocks k' !! SlBuf j = Some (MkSleeplock false 0) ∧
       lock_free k' (LSleep (SlBuf j))) ∧
    (∀ j, ¬ (i <= j < i + n)%nat → sleeplocks k' !! SlBuf j = sleeplocks k !! SlBuf j) ∧
    (∀ x, (∀ j, (i <= j < i + n)%nat → x ≠ LSleep (SlBuf j)) → locks k' !! x = locks k !! x) ∧
    k' = k <|bufs := bufs k'|> <|bhead_prev := bhead_prev k'|> <|bhead_next := bhead_next k'|>
           <|locks := locks k'|> <|sleeplocks := sleeplocks k'|>.
Proof.
  revert k i. induction n as [|n IH]; intros k i Hr Hn.
  { exists k. rewrite Nat.add_0_r. split_and!; try done; [lia|kext]. }
  destruct (binit_step k i n) as (k1 & E1 & N1 & P1 & B1 & Ek1).
  { cbn. lia. }
  { destruct (ring_next _ _ _ _ BHead Hr ltac:(by left)) as [Hx _].
    destruct (nx k BHead) as [|j]; [done|]. apply elem_of_cons in Hx as [|Hx]; [done|].
    apply list_elem_of_fmap in Hx as (j' & [= <-] & Hj).
    apply elem_of_reverse, elem_of_seq in Hj. cbn. lia. }
  assert (length (bufs k1) = length (bufs k)) as Hl1.
  { apply (f_equal length) in B1. by rewrite !length_fmap in B1. }
  destruct (IH k1 (S i)) as (k' & E' & Hr' & B' & S' & O' & L' & Ek').
  { rewrite N1, P1, seq_S, reverse_snoc, fmap_cons. apply (ring_relink (nx k) (pv k)); [done|].
    intros [|Hx]%elem_of_cons; [done|]. apply list_elem_of_fmap in Hx as (j & [= <-] & Hj).
    apply elem_of_reverse, elem_of_seq in Hj. lia. }
  { lia. }
  exists k'. replace (i + S n)%nat with (S i + n)%nat by lia. split_and!; try done.
  - by rewrite E1.
  - congruence.
  - intros j Hj. destruct (decide (j = i)) as [->|Hne]; [|apply S'; lia]. split.
    + rewrite O' by lia. rewrite Ek1. rsimpl. apply lookup_insert_eq.
    + exists "sleep lock". rewrite L' by (intros j Hj'; intros [= ->]; lia). rewrite Ek1. rsimpl.
      apply lookup_insert_eq.
  - intros j Hj. rewrite O' by lia. rewrite Ek1. rsimpl. rewrite lookup_insert_ne; [done|].
    intros [= ->]. lia.
  - intros x Hx. rewrite L' by (intros j Hj'; apply Hx; lia). rewrite Ek1. rsimpl.
    rewrite lookup_insert_ne; [done|]. apply not_eq_sym, Hx. lia.
  - rewrite Ek', Ek1. kext.
Qed.

(** Nothing waits to be written. *)
Definition clean (k : kernel) : Prop :=
  ∀ i b, bufs k !! i = Some b → b_flags b ≠ Z.lor B_VALID B_DIRTY.

(** The buffers before [binit]: unused. *)
Definition unused_buf (b : buf) : Prop := b_flags b = 0 ∧ b_refcnt b = 0 ∧ b_dev b = 0.

Lemma binit_ok k pid :
  length (bufs k) = NBUF → Forall unused_buf (bufs k) → is_Some (locks k !! LPtable) →
  ∃ k', binit k = Ret tt k' ∧ cache_ok k' pid ∅ (reverse (seq 0 NBUF)) ∧
    (∀ n, content k' n = Memide.block k n) ∧ clean k' ∧
    (∀ i, (i < NBUF)%nat → lock_free k' (LSleep (SlBuf i))) ∧
    (∀ x, (∀ j, (j < NBUF)%nat → x ≠ LSleep (SlBuf j)) → x ≠ LBcache → locks k' !! x = locks k !! x) ∧
    lock_free k' LBcache ∧
    k' = k <|bufs := bufs k'|> <|bhead_prev := bhead_prev k'|> <|bhead_next := bhead_next k'|>
           <|locks := locks k'|> <|sleeplocks := sleeplocks k'|>.
Proof.
  intros Hl Hu Hp. unfold binit, initlock, set_lock. rewrite !bind_modify. cbv beta.
  set (k0 := k <|locks ::= _|> <|bhead_prev := _|> <|bhead_next := _|>).
  destruct (binit_loop_ok NBUF k0 0) as (k' & E & Hr & Hb & Hs & _ & Hx & Ek); [|done|].
  { split; [|by cbn]. apply NoDup_singleton. }
  assert (∀ i b', bufs k' !! i = Some b' → unused_buf b') as Hall.
  { intros i b' Hi. apply (f_equal (lookup i)) in Hb. rewrite !list_lookup_fmap, Hi in Hb.
    change (bufs k0) with (bufs k) in Hb. destruct (bufs k !! i) as [b|] eqn:Hbi; [|done].
    apply (inj Some) in Hb. rewrite Forall_lookup in Hu. destruct (Hu i b Hbi) as (H1 & H2 & H3).
    pose proof (f_equal b_flags Hb) as Ef. pose proof (f_equal b_refcnt Hb) as Er.
    pose proof (f_equal b_dev Hb) as Ed. change (b_flags b' = b_flags b) in Ef.
    change (b_refcnt b' = b_refcnt b) in Er. change (b_dev b' = b_dev b) in Ed.
    split_and!; congruence. }
  assert (length (bufs k') = NBUF) as Hl'.
  { apply (f_equal length) in Hb. rewrite !length_fmap in Hb. by rewrite Hb. }
  assert (∀ i b' n, bufs k' !! i = Some b' → ¬ caches n b') as Hnc.
  { intros i b' n Hi [Hd _]. destruct (Hall i b' Hi) as (_ & _ & Hz). congruence. }
  assert (∀ x, (∀ j, (j < NBUF)%nat → x ≠ LSleep (SlBuf j)) → x ≠ LBcache →
    locks k' !! x = locks k !! x) as Hlk.
  { intros x Hx1 Hx2. rewrite Hx by (intros j Hj; apply Hx1; lia). unfold k0. rsimpl. by rewrite lookup_insert_ne. }
  assert (lock_free k' LBcache) as Hbc.
  { exists "bcache". rewrite Hx by done. unfold k0. rsimpl. apply lookup_insert_eq. }
  exists k'. split_and!; try done.
  - split; try done.
    + split; [done|]. intros i. rewrite elem_of_reverse, elem_of_seq, Hl'. lia.
    + intros i b' Hi. by destruct (Hall i b' Hi) as (_ & -> & _).
    + intros i Hi. destruct (Hs i) as [-> _]; [lia|done].
    + split_and!; [destruct Hbc as [? ->]; by eexists|by rewrite Hlk|].
      intros i Hi. destruct (Hs i) as [_ [? ->]]; [lia|by eexists].
    + intros i j b b' n Hi Hj Hc. by destruct (Hnc i b n).
    + intros i b' Hi. left. split; [apply (Hall i b' Hi)|apply not_elem_of_empty].
    + intros i b' n Hi Hc. by destruct (Hnc i b' n).
    + intros i b' n Hi Hc. by destruct (Hnc i b' n).
    + intros i b' Hi Hf. by destruct (Hall i b' Hi) as (Hz & _); rewrite Hz in Hf.
  - intros n. rewrite content_block by (intros i b' Hi Hc; by destruct (Hnc i b' n)). by rewrite Ek.
  - intros i b' Hi. by destruct (Hall i b' Hi) as (-> & _ & _).
  - intros i Hi. apply Hs. lia.
Qed.

(** ** Properties *)

(** Reading and writing whole blocks through the cache. *)
Inductive block_op : Type := Get (n : Z) | Put (n : Z) (d : list Z).

Definition op_block (o : block_op) : Z := match o with Get n => n | Put n _ => n end.

Section block_ops.
Context (T : Turns) (D : Driver).

Definition run_op (o : block_op) : M kernel (list Z) :=
  let! i := bread 1 (op_block o) in
  match o with
  | Get _ => let! b := get_buf i in brelse i;;; ret (b_data b)
  | Put _ d => upd_buf i (λ b, b <|b_data := d|>);;; bwrite i;;; brelse i;;; ret d
  end.

Fixpoint run_ops (os : list block_op) : M kernel (list (list Z)) :=
  match os with
  | [] => ret []
  | o :: os => let! r := run_op o in let! rs := run_ops os in ret (r :: rs)
  end.
End block_ops.

(** The same calls on an array of blocks. *)
Fixpoint spec_ops (store : Z → list Z) (os : list block_op) : list (list Z) * (Z → list Z) :=
  match os with
  | [] => ([], store)
  | Get n :: os => let r := spec_ops store os in (store n :: r.1, r.2)
  | Put n d :: os => let r := spec_ops (<[n:=d]> store) os in (d :: r.1, r.2)
  end.

Lemma clean_room k pid l n : cache_ok k pid ∅ l → clean k → room k ∅ n.
Proof.
  intros C Hc. pose proof (bc_len _ _ _ _ C) as Hl.
  destruct (lookup_lt_is_Some_2 (bufs k) 0) as [b Hb]; [rewrite Hl; unfold NBUF; lia|].
  exists 0%nat, b. split_and!; [done|set_solver|]. right. by eapply Hc.
Qed.

Lemma clean_same k k' : same_blocks k k' → clean k → clean k'.
Proof.
  intros Hs Hc i b' Hb'. destruct (same_blocks_lookup_r _ _ _ _ Hs Hb') as (b & Hb & (_ & _ & -> & _)).
  by eapply Hc.
Qed.

Lemma run_op_ok (T : Turns) (D : Driver) `{!DriverLaws D} k pid l o :
  quiet k pid → cache_ok k pid ∅ l → clean k → (0 < T)%nat → 0 <= op_block o < u32 (disksize k) →
  ∃ k' l' obs, runs (run_op T D o k) obs (match o with Get n => content k n | Put _ d => d end) k' ∧
    quiet k' pid ∧ cache_ok k' pid ∅ l' ∧ clean k' ∧ disksize k' = disksize k ∧
    (∀ m, content k' m = match o with Get _ => content k m
                         | Put n d => if decide (m = n) then d else content k m end).
Proof.
  intros Hq C Hcl HT Hn. set (n := op_block o) in *.
  destruct (bread_ok T D k pid ∅ l n Hq C) as
    (i & b & k1 & obs & E1 & _ & Q1 & F1 & _ & C1 & Hb & Hcb & Hd & Hct & Hdt & _ & Hoj);
    [by eapply clean_room|done..| |].
  { intros i b Hi. by apply not_elem_of_empty in Hi. }
  assert (quiet k1 pid) as Hq1 by by eapply calmly_quiet.
  assert (i < NBUF)%nat as Hi by (rewrite <- (bc_len _ _ _ _ C1); by eapply lookup_lt_Some).
  assert (clean k1) as Hcl1.
  { intros j x Hj Hf. destruct (decide (j = i)) as [->|Hne].
    - simplify_eq. destruct (proj1 (Hdt n)) as (j & y & Hy & _ & Hfy); [by exists i, b|]. by eapply Hcl.
    - rewrite Hoj in Hj by done. by eapply Hcl. }
  assert (({[i]} ∪ ∅ : gset nat) ∖ {[i]} = ∅) as EH by set_solver.
  assert (i ∈ ({[i]} ∪ ∅ : gset nat)) as HiH by set_solver.
  assert (disksize k1 = disksize k) as Hz1 by (by rewrite (proj1 F1)).
  unfold run_op. fold n. destruct o as [n'|n' d]; subst n; cbn [op_block] in *.
  - destruct (brelse_ok k1 pid ({[i]} ∪ ∅) l i) as (k2 & l1 & l2 & E2 & Q2 & F2 & _ & C2 & S2); [done..|].
    rewrite EH in C2. exists k2, (i :: l1 ++ l2), obs. split_and!; try done.
    + eapply runs_bind_ret; [exact E1|]. erewrite bind_Ret by (by apply get_buf_Ret).
      by rewrite (bind_Ret _ _ _ _ _ E2), Hd.
    + by eapply calmly_quiet.
    + by eapply clean_same.
    + by rewrite (proj1 F2).
    + intros m. by rewrite (proj1 (same_blocks_view _ _ S2)), Hct.
  - destruct (bwrite_ok D k1 pid ({[i]} ∪ ∅) l i b n' d) as
      (k2 & obs2 & E2 & _ & Q2 & F2 & C2 & _ & Hb2 & Hct2 & _); [done..|].
    destruct (brelse_ok k2 pid ({[i]} ∪ ∅) l i) as (k3 & l1 & l2 & E3 & Q3 & F3 & _ & C3 & S3);
      [by eapply calmly_quiet|done..|]. rewrite EH in C3.
    exists k3, (i :: l1 ++ l2), (obs ++ obs2). split_and!; try done.
    + eapply runs_bind; [exact E1|]. eapply runs_bind_Ret; [by eapply upd_buf_Ret|].
      eapply runs_bind_ret; [exact E2|]. by rewrite (bind_Ret _ _ _ _ _ E3).
    + do 2 (eapply calmly_quiet; [done|]). done.
    + eapply clean_same; [exact S3|]. intros j x. rewrite Hb2.
      rewrite list_insert_lookup by (by eapply lookup_lt_Some).
      destruct (decide (i = j)); [by intros [= <-]|]. apply Hcl1.
    + by rewrite (proj1 F3), (proj1 F2).
    + intros m. rewrite (proj1 (same_blocks_view _ _ S3)), Hct2, Hct. done.
Qed.

(** C6: The buffer cache over any driver that keeps the laws is a plain array
    of blocks: any sequence of reads and writes of blocks through [bread],
    [bwrite] and [brelse], each releasing its buffer, returns exactly what the
    array returns, however the thirty buffers are recycled on the way, and at
    the end the cache is again a well-formed list of all buffers in which no
    block is cached twice. *)
Theorem bcache_refines (T : Turns) (D : Driver) (k : kernel) (pid : Z) (l : list nat)
  (os : list block_op) :
  DriverLaws D → quiet k pid → cache_ok k pid ∅ l → clean k → (0 < T)%nat →
  Forall (λ o, 0 <= op_block o < u32 (disksize k)) os →
  ∃ k' l' obs, runs (run_ops T D os k) obs (spec_ops (content k) os).1 k' ∧
    quiet k' pid ∧ cache_ok k' pid ∅ l' ∧ ∀ n, content k' n = (spec_ops (content k) os).2 n.
Proof.
  intros DL Hq C Hcl HT Ho. remember (content k) as store eqn:Es.
  assert (∀ n, content k n = store n) as Hst by (by rewrite Es). clear Es.
  revert k l store Hq C Hcl Hst Ho. induction os as [|o os IH]; intros k l store Hq C Hcl Hst Ho.
  { exists k, l, []. split_and!; try done. constructor. }
  apply Forall_cons in Ho as [Ho1 Ho2]. cbn [run_ops].
  destruct (run_op_ok T D k pid l o) as (k1 & l1 & obs1 & E1 & Q1 & C1 & Hcl1 & Hz & Hct); [done..|].
  destruct (IH k1 l1 (match o with Get _ => store | Put n d => <[n:=d]> store end)) as
    (k2 & l2 & obs2 & E2 & Q2 & C2 & Hct2); try done.
  { intros m. rewrite Hct. destruct o as [n|n d]; [done|]. destruct (decide (m = n)) as [->|].
    - by rewrite fn_lookup_insert.
    - by rewrite fn_lookup_insert_ne. }
  { by rewrite Hz. }
  exists k2, l2, (obs1 ++ obs2). split_and!; try done; [|by destruct o].
  eapply runs_bind; [exact E1|]. eapply runs_bind_ret; [exact E2|]. destruct o as [n|n d]; by rewrite ?Hst.
Qed.

(** C38: [binit] on the zeroed buffers of a booting kernel links all of them
    into the list, each once, with their sleep locks free: the cache is well
    formed, holds no block, and shows the content of the disk. *)
Theorem binit_correct (k : kernel) (pid : Z) :
  length (bufs k) = NBUF → Forall unused_buf (bufs k) → is_Some (locks k !! LPtable) →
  ∃ k', binit k = Ret tt k' ∧ cache_ok k' pid ∅ (reverse (seq 0 NBUF)) ∧ clean k' ∧
    ∀ n, content k' n = Memide.block k n.
Proof.
  intros H1 H2 H3. destruct (binit_ok k pid H1 H2 H3) as (k' & E & C & Hct & Hcl & _).
  exists k'. by split_and!.
Qed.

(** ** Witnesses *)

(** The process of [demo] on a machine with a disk of a thousand zero
    blocks. *)
Definition demo_disk : kernel := demo <|disksize := 1000|>.

Lemma demo_disk_unused : Forall unused_buf (bufs demo_disk).
Proof. change (bufs demo_disk) with (replicate NBUF zero_buf). by apply Forall_replicate. Qed.

Lemma binit_correct_witness :
  ∃ k', binit demo_disk = Ret tt k' ∧ cache_ok k' 1 ∅ (reverse (seq 0 NBUF)) ∧
    content k' 7 = zero_block.
Proof.
  destruct (binit_correct demo_disk 1 eq_refl demo_disk_unused) as (k' & E & C & _ & Hct).
  { by eexists. }
  exists k'. exact (conj E (conj C (Hct 7))).
Defined.

Lemma demo_locks_free l : is_Some (locks demo !! l) → lock_free demo l.
Proof.
  change (locks demo) with static_locks. intros [lk Hl]. exists EmptyString.
  change (locks demo) with static_locks. apply elem_of_list_to_map_2 in Hl as Hin.
  apply list_elem_of_fmap in Hin as (l' & Heq & _).
  injection Heq as -> ->. exact Hl.
Qed.

(** The spin lock of a buffer, or another lock. *)
Lemma slbuf_lock x :
  (∃ i, (i < NBUF)%nat ∧ x = LSleep (SlBuf i)) ∨ (∀ j, (j < NBUF)%nat → x ≠ LSleep (SlBuf j)).
Proof.
  destruct x as [| | | | | | | | |a|[i|i]]; try (right; intros j _; done).
  destruct (decide (i < NBUF)%nat); [left; by exists i|]. right. intros j Hj [= ->]. done.
Qed.

(** A machine with the disk [d] after [binit]. *)
Lemma demo_cache_on (d : gmap Z (list Z)) :
  ∃ k l, binit (demo_disk <|disk := d|>) = Ret tt k ∧ quiet k 1 ∧ cache_ok k 1 ∅ l ∧ clean k ∧ disksize k = 1000 ∧
    (∀ n, content k n = default zero_block (d !! n)) ∧ disk k = d ∧
    (∀ x, (∀ j, x ≠ LSleep (SlBuf j)) → x ≠ LBcache → locks k !! x = static_locks !! x).
Proof.
  assert (length (bufs (demo_disk <|disk := d|>)) = NBUF) as Hlen.
  { change (bufs (demo_disk <|disk := d|>)) with (bufs demo_disk). reflexivity. }
  destruct (binit_ok (demo_disk <|disk := d|>) 1 Hlen demo_disk_unused) as
    (k & E & C & Hct & Hcl & Hls & Hlk & Hbc & Ek).
  { change (is_Some (locks demo_disk !! LPtable)). by eexists. }
  exists k, (reverse (seq 0 NBUF)). refine (conj E _). split; [split; [|split]|].
  - exists (MkCpu 0 0 0 false (Some (PT 0))). rewrite Ek. by repeat split.
  - by rewrite Ek.
  - intros x Hx. destruct (decide (x = LBcache)) as [->|Hne]; [done|].
    destruct (slbuf_lock x) as [(i & Hi & ->)|Hno]; [by apply Hls|].
    unfold lock_free. rewrite Hlk in * by done. by apply demo_locks_free.
  - refine (conj C (conj Hcl (conj _ (conj _ (conj _ _))))); [by rewrite Ek|exact Hct|by rewrite Ek|].
    intros x H1 H2. rewrite Hlk; [done|by intros j _|done].
Qed.

Lemma bcache_refines_witness :
  ∃ k k' obs, runs (run_ops 1%nat memide_driver [Put 5 [1]; Get 5; Get 6; Put 6 [2]; Get 5] k) obs
    [[1]; [1]; zero_block; [2]; [1]] k' ∧ content k' 6 = [2].
Proof.
  destruct (demo_cache_on ∅) as (k & l & _ & Hq & C & Hcl & Hz & Hct & _).
  destruct (bcache_refines 1%nat memide_driver k 1 l [Put 5 [1]; Get 5; Get 6; Put 6 [2]; Get 5]
    memide_laws Hq C Hcl) as
    (k' & l' & obs & E & _ & _ & Hc); [lia|by rewrite Hz; repeat constructor|].
  cbn [spec_ops fst snd] in E, Hc. exists k, k', obs. split; [|exact (Hc 6)].
  rewrite fn_lookup_insert in E. rewrite fn_lookup_insert_ne in E by done. rewrite (Hct 6) in E.
  exact E.
Defined.
