(* ===== verification/Ide.v ===== *)
(** The IDE disk driver [ide.c].

    The state is the kernel with the variables of the driver and the disk.
    Kernel code runs in the kernel ([lift]), accesses run against the disk
    ([hrun]).  [spins] bounds the loops that wait for the disk, and [Turns] the
    loop in which a process waits for its request. *)

From stdpp Require Import base gmap strings list.
From Stdlib Require Import ZArith Lia FunctionalExtensionality.
From S2P Require Import Prelude Effects Heap Ring CString Mmu State Disk Spinlock Kalloc Vm Kbd Ata Apic Proc Sleeplock Bio.
#[local] Open Scope Z_scope.

(** ** State *)

(** [qnext] is the member of every buffer. *)
Record ide (H : Type) := MkIde {
  ik : kernel; idequeue : option nat; qnext : list (option nat); havedisk1 : bool; hw : H
}.
Arguments MkIde {H}.
Arguments ik {H}.
Arguments idequeue {H}.
Arguments qnext {H}.
Arguments havedisk1 {H}.
Arguments hw {H}.

#[global] Instance eta_ide {H} : Eta (ide H) := λ s, MkIde (ik s) (idequeue s) (qnext s) (havedisk1 s) (hw s).

Section code.
Context {H : Type} (answer : hwop → H → hwreply * H) `{Turns} (spins : nat).

Fixpoint olift {A} (s : ide H) (o : outcome kernel A) : outcome (ide H) A :=
  match o with
  | Ret a k => Ret a (s <|ik := k|>)
  | Panic msg => Panic msg
  | Suspend k c => Suspend (s <|ik := k|>) (λ s', olift s' (c (ik s')))
  | Spin => Spin
  | Loop => Loop
  | Fault => Fault
  end.

Definition lift {A} (m : M kernel A) : M (ide H) A := λ s, olift s (m (ik s)).

Definition hrun {A} (p : hprog A) : M (ide H) A := λ s,
  match prun answer p (hw s) with Some (a, h) => Ret a (s <|hw := h|>) | None => Loop end.

Definition get_qnext (i : nat) : M (ide H) (option nat) := λ s, get_some (qnext s !! i) s.
Definition set_qnext (i : nat) (n : option nat) : M (ide H) unit := modify (λ s, s <|qnext ::= <[i:=n]>|>).

(** ** The code *)

Definition SECTOR_SIZE : Z := 512.
Definition IDE_BSY : Z := 0x80.
Definition IDE_DRDY : Z := 0x40.
Definition IDE_DF : Z := 0x20.
Definition IDE_ERR : Z := 0x01.
Definition IDE_CMD_READ : Z := 0x20.
Definition IDE_CMD_WRITE : Z := 0x30.
Definition IDE_CMD_RDMUL : Z := 0xc4.
Definition IDE_CMD_WRMUL : Z := 0xc5.

(** The loop is [Ata.poll]: its mask is [IDE_BSY|IDE_DRDY]. *)
Definition idewait (checkerr : bool) : hprog Z :=
  let* r := poll spins in
  if checkerr && negb (Z.land r (Z.lor IDE_DF IDE_ERR) =? 0) then PRet (-1) else PRet 0.

(** Whether disk 1 is there. *)
Fixpoint probe (n : nat) : hprog bool :=
  match n with
  | O => PRet false
  | S n =>
      let* r := inb 0x1f7 in
      if negb (r =? 0) then PRet true else probe n
  end.

Definition ideinit : M (ide H) unit :=
  lift (initlock LIde "ide");;;
  (let! n := lift (gets (λ k, Z.of_nat (length (cpus k)))) in hrun (ioapicenable IRQ_IDE (n - 1)));;;
  hrun (idewait false;;* PRet tt);;;
  hrun (outb 0x1f6 (Z.lor 0xe0 (Z.shiftl 1 4)));;;
  (let! p := hrun (probe 1000) in when p do modify (λ s, s <|havedisk1 := true|>));;;
  hrun (outb 0x1f6 (Z.lor 0xe0 (Z.shiftl 0 4))).

(** The accesses of [idestart] for a buffer. *)
Definition start_accesses (b : buf) : hprog unit :=
  let sector_per_block := BSIZE / SECTOR_SIZE in
  let sector := i32 (b_blockno b * sector_per_block) in
  let read_cmd := if sector_per_block =? 1 then IDE_CMD_READ else IDE_CMD_RDMUL in
  let write_cmd := if sector_per_block =? 1 then IDE_CMD_WRITE else IDE_CMD_WRMUL in
  idewait false;;*
  outb 0x3f6 0;;*
  outb 0x1f2 sector_per_block;;*
  outb 0x1f3 (Z.land sector 0xff);;*
  outb 0x1f4 (Z.land (Z.shiftr sector 8) 0xff);;*
  outb 0x1f5 (Z.land (Z.shiftr sector 16) 0xff);;*
  outb 0x1f6 (Z.lor (Z.lor 0xe0 (Z.shiftl (Z.land (b_dev b) 1) 4)) (Z.land (Z.shiftr sector 24) 0x0f));;*
  if bflag b B_DIRTY then
    outb 0x1f7 write_cmd;;*
    outsl 0x1f0 (b_data b)
  else outb 0x1f7 read_cmd.

Definition idestart (b : option nat) : M (ide H) unit :=
  match b with
  | None => panic "idestart"
  | Some i =>
      let! b := lift (get_buf i) in
      if FSSIZE <=? b_blockno b then panic "incorrect blockno" else
      if 7 <? BSIZE / SECTOR_SIZE then panic "idestart" else
      hrun (start_accesses b)
  end.

Definition ideintr : M (ide H) unit :=
  lift (acquire LIde);;;
  let! q := gets idequeue in
  match q with
  | None => lift (release LIde)
  | Some i =>
      (let! n := get_qnext i in modify (λ s, s <|idequeue := n|>));;;
      let! b := lift (get_buf i) in
      (if negb (bflag b B_DIRTY) then
         let! r := hrun (idewait true) in
         when 0 <=? r do
           let! d := hrun (insl 0x1f0 (Z.to_nat (BSIZE / 4))) in
           lift (upd_buf i (λ b, b <|b_data := d|>))
       else ret tt);;;
      lift (upd_buf i (λ b, b <|b_flags := Z.lor (b_flags b) B_VALID|>));;;
      lift (upd_buf i (λ b, b <|b_flags := Z.land (b_flags b) (Z.lnot B_DIRTY)|>));;;
      lift (wakeup (ChBuf i));;;
      (let! q := gets idequeue in
       match q with Some _ => idestart q | None => ret tt end);;;
      lift (release LIde)
  end.

(** The loop to the end of the queue from buffer [j]. *)
Fixpoint append (fuel : nat) (j i : nat) : M (ide H) unit :=
  match fuel with
  | O => λ _, Loop
  | S fuel =>
      let! n := get_qnext j in
      match n with
      | None => set_qnext j (Some i)
      | Some j => append fuel j i
      end
  end.

(** A request that is not finished. *)
Definition unfinished (i : nat) : M kernel bool :=
  let! b := get_buf i in
  ret (negb (Z.land (b_flags b) (Z.lor B_VALID B_DIRTY) =? B_VALID)).

Definition iderw (i : nat) : M (ide H) unit :=
  let! h := lift (holdingsleep (SlBuf i)) in
  if negb h then panic "iderw: buf not locked" else
  let! b := lift (get_buf i) in
  if Z.land (b_flags b) (Z.lor B_VALID B_DIRTY) =? B_VALID then panic "iderw: nothing to do" else
  let! d1 := gets havedisk1 in
  if negb (b_dev b =? 0) && negb d1 then panic "iderw: ide disk 1 not present" else
  lift (acquire LIde);;;
  set_qnext i None;;;
  (let! q := gets idequeue in
   match q with
   | None => modify (λ s, s <|idequeue := Some i|>)
   | Some j => append NBUF j i
   end);;;
  (let! q := gets idequeue in
   when bool_decide (q = Some i) do idestart (Some i));;;
  lift (await turns (unfinished i) (ChBuf i) LIde);;;
  lift (release LIde).
End code.

(** ** Specification *)

(** The chain of [qnext] from a pointer. *)
Fixpoint chain (qn : list (option nat)) (q : option nat) (l : list nat) : Prop :=
  match l with
  | [] => q = None
  | i :: l => q = Some i ∧ ∃ n, qn !! i = Some n ∧ chain qn n l
  end.

(** A request: a buffer to be read, or to be written. *)
Definition request (b : buf) : Prop :=
  (b_flags b = 0 ∨ b_flags b = Z.lor B_VALID B_DIRTY) ∧ 0 <= b_blockno b < FSSIZE ∧ length (b_data b) = 512%nat.

(** Where the block of a buffer is on the disk. *)
Definition place (b : buf) : Z * Z := (b_dev b mod 2, b_blockno b).

(** The disk works on the request of [b]: its block is selected; if the buffer
    is not dirty, a read is in progress; if it is, the disk has its data. *)
Definition working (v : ata) (b : buf) : Prop :=
  (drive v, lba v) = place b ∧
  (bflag b B_DIRTY = false → a_cmd v = Some CMD_READ ∧ a_failed v = bool_decide (place b ∈ a_bad v)) ∧
  (bflag b B_DIRTY = true → place b ∉ a_bad v → a_sectors v !! place b = Some (b_data b)).

(** The buffer when its request is done: a block that was read is in it,
    unless it is bad. *)
Definition finished (v : ata) (b : buf) : buf :=
  (if bflag b B_DIRTY || bool_decide (place b ∈ a_bad v) then b
   else b <|b_data := sector v (b_dev b mod 2) (b_blockno b)|>) <|b_flags := B_VALID|>.

(** The sectors when the disk has taken a request: those of a dirty buffer are
    written, unless they are bad. *)
Definition taken (v : ata) (b : buf) : gmap (Z * Z) (list Z) :=
  if negb (bflag b B_DIRTY) || bool_decide (place b ∈ a_bad v) then a_sectors v
  else <[place b:=b_data b]> (a_sectors v).

(** ** Lemmas *)

Lemma outb_land port v : outb port (Z.land v 0xff) = outb port v.
Proof.
  unfold outb. do 3 f_equal. unfold u8, wrapu. change 0xff with (Z.ones 8). rewrite Z.land_ones by lia. apply Zmod_mod.
Qed.

Lemma flags_dirty b : request b → bflag b B_DIRTY = bool_decide (b_flags b = Z.lor B_VALID B_DIRTY).
Proof. intros [[E|E] _]; unfold bflag; by rewrite E. Qed.

Section hardware.
Context {H : Type} (answer : hwop → H → hwreply * H) `{!Ata answer} `{!PromptWrites answer} (spins : nat) (Hspins : (slow < spins)%nat).

Lemma idewait_run c h :
  ∃ h', prun answer (idewait spins c) h = Some (if c && a_failed (view h) then -1 else 0, h') ∧
    view h' = (view h) <|a_polls := 0%nat|>.
Proof.
  destruct (poll_run answer spins h) as (r & h' & E & Ev & He); [pose proof (ata_bound h); lia|].
  exists h'. split; [|done]. unfold idewait. rewrite (prun_Some _ _ _ _ _ _ E).
  change (Z.lor IDE_DF IDE_ERR) with 0x21. rewrite He. by destruct (c && a_failed (view h)).
Qed.

Lemma start_register b a :
  0 <= a < 1000 →
  u8 (Z.lor (Z.lor 0xe0 (Z.shiftl (Z.land (b_dev b) 1) 4)) (Z.land (Z.shiftr a 24) 0x0f)) = 224 + 16 * (b_dev b mod 2) + a / 2 ^ 24.
Proof.
  intros Ha. rewrite Z.shiftr_div_pow2, Z.div_small by lia. 
  change (Z.land (b_dev b) 1) with (Z.land (b_dev b) (Z.ones 1)). rewrite Z.land_ones by lia. change (2 ^ 1) with 2.
  pose proof (Z.mod_pos_bound (b_dev b) 2 ltac:(lia)). destruct (Z.eq_dec (b_dev b mod 2) 0) as [->|];
    [|replace (b_dev b mod 2) with 1 by lia]; reflexivity.
Qed.

Lemma start_run b h :
  request b →
  ∃ h', prun answer (start_accesses spins b) h = Some (tt, h') ∧ working (view h') b ∧
    a_bad (view h') = a_bad (view h) ∧ a_sectors (view h') = taken (view h) b.
Proof.
  intros Hr. pose proof Hr as (_ & Hb & Hl). unfold FSSIZE in Hb. unfold start_accesses.
  change (BSIZE / SECTOR_SIZE) with 1. rewrite Z.mul_1_r, i32_small by lia. change (1 =? 1) with true. cbn iota.
  destruct (idewait_run false h) as (h1 & R1 & E1). rewrite (prun_Some _ _ _ _ _ _ R1).
  destruct (outb_select answer 0x3f6 0 h1) as (h2 & R2 & E2); [by apply (bool_decide_unpack _)|by rewrite E1|]. rewrite R2, !outb_land.
  destruct (select_run answer (b_dev b mod 2) (b_blockno b) h2
    (Z.lor (Z.lor 0xe0 (Z.shiftl (Z.land (b_dev b) 1) 4)) (Z.land (Z.shiftr (b_blockno b) 24) 0x0f)))
    as (h3 & R3 & E3 & S1 & S2 & S3); [lia|apply Z.mod_pos_bound; lia|by apply start_register|by rewrite E2, E1|]. rewrite R3.
  assert (a_polls (view h3) = 0%nat) as Ep by (by rewrite E3, E2, E1).
  assert (a_bad (view h3) = a_bad (view h)) as Eb by (by rewrite E3, E2, E1).
  assert (a_sectors (view h3) = a_sectors (view h)) as Es by (by rewrite E3, E2, E1).
  unfold working, taken. destruct (bflag b B_DIRTY) eqn:Ed; cbn [negb orb].
  - destruct (ata_command h3 CMD_WRITE) as (n & h4 & R4 & E4); [by right|done|done|].
    destruct (ata_out h4 (b_data b)) as (n' & h5 & R5 & E5); [by rewrite E4|done|by apply (prompt_write h3)|].
    exists h5. split; [erewrite outb_run by exact R4; cbn; by rewrite R5|]. rewrite E5, E4. rsimpl.
    change (drive _) with (drive (view h3)). change (lba _) with (lba (view h3)). rewrite S2, S3, Eb, Es.
    split; [|split; [done|unfold place; by repeat case_bool_decide]]. split; [done|]. split; [done|]. intros _ Hg.
    unfold place in *. rewrite bool_decide_eq_false_2 by done. apply lookup_insert_eq.
  - destruct (ata_command h3 CMD_READ) as (n & h4 & R4 & E4); [by left|done|done|].
    exists h4. split; [unfold outb; rewrite (prun_call _ _ _ _ _ _ R4); done|]. rewrite E4. rsimpl.
    change (drive _) with (drive (view h3)). change (lba _) with (lba (view h3)). rewrite S2, S3, Eb, Es.
    split; [|done]. split; [done|]. split; [done|]. done.
Qed.
End hardware.

Section driver.
Context {H : Type} (answer : hwop → H → hwreply * H) `{!Ata answer} `{!PromptWrites answer} `{Turns} (spins : nat) (Hspins : (slow < spins)%nat).
Implicit Types s : ide H.

Lemma lift_Ret {A} (m : M kernel A) s a k : m (ik s) = Ret a k → lift m s = Ret a (s <|ik := k|>).
Proof. intros E. unfold lift. by rewrite E. Qed.

Lemma lift_read {A} (m : M kernel A) s a : m (ik s) = Ret a (ik s) → lift m s = Ret a s.
Proof. intros E. unfold lift. rewrite E. cbn. f_equal. by destruct s. Qed.

Lemma hrun_Ret {A} (p : hprog A) s a h : prun answer p (hw s) = Some (a, h) → hrun answer p s = Ret a (s <|hw := h|>).
Proof. intros E. unfold hrun. by rewrite E. Qed.

(** The variables of the driver are the same. *)
Definition same_vars s s' : Prop := idequeue s' = idequeue s ∧ qnext s' = qnext s ∧ havedisk1 s' = havedisk1 s.

Lemma idestart_Ret s i b :
  bufs (ik s) !! i = Some b → request b →
  ∃ h, idestart answer spins (Some i) s = Ret tt (s <|hw := h|>) ∧ working (view h) b ∧
    a_bad (view h) = a_bad (view (hw s)) ∧ a_sectors (view h) = taken (view (hw s)) b.
Proof.
  intros Hb Hr. destruct (start_run answer spins Hspins b (hw s) Hr) as (h & E & Hw & Eb & Es). exists h. split; [|done].
  unfold idestart. erewrite bind_Ret by (by apply lift_read, get_buf_Ret).
  destruct Hr as (_ & Hr & _). destruct (Z.leb_spec FSSIZE (b_blockno b)); [lia|]. change (7 <? BSIZE / SECTOR_SIZE) with false.
  cbn iota. by apply hrun_Ret.
Qed.

(** Reading the data of a request that is done. *)
Lemma intr_data s i b :
  bufs (ik s) !! i = Some b → request b → working (view (hw s)) b →
  ∃ s' b',
    (if negb (bflag b B_DIRTY) then
       let! r := hrun answer (idewait spins true) in
       when 0 <=? r do
         let! d := hrun answer (insl 0x1f0 (Z.to_nat (BSIZE / 4))) in
         lift (upd_buf i (λ b, b <|b_data := d|>))
     else ret tt) s = Ret tt s' ∧
    ik s' = (ik s) <|bufs ::= <[i:=b']>|> ∧ same_vars s s' ∧ b_flags b' = b_flags b ∧
    b' <|b_flags := B_VALID|> = finished (view (hw s)) b ∧
    a_sectors (view (hw s')) = a_sectors (view (hw s)) ∧ a_bad (view (hw s')) = a_bad (view (hw s)).
Proof.
  intros Hb Hr (Hp & Hw & _). assert ((ik s) <|bufs ::= <[i:=b]>|> = ik s) as Eid by (kext; by apply list_insert_id).
  unfold finished. destruct (bflag b B_DIRTY) eqn:Ed; cbn [negb orb].
  { exists s, b. rewrite Eid. done. }
  destruct (Hw eq_refl) as [Hc Hf]. destruct (idewait_run answer spins Hspins true (hw s)) as (h1 & R1 & E1).
  cbn [andb] in R1. erewrite bind_Ret by (by apply hrun_Ret). rewrite Hf.
  case_bool_decide as Hbad; cbn [Z.leb Z.compare].
  { exists (s <|hw := h1|>), b. rsimpl. rewrite Eid, E1. done. }
  destruct (ata_in h1) as (n & h2 & R2 & E2); [by rewrite E1|by rewrite E1|rewrite E1; rsimpl; rewrite Hf; by rewrite ?bool_decide_eq_false_2|].
  assert (sector (view h1) (drive (view h1)) (lba (view h1)) = sector (view (hw s)) (b_dev b mod 2) (b_blockno b)) as Es.
  { rewrite E1. unfold sector. change (drive _) with (drive (view (hw s))). change (lba _) with (lba (view (hw s))). rsimpl.
    by rewrite Hp. }
  erewrite bind_Ret.
  2: { apply (hrun_Ret _ (s <|hw := h1|>)). unfold insl. change (Z.to_nat (BSIZE / 4)) with 128%nat. rsimpl.
       rewrite (prun_call _ _ _ _ _ _ R2). reflexivity. }
  cbn [hbytes]. rewrite Es. erewrite lift_Ret by (by apply upd_buf_Ret). rsimpl.
  eexists _, _. split; [reflexivity|]. rsimpl. rewrite E2, E1. done.
Qed.

(** The invariant of the driver: the queue is the list [l] of requests, and the
    disk works on the first. *)
Record driver_ok s (l : list nat) : Prop := {
  dr_chain : chain (qnext s) (idequeue s) l;
  dr_nodup : NoDup l;
  dr_request : ∀ i, i ∈ l → ∃ b, bufs (ik s) !! i = Some b ∧ request b;
  dr_head : ∀ i b, head l = Some i → bufs (ik s) !! i = Some b → working (view (hw s)) b
}.

(** What the disk holds once it has taken the next request. *)
Definition next_taken s (l : list nat) : gmap (Z * Z) (list Z) :=
  match l with
  | [] => a_sectors (view (hw s))
  | j :: _ => match bufs (ik s) !! j with Some b => taken (view (hw s)) b | None => a_sectors (view (hw s)) end
  end.

Lemma taken_ext v v' b : a_sectors v' = a_sectors v → a_bad v' = a_bad v → taken v' b = taken v b.
Proof. intros E1 E2. unfold taken. by rewrite E1, E2. Qed.

(** Starting the next request. *)
Lemma start_next s l :
  chain (qnext s) (idequeue s) l → NoDup l → (∀ i, i ∈ l → ∃ b, bufs (ik s) !! i = Some b ∧ request b) →
  ∃ h, (let! q := gets idequeue in match q with Some _ => idestart answer spins q | None => ret tt end) s =
      Ret tt (s <|hw := h|>) ∧
    driver_ok (s <|hw := h|>) l ∧ a_bad (view h) = a_bad (view (hw s)) ∧ a_sectors (view h) = next_taken s l.
Proof.
  intros Hc Hn Hr. rewrite bind_gets. destruct l as [|j l].
  { cbn in Hc. rewrite Hc. exists (hw s). split; [unfold ret; f_equal; by destruct s|]. split; [|done]. split; done. }
  pose proof Hc as [Eq _]. rewrite Eq. destruct (Hr j) as (b & Hb & Hrb); [by left|].
  destruct (idestart_Ret s j b Hb Hrb) as (h & E & Hw & Eb & Es). exists h. split; [done|]. split.
  - split; [done..|]. intros i b' [= <-] Hb'. rsimpl. by simplify_eq.
  - split; [done|]. cbn. by rewrite Hb.
Qed.

Lemma ideintr_Ret s i l :
  rested (ik s) → lock_free (ik s) LIde → driver_ok s (i :: l) →
  ∃ b s', bufs (ik s) !! i = Some b ∧ request b ∧ ideintr answer spins s = Ret tt s' ∧ driver_ok s' l ∧
    ik s' = leave (ik s) ((enter LIde (ik s)) <|bufs ::= <[i:=finished (view (hw s)) b]>|> <|ptable ::= map (wake (Some (ChBuf i)))|>) ∧
    havedisk1 s' = havedisk1 s ∧ a_bad (view (hw s')) = a_bad (view (hw s)) ∧ a_sectors (view (hw s')) = next_taken s l.
Proof.
  intros [Hrm Hpt] Hli [Hc Hn Hr Hh]. pose proof (roomy_ready _ Hrm) as Hrd. destruct (Hr i) as (b & Hb & Hrb); [by left|]. specialize (Hh i b eq_refl Hb).
  apply NoDup_cons in Hn as [Hni Hn]. destruct Hc as [Eq (n & En & Hc)].
  set (k := ik s) in *. set (k1 := enter LIde k). exists b. unfold ideintr.
  erewrite bind_Ret by (by apply lift_Ret, acquire_enter). fold k k1. rewrite bind_gets. rsimpl. rewrite Eq.
  rewrite bind_assoc. unfold get_qnext. erewrite bind_Ret by (rsimpl; rewrite En; reflexivity). rewrite bind_modify.
  set (s1 := s <|ik := k1|> <|idequeue := n|>).
  erewrite bind_Ret by (by apply lift_read, get_buf_Ret).
  destruct (intr_data s1 i b Hb Hrb Hh) as (s2 & b' & E2 & K2 & (V1 & V2 & V3) & Ef & Efin & Es2 & Eb2).
  rewrite (bind_Ret _ _ _ _ _ E2). change (ik s1) with k1 in K2. change (hw s1) with (hw s) in *.
  assert (bufs k1 !! i = Some b) as Hb1 by done. assert (i < length (bufs k1))%nat as Hlt by (by eapply lookup_lt_Some).
  erewrite bind_Ret by (apply lift_Ret; rewrite K2; apply upd_buf_Ret; rsimpl; by apply list_lookup_insert_eq).
  erewrite bind_Ret by (apply lift_Ret; rsimpl; apply upd_buf_Ret; rsimpl; rewrite list_insert_insert_eq; by apply list_lookup_insert_eq).
  set (s3 := _ <|ik := _|>). set (k2 := k1 <|bufs ::= <[i:=finished (view (hw s)) b]>|>).
  assert (ik s3 = k2) as Ek2.
  { unfold s3. rsimpl. unfold k2. rewrite <- Efin. kext. rewrite !list_insert_insert_eq. f_equal. unfold update. cbn.
    f_equal. rewrite Ef. destruct Hrb as [[-> | ->] _]; reflexivity. }
  assert (hw_same (enter LIde k) k2) as Hs2 by by split_and!.
  assert (holds k2 LIde) as Hh2 by (by eapply holds_same, holds_enter).
  erewrite bind_Ret.
  2: { apply lift_Ret. rewrite Ek2. apply wakeup_Ret; [eapply ready_same; [done|by apply ready_enter]|].
       eapply lock_free_same; [done|by apply lock_free_enter]. }
  rewrite (touch_holds _ LIde) by (eapply holds_same; [|exact Hh2]; by split_and!).
  set (s4 := _ <|ik := _|>).
  assert (∀ j, j ∈ l → bufs (ik s4) !! j = bufs k !! j) as Hbj.
  { intros j Hj. unfold s4, k2. rsimpl. by rewrite list_lookup_insert_ne by (intros ->; done). }
  destruct (start_next s4 l) as (h & E5 & Hok & Eb5 & Es5).
  { change (chain (qnext s2) (idequeue s2) l). by rewrite V1, V2. }
  { done. }
  { intros j Hj. rewrite Hbj by done. apply Hr. by right. }
  rewrite (bind_Ret _ _ _ _ _ E5).
  eexists. split; [done|]. split; [done|]. split.
  { apply lift_Ret. unfold s4. rsimpl. apply (release_leave k); [done..|]. by split_and!. }
  split; [destruct Hok as [O1 O2 O3 O4]; by split|]. split; [done|]. split; [exact V3|].
  split; [rsimpl; by rewrite Eb5, <- Eb2|].
  rsimpl. rewrite Es5. unfold next_taken. destruct l as [|j l]; [exact Es2|]. rewrite Hbj by (by left). fold k.
  destruct (bufs k !! j); [|exact Es2]. by apply taken_ext.
Qed.
End driver.
Arguments same_vars {H} s s'.
Arguments driver_ok {H answer _} s l.
Arguments next_taken {H answer _} s l.
Arguments dr_head {H answer _ s l} _.
Arguments dr_nodup {H answer _ s l} _.
Arguments dr_request {H answer _ s l} _.
Arguments dr_chain {H answer _ s l} _.

(** *** Waiting *)

Lemma olift_obind {H A B} (s : ide H) (o : outcome kernel A) (f : A → M kernel B) :
  olift s (obind o f) = obind (olift s o) (λ a, lift (f a)).
Proof.
  revert s. induction o as [a k|msg|k c IH| | |]; intros s; cbn; try done; [unfold lift; rsimpl; by destruct (f a k)|].
  f_equal. apply functional_extensionality. intros s'. apply IH.
Qed.

Lemma lift_bind {H A B} (m : M kernel A) (f : A → M kernel B) (s : ide H) :
  lift (bind m f) s = (let! a := lift m in lift (f a)) s.
Proof. apply olift_obind. Qed.

(** A call in the kernel that waits, as a call of the driver. *)
Lemma waits_lift {H A} (G : kernel → kernel → Prop) B blocked (Q : kernel → A → kernel → Prop) n (s : ide H) o :
  waits G B blocked Q n (ik s) o →
  waits (λ s s1, G (ik s) (ik s1) ∧ same_vars s s1 ∧ hw s1 = hw s) (λ s, B (ik s)) (λ s, blocked (ik s))
    (λ s a s', Q (ik s) a (ik s') ∧ same_vars s s' ∧ hw s' = hw s) n s (olift s o).
Proof.
  revert s o. induction n as [|n IH]; intros s o; cbn [waits]; [by intros ->|].
  intros (k1 & c & -> & HG & Hc). eexists _, _. split; [reflexivity|]. split; [done|].
  intros s2 HB. specialize (Hc (ik s2) HB). destruct (blocked (ik s2)); [by apply IH|].
  intros Hn. destruct (Hc Hn) as (a & k3 & -> & HQ). exists a, (s2 <|ik := k3|>). done.
Qed.

Section queue.
Context {H : Type}.
Implicit Types s : ide H.

Lemma append_Ret fuel j l i s :
  chain (qnext s) (Some j) (j :: l) → NoDup (j :: l) → i ∉ j :: l → qnext s !! i = Some None → (length l < fuel)%nat →
  ∃ qn, append fuel j i s = Ret tt (s <|qnext := qn|>) ∧ chain qn (Some j) (j :: l ++ [i]) ∧
    ∀ x, x ∉ j :: l → qn !! x = qnext s !! x.
Proof.
  revert fuel j. induction l as [|j2 l IH]; intros [|fuel] j Hc Hn Hi Hx Hf; cbn [length] in Hf; [lia| |lia|];
    destruct Hc as [_ (n & En & Hc)]; cbn [append]; unfold get_qnext;
    (erewrite bind_Ret by (rewrite En; reflexivity)).
  - cbn in Hc. subst n. exists (<[j:=Some i]> (qnext s)). split; [done|].
    assert (i ≠ j) as Hne by (intros ->; apply Hi; by left). split.
    + split; [done|]. exists (Some i). rewrite list_lookup_insert_eq by (by eapply lookup_lt_Some). split; [done|].
      split; [done|]. exists None. by rewrite list_lookup_insert_ne.
    + intros x Hxx. apply not_elem_of_cons in Hxx as [Hxx _]. by rewrite list_lookup_insert_ne.
  - pose proof Hc as [-> _]. apply NoDup_cons in Hn as [Hjn Hn]. apply not_elem_of_cons in Hi as [Hne Hi].
    destruct (IH fuel j2 Hc Hn Hi Hx ltac:(lia)) as (qn & E & Hq & Hfr). exists qn. split; [done|]. split.
    + split; [done|]. exists (Some j2). split; [|done]. rewrite Hfr by done. done.
    + intros x Hxx. apply not_elem_of_cons in Hxx as [_ Hxx]. by apply Hfr.
Qed.

Lemma queue_frame qn qn' q l : (∀ x, x ∈ l → qn' !! x = qn !! x) → chain qn q l → chain qn' q l.
Proof.
  revert q. induction l as [|i l IH]; intros q E Hc; [done|]. destruct Hc as [-> (n & En & Hc)]. split; [done|].
  exists n. split; [rewrite E by (by left); done|]. apply IH; [|done]. intros x Hx. apply E. by right.
Qed.

(** The part of [iderw] that appends the buffer. *)
Lemma enqueue_Ret s i l :
  chain (qnext s) (idequeue s) l → NoDup l → i ∉ l → (i < length (qnext s))%nat → (length l < NBUF)%nat →
  ∃ qn, (set_qnext i None;;;
     (let! q := gets idequeue in
      match q with None => modify (λ s, s <|idequeue := Some i|>) | Some j => append NBUF j i end)) s =
    Ret tt (s <|qnext := qn|> <|idequeue := head (l ++ [i])|>) ∧ chain qn (head (l ++ [i])) (l ++ [i]).
Proof.
  intros Hc Hn Hi Hlt Hl. unfold set_qnext. rewrite bind_modify, bind_gets. rsimpl.
  assert (chain (<[i:=None]> (qnext s)) (idequeue s) l) as Hc'.
  { eapply queue_frame; [|done]. intros x Hx. rewrite list_lookup_insert_ne; [done|]. intros ->. done. }
  destruct l as [|j l].
  - cbn in Hc. rewrite Hc. exists (<[i:=None]> (qnext s)). split; [done|]. cbn. split; [done|]. exists None.
    by rewrite list_lookup_insert_eq.
  - pose proof Hc as [Eq _]. rewrite Eq in *. cbn [head app].
    destruct (append_Ret NBUF j l i (s <|qnext ::= <[i:=None]>|>)) as (qn & E & Hq & _); rsimpl; [done..| |cbn in Hl; lia|].
    { by apply list_lookup_insert_eq. }
    exists qn. split; [|done]. rewrite E. f_equal. destruct s; cbn in *. by rewrite Eq.
Qed.
End queue.

(** *** Serving the queue *)

Section serve.
Context {H : Type} (answer : hwop → H → hwreply * H) `{!Ata answer} `{!PromptWrites answer} (spins : nat) (Hspins : (slow < spins)%nat).
Implicit Types s : ide H.

(** One interrupt after the other. *)
Fixpoint interrupts (n : nat) : M (ide H) unit :=
  match n with
  | O => ret tt
  | S n => ideintr answer spins;;; interrupts n
  end.

(** The buffers of the queue are for different blocks. *)
Definition places_apart s (l : list nat) : Prop :=
  ∀ i j b b', i ∈ l → j ∈ l → i ≠ j → bufs (ik s) !! i = Some b → bufs (ik s) !! j = Some b' → place b ≠ place b'.

(** The request of [b] is done, with [b'] in the buffer: the buffer is valid
    and holds what the disk holds, unless the block is bad; what was written is
    what was in the buffer. *)
Definition served (v : ata) (b b' : buf) : Prop :=
  b_flags b' = B_VALID ∧ place b' = place b ∧ (bflag b B_DIRTY = true → b_data b' = b_data b) ∧
  (place b ∉ a_bad v → b_data b' = sector v (place b).1 (place b).2).

Lemma sector_ext v v' d a : a_sectors v' !! (d, a) = a_sectors v !! (d, a) → sector v' d a = sector v d a.
Proof. intros E. unfold sector. by rewrite E. Qed.

Lemma served_finished v b : working v b → served v b (finished v b).
Proof.
  intros (_ & _ & Hw). unfold served, finished. destruct (bflag b B_DIRTY) eqn:Ed; cbn [orb].
  - split; [done|]. split; [done|]. split; [done|]. intros Hg. unfold sector.
    change ((place b).1, (place b).2) with (place b). rewrite (Hw eq_refl Hg). done.
  - case_bool_decide as Hb; (split; [done|]); (split; [done|]); (split; [done|]); intros Hg; done.
Qed.

Lemma next_taken_other s l pl :
  (∀ j b, j ∈ l → bufs (ik s) !! j = Some b → place b ≠ pl) → next_taken s l !! pl = a_sectors (view (hw s)) !! pl.
Proof.
  intros Hpl. unfold next_taken. destruct l as [|j l]; [done|]. destruct (bufs (ik s) !! j) as [b|] eqn:Eb; [|done].
  unfold taken. destruct (_ || _); [done|]. apply lookup_insert_ne. apply (Hpl j); [by left|done].
Qed.

Lemma interrupts_run l s :
  rested (ik s) → lock_free (ik s) LIde → driver_ok s l → places_apart s l →
  ∃ s', interrupts (length l) s = Ret tt s' ∧ driver_ok s' [] ∧ locks (ik s') = locks (ik s) ∧
    a_bad (view (hw s')) = a_bad (view (hw s)) ∧
    (∀ j, j ∉ l → bufs (ik s') !! j = bufs (ik s) !! j) ∧
    (∀ pl, (∀ j b, j ∈ l → bufs (ik s) !! j = Some b → place b ≠ pl) →
       a_sectors (view (hw s')) !! pl = a_sectors (view (hw s)) !! pl) ∧
    (∀ i, i ∈ l → ∃ b b', bufs (ik s) !! i = Some b ∧ bufs (ik s') !! i = Some b' ∧ served (view (hw s')) b b') ∧
    ptable (ik s') = foldl (λ t i, map (wake (Some (ChBuf i))) t) (ptable (ik s)) l.
Proof.
  revert s. induction l as [|i l IH]; intros s Hc Hli Hok Hpa.
  { exists s. split; [done|]. split; [done|]. split; [done|]. split; [done|]. split; [done|]. split; [done|]. split; [|done].
    intros i []%not_elem_of_nil. }
  destruct (ideintr_Ret answer spins Hspins s i l Hc Hli Hok) as (b & s1 & Hb & Hrb & E1 & Hok1 & K1 & _ & Eb1 & Es1).
  pose proof (dr_head Hok i b eq_refl Hb) as Hw. pose proof (dr_nodup Hok) as [Hni Hn]%NoDup_cons.
  assert (∀ j, j ≠ i → bufs (ik s1) !! j = bufs (ik s) !! j) as Hoj
    by (intros j Hj; rewrite K1; unfold leave; rsimpl; by rewrite list_lookup_insert_ne).
  assert (bufs (ik s1) !! i = Some (finished (view (hw s)) b)) as Hbi
    by (rewrite K1; unfold leave; rsimpl; apply list_lookup_insert_eq; by eapply lookup_lt_Some).
  destruct (IH s1) as (s' & E & Hok' & Hlk & Eb & Hfr & Hsec & Hsv & Hpt).
  { destruct Hc as [Hr Hp]. rewrite K1. split; [by apply ready_leave|done]. }
  { rewrite K1. done. }
  { done. }
  { intros x y bx by' Hx Hy Hne Hbx Hby. rewrite Hoj in Hbx, Hby by (intros ->; done).
    by apply (Hpa x y); [right|right|..]. }
  exists s'. cbn [length interrupts]. rewrite (bind_Ret _ _ _ _ _ E1). split; [done|]. split; [done|].
  split; [by rewrite Hlk, K1|]. split; [by rewrite Eb, Eb1|]. split; [|split; [|split]].
  - intros j [Hj1 Hj2]%not_elem_of_cons. by rewrite Hfr, Hoj.
  - intros pl Hpl. rewrite Hsec, Es1; [apply next_taken_other; intros j bj Hj; apply Hpl; by right|].
    intros j bj Hj Hbj. rewrite Hoj in Hbj by (intros ->; done). apply (Hpl j); [by right|done].
  - intros j [->|Hj]%elem_of_cons.
    + exists b, (finished (view (hw s)) b). split; [done|]. split; [by rewrite Hfr|].
      assert (a_sectors (view (hw s')) !! place b = a_sectors (view (hw s)) !! place b) as Ep.
      { rewrite Hsec, Es1; [apply next_taken_other|]; intros j bj Hj Hbj.
        - apply (Hpa j i); [by right|by left|intros ->; done|done|done].
        - rewrite Hoj in Hbj by (intros ->; done). apply (Hpa j i); [by right|by left|intros ->; done|done|done]. }
      destruct (served_finished _ _ Hw) as (S1 & S2 & S3 & S4). split; [done|]. split; [done|]. split; [done|].
      intros Hg. rewrite S4 by (by rewrite Eb, Eb1 in Hg). unfold place in *. symmetry. by apply sector_ext.
    + destruct (Hsv j Hj) as (bj & bj' & H1 & H2 & H3). exists bj, bj'. rewrite Hoj in H1 by (intros ->; done). done.
  - cbn [foldl]. rewrite Hpt, K1. done.
Qed.
End serve.

(** ** Properties *)

Lemma queue_short (l : list nat) (i n : nat) :
  NoDup l → i ∉ l → (i < n)%nat → Forall (λ j, (j < n)%nat) l → (length l < n)%nat.
Proof.
  intros Hn Hi Hlt Hl. assert (i :: l ⊆+ seq 0 n) as Hs.
  { apply NoDup_submseteq; [by constructor|]. intros x [->|Hx]%elem_of_cons; apply elem_of_seq; [lia|].
    rewrite Forall_forall in Hl. specialize (Hl x Hx). lia. }
  apply submseteq_length in Hs. rewrite length_seq in Hs. cbn in Hs. lia.
Qed.

Lemma unfinished_Ret k i b : bufs k !! i = Some b →
  unfinished i k = Ret (negb (Z.land (b_flags b) (Z.lor B_VALID B_DIRTY) =? B_VALID)) k.
Proof. intros Hb. unfold unfinished. by erewrite bind_Ret by (by apply get_buf_Ret). Qed.

(** Starting the disk if the queue was empty. *)
Lemma start_first {H : Type} (answer : hwop → H → hwreply * H) `{!Ata answer} `{!PromptWrites answer} (spins : nat) (s : ide H) i b l :
  (slow < spins)%nat → chain (qnext s) (idequeue s) (l ++ [i]) → i ∉ l → bufs (ik s) !! i = Some b → request b →
  (∀ j, j ∈ l → ∃ b, bufs (ik s) !! j = Some b ∧ request b) →
  (∀ j b, head l = Some j → bufs (ik s) !! j = Some b → working (view (hw s)) b) → NoDup l →
  ∃ h, (let! q := gets idequeue in when bool_decide (q = Some i) do idestart answer spins (Some i)) s = Ret tt (s <|hw := h|>) ∧
    driver_ok (s <|hw := h|>) (l ++ [i]) ∧
    a_sectors (view h) = (if bool_decide (l = []) then taken (view (hw s)) b else a_sectors (view (hw s))).
Proof.
  intros Hsp Hc Hi Hb Hr Hreq Hhead Hn. rewrite bind_gets.
  assert (NoDup (l ++ [i])) as Hnd.
  { apply NoDup_app. split; [done|]. split; [|apply NoDup_singleton]. intros x Hx ->%list_elem_of_singleton. done. }
  assert (∀ j, j ∈ l ++ [i] → ∃ b, bufs (ik s) !! j = Some b ∧ request b) as Hall.
  { intros j [Hj| ->%list_elem_of_singleton]%elem_of_app; [by apply Hreq|by exists b]. }
  destruct l as [|j l].
  - pose proof Hc as [-> _]. rewrite !bool_decide_eq_true_2 by done.
    destruct (idestart_Ret answer spins Hsp s i b Hb Hr) as (h & E & Hw & _ & Es). exists h. split; [done|]. split; [|done].
    split; [done..|]. intros x bx [= <-] Hbx. rsimpl. by simplify_eq.
  - pose proof Hc as [Eq _]. rewrite Eq, !bool_decide_eq_false_2; [|done|intros [= ->]; apply Hi; by left].
    exists (hw s). split; [unfold ret; f_equal; by destruct s|]. split; [|done]. by split.
Qed.

(** The request of buffer [i] is not finished. *)
Definition pending (i : nat) (k : kernel) : bool :=
  from_option (λ b, negb (Z.land (b_flags b) (Z.lor B_VALID B_DIRTY) =? B_VALID)) false (bufs k !! i).

(** The end of [iderw]: the loop in which the process waits, and the release. *)
Lemma wait_run {H : Type} `{Turns} (s : ide H) i p pid :
  inside p pid LIde (ik s) → is_Some (bufs (ik s) !! i) → pending i (ik s) = true →
  waits (λ s s1, (asleep_on p pid (ChBuf i) LIde (ik s1) ∧ sched_frame (ik s) (ik s1)) ∧ same_vars s s1 ∧ hw s1 = hw s)
    (λ s, given_back p pid LIde (ik s) ∧ is_Some (bufs (ik s) !! i)) (λ s, pending i (ik s))
    (λ s _ s', (running (ik s') p ∧ lock_free (ik s') LIde ∧ sched_frame (ik s) (ik s')) ∧ same_vars s s' ∧ hw s' = hw s)
    turns s ((lift (await turns (unfinished i) (ChBuf i) LIde);;; lift (release LIde)) s).
Proof.
  intros Hi Hb Hp. rewrite <- lift_bind. unfold lift. apply (waits_lift (λ k k1, asleep_on p pid (ChBuf i) LIde k1 ∧ sched_frame k k1)
    (λ k, given_back p pid LIde k ∧ is_Some (bufs k !! i)) (pending i) (λ k _ k', running k' p ∧ lock_free k' LIde ∧ sched_frame k k')).
  apply (await_waits (λ k, is_Some (bufs k !! i))); [done|..|done|apply sched_frame_refl|done|done].
  - intros k [b Eb]. rewrite (unfinished_Ret _ _ _ Eb). unfold pending. by rewrite Eb.
  - intros k k' -> Hx. done.
  - intros k k' _ Hfr Hi' _. destruct (release_inside k' p pid LIde Hi') as (k'' & E & R1 & R2 & R3 & _).
    exists tt, k''. split; [done|]. split; [done|]. split; [done|]. by eapply sched_frame_trans.
Qed.

(** C13: [iderw] of a process that holds the buffer: the request goes to the
    end of the queue, and the disk starts on it at once if the queue was empty
    ([s0]).  Then the process gives up the CPU asleep on the buffer, with the
    lock of the driver free.  When it gets the CPU back, it sleeps again as long
    as the buffer is not valid or is dirty; otherwise the call returns with the
    lock free and everything outside of the scheduler's data as the process
    found it.  The disk is one that may only be accessed when it is not busy. *)
Theorem iderw_correct {H : Type} (answer : hwop → H → hwreply * H) (Hata : Ata answer) (Hprompt : PromptWrites answer)
    (T : Turns) (spins : nat) (s : ide H) (l : list nat) (i : nat) (b : buf) (p : pptr) (pid : Z)
    (Hspins : (slow < spins)%nat)
    (Hrun : running (ik s) p) (Hpid : p_pid <$> lookup_proc (ik s) p = Some pid)
    (Hfree : Forall (lock_free (ik s)) [LSleep (SlBuf i); LIde; LPtable])
    (Hsl : sleeplocks (ik s) !! SlBuf i = Some (MkSleeplock true pid))
    (Hlens : length (qnext s) = NBUF ∧ length (bufs (ik s)) = NBUF)
    (Hb : bufs (ik s) !! i = Some b) (Hreq : request b) (Hdev : b_dev b = 0 ∨ havedisk1 s = true)
    (Hok : driver_ok s l) (Hi : i ∉ l) :
  ∃ s0, driver_ok s0 (l ++ [i]) ∧ sched_frame (ik s) (ik s0) ∧
    a_sectors (view (hw s0)) = (if bool_decide (l = []) then taken (view (hw s)) b else a_sectors (view (hw s))) ∧
    waits (λ s1 s2, (asleep_on p pid (ChBuf i) LIde (ik s2) ∧ sched_frame (ik s1) (ik s2)) ∧ same_vars s1 s2 ∧ hw s2 = hw s1)
      (λ s2, given_back p pid LIde (ik s2) ∧ is_Some (bufs (ik s2) !! i)) (λ s2, pending i (ik s2))
      (λ s2 _ s3, (running (ik s3) p ∧ lock_free (ik s3) LIde ∧ sched_frame (ik s2) (ik s3)) ∧ same_vars s2 s3 ∧ hw s3 = hw s2)
      turns s0 (iderw answer spins i s).
Proof.
  rewrite !Forall_cons in Hfree. destruct Hfree as (Hfs & Hfi & Hfp & _). destruct Hlens as [Hlq Hlb].
  set (k := ik s) in *. pose proof (running_roomy _ _ Hrun) as Hrd0. pose proof (roomy_ready _ Hrd0) as Hrd. pose proof (running_touch _ _ Hrun) as Hrt.
  assert (curpid k = Some pid) as Hcp.
  { destruct Hrun as (c & Hc & _ & Hcp). unfold curpid, curproc. rewrite (proj2 Hc). cbn. by rewrite Hcp. }
  unfold iderw. erewrite bind_Ret by (apply lift_Ret; apply (holdingsleep_Ret k (SlBuf i) (MkSleeplock true pid) pid); done).
  cbn [sl_locked sl_pid andb]. rewrite Z.eqb_refl. cbn [negb].
  erewrite bind_Ret by (by apply lift_read, get_buf_Ret).
  assert (Z.land (b_flags b) (Z.lor B_VALID B_DIRTY) =? B_VALID = false) as Hnv by (by destruct Hreq as [[-> | ->] _]).
  rewrite Hnv, bind_gets. rsimpl.
  assert (negb (b_dev b =? 0) && negb (havedisk1 s) = false) as -> by (destruct Hdev as [-> | ->]; by rewrite ?andb_false_r).
  destruct (acquire_inside (touch k) p pid LIde Hrt Hfi Hfp) as [Ea Hin]; [done|by destruct p|].
  erewrite bind_Ret by (by apply lift_Ret). set (k1 := enter LIde (touch k)) in *. set (s1 := _ <|ik := k1|>).
  assert (i < NBUF)%nat as Hlt by (rewrite <- Hlb; by eapply lookup_lt_Some).
  assert (length l < NBUF)%nat as Hll.
  { apply (queue_short l i); [apply (dr_nodup Hok)|done|done|]. apply Forall_forall. intros j Hj.
    destruct (dr_request Hok j Hj) as (bj & Hbj & _). rewrite <- Hlb. by eapply lookup_lt_Some. }
  destruct (enqueue_Ret s1 i l) as (qn & Eq & Hc); [apply (dr_chain Hok)|apply (dr_nodup Hok)|done|by rewrite <- Hlq in Hlt|done|].
  rewrite <- bind_assoc, (bind_Ret _ _ _ _ _ Eq). set (s2 := s1 <|qnext := qn|> <|idequeue := _|>).
  destruct (start_first answer spins s2 i b l Hspins Hc Hi Hb Hreq (dr_request Hok) (dr_head Hok) (dr_nodup Hok))
    as (h & Es & Hok1 & Esec).
  rewrite (bind_Ret _ _ _ _ _ Es). exists (s2 <|hw := h|>).
  split; [done|]. split; [unfold sched_frame, k1, enter, touch; rsimpl; kext|]. split; [exact Esec|].
  apply wait_run; [done|by exists b|]. unfold pending. change (bufs (ik _)) with (bufs k). rewrite Hb. cbn [from_option]. by rewrite Hnv.
Qed.

(** C14: The interrupts serve the queue: after one for each request, the queue
    is empty, every buffer is valid and holds what the disk holds for its block
    (bad blocks apart), a block that was to be written has the data of its
    buffer, the other buffers and blocks are as before, and nobody sleeps for
    one of the requests any more. *)
Theorem ide_serves {H : Type} (answer : hwop → H → hwreply * H) (Hata : Ata answer) (Hprompt : PromptWrites answer) (spins : nat) (s : ide H) (l : list nat)
    (Hspins : (slow < spins)%nat) (Hcalm : rested (ik s)) (Hfree : lock_free (ik s) LIde) (Hok : driver_ok s l)
    (Hapart : places_apart s l) :
  ∃ s', interrupts answer spins (length l) s = Ret tt s' ∧ driver_ok s' [] ∧
    (∀ i, i ∈ l → ∃ b b', bufs (ik s) !! i = Some b ∧ bufs (ik s') !! i = Some b' ∧ served (view (hw s')) b b') ∧
    (∀ j, j ∉ l → bufs (ik s') !! j = bufs (ik s) !! j) ∧
    (∀ pl, (∀ j b, j ∈ l → bufs (ik s) !! j = Some b → place b ≠ pl) →
       a_sectors (view (hw s')) !! pl = a_sectors (view (hw s)) !! pl) ∧
    (∀ i, i ∈ l → no_sleeper (ChBuf i) (ik s')).
Proof.
  destruct (interrupts_run answer spins Hspins l s) as (s' & E & Hok' & _ & _ & H1 & H2 & H3 & H4); [done..|].
  exists s'. split; [done|]. split; [done|]. split; [done|]. split; [done|]. split; [done|].
  intros i Hi. unfold no_sleeper. rewrite H4. clear -Hi. generalize (ptable (ik s)).
  induction l as [|j l IH]; intros t; [by apply not_elem_of_nil in Hi|]. cbn [foldl].
  apply elem_of_cons in Hi as [->|Hi]; [|by apply IH].
  assert (Forall (λ pr, ¬ (p_state pr = SLEEPING ∧ p_chan pr = Some (ChBuf j))) (map (wake (Some (ChBuf j))) t)) as Hw.
  { apply Forall_forall. intros pr Hpr. apply list_elem_of_fmap in Hpr as (pr' & -> & _). unfold wake.
    case_bool_decide as E; [|done]. by intros [? _]. }
  revert Hw. generalize (map (wake (Some (ChBuf j))) t). clear IH. induction l as [|x l IH]; intros t' Hw; [done|]. cbn [foldl].
  apply IH. apply Forall_fmap. eapply Forall_impl; [exact Hw|]. intros pr Hpr. cbn. unfold wake.
  case_bool_decide; [by intros [? _]|done].
Qed.

(** C37: The interrupt for the read of a bad block marks the buffer valid,
    although the disk reports the error and the buffer still holds the data of
    an earlier block. *)
Theorem ide_read_error {H : Type} (answer : hwop → H → hwreply * H) (Hata : Ata answer) (Hprompt : PromptWrites answer) (spins : nat) (s : ide H)
    (i : nat) (l : list nat) (b : buf)
    (Hspins : (slow < spins)%nat) (Hcalm : rested (ik s)) (Hfree : lock_free (ik s) LIde) (Hok : driver_ok s (i :: l))
    (Hb : bufs (ik s) !! i = Some b) (Hbad : place b ∈ a_bad (view (hw s))) :
  ∃ s', ideintr answer spins s = Ret tt s' ∧ bufs (ik s') !! i = Some (b <|b_flags := B_VALID|>).
Proof.
  destruct (ideintr_Ret answer spins Hspins s i l) as (b' & s' & Hb' & _ & E & _ & K & _); [done..|]. simplify_eq.
  exists s'. split; [done|]. rewrite K. unfold leave. rsimpl. rewrite list_lookup_insert_eq by (by eapply lookup_lt_Some).
  unfold finished. rewrite bool_decide_eq_true_2, orb_true_r by done. done.
Qed.

(** An interrupt that no request is waiting for changes nothing. *)
Theorem ide_spurious {H : Type} (answer : hwop → H → hwreply * H) (spins : nat) (s : ide H)
    (Hready : ready (ik s)) (Hfree : lock_free (ik s) LIde) (Hq : idequeue s = None) :
  ideintr answer spins s = Ret tt (s <|ik := touch (ik s)|>).
Proof.
  unfold ideintr. erewrite bind_Ret by (by apply lift_Ret, acquire_enter). rewrite bind_gets. rsimpl. rewrite Hq.
  erewrite lift_Ret by (rsimpl; by apply (release_leave (ik s))). done.
Qed.

(** ** Witnesses *)

(** Buffer 0 is to be read from block 5, buffer 1 is to be written to block 7,
    buffer 2 is to be read from block 3 by process 1. *)
Definition demo_bufs : list buf :=
  [zero_buf <|b_blockno := 5|>;
   zero_buf <|b_blockno := 7|> <|b_flags := Z.lor B_VALID B_DIRTY|> <|b_data := replicate 512 9|>;
   zero_buf <|b_blockno := 3|>] ++ replicate 27 zero_buf.

Definition demo_kernel : kernel :=
  demo <|bufs := demo_bufs|> <|sleeplocks := {[SlBuf 2 := MkSleeplock true 1]}|>
    <|locks ::= <[LSleep (SlBuf 2):=zero_lock]>|>.

(** A disk that reads block 5, which is one of the blocks [bad]. *)
Definition demo_hw (bad : gset (Z * Z)) : Toy.toy :=
  Toy.MkToy {[0x1f2 := 1; 0x1f3 := 5; 0x1f4 := 0; 0x1f5 := 0; 0x1f6 := 0xe0]} (Some CMD_READ)
    {[(0, 5) := replicate 512 4]} true (bool_decide ((0, 5) ∈ bad)) bad.

Definition demo_ide (bad : gset (Z * Z)) : ide Toy.toy :=
  MkIde demo_kernel (Some 0%nat) (Some 1%nat :: replicate 29 None) false (demo_hw bad).

Lemma demo_ide_ok bad : driver_ok (demo_ide bad) [0; 1]%nat.
Proof.
  split.
  - split; [done|]. exists (Some 1%nat). split; [done|]. split; [done|]. by exists None.
  - by apply (bool_decide_unpack _).
  - intros i Hi. repeat (apply elem_of_cons in Hi as [->|Hi]); [..|by apply not_elem_of_nil in Hi];
      (eexists; split; [reflexivity|]); (split; [by (left + right)|]); done.
  - intros i b [= <-] [= <-]. split; [by vm_compute|]. split; [done|]. done.
Qed.

Lemma demo_ide_calm : rested demo_kernel.
Proof. split; [|by exists EmptyString]. exists (MkCpu 0 0 0 false (Some (PT 0))). by repeat split. Qed.

Lemma iderw_correct_witness :
  ∃ s1 c, @iderw Toy.toy Toy.answer 2%nat 2 2 (demo_ide ∅) = Suspend s1 c ∧
    asleep_on (PT 0) 1 (ChBuf 2) LIde (ik s1) ∧ ∀ s2,
    given_back (PT 0) 1 LIde (ik s2) ∧ is_Some (bufs (ik s2) !! 2%nat) → pending 2 (ik s2) = false →
    ∃ a s3, c s2 = Ret a s3.
Proof.
  destruct (iderw_correct Toy.answer Toy.toy_ata Toy.toy_prompt 2%nat 2 (demo_ide ∅) [0; 1]%nat 2%nat
    (zero_buf <|b_blockno := 3|>) (PT 0) 1) as (s0 & Hok & _ & _ & s1 & c & E & [[Ha _] _] & Hc).
  - apply Nat.lt_succ_diag_r.
  - exists (MkCpu 0 0 0 false (Some (PT 0))). by repeat split.
  - reflexivity.
  - repeat constructor; by exists EmptyString.
  - reflexivity.
  - done.
  - reflexivity.
  - split; [by left|]. done.
  - by left.
  - apply demo_ide_ok.
  - apply (bool_decide_unpack _). vm_compute. reflexivity.
  - exists s1, c. split; [exact E|]. split; [exact Ha|]. intros s2 H2 Hp. specialize (Hc s2 H2). cbn beta in Hc. rewrite Hp in Hc.
    destruct (Hc Nat.lt_0_1) as (a & s3 & E3 & _). exists a, s3. exact E3.
Defined.

Lemma ide_serves_witness :
  ∃ s', interrupts Toy.answer 2 2 (demo_ide ∅) = Ret tt s' ∧ driver_ok s' [].
Proof.
  destruct (ide_serves Toy.answer Toy.toy_ata Toy.toy_prompt 2 (demo_ide ∅) [0; 1]%nat) as (s' & E & Hok & _).
  - apply Nat.lt_succ_diag_r.
  - apply demo_ide_calm.
  - by exists EmptyString.
  - apply demo_ide_ok.
  - intros i j b b' Hi Hj Hn Hb Hb'. repeat (apply elem_of_cons in Hi as [->|Hi]); [..|by apply not_elem_of_nil in Hi];
      (repeat (apply elem_of_cons in Hj as [->|Hj]); [..|by apply not_elem_of_nil in Hj]); try done;
      injection Hb as <-; injection Hb' as <-; done.
  - exists s'. split; [exact E|exact Hok].
Defined.

Lemma ide_read_error_witness :
  ∃ s', ideintr Toy.answer 2 (demo_ide {[(0, 5)]}) = Ret tt s' ∧
    bufs (ik s') !! 0%nat = Some (zero_buf <|b_blockno := 5|> <|b_flags := B_VALID|>).
Proof.
  apply (ide_read_error Toy.answer Toy.toy_ata Toy.toy_prompt 2 (demo_ide {[(0, 5)]}) 0 [1]%nat).
  - apply Nat.lt_succ_diag_r.
  - apply demo_ide_calm.
  - by exists EmptyString.
  - apply demo_ide_ok.
  - reflexivity.
  - apply (bool_decide_unpack _). vm_compute. reflexivity.
Defined.

(** What the reads and writes of the queue leave: block 5 is in buffer 0 and
    buffer 1 is in block 7. *)
Lemma ide_serves_example :
  match interrupts Toy.answer 2 2 (demo_ide ∅) with
  | Ret _ s' => bool_decide (b_data <$> (bufs (ik s') !! 0%nat) = Some (replicate 512 4)) &&
      bool_decide (Toy.t_sectors (hw s') !! (0, 7) = Some (replicate 512 9))
  | _ => false
  end = true.
Proof. vm_compute. reflexivity. Qed.
