(* ===== verification/Log.v ===== *)
(** The log of [log.c]: transactions over the buffer cache, and recovery after
    a crash.

    Between two accesses of the disk a crash leaves the disk as it is; the
    theorems about crashes look at every such point of a commit. *)

From stdpp Require Import base gmap strings functions list.
From Stdlib Require Import ZArith Lia FunctionalExtensionality.
From S2P Require Import Prelude Heap CString Mmu State Disk Spinlock Kalloc Vm Proc Sleeplock Bio.
#[local] Open Scope Z_scope.

(** ** The code *)

Definition upd_log (f : log_t → log_t) : M kernel unit := modify (λ k, k <|log ::= f|>).

(** [log.lh.block[i]] *)
Definition get_lh (i : Z) : M kernel Z :=
  let! l := gets log in if i <? 0 then fault else get_some (lh_block l !! Z.to_nat i).
Definition set_lh (i v : Z) : M kernel unit :=
  let! l := gets log in
  if (i <? 0) || (LOGSIZE <=? i) then fault else upd_log (λ l, l <|lh_block ::= <[Z.to_nat i:=v]>|>).

(** [((struct logheader * ) b->data)->n] and [->block[i]] of a buffer. *)
Definition hdr_n (i : nat) : M kernel Z :=
  let! b := get_buf i in let! v := get_some (get32 (b_data b) 0) in ret (i32 v).
Definition hdr_block (i : nat) (j : Z) : M kernel Z :=
  let! b := get_buf i in let! v := get_some (get32 (b_data b) (4 + 4 * j)) in ret (i32 v).
Definition set_hdr (i : nat) (off v : Z) : M kernel unit :=
  let! b := get_buf i in
  let! d := get_some (put32 (b_data b) off v) in
  upd_buf i (λ b, b <|b_data := d|>).

(** The loop of [read_head]. *)
Fixpoint read_head_loop (fuel : nat) (buf : nat) (i : Z) : M kernel unit :=
  match fuel with
  | O => λ _, Loop
  | S fuel =>
      let! n := gets (λ k, lh_n (log k)) in
      if negb (i <? n) then ret tt else
      let! v := hdr_block buf i in
      set_lh i v;;;
      read_head_loop fuel buf (i + 1)
  end.

(** The loop of [write_head]. *)
Fixpoint write_head_loop (fuel : nat) (buf : nat) (i : Z) : M kernel unit :=
  match fuel with
  | O => λ _, Loop
  | S fuel =>
      let! n := gets (λ k, lh_n (log k)) in
      if negb (i <? n) then ret tt else
      let! v := get_lh i in
      set_hdr buf (4 + 4 * i) v;;;
      write_head_loop fuel buf (i + 1)
  end.

(** The number of turns of a loop up to [log.lh.n]. *)
Definition lh_turns : M kernel nat := gets (λ k, S (Z.to_nat (lh_n (log k)))).

(** The search loop of [log_write]. *)
Fixpoint log_find (fuel : nat) (blockno i : Z) : M kernel Z :=
  match fuel with
  | O => λ _, Loop
  | S fuel =>
      let! n := gets (λ k, lh_n (log k)) in
      if negb (i <? n) then ret i else
      let! v := get_lh i in
      if u32 v =? blockno then ret i else log_find fuel blockno (i + 1)
  end.

Definition log_write (b : nat) : M kernel unit :=
  let! l := gets log in
  if (LOGSIZE <=? lh_n l) || (lg_size l - 1 <=? lh_n l) then panic "too big a transaction" else
  if lg_outstanding l <? 1 then panic "log_write outside of trans" else
  acquire LLog;;;
  let! x := get_buf b in
  let! fuel := lh_turns in
  let! i := log_find fuel (b_blockno x) 0 in
  set_lh i (i32 (b_blockno x));;;
  (let! l := gets log in when i =? lh_n l do upd_log (λ l, l <|lh_n := lh_n l + 1|>));;;
  upd_buf b (λ x, x <|b_flags := Z.lor (b_flags x) B_DIRTY|>);;;
  release LLog.

Section log.
Context `{Turns} `{Driver}.

(** [memmove(dst->data, src->data, BSIZE)] *)
Definition copy_data (dst src : nat) : M kernel unit :=
  let! s := get_buf src in upd_buf dst (λ b, b <|b_data := b_data s|>).

Fixpoint install_trans_loop (fuel : nat) (tail : Z) : M kernel unit :=
  match fuel with
  | O => λ _, Loop
  | S fuel =>
      let! l := gets log in
      if negb (tail <? lh_n l) then ret tt else
      let! lbuf := bread (u32 (lg_dev l)) (u32 (lg_start l + tail + 1)) in
      let! bn := get_lh tail in
      let! dbuf := bread (u32 (lg_dev l)) (u32 bn) in
      copy_data dbuf lbuf;;;
      bwrite dbuf;;;
      brelse lbuf;;;
      brelse dbuf;;;
      install_trans_loop fuel (tail + 1)
  end.

Definition install_trans : M kernel unit :=
  let! fuel := lh_turns in install_trans_loop fuel 0.

Definition read_head : M kernel unit :=
  let! l := gets log in
  let! buf := bread (u32 (lg_dev l)) (u32 (lg_start l)) in
  (let! n := hdr_n buf in upd_log (λ l, l <|lh_n := n|>));;;
  (let! fuel := lh_turns in read_head_loop fuel buf 0);;;
  brelse buf.

Definition write_head : M kernel unit :=
  let! l := gets log in
  let! buf := bread (u32 (lg_dev l)) (u32 (lg_start l)) in
  (let! l := gets log in set_hdr buf 0 (lh_n l));;;
  (let! fuel := lh_turns in write_head_loop fuel buf 0);;;
  bwrite buf;;;
  brelse buf.

Definition recover_from_log : M kernel unit :=
  read_head;;;
  install_trans;;;
  upd_log (λ l, l <|lh_n := 0|>);;;
  write_head.

(** From [fs.c]. *)
Definition readsb (dev : Z) : M kernel superblock :=
  let! bp := bread dev 1 in
  let! b := get_buf bp in
  let! bs := get_some (slice (b_data b) 0 28) in
  brelse bp;;;
  ret (superblock_of bs).

(** [sizeof(struct logheader)] *)
Definition LOGHEADER_SIZE : Z := 4 + 4 * LOGSIZE.

Definition initlog (dev : Z) : M kernel unit :=
  if BSIZE <=? LOGHEADER_SIZE then panic "initlog: too big logheader" else
  initlock LLog "log";;;
  let! sb := readsb (u32 dev) in
  upd_log (λ l, l <|lg_start := i32 (sb_logstart sb)|>);;;
  upd_log (λ l, l <|lg_size := i32 (sb_nlog sb)|>);;;
  upd_log (λ l, l <|lg_dev := dev|>);;;
  recover_from_log.

Fixpoint begin_op_loop (fuel : nat) : M kernel unit :=
  match fuel with
  | O => λ _, Loop
  | S fuel =>
      let! l := gets log in
      if lg_committing l then sleep ChLog LLog;;; begin_op_loop fuel else
      if LOGSIZE <? i32 (lh_n l + (lg_outstanding l + 1) * MAXOPBLOCKS) then
        sleep ChLog LLog;;; begin_op_loop fuel
      else
        upd_log (λ l, l <|lg_outstanding := i32 (lg_outstanding l + 1)|>);;;
        release LLog
  end.

Definition begin_op : M kernel unit :=
  acquire LLog;;;
  begin_op_loop turns.

Fixpoint write_log_loop (fuel : nat) (tail : Z) : M kernel unit :=
  match fuel with
  | O => λ _, Loop
  | S fuel =>
      let! l := gets log in
      if negb (tail <? lh_n l) then ret tt else
      let! to := bread (u32 (lg_dev l)) (u32 (lg_start l + tail + 1)) in
      let! bn := get_lh tail in
      let! from := bread (u32 (lg_dev l)) (u32 bn) in
      copy_data to from;;;
      bwrite to;;;
      brelse from;;;
      brelse to;;;
      write_log_loop fuel (tail + 1)
  end.

Definition write_log : M kernel unit :=
  let! fuel := lh_turns in write_log_loop fuel 0.

Definition commit : M kernel unit :=
  let! n := gets (λ k, lh_n (log k)) in
  when 0 <? n do
    (write_log;;;
     write_head;;;
     install_trans;;;
     upd_log (λ l, l <|lh_n := 0|>);;;
     write_head).

Definition end_op : M kernel unit :=
  acquire LLog;;;
  upd_log (λ l, l <|lg_outstanding := i32 (lg_outstanding l - 1)|>);;;
  let! l := gets log in
  if lg_committing l then panic "log.committing" else
  let! do_commit :=
    (if lg_outstanding l =? 0 then
       upd_log (λ l, l <|lg_committing := true|>);;; ret true
     else wakeup ChLog;;; ret false) in
  release LLog;;;
  when do_commit do
    (commit;;;
     acquire LLog;;;
     upd_log (λ l, l <|lg_committing := false|>);;;
     wakeup ChLog;;;
     release LLog).
End log.

(** ** Copying blocks *)

(** A buffer that can be recycled while [H] is held. *)
Definition spare (k : kernel) (H : gset nat) : Prop :=
  ∃ i b, bufs k !! i = Some b ∧ i ∉ H ∧ b_flags b ≠ Z.lor B_VALID B_DIRTY.

(** The dirty blocks are among [ds]. *)
Definition dirty_in (k : kernel) (ds : list Z) : Prop := ∀ m, dirty k m → m ∈ ds.

Lemma dirty_buf k pid H l ds i b :
  cache_ok k pid H l → dirty_in k ds → bufs k !! i = Some b →
  b_flags b = Z.lor B_VALID B_DIRTY → ∃ m, m ∈ ds ∧ caches m b.
Proof.
  intros C Hd Hb Hf. assert (caches (b_blockno b) b) as Hc by (split; [by eapply (bc_dev _ _ _ _ C)|done]).
  exists (b_blockno b). split; [|done]. apply Hd. by exists i, b.
Qed.

Lemma spare_exists k pid H l ds :
  cache_ok k pid H l → dirty_in k ds → (size H + length ds < NBUF)%nat → spare k H.
Proof.
  intros C Hd Hlt. pose proof (bc_len _ _ _ _ C) as Hlen.
  destruct (decide (Exists (λ i, i ∉ H ∧ b_flags <$> bufs k !! i ≠ Some (Z.lor B_VALID B_DIRTY))
    (seq 0 NBUF))) as [He|He].
  { apply Exists_exists in He as (i & Hs & Hi & Hb). apply elem_of_seq in Hs.
    destruct (lookup_lt_is_Some_2 (bufs k) i) as [b E]; [lia|]. rewrite E in Hb. cbn in Hb.
    exists i, b. split_and!; [done..|]. congruence. }
  exfalso. rewrite <- Forall_Exists_neg, Forall_forall in He.
  set (f := λ i, if decide (i ∈ H) then inl i else inr (default 0 (b_blockno <$> bufs k !! i))).
  assert (length (f <$> seq 0 NBUF) <= length ((inl <$> elements H) ++ (inr <$> ds)))%nat as Hle.
  { apply submseteq_length, NoDup_submseteq.
    - apply NoDup_fmap_2_strong; [|apply NoDup_seq]. intros i j Hi Hj E. unfold f in E.
      repeat case_decide; simplify_eq; [done|].
      apply elem_of_seq in Hi, Hj.
      destruct (lookup_lt_is_Some_2 (bufs k) i) as [bi Hbi]; [lia|].
      destruct (lookup_lt_is_Some_2 (bufs k) j) as [bj Hbj]; [lia|].
      pose proof (He i ltac:(apply elem_of_seq; lia)) as Hei. rewrite Hbi in Hei.
      pose proof (He j ltac:(apply elem_of_seq; lia)) as Hej. rewrite Hbj in Hej.
      cbn in Hei, Hej.
      destruct (decide (b_flags bi = Z.lor B_VALID B_DIRTY)) as [Fi|]; [|naive_solver].
      destruct (decide (b_flags bj = Z.lor B_VALID B_DIRTY)) as [Fj|]; [|naive_solver].
      destruct (dirty_buf k pid H l ds i bi C Hd Hbi Fi) as (m & _ & Hci).
      destruct (dirty_buf k pid H l ds j bj C Hd Hbj Fj) as (m' & _ & Hcj).
      rewrite Hbi, Hbj in E. cbn in E.
      assert (m' = m) as -> by (destruct Hci as [_ <-], Hcj as [_ <-]; congruence).
      by eapply (bc_uniq _ _ _ _ C).
    - intros x Hx. apply list_elem_of_fmap in Hx as (i & -> & Hi). apply elem_of_app. unfold f.
      case_decide as HiH; [left; apply list_elem_of_fmap_2; by apply elem_of_elements|right].
      apply list_elem_of_fmap_2. pose proof (He i Hi) as Hei. apply elem_of_seq in Hi.
      destruct (lookup_lt_is_Some_2 (bufs k) i) as [bi Hbi]; [lia|]. rewrite Hbi in Hei |- *. cbn in Hei |- *.
      destruct (decide (b_flags bi = Z.lor B_VALID B_DIRTY)) as [Fi|]; [|naive_solver].
      by destruct (dirty_buf k pid H l ds i bi C Hd Hbi Fi) as (m & Hm & [_ ->]). }
  rewrite length_fmap, length_seq, length_app, !length_fmap in Hle. unfold size, set_size in Hlt.
  cbn in Hlt. lia.
Qed.

Lemma spare_room k H n : spare k H → room k H n.
Proof. intros (i & b & Hb & Hi & Hf). exists i, b. auto. Qed.

(** Between operations: the process holds no buffer, and the dirty blocks are
    among [ds]. *)
Record idle_cache (k : kernel) (pid : Z) (ds : list Z) : Prop := {
  ic_quiet : quiet k pid;
  ic_cache : ∃ l, cache_ok k pid ∅ l;
  ic_dirty : dirty_in k ds
}.

Section copy.
Context (T : Turns) (D : Driver) `{!DriverLaws D} (HT : (0 < T)%nat).

(** Two buffers for different blocks. *)
Lemma two_breads k pid ds a b :
  idle_cache k pid ds → a ≠ b → 0 <= a < u32 (disksize k) → 0 <= b < u32 (disksize k) →
  (length ds < NBUF)%nat → dirty k b ∨ (S (length ds) < NBUF)%nat →
  ∃ i j bi bj k1 k2 l obs1 obs2,
    runs (bread 1 a k) obs1 i k1 ∧ runs (bread 1 b k1) obs2 j k2 ∧
    Forall (λ s, disk s = disk k) (obs1 ++ obs2) ∧ bio_frame k k1 ∧ bio_frame k k2 ∧ i ≠ j ∧
    quiet k2 pid ∧ cache_ok k2 pid {[i; j]} l ∧
    bufs k2 !! i = Some bi ∧ caches a bi ∧ bufs k2 !! j = Some bj ∧ caches b bj ∧
    (∀ m, content k2 m = content k m) ∧ (∀ m, dirty k2 m ↔ dirty k m) ∧ disk k2 = disk k.
Proof.
  intros [Hq [l C] Hd] Hab Ha Hb Hlen Hroom.
  destruct (bread_ok T D k pid ∅ l a Hq C) as
    (i & bi & k1 & obs1 & E1 & O1 & Q1 & F1 & _ & C1 & Hbi & Hci & _ & Hct1 & Hdt1 & Hdk1 & Hoj1); try done.
  { eapply spare_room, spare_exists; [done..|]. by rewrite size_empty. }
  assert (disksize k1 = disksize k) as Hz by (by rewrite (proj1 F1)).
  rewrite (right_id_L ∅ (∪) {[i]}) in C1.
  destruct (bread_ok T D k1 pid {[i]} l b) as
    (j & bj & k2 & obs2 & E2 & O2 & Q2 & F2 & Hji & C2 & Hbj & Hcj & _ & Hct2 & Hdt2 & Hdk2 & Hoj2); try done.
  { by eapply calmly_quiet. }
  { destruct Hroom as [(x & bx & Hx & Hcx & _)%Hdt1|Hsp].
    - exists x, bx. split_and!; [done| |by left]. intros ->%elem_of_singleton. simplify_eq.
      apply Hab. by destruct Hci as [_ <-], Hcx as [_ <-].
    - eapply spare_room, (spare_exists k1 pid {[i]} l ds); [done| |by rewrite size_singleton].
      intros m Hm. by apply Hd, Hdt1. }
  { by rewrite Hz. }
  { intros x bx ->%elem_of_singleton Hx Hc. simplify_eq. apply Hab.
    by destruct Hci as [_ <-], Hc as [_ <-]. }
  assert (i ≠ j) as Hij by (intros ->; by apply Hji, elem_of_singleton).
  exists i, j, bi, bj, k1, k2, l, obs1, obs2. split_and!; try done.
  - rewrite Hdk1 in O2. by apply Forall_app.
  - by eapply bio_frame_trans.
  - do 2 (eapply calmly_quiet; [done|]). done.
  - by rewrite (union_comm_L {[i]}).
  - by rewrite Hoj2.
  - intros m. by rewrite Hct2, Hct1.
  - intros m. by rewrite Hdt2, Hdt1.
  - congruence.
Qed.

(** Copy the data of held buffer [r] to held buffer [w] and write it. *)
Lemma copy_write k pid H l w r bw br a b :
  quiet k pid → cache_ok k pid H l → w ∈ H → r ∈ H →
  bufs k !! w = Some bw → caches a bw → bufs k !! r = Some br → caches b br →
  ∃ k' obs, runs ((copy_data w r;;; bwrite w) k) obs tt k' ∧ Forall (λ s, disk s = disk k') obs ∧
    quiet k' pid ∧ bio_frame k k' ∧ cache_ok k' pid H l ∧ disk k' = <[a:=content k b]> (disk k) ∧
    (∀ m, content k' m = if decide (m = a) then content k b else content k m) ∧
    (∀ m, dirty k' m ↔ m ≠ a ∧ dirty k m).
Proof.
  intros Hq C Hw Hr Hbw Hcw Hbr Hcr.
  assert (content k b = b_data br) as Ec.
  { eapply content_is; [done..|]. destruct (bc_flags _ _ _ _ C r br Hbr) as [[_ ?]|[->| ->]]; done. }
  destruct (bwrite_ok D k pid H l w bw a (content k b)) as
    (k' & obs & E & O & Q & F & C' & Hdk & _ & Hct & Hdt); [done..|].
  exists k', obs. split_and!; try done; [|by eapply calmly_quiet].
  unfold copy_data. eapply runs_bind_Ret; [|exact E].
  erewrite bind_Ret by (by apply get_buf_Ret). rewrite <- Ec. by eapply upd_buf_Ret.
Qed.

(** Release two buffers. *)
Lemma two_brelses k pid l x y :
  quiet k pid → cache_ok k pid {[x; y]} l → x ≠ y → (x < NBUF)%nat → (y < NBUF)%nat →
  ∃ k' l', (brelse x;;; brelse y) k = Ret tt k' ∧ quiet k' pid ∧ bio_frame k k' ∧
    cache_ok k' pid ∅ l' ∧ (∀ m, content k' m = content k m) ∧ (∀ m, dirty k' m ↔ dirty k m) ∧
    disk k' = disk k.
Proof.
  intros Hq C Hxy Hx Hy.
  destruct (brelse_ok k pid {[x; y]} l x) as (k1 & l1 & l2 & E1 & Q1 & F1 & _ & C1 & S1);
    [done|done|clear; set_solver|done|].
  assert (({[x; y]} : gset nat) ∖ {[x]} = {[y]}) as EH by (clear - Hxy; set_solver). rewrite EH in C1.
  destruct (brelse_ok k1 pid {[y]} (x :: l1 ++ l2) y) as (k2 & l3 & l4 & E2 & Q2 & F2 & _ & C2 & S2);
    [by eapply calmly_quiet|done|clear; set_solver|done|].
  assert (({[y]} : gset nat) ∖ {[y]} = ∅) as EH2 by (clear; set_solver). rewrite EH2 in C2.
  destruct (same_blocks_view _ _ S1) as [V1 W1], (same_blocks_view _ _ S2) as [V2 W2].
  exists k2, (y :: l3 ++ l4). split_and!.
  - by rewrite (bind_Ret _ _ _ _ _ E1).
  - do 2 (eapply calmly_quiet; [done|]). done.
  - by eapply bio_frame_trans.
  - done.
  - intros m. by rewrite V2, V1.
  - intros m. by rewrite W2, W1.
  - destruct S1 as [_ S1], S2 as [_ S2]. congruence.
Qed.
End copy.

(** ** The header block *)

(** A header block that starts with the integers [vs]. *)
Definition hdr_data (d : list Z) (vs : list Z) : list Z := le_many 4 vs ++ drop (4 * length vs) d.

(** The blocks a header lists, and how they are read. *)
Definition hdr_list (d : list Z) : list Z :=
  match get32 d 0 with
  | Some n => (λ j, default 0 (get32 d (4 + 4 * Z.of_nat j))) <$> seq 0 (Z.to_nat (i32 n))
  | None => []
  end.

Lemma length_hdr_data d vs : (4 * length vs <= length d)%nat → length (hdr_data d vs) = length d.
Proof. intros H. unfold hdr_data. rewrite length_app, length_le_many, length_drop. lia. Qed.

Lemma hdr_data_snoc d vs v :
  (4 * S (length vs) <= length d)%nat → 0 <= v < 2 ^ 32 →
  put32 (hdr_data d vs) (4 * Z.of_nat (length vs)) v = Some (hdr_data d (vs ++ [v])).
Proof.
  intros Hl Hv. unfold put32, splice. rewrite length_hdr_data, length_le by lia.
  rewrite u32_small by done.
  destruct (Z.leb_spec 0 (4 * Z.of_nat (length vs))); [|lia].
  destruct (Z.leb_spec (4 * Z.of_nat (length vs) + Z.of_nat 4) (Z.of_nat (length d))); [|lia].
  cbn [andb]. f_equal. replace (Z.to_nat (4 * Z.of_nat (length vs))) with (4 * length vs)%nat by lia.
  unfold hdr_data. rewrite take_app_length' by (by rewrite length_le_many).
  rewrite le_many_app, <- app_assoc. f_equal. rewrite length_app. cbn [length].
  replace (le_many 4 [v]) with (le 4 v) by (unfold le_many; cbn; done). f_equal.
  rewrite drop_app_ge by (rewrite length_le_many; lia). rewrite length_le_many, drop_drop. f_equal. lia.
Qed.

Lemma hdr_get d vs j v :
  vs !! j = Some v → (4 * length vs <= length d)%nat → 0 <= v < 2 ^ 32 →
  get32 (hdr_data d vs) (4 * Z.of_nat j) = Some v.
Proof.
  intros Hj Hl Hv. pose proof (lookup_lt_Some _ _ _ Hj) as Hlt. unfold get32, slice.
  rewrite length_hdr_data by done.
  destruct (Z.leb_spec 0 (4 * Z.of_nat j)); [|lia]. destruct (Z.leb_spec 0 4); [|lia].
  destruct (Z.leb_spec (4 * Z.of_nat j + 4) (Z.of_nat (length d))); [|lia]. cbn [andb fmap option_fmap option_map].
  f_equal. replace (Z.to_nat (4 * Z.of_nat j)) with (4 * j)%nat by lia. change (Z.to_nat 4) with 4%nat.
  unfold hdr_data. rewrite <- (take_drop_middle vs j v Hj) at 1.
  rewrite le_many_app, <- app_assoc, drop_app_length'.
  2: { rewrite length_le_many, length_take. lia. }
  change (le_many 4 (v :: drop (S j) vs)) with (le 4 v ++ le_many 4 (drop (S j) vs)).
  rewrite <- app_assoc, take_app_length' by (by rewrite length_le). by apply unle_le.
Qed.

Lemma hdr_list_data d bs :
  (4 * S (length bs) <= length d)%nat → Forall (λ b, 0 <= b < 2 ^ 32) bs → (length bs <= 30)%nat →
  hdr_list (hdr_data d (Z.of_nat (length bs) :: bs)) = bs.
Proof.
  intros Hl Hb Hlen. unfold hdr_list. change 0 with (4 * Z.of_nat 0) at 1.
  rewrite (hdr_get d _ 0 (Z.of_nat (length bs))) by (done || cbn [length]; lia).
  assert (i32 (Z.of_nat (length bs)) = Z.of_nat (length bs)) as -> by (apply wraps_small; lia).
  rewrite Nat2Z.id. apply list_eq_same_length with (length bs); [done|by rewrite length_fmap, length_seq|].
  intros j x y Hj Hx Hy. rewrite list_lookup_fmap, lookup_seq_lt, Nat.add_0_l in Hx by done.
  apply (inj Some) in Hx. subst x. replace (4 + 4 * Z.of_nat j) with (4 * Z.of_nat (S j)) by lia.
  rewrite Forall_lookup in Hb. by rewrite (hdr_get d _ (S j) y) by (done || (cbn [length]; lia) || by eapply Hb).
Qed.

(** ** The loops over the logged blocks *)

Lemma content_not_dirty k pid H l m :
  cache_ok k pid H l → ¬ dirty k m → content k m = Memide.block k m.
Proof.
  intros C Hd. unfold content. destruct (list_find _ (bufs k)) as [[i b]|] eqn:E; [|done].
  apply list_find_Some in E as (Hb & [Hc Hf] & _). eapply (bc_clean _ _ _ _ C); [done..|].
  destruct (bc_flags _ _ _ _ C i b Hb) as [[? _]|[|?]]; [done..|]. destruct Hd. by exists i, b.
Qed.

Lemma get_lh_Ret k t b :
  0 <= t → lh_block (log k) !! Z.to_nat t = Some b → get_lh t k = Ret b k.
Proof.
  intros Ht Hb. unfold get_lh. rewrite bind_gets. destruct (Z.ltb_spec t 0); [lia|].
  unfold get_some. by rewrite Hb.
Qed.

Lemma frame_log k k' : bio_frame k k' → log k' = log k ∧ disksize k' = disksize k.
Proof. by intros [-> _]. Qed.

(** One turn: buffers for a log block [a] and the home block [b] of entry [t];
    one is copied to the other, written, and both are released. *)
Definition copy_step {R} (rev : bool) (t a : Z) (K : M kernel R) `{Turns} `{Driver} : M kernel R :=
  let! x := bread 1 a in
  let! bn := get_lh t in
  let! y := bread 1 (u32 bn) in
  copy_data (if rev then y else x) (if rev then x else y);;;
  bwrite (if rev then y else x);;;
  brelse (if rev then x else y);;;
  brelse (if rev then y else x);;;
  K.

(** The log at [start] with the entries [bs]: the entries are different blocks
    of the disk outside the log. *)
Record log_at (k : kernel) (start : Z) (bs : list Z) : Prop := {
  la_start : lg_start (log k) = start;
  la_dev : lg_dev (log k) = 1;
  la_n : lh_n (log k) = Z.of_nat (length bs);
  la_lh : ∀ t b, bs !! t = Some b → lh_block (log k) !! t = Some b;
  la_size : length (lh_block (log k)) = Z.to_nat LOGSIZE;
  la_area : 0 <= start ∧ start + LOGSIZE < u32 (disksize k) ∧ start + LOGSIZE < 2 ^ 31;
  la_home : ∀ b, b ∈ bs → 0 <= b < u32 (disksize k) ∧ b < 2 ^ 31 ∧ (b < start ∨ start + LOGSIZE < b);
  la_nodup : NoDup bs;
  la_length : (length bs <= Z.to_nat LOGSIZE)%nat
}.

(** The log block of entry [u]. *)
Definition log_block (start : Z) (u : nat) : Z := start + Z.of_nat u + 1.

Lemma log_at_frame k k' start bs : bio_frame k k' → log_at k start bs → log_at k' start bs.
Proof. intros F []. destruct (frame_log _ _ F) as [El Ed]. split; by rewrite ?El, ?Ed. Qed.

Lemma log_at_bufs k f start bs : log_at k start bs → log_at (k <|bufs ::= f|>) start bs.
Proof. by intros []. Qed.

Lemma log_at_entry k start bs t b :
  log_at k start bs → bs !! t = Some b →
  log_block start t ≠ b ∧ 0 <= log_block start t < u32 (disksize k) ∧ 0 <= b < u32 (disksize k) ∧
  u32 (lg_start (log k) + Z.of_nat t + 1) = log_block start t ∧ u32 (lg_dev (log k)) = 1.
Proof.
  intros L Hb. destruct (la_area _ _ _ L) as (H1 & H2 & H3).
  destruct (la_home _ _ _ L b) as (H4 & H5 & H6); [by eapply list_elem_of_lookup_2|].
  pose proof (lookup_lt_Some _ _ _ Hb) as Hlt. pose proof (la_length _ _ _ L).
  pose proof (u32_range (disksize k)). change (Z.to_nat LOGSIZE) with 30%nat in *. change LOGSIZE with 30 in *.
  rewrite (la_start _ _ _ L), (la_dev _ _ _ L). unfold log_block.
  split_and!; try lia; [|done]. apply u32_small. lia.
Qed.

Section loops.
Context (T : Turns) (D : Driver) `{!DriverLaws D} (HT : (0 < T)%nat).

Lemma copy_turn {R} (rev : bool) k pid ds t a b (K : M kernel R) :
  idle_cache k pid ds → (length ds < NBUF)%nat → dirty k b ∨ (S (length ds) < NBUF)%nat →
  a ≠ b → 0 <= a < u32 (disksize k) → 0 <= b < u32 (disksize k) →
  0 <= t → lh_block (log k) !! Z.to_nat t = Some b →
  let dst := if rev then b else a in
  let src := if rev then a else b in
  ∃ k' obs,
    (∀ obs' r k'', runs (K k') obs' r k'' → runs (copy_step rev t a K k) (obs ++ obs') r k'') ∧
    Forall (λ s, disk s = disk k ∨ disk s = disk k') obs ∧ idle_cache k' pid ds ∧ bio_frame k k' ∧
    disk k' = <[dst:=content k src]> (disk k) ∧
    (∀ m, content k' m = if decide (m = dst) then content k src else content k m) ∧
    (∀ m, dirty k' m ↔ m ≠ dst ∧ dirty k m).
Proof.
  intros I Hlen Hroom Hab Ha Hb Ht Hlh dst src.
  destruct (two_breads T D HT k pid ds a b) as (i & j & bi & bj & k1 & k2 & l & obs1 & obs2 &
    E1 & E2 & O & F1 & F2 & Hij & Q2 & C2 & Hbi & Hci & Hbj & Hcj & Hct2 & Hdt2 & Hdk2); [done..|].
  set (w := if rev then j else i). set (r := if rev then i else j).
  assert (u32 b = b) as Eb by (apply u32_small; pose proof (u32_range (disksize k)); lia).
  destruct (copy_write D k2 pid {[i; j]} l w r (if rev then bj else bi) (if rev then bi else bj) dst src)
    as (k3 & obs3 & E3 & O3 & Q3 & F3 & C3 & Hdk3 & Hct3 & Hdt3); try by destruct rev.
  1-2: destruct rev; clear; set_solver.
  assert (({[i; j]} : gset nat) = {[r; w]}) as EH by (destruct rev; clear; set_solver). rewrite EH in C3.
  pose proof (bc_len _ _ _ _ C2) as Hl. apply lookup_lt_Some in Hbi, Hbj.
  destruct (two_brelses k3 pid l r w) as (k4 & l4 & E4 & Q4 & F4 & C4 & Hct4 & Hdt4 & Hdk4);
    [done|done|by destruct rev|destruct rev; cbn; lia..|].
  assert (∀ m, dirty k4 m ↔ m ≠ dst ∧ dirty k m) as Hd4 by (intros m; by rewrite Hdt4, Hdt3, Hdt2).
  exists k4, (obs1 ++ obs2 ++ obs3). split_and!.
  - intros obs' x k'' HK. unfold copy_step. rewrite <- !app_assoc. eapply runs_bind; [exact E1|].
    eapply runs_bind_Ret; [apply get_lh_Ret; [done|by rewrite (proj1 (frame_log _ _ F1))]|].
    rewrite Eb. eapply runs_bind; [exact E2|].
    rewrite <- (bind_assoc (copy_data _ _) (λ _, bwrite _)). eapply runs_bind; [exact E3|].
    rewrite <- (bind_assoc (brelse _) (λ _, brelse _)). eapply runs_bind_Ret; [exact E4|exact HK].
  - apply Forall_app in O as [O1 O2]. rewrite Hdk4. rewrite !Forall_app.
    split_and!; (eapply Forall_impl; [eassumption|]); cbn; auto.
  - split; [done|by exists l4|]. intros m [_ Hm]%Hd4. by apply (ic_dirty _ _ _ I).
  - eapply bio_frame_trans; [done|]. by eapply bio_frame_trans.
  - by rewrite Hdk4, Hdk3, Hct2, Hdk2.
  - intros m. by rewrite Hct4, Hct3, !Hct2.
  - done.
Qed.

(** [write_log] writes the content of every logged block to its log block, and
    nothing else. *)
Lemma write_log_loop_ok fuel t k pid start bs :
  idle_cache k pid bs → log_at k start bs → (length bs < NBUF)%nat → (∀ b, b ∈ bs → dirty k b) →
  (t <= length bs)%nat → (length bs < fuel + t)%nat →
  ∃ k' obs, runs (write_log_loop fuel (Z.of_nat t) k) obs tt k' ∧
    idle_cache k' pid bs ∧ bio_frame k k' ∧ (∀ b, b ∈ bs → dirty k' b) ∧
    Forall (λ s, ∀ m, (∀ u, (t <= u < length bs)%nat → m ≠ log_block start u) →
      disk s !! m = disk k !! m) (k' :: obs) ∧
    (∀ m, (∀ u, (t <= u < length bs)%nat → m ≠ log_block start u) → content k' m = content k m) ∧
    (∀ u b, (t <= u)%nat → bs !! u = Some b → disk k' !! log_block start u = Some (content k b)).
Proof.
  revert t k. induction fuel as [|fuel IH]; intros t k I L Hlen Hall Ht Hf; [lia|]. cbn [write_log_loop].
  rewrite bind_gets, (la_n _ _ _ L). destruct (Z.ltb_spec (Z.of_nat t) (Z.of_nat (length bs))) as [Hlt|Hge]; cbn [negb].
  2: { exists k, []. split_and!; [constructor|done|apply bio_frame_refl|done| |done|].
    - by repeat constructor.
    - intros u b Hu Hb%lookup_lt_Some. lia. }
  destruct (lookup_lt_is_Some_2 bs t) as [b Hb]; [lia|].
  destruct (log_at_entry _ _ _ _ _ L Hb) as (Hne & Ha & Hbr & Ea & Ed). rewrite Ed, Ea.
  pose proof (la_lh _ _ _ L t b Hb) as Hlh. rewrite <- (Nat2Z.id t) in Hlh at 1.
  assert (b ∈ bs) as Hin by (by eapply list_elem_of_lookup_2).
  destruct (copy_turn false k pid bs (Z.of_nat t) (log_block start t) b
    (write_log_loop fuel (Z.of_nat t + 1))) as (k1 & obs1 & E1 & O1 & I1 & F1 & Hdk1 & Hct1 & Hdt1);
    try done; [by left; apply Hall|lia|]. cbn iota in *.
  replace (Z.of_nat t + 1) with (Z.of_nat (S t)) in E1 by lia.
  assert (∀ u b', bs !! u = Some b' → b' ≠ log_block start t) as Hhome.
  { intros u b' Hb' ->. destruct (la_home _ _ _ L (log_block start t)) as (_ & _ & H6);
      [by eapply list_elem_of_lookup_2|]. pose proof (la_length _ _ _ L). unfold log_block in H6.
    change (Z.to_nat LOGSIZE) with 30%nat in *. change LOGSIZE with 30 in *. lia. }
  destruct (IH (S t) k1) as (k2 & obs2 & E2 & I2 & F2 & Hall2 & O2 & Hct2 & Hlog2);
    [done|by eapply log_at_frame|done| |lia|lia|].
  { intros b' Hb'. apply Hdt1. split; [|by apply Hall]. apply list_elem_of_lookup in Hb' as [u Hu].
    by eapply Hhome. }
  assert (∀ m, (∀ u, (t <= u < length bs)%nat → m ≠ log_block start u) → disk k1 !! m = disk k !! m) as Hold.
  { intros m Hm. rewrite Hdk1, lookup_insert_ne; [done|]. symmetry. apply Hm. lia. }
  exists k2, (obs1 ++ obs2). split_and!; [|done|by eapply bio_frame_trans|done| | |].
  - replace (Z.of_nat t + 1) with (Z.of_nat (S t)) by lia. apply E1, E2.
  - assert (∀ s, (∀ m, (∀ u, (S t <= u < length bs)%nat → m ≠ log_block start u) →
      disk s !! m = disk k1 !! m) → ∀ m, (∀ u, (t <= u < length bs)%nat → m ≠ log_block start u) →
      disk s !! m = disk k !! m) as Hup.
    { intros s Hs m Hm. rewrite Hs, Hold; [done|done|]. intros u Hu. apply Hm. lia. }
    rewrite Permutation_middle, Forall_app.
    split; (eapply Forall_impl; [eassumption|]); [|exact Hup]. cbn.
    intros s [-> | ->] m Hm; [done|by apply Hold].
  - intros m Hm. rewrite Hct2 by (intros u Hu; apply Hm; lia). rewrite Hct1, decide_False; [done|].
    apply Hm. lia.
  - intros u b' Hu Hb'. destruct (decide (u = t)) as [->|Hut].
    + simplify_eq. inversion_clear O2 as [|? ? O2a _]. rewrite O2a.
      { by rewrite Hdk1, lookup_insert_eq. }
      intros u Hu'. unfold log_block. lia.
    + rewrite (Hlog2 u b') by (done || lia). f_equal. rewrite Hct1, decide_False; [done|by eapply Hhome].
Qed.

(** A disk on which some of the entries from [t] on are installed: their home
    blocks hold the content [c] gives to their log blocks. *)
Definition installing (c : Z → list Z) (start : Z) (bs : list Z) (t : nat) (d s : kernel) : Prop :=
  ∀ m, disk s !! m = disk d !! m ∨
       ∃ u, (t <= u)%nat ∧ bs !! u = Some m ∧ disk s !! m = Some (c (log_block start u)).

Lemma install_trans_loop_ok fuel t k pid start bs ds :
  idle_cache k pid ds → log_at k start bs → (length ds < NBUF)%nat → (∀ b, b ∈ ds → b ∈ bs) →
  (∀ u b, (t <= u)%nat → bs !! u = Some b → dirty k b) ∨ (S (length ds) < NBUF)%nat →
  (t <= length bs)%nat → (length bs < fuel + t)%nat →
  ∃ k' obs, runs (install_trans_loop fuel (Z.of_nat t) k) obs tt k' ∧
    idle_cache k' pid ds ∧ bio_frame k k' ∧ Forall (installing (content k) start bs t k) (k' :: obs) ∧
    (∀ u b, (t <= u)%nat → bs !! u = Some b → disk k' !! b = Some (content k (log_block start u))) ∧
    (∀ m, (∀ u, (t <= u)%nat → bs !! u ≠ Some m) → content k' m = content k m) ∧
    (∀ m, dirty k' m ↔ dirty k m ∧ ∀ u, (t <= u)%nat → bs !! u ≠ Some m).
Proof.
  revert t k. induction fuel as [|fuel IH]; intros t k I L Hlen Hsub Hroom Ht Hf; [lia|]. cbn [install_trans_loop].
  rewrite bind_gets, (la_n _ _ _ L). destruct (Z.ltb_spec (Z.of_nat t) (Z.of_nat (length bs))) as [Hlt|Hge]; cbn [negb].
  2: { exists k, []. assert (∀ u m, (t <= u)%nat → bs !! u ≠ Some m) as Hno.
    { intros u m Hu Hb%lookup_lt_Some. lia. }
    split_and!; [constructor|done|apply bio_frame_refl| | |done|].
    - repeat constructor.
    - intros u b Hu Hb. by destruct (Hno u b).
    - intros m. split; [|tauto]. auto. }
  destruct (lookup_lt_is_Some_2 bs t) as [b Hb]; [lia|].
  destruct (log_at_entry _ _ _ _ _ L Hb) as (Hne & Ha & Hbr & Ea & Ed). rewrite Ed, Ea.
  pose proof (la_lh _ _ _ L t b Hb) as Hlh. rewrite <- (Nat2Z.id t) in Hlh at 1.
  destruct (copy_turn true k pid ds (Z.of_nat t) (log_block start t) b
    (install_trans_loop fuel (Z.of_nat t + 1))) as (k1 & obs1 & E1 & O1 & I1 & F1 & Hdk1 & Hct1 & Hdt1);
    try done; [destruct Hroom; [left; eauto|by right]|lia|]. cbn iota in *.
  replace (Z.of_nat t + 1) with (Z.of_nat (S t)) in E1 by lia.
  assert (∀ u m, (S t <= u)%nat → bs !! u = Some m → m ≠ b) as Hnd.
  { intros u m Hu Hm ->. pose proof (NoDup_lookup _ _ _ _ (la_nodup _ _ _ L) Hm Hb). lia. }
  assert (∀ u, (u < length bs)%nat → content k1 (log_block start u) = content k (log_block start u)) as Hlog.
  { intros u Hu. rewrite Hct1, decide_False; [done|]. intros <-.
    destruct (la_home _ _ _ L (log_block start u)) as (_ & _ & H6); [by eapply list_elem_of_lookup_2|].
    pose proof (la_length _ _ _ L). unfold log_block in H6.
    change (Z.to_nat LOGSIZE) with 30%nat in *. change LOGSIZE with 30 in *. lia. }
  destruct (IH (S t) k1) as (k2 & obs2 & E2 & I2 & F2 & O2 & Hin2 & Hct2 & Hdt2);
    [done|by eapply log_at_frame|done|done| |lia|lia|].
  { destruct Hroom as [Hall|]; [left|by right]. intros u m Hu Hm. apply Hdt1.
    split; [by eapply Hnd|]. apply (Hall u); [lia|done]. }
  assert (installing (content k) start bs t k k1) as Hk1.
  { intros m. rewrite Hdk1. destruct (decide (m = b)) as [->|Hmb].
    - right. exists t. by rewrite lookup_insert_eq.
    - left. by rewrite lookup_insert_ne. }
  exists k2, (obs1 ++ obs2). split_and!; [|done|by eapply bio_frame_trans| | | |].
  - replace (Z.of_nat t + 1) with (Z.of_nat (S t)) by lia. apply E1, E2.
  - rewrite Permutation_middle, Forall_app. split; (eapply Forall_impl; [eassumption|]); cbn.
    + intros s [Hs|Hs] m; rewrite Hs; [by left|apply Hk1].
    + intros s Hs m. destruct (Hs m) as [->|(u & Hu & Hm & ->)]; [apply Hk1|].
      right. exists u. rewrite Hlog by (by eapply lookup_lt_Some). split_and!; [lia|done..].
  - intros u m Hu Hm. destruct (decide (u = t)) as [->|Hut].
    + assert (m = b) as -> by congruence. inversion_clear O2 as [|? ? O2a _].
      destruct (O2a b) as [->|(u & Hu' & Hm' & _)]; [by rewrite Hdk1, lookup_insert_eq|].
      by destruct (Hnd u b Hu' Hm').
    + rewrite (Hin2 u m) by (done || lia). by rewrite Hlog by (by eapply lookup_lt_Some).
  - intros m Hm. rewrite Hct2 by (intros u Hu; apply Hm; lia). rewrite Hct1, decide_False; [done|].
    intros ->. by apply (Hm t).
  - intros m. rewrite Hdt2, Hdt1. split.
    + intros [[H1 H2] H3]. split; [done|]. intros u Hu Hm. destruct (decide (u = t)) as [->|]; [congruence|].
      apply (H3 u); [lia|done].
    + intros [H1 H2]. split_and!; [|done|intros u Hu; apply H2; lia]. intros ->. by apply (H2 t).
Qed.
End loops.

(** ** Reading and writing the header *)

Lemma set_hdr_Ret k i b off v d :
  bufs k !! i = Some b → put32 (b_data b) off v = Some d →
  set_hdr i off v k = Ret tt (k <|bufs ::= <[i:=b <|b_data := d|>]>|>).
Proof.
  intros Hb Hd. unfold set_hdr. rewrite (bind_Ret _ _ _ _ _ (get_buf_Ret _ _ _ Hb)).
  unfold get_some. rewrite Hd, bind_ret_l. by apply upd_buf_Ret.
Qed.

(** Header blocks are whole blocks, and entries are block numbers. *)
Definition hdr_entries (bs : list Z) : list Z := Z.of_nat (length bs) :: bs.

Lemma log_at_u32 k start bs : log_at k start bs → Forall (λ b, 0 <= b < 2 ^ 32) (hdr_entries bs).
Proof.
  intros L. pose proof (la_length _ _ _ L). change (Z.to_nat LOGSIZE) with 30%nat in *.
  constructor; [lia|]. apply Forall_forall. intros b Hb.
  destruct (la_home _ _ _ L b Hb) as (H1 & H2 & _). lia.
Qed.

Lemma bufs_insert_insert k i (x y : buf) :
  k <|bufs ::= <[i:=x]>|> <|bufs ::= <[i:=y]>|> = k <|bufs ::= <[i:=y]>|>.
Proof. kext. apply list_insert_insert_eq. Qed.

Lemma write_head_loop_ok fuel i b d k start bs t :
  log_at k start bs → length d = 512%nat → bufs k !! i = Some b →
  b_data b = hdr_data d (take (S t) (hdr_entries bs)) → (t <= length bs)%nat → (length bs < fuel + t)%nat →
  write_head_loop fuel i (Z.of_nat t) k =
    Ret tt (k <|bufs ::= <[i:=b <|b_data := hdr_data d (hdr_entries bs)|>]>|>).
Proof.
  revert t k b. induction fuel as [|fuel IH]; intros t k b L Hd Hb Hdata Ht Hf; [lia|]. cbn [write_head_loop].
  pose proof (la_length _ _ _ L) as Hlen. change (Z.to_nat LOGSIZE) with 30%nat in *.
  rewrite bind_gets, (la_n _ _ _ L). destruct (Z.ltb_spec (Z.of_nat t) (Z.of_nat (length bs))) as [Hlt|Hge]; cbn [negb].
  2: { unfold ret. f_equal. rewrite take_ge in Hdata by (cbn [length hdr_entries]; lia). rewrite <- Hdata.
    replace (b <|b_data := b_data b|>) with b by (by destruct b). kext. symmetry. by apply list_insert_id. }
  destruct (lookup_lt_is_Some_2 bs t) as [v Hv]; [lia|].
  rewrite (bind_Ret _ _ _ _ _ (get_lh_Ret k (Z.of_nat t) v ltac:(lia) ltac:(rewrite Nat2Z.id; by apply (la_lh _ _ _ L)))).
  assert (length (take (S t) (hdr_entries bs)) = S t) as Htk by (rewrite length_take; cbn [length hdr_entries]; lia).
  pose proof (log_at_u32 _ _ _ L) as Hu. rewrite Forall_lookup in Hu.
  assert (hdr_entries bs !! S t = Some v) as Hv' by done.
  erewrite bind_Ret.
  2: { apply set_hdr_Ret; [done|]. rewrite Hdata. replace (4 + 4 * Z.of_nat t) with (4 * Z.of_nat (S t)) by lia.
    rewrite <- Htk at 2. apply hdr_data_snoc; [lia|by eapply Hu]. }
  replace (Z.of_nat t + 1) with (Z.of_nat (S t)) by lia.
  rewrite (IH (S t) _ (b <|b_data := hdr_data d (take (S t) (hdr_entries bs) ++ [v])|>)).
  - by rewrite bufs_insert_insert.
  - by apply log_at_bufs.
  - done.
  - apply list_lookup_insert_eq. by eapply lookup_lt_Some.
  - rsimpl. by rewrite (take_S_r _ _ _ Hv').
  - lia.
  - lia.
Qed.

Section header.
Context (T : Turns) (D : Driver) `{!DriverLaws D} (HT : (0 < T)%nat).

(** [write_head] replaces the header in one step. *)
Lemma write_head_ok k pid start bs ds :
  idle_cache k pid ds → log_at k start bs → (length ds < NBUF)%nat → length (content k start) = 512%nat →
  let d := hdr_data (content k start) (hdr_entries bs) in
  ∃ k' obs, runs (write_head k) obs tt k' ∧ Forall (λ s, disk s = disk k ∨ disk s = disk k') obs ∧
    idle_cache k' pid ds ∧ bio_frame k k' ∧ disk k' = <[start:=d]> (disk k) ∧
    (∀ m, content k' m = if decide (m = start) then d else content k m) ∧
    (∀ m, dirty k' m ↔ m ≠ start ∧ dirty k m).
Proof.
  intros [Hq [l C] Hd] L Hlen H512 d. destruct (la_area _ _ _ L) as (HA1 & HA2 & HA3).
  unfold write_head. rewrite bind_gets, (la_dev _ _ _ L), (la_start _ _ _ L).
  change (u32 1) with 1. change LOGSIZE with 30 in *. rewrite (u32_small start) by lia.
  destruct (bread_ok T D k pid ∅ l start Hq C) as
    (i & b & k1 & obs1 & E1 & O1 & Q1 & F1 & _ & C1 & Hb & Hc & Hbd & Hct1 & Hdt1 & Hdk1 & Hoj1); try done.
  { eapply spare_room, spare_exists; [done..|]. by rewrite size_empty. }
  { lia. }
  rewrite (right_id_L ∅ (∪) {[i]}) in C1.
  assert (log_at k1 start bs) as L1 by by eapply log_at_frame.
  pose proof (log_at_u32 _ _ _ L) as Hu. pose proof (la_length _ _ _ L). change (Z.to_nat LOGSIZE) with 30%nat in *.
  destruct (bwrite_ok D k1 pid {[i]} l i b start d) as
    (k2 & obs2 & E2 & O2 & Q2 & F2 & C2 & Hdk2 & _ & Hct2 & Hdt2); try done.
  { by eapply calmly_quiet. } { by apply elem_of_singleton. }
  pose proof (lookup_lt_Some _ _ _ Hb) as Hi. rewrite (bc_len _ _ _ _ C1) in Hi.
  destruct (brelse_ok k2 pid {[i]} l i) as (k3 & l1 & l2 & E3 & Q3 & F3 & _ & C3 & S3);
    [do 2 (eapply calmly_quiet; [done|]); done|done|by apply elem_of_singleton|done|].
  assert (({[i]} : gset nat) ∖ {[i]} = ∅) as EH by (clear; set_solver). rewrite EH in C3.
  destruct (same_blocks_view _ _ S3) as [V3 W3]. destruct S3 as [_ Hdk3].
  exists k3, (obs1 ++ obs2). split_and!.
  - eapply runs_bind; [exact E1|]. rewrite bind_assoc. rewrite bind_gets.
    eapply runs_bind_Ret.
    { apply set_hdr_Ret; [exact Hb|]. rewrite Hbd. change 0 with (4 * Z.of_nat (length (@nil Z))).
      apply (hdr_data_snoc (content k start) []); [cbn [length]; lia|]. rewrite (la_n _ _ _ L1). lia. }
    cbn [app]. eapply runs_bind_Ret.
    { unfold lh_turns. rewrite bind_gets. rsimpl. rewrite (la_n _ _ _ L1), Nat2Z.id.
      change 0 with (Z.of_nat 0). eapply write_head_loop_ok; [| |apply list_lookup_insert_eq|..]; try done.
      - by apply log_at_bufs.
      - by eapply lookup_lt_Some.
      - lia. - lia. }
    eapply runs_bind_ret; [|exact E3]. rewrite bufs_insert_insert. exact E2.
  - rewrite Hdk3. apply Forall_app. split; (eapply Forall_impl; [eassumption|]); cbn; auto.
  - split; [|by eexists|].
    { eapply calmly_quiet; [exact Q3|]. eapply calmly_quiet; [exact Q2|]. by eapply calmly_quiet. }
    intros m Hm.
    rewrite W3, Hdt2, Hdt1 in Hm. by apply Hd, Hm.
  - eapply bio_frame_trans; [done|]. by eapply bio_frame_trans.
  - by rewrite Hdk3, Hdk2, Hdk1.
  - intros m. by rewrite V3, Hct2, Hct1.
  - intros m. by rewrite W3, Hdt2, Hdt1.
Qed.
End header.

(** The header block lists [bs]: writing the entries would not change it. *)
Definition lists (d : list Z) (bs : list Z) : Prop :=
  length d = 512%nat ∧ hdr_data d (hdr_entries bs) = d ∧ (length bs <= 30)%nat ∧
  Forall (λ b, 0 <= b < 2 ^ 31) bs.

Lemma lists_hdr d bs :
  length d = 512%nat → (length bs <= 30)%nat → Forall (λ b, 0 <= b < 2 ^ 31) bs →
  lists (hdr_data d (hdr_entries bs)) bs.
Proof.
  intros Hd Hl Hb. assert (4 * length (hdr_entries bs) <= length d)%nat as Hle by (cbn [length hdr_entries]; lia).
  split_and!; [by rewrite length_hdr_data| |done..].
  unfold hdr_data. f_equal. by rewrite drop_app_length' by (by rewrite length_le_many).
Qed.

Lemma lists_get d bs j v : lists d bs → hdr_entries bs !! j = Some v → get32 d (4 * Z.of_nat j) = Some v ∧ i32 v = v.
Proof.
  intros (Hd & E & Hl & Hb) Hv. assert (0 <= v < 2 ^ 31) as Hr.
  { destruct j as [|j]; [injection Hv as <-; lia|]. rewrite Forall_lookup in Hb. exact (Hb j v Hv). }
  split; [|apply wraps_small; lia]. rewrite <- E. apply hdr_get; [done| |lia]. cbn [length hdr_entries]. lia.
Qed.

Lemma lists_hdr_list d bs : lists d bs → hdr_list d = bs.
Proof.
  intros (Hd & E & Hl & Hb). rewrite <- E. apply hdr_list_data; [lia| |done].
  eapply Forall_impl; [exact Hb|]. cbn. lia.
Qed.

Lemma read_head_loop_ok fuel i b k bs t :
  bufs k !! i = Some b → lists (b_data b) bs → lh_n (log k) = Z.of_nat (length bs) →
  length (lh_block (log k)) = 30%nat → (∀ u, (u < t)%nat → lh_block (log k) !! u = bs !! u) →
  (t <= length bs)%nat → (length bs < fuel + t)%nat →
  ∃ lh, read_head_loop fuel i (Z.of_nat t) k = Ret tt (k <|log ::= λ l, l <|lh_block := lh|>|>) ∧
    length lh = 30%nat ∧ ∀ u v, bs !! u = Some v → lh !! u = Some v.
Proof.
  intros Hb Hl. revert t k Hb. induction fuel as [|fuel IH]; intros t k Hb Hn Hlen Hpre Ht Hf; [lia|].
  cbn [read_head_loop]. rewrite bind_gets, Hn.
  destruct (Z.ltb_spec (Z.of_nat t) (Z.of_nat (length bs))) as [Hlt|Hge]; cbn [negb].
  2: { exists (lh_block (log k)). split_and!; [|done|].
    - unfold ret. f_equal. kext. by destruct (log k).
    - intros u v Hv. rewrite Hpre; [done|]. apply lookup_lt_Some in Hv. lia. }
  destruct (lookup_lt_is_Some_2 bs t) as [v Hv]; [lia|].
  destruct (lists_get _ _ (S t) v Hl Hv) as [Hg Hi].
  unfold hdr_block. rewrite bind_assoc, (bind_Ret _ _ _ _ _ (get_buf_Ret _ _ _ Hb)).
  replace (4 + 4 * Z.of_nat t) with (4 * Z.of_nat (S t)) by lia. unfold get_some. rewrite Hg.
  rewrite bind_assoc, bind_ret_l, bind_ret_l, Hi. unfold set_lh. rewrite bind_assoc, bind_gets.
  assert (length bs <= 30)%nat as Hl30 by apply Hl.
  change LOGSIZE with 30. destruct (Z.ltb_spec (Z.of_nat t) 0), (Z.leb_spec 30 (Z.of_nat t)); [lia..|]. cbn [orb].
  unfold upd_log. rewrite bind_modify. replace (Z.of_nat t + 1) with (Z.of_nat (S t)) by lia.
  rewrite Nat2Z.id. destruct (IH (S t) (k <|log ::= λ l, l <|lh_block ::= <[t:=v]>|>|>)) as (lh & E & H1 & H2); try done.
  - rsimpl. by rewrite length_insert.
  - intros u Hu. rsimpl. destruct (decide (u = t)) as [->|].
    + rewrite list_lookup_insert_eq by lia. done.
    + rewrite list_lookup_insert_ne by done. apply Hpre. lia.
  - lia.
  - lia.
  - exists lh. split; [|done]. rewrite E. f_equal; kext; by destruct (log k).
Qed.

(** The cache does not see the log's own fields. *)
Lemma cache_ok_log k pid H l f : cache_ok k pid H l → cache_ok (k <|log ::= f|>) pid H l.
Proof. by intros []. Qed.

Lemma quiet_log k pid f : quiet k pid → quiet (k <|log ::= f|>) pid.
Proof. done. Qed.

Lemma idle_cache_log k pid ds f : idle_cache k pid ds → idle_cache (k <|log ::= f|>) pid ds.
Proof. intros [Hq [l C] Hd]. split; [done| |done]. exists l. by apply cache_ok_log. Qed.

Lemma log_at_clear k start bs :
  log_at k start bs → log_at (k <|log ::= λ l, l <|lh_n := 0|>|>) start [].
Proof.
  intros []. split; try done; [by intros b ?%not_elem_of_nil|constructor|cbn; lia].
Qed.

Lemma bio_frame_log k k' f : bio_frame k k' → bio_frame (k <|log := log (k' <|log ::= f|>)|>) (k' <|log ::= f|>).
Proof.
  intros [E S]. split; [|exact S].
  apply (f_equal (λ x, x <|log := log (k' <|log ::= f|>)|>)) in E. etransitivity; [|etransitivity; [exact E|]]; [clear|clear; reflexivity].
  kext.
Qed.

(** The log's place on the disk, before its header is read. *)
Record log_area (k : kernel) (start : Z) (bs : list Z) : Prop := {
  lr_start : lg_start (log k) = start;
  lr_dev : lg_dev (log k) = 1;
  lr_size : length (lh_block (log k)) = Z.to_nat LOGSIZE;
  lr_area : 0 <= start ∧ start + LOGSIZE < u32 (disksize k) ∧ start + LOGSIZE < 2 ^ 31;
  lr_home : ∀ b, b ∈ bs → 0 <= b < u32 (disksize k) ∧ b < 2 ^ 31 ∧ (b < start ∨ start + LOGSIZE < b);
  lr_nodup : NoDup bs
}.

Lemma log_area_nil k start bs : log_area k start bs → log_area k start [].
Proof. intros []. split; try done; [by intros b ?%not_elem_of_nil|constructor]. Qed.

Lemma read_head_ok (T : Turns) (D : Driver) `{!DriverLaws D} k pid start bs :
  (0 < T)%nat → idle_cache k pid [] → log_area k start bs → lists (content k start) bs →
  ∃ k' obs, runs (read_head k) obs tt k' ∧ Forall (λ s, disk s = disk k) obs ∧
    idle_cache k' pid [] ∧ bio_frame (k <|log := log k'|>) k' ∧ log_at k' start bs ∧ disk k' = disk k ∧
    (∀ m, content k' m = content k m).
Proof.
  intros HT [Hq [l C] Hd] L Hl. destruct (lr_area _ _ _ L) as (HA1 & HA2 & HA3).
  unfold read_head. rewrite bind_gets, (lr_dev _ _ _ L), (lr_start _ _ _ L).
  change (u32 1) with 1. change LOGSIZE with 30 in *. rewrite (u32_small start) by lia.
  destruct (bread_ok T D k pid ∅ l start Hq C) as
    (i & b & k1 & obs1 & E1 & O1 & Q1 & F1 & _ & C1 & Hb & Hc & Hbd & Hct1 & Hdt1 & Hdk1 & Hoj1); try done.
  { eapply spare_room, spare_exists; [done..|]. rewrite size_empty; cbn; unfold NBUF; lia. }
  { lia. }
  rewrite (right_id_L ∅ (∪) {[i]}) in C1. destruct (frame_log _ _ F1) as [Elog Edk].
  rewrite <- Hbd in Hl. destruct (lists_get _ _ 0 _ Hl eq_refl) as [Hg0 Hi0].
  set (k2 := k1 <|log ::= λ l, l <|lh_n := Z.of_nat (length bs)|>|>).
  destruct (read_head_loop_ok (S (length bs)) i b k2 bs 0) as (lh & E2 & Hlen & Hlh); try done.
  { unfold k2. rsimpl. rewrite Elog. apply (lr_size _ _ _ L). } { intros u Hu. lia. } { lia. } { lia. }
  set (k3 := k2 <|log ::= _|>) in E2. pose proof (lookup_lt_Some _ _ _ Hb) as Hi.
  rewrite (bc_len _ _ _ _ C1) in Hi.
  destruct (brelse_ok k3 pid {[i]} l i) as (k4 & l1 & l2 & E3 & Q3 & F3 & _ & C3 & S3);
    [by eapply calmly_quiet|by do 2 apply cache_ok_log|by apply elem_of_singleton|done|].
  assert (({[i]} : gset nat) ∖ {[i]} = ∅) as EH by (clear; set_solver). rewrite EH in C3.
  destruct (same_blocks_view _ _ S3) as [V3 W3]. destruct S3 as [_ Hdk3].
  destruct (frame_log _ _ F3) as [Elog4 Edk4].
  exists k4, obs1. split_and!; [|exact O1|..].
  - eapply runs_bind_ret; [exact E1|]. erewrite bind_Ret.
    2: { unfold hdr_n. rewrite bind_assoc, (bind_Ret _ _ _ _ _ (get_buf_Ret _ _ _ Hb)).
      unfold get_some. change 0 with (4 * Z.of_nat 0). rewrite Hg0, bind_assoc, !bind_ret_l, Hi0. reflexivity. }
    fold k2. erewrite bind_Ret.
    2: { unfold lh_turns. rewrite bind_gets. unfold k2 at 1. rsimpl. rewrite Nat2Z.id. exact E2. }
    exact E3.
  - split; [eapply calmly_quiet; [exact Q3|]; by eapply calmly_quiet|by eexists|].
    intros m Hm. rewrite W3 in Hm. apply Hd. by apply Hdt1.
  - rewrite Elog4. eapply bio_frame_trans; [|exact F3].
    exact (bio_frame_log k k1 (λ l, l <|lh_n := Z.of_nat (length bs)|> <|lh_block := lh|>) F1).
  - destruct L as [L1 L2 L3 L4 L5 L6]. assert (disksize k4 = disksize k) as Ez by (rewrite Edk4; exact Edk).
    split; rewrite ?Elog4, ?Ez; try done.
    + unfold k3, k2. rsimpl. by rewrite Elog.
    + unfold k3, k2. rsimpl. by rewrite Elog.
    + apply Hl.
  - rewrite Hdk3. exact Hdk1.
  - intros m. rewrite V3. exact (Hct1 m).
Qed.

(** ** Recovery and crashes *)

Definition blk (d : gmap Z (list Z)) (n : Z) : list Z := default zero_block (d !! n).

Lemma idle_content k pid ds m : idle_cache k pid ds → m ∉ ds → content k m = blk (disk k) m.
Proof.
  intros [_ [l C] Hd] Hm. eapply content_not_dirty; [done|]. intros H. by apply Hm, Hd.
Qed.

(** The block that recovery shows: that of the log when the header lists it. *)
Definition recovered (start : Z) (d : gmap Z (list Z)) (m : Z) : list Z :=
  match list_find (m =.) (hdr_list (blk d start)) with
  | Some (u, _) => blk d (log_block start u)
  | None => blk d m
  end.

(** A block outside the log. *)
Definition home (start m : Z) : Prop := m < start ∨ start + LOGSIZE < m.

Lemma recovered_in start d bs u m :
  lists (blk d start) bs → NoDup bs → bs !! u = Some m → recovered start d m = blk d (log_block start u).
Proof.
  intros Hl Hnd Hu. unfold recovered. rewrite (lists_hdr_list _ _ Hl).
  replace (list_find (m =.) bs) with (Some (u, m)); [done|]. symmetry. apply list_find_Some.
  split_and!; [done..|]. intros j y Hj Hlt <-. pose proof (NoDup_lookup _ _ _ _ Hnd Hu Hj). lia.
Qed.

Lemma recovered_out start d bs m : lists (blk d start) bs → m ∉ bs → recovered start d m = blk d m.
Proof.
  intros Hl Hm. unfold recovered. rewrite (lists_hdr_list _ _ Hl).
  destruct (list_find (m =.) bs) as [[u x]|] eqn:E; [|done].
  apply list_find_Some in E as (Hx & <- & _). destruct Hm. by eapply list_elem_of_lookup_2.
Qed.

Lemma lists_insert start d0 d bs :
  length d0 = 512%nat → (length bs <= 30)%nat → Forall (λ b, 0 <= b < 2 ^ 31) bs →
  lists (blk (<[start:=hdr_data d0 (hdr_entries bs)]> d) start) bs.
Proof. intros H1 H2 H3. unfold blk. rewrite lookup_insert_eq. by apply lists_hdr. Qed.

Lemma log_at_home k start bs : log_at k start bs → ∀ b, b ∈ bs → home start b.
Proof. intros L b Hb. by destruct (la_home _ _ _ L b Hb) as (_ & _ & ?). Qed.

Lemma log_block_home k start bs u : log_at k start bs → (u < length bs)%nat → ¬ home start (log_block start u).
Proof.
  intros L Hu H. pose proof (la_length _ _ _ L). unfold home, log_block in *.
  change (Z.to_nat LOGSIZE) with 30%nat in *. change LOGSIZE with 30 in *. lia.
Qed.

(** While the entries are installed, recovery shows the same blocks. *)
Lemma installing_recovered c k s start bs :
  log_at k start bs → lists (blk (disk k) start) bs → installing c start bs 0 k s →
  lists (blk (disk s) start) bs ∧ ∀ m, home start m → recovered start (disk s) m = recovered start (disk k) m.
Proof.
  intros L Hl Hs.
  assert (∀ m, m ∉ bs → blk (disk s) m = blk (disk k) m) as Hout.
  { intros m Hm. unfold blk. destruct (Hs m) as [->|(u & _ & Hu & _)]; [done|].
    destruct Hm. by eapply list_elem_of_lookup_2. }
  assert (∀ m, ¬ home start m → blk (disk s) m = blk (disk k) m) as Hlog.
  { intros m Hm. apply Hout. intros Hin. by apply Hm, (log_at_home _ _ _ L). }
  assert (lists (blk (disk s) start) bs) as Hls.
  { rewrite Hlog; [done|]. unfold home. change LOGSIZE with 30. lia. }
  split; [done|]. intros m Hm. destruct (decide (m ∈ bs)) as [[u Hu]%list_elem_of_lookup|Hni].
  - rewrite !(recovered_in start _ bs u m) by (done || apply (la_nodup _ _ _ L)). apply Hlog.
    eapply log_block_home; [done|]. by eapply lookup_lt_Some.
  - rewrite !(recovered_out start _ bs m) by done. by apply Hout.
Qed.

(** Only the header changes when the log is cleared. *)
Lemma cleared_recovered start d d0 bs m :
  lists (blk d start) bs → (∀ b, b ∈ bs → blk d b = recovered start d b) → length d0 = 512%nat →
  home start m →
  let d' := <[start:=hdr_data d0 (hdr_entries [])]> d in
  blk d' m = recovered start d m ∧ recovered start d' m = recovered start d m.
Proof.
  intros Hl Hin H512 Hm d'.
  assert (m ≠ start) as Hne by (unfold home in Hm; change LOGSIZE with 30 in Hm; lia).
  assert (lists (blk d' start) []) as Hl' by (apply lists_insert; [done|cbn; lia|constructor]).
  assert (blk d' m = recovered start d m) as E.
  { unfold blk, d'. rewrite lookup_insert_ne by done. fold (blk d m).
    destruct (decide (m ∈ bs)); [by apply Hin|]. symmetry. by eapply recovered_out. }
  split; [done|]. rewrite <- E. eapply recovered_out; [done|]. apply not_elem_of_nil.
Qed.

(** The header on the disk is empty or lists [bs]. *)
Definition header_in (start : Z) (bs : list Z) (s : kernel) : Prop :=
  lists (blk (disk s) start) [] ∨ lists (blk (disk s) start) bs.

Section crash.
Context (T : Turns) (D : Driver) `{!DriverLaws D} (HT : (0 < T)%nat).

Lemma install_clear_ok k pid start bs ds :
  idle_cache k pid ds → log_at k start bs → (length ds < NBUF)%nat → (∀ b, b ∈ ds → b ∈ bs) →
  (∀ b, b ∈ bs → dirty k b) ∨ (S (length ds) < NBUF)%nat → lists (blk (disk k) start) bs →
  ∃ k' obs,
    runs ((install_trans;;; upd_log (λ l, l <|lh_n := 0|>);;; write_head) k) obs tt k' ∧
    idle_cache k' pid [] ∧ log_at k' start [] ∧ lists (blk (disk k') start) [] ∧
    Forall (λ s, header_in start bs s ∧
      ∀ m, home start m → recovered start (disk s) m = recovered start (disk k) m) obs ∧
    (∀ m, home start m → blk (disk k') m = recovered start (disk k) m).
Proof.
  intros I L Hlen Hsub Hroom Hl.
  destruct (install_trans_loop_ok T D HT (S (length bs)) 0 k pid start bs ds) as
    (k1 & obs1 & E1 & I1 & F1 & O1 & Hin1 & Hct1 & Hdt1); try done.
  { destruct Hroom as [Hall|]; [left|by right]. intros u b _ Hb. apply Hall. by eapply list_elem_of_lookup_2. }
  { lia. } { lia. }
  assert (idle_cache k1 pid []) as I1'.
  { destruct I1 as [Q1 C1 D1]. split; [done..|]. intros m Hm. exfalso.
    apply Hdt1 in Hm as [Hm Hno]. apply (ic_dirty _ _ _ I), Hsub, list_elem_of_lookup in Hm as [u Hu].
    apply (Hno u); [lia|done]. }
  assert (∀ s, installing (content k) start bs 0 k s → lists (blk (disk s) start) bs ∧
    ∀ m, home start m → recovered start (disk s) m = recovered start (disk k) m) as Hrec.
  { intros s. by apply installing_recovered. }
  inversion_clear O1 as [|? ? O1a O1b]. destruct (Hrec k1 O1a) as [Hl1 Hr1].
  assert (content k1 start = blk (disk k1) start) as Ec1 by (eapply idle_content; [done|apply not_elem_of_nil]).
  assert (length (content k1 start) = 512%nat) as H512 by (rewrite Ec1; apply Hl1).
  assert (∀ b, b ∈ bs → blk (disk k1) b = recovered start (disk k1) b) as Hins.
  { intros b Hb. rewrite Hr1 by (by apply (log_at_home _ _ _ L)). apply list_elem_of_lookup in Hb as [u Hu].
    rewrite (recovered_in start _ bs u b) by (done || apply (la_nodup _ _ _ L)).
    unfold blk at 1. rewrite (Hin1 u b) by (done || lia). cbn [default from_option id]. eapply idle_content; [done|].
    intros Hd. eapply log_block_home; [done|by eapply lookup_lt_Some|]. by apply (log_at_home _ _ _ L), Hsub. }
  set (k2 := k1 <|log ::= λ l, l <|lh_n := 0|>|>).
  destruct (write_head_ok T D HT k2 pid start [] []) as (k3 & obs3 & E3 & O3 & I3 & F3 & Hdk3 & _ & _).
  { by apply idle_cache_log. } { eapply log_at_clear, log_at_frame; done. } { unfold NBUF. cbn. lia. } { done. }
  change (disk k2) with (disk k1) in *. change (content k2 start) with (content k1 start) in *.
  assert (∀ m, home start m → blk (disk k3) m = recovered start (disk k) m ∧
    recovered start (disk k3) m = recovered start (disk k) m) as Hfin.
  { intros m Hm. rewrite Hdk3, <- (Hr1 m Hm). by eapply cleared_recovered. }
  assert (lists (blk (disk k3) start) []) as Hl3 by (rewrite Hdk3; apply lists_insert; [done|cbn; lia|constructor]).
  exists k3, (obs1 ++ obs3). split_and!; [|done| |done| |].
  - eapply runs_bind.
    + unfold install_trans, lh_turns. rewrite bind_gets, (la_n _ _ _ L), Nat2Z.id. exact E1.
    + unfold upd_log. rewrite bind_modify. exact E3.
  - eapply log_at_frame; [done|]. eapply log_at_clear, log_at_frame; done.
  - apply Forall_app. split; (eapply Forall_impl; [eassumption|]); cbn; unfold header_in.
    + intros s [Hs1 Hs2]%Hrec. auto.
    + intros s [-> | ->]; [by auto|]. split; [by left|]. intros m Hm. by apply Hfin.
  - intros m Hm. by apply Hfin.
Qed.

(** The state in which [end_op] commits: the transaction's blocks are in the
    cache and dirty, and the log on the disk is empty. *)
Record committable (k : kernel) (pid start : Z) (bs : list Z) : Prop := {
  cm_idle : idle_cache k pid bs;
  cm_log : log_at k start bs;
  cm_room : (length bs < NBUF)%nat;
  cm_dirty : ∀ b, b ∈ bs → dirty k b;
  cm_empty : lists (blk (disk k) start) []
}.

(** Writing the log and its header: up to the header recovery shows the old
    blocks, from then on the new ones. *)
Lemma write_log_head_ok k pid start bs :
  committable k pid start bs →
  ∃ k' obs, runs ((write_log;;; write_head) k) obs tt k' ∧
    idle_cache k' pid bs ∧ bio_frame k k' ∧ (∀ b, b ∈ bs → dirty k' b) ∧ lists (blk (disk k') start) bs ∧
    (∀ m, home start m → recovered start (disk k') m = content k m) ∧
    Forall (λ s, header_in start bs s ∧
      ((∀ m, home start m → recovered start (disk s) m = blk (disk k) m) ∨
       (∀ m, home start m → recovered start (disk s) m = content k m))) obs.
Proof.
  intros [I L Hlen Hall Hem].
  assert (¬ home start start) as Hst by (unfold home; change LOGSIZE with 30; lia).
  assert (start ∉ bs) as Hsb by (intros H; by apply Hst, (log_at_home _ _ _ L)).
  assert (∀ u, start ≠ log_block start u) as Hsl by (intros u; unfold log_block; lia).
  destruct (write_log_loop_ok T D HT (S (length bs)) 0 k pid start bs) as
    (k1 & obs1 & E1 & I1 & F1 & Hall1 & O1 & Hct1 & Hlog1); try done; [lia..|].
  assert (content k1 start = blk (disk k) start) as Ec.
  { rewrite Hct1 by (intros u _; apply Hsl). by eapply idle_content. }
  destruct (write_head_ok T D HT k1 pid start bs bs) as (k2 & obs2 & E2 & O2 & I2 & F2 & Hdk2 & _ & Hdt2);
    [done|by eapply log_at_frame|done|rewrite Ec; apply Hem|].
  rewrite Ec in Hdk2. pose proof (log_at_u32 _ _ _ L) as Hu.
  assert (lists (blk (disk k2) start) bs) as Hl2.
  { rewrite Hdk2. apply lists_insert; [apply Hem|apply (la_length _ _ _ L)|]. apply Forall_forall.
    intros b Hb. destruct (la_home _ _ _ L b Hb) as (? & ? & _). lia. }
  assert (∀ s, (∀ m, (∀ u, (0 <= u < length bs)%nat → m ≠ log_block start u) → disk s !! m = disk k !! m) →
    lists (blk (disk s) start) [] ∧ ∀ m, home start m → recovered start (disk s) m = blk (disk k) m) as Hold.
  { intros s Hs. assert (lists (blk (disk s) start) []) as Hl.
    { unfold blk. rewrite Hs; [done|]. intros u _. apply Hsl. }
    split; [done|]. intros m Hm. rewrite (recovered_out start (disk s) []); [|done|apply not_elem_of_nil].
    unfold blk. rewrite Hs; [done|]. intros u Hu' ->. eapply log_block_home; [done| |done]. lia. }
  inversion_clear O1 as [|? ? O1a O1b].
  assert (∀ m, m ≠ start → disk k2 !! m = disk k1 !! m) as H21 by (intros m Hm; rewrite Hdk2; by apply lookup_insert_ne).
  assert (∀ m, home start m → recovered start (disk k2) m = content k m) as Hnew.
  { intros m Hm. destruct (decide (m ∈ bs)) as [[u Hu']%list_elem_of_lookup|Hni].
    - rewrite (recovered_in start _ bs u m) by (done || apply (la_nodup _ _ _ L)). unfold blk.
      rewrite H21 by (symmetry; apply Hsl). by rewrite (Hlog1 u m) by (done || lia).
    - rewrite (recovered_out start _ bs m) by done. rewrite (idle_content k pid bs) by done.
      unfold blk. rewrite H21 by congruence. rewrite O1a; [done|]. intros u Hu' ->.
      eapply log_block_home; [done| |done]. lia. }
  exists k2, (obs1 ++ obs2). split_and!; [|done|by eapply bio_frame_trans| |done|done|].
  - eapply runs_bind; [|exact E2].
    unfold write_log, lh_turns. rewrite bind_gets, (la_n _ _ _ L), Nat2Z.id. exact E1.
  - intros b Hb. apply Hdt2. split; [congruence|by apply Hall1].
  - apply Forall_app. split; (eapply Forall_impl; [eassumption|]); cbn.
    + intros s [Hs1 Hs2]%Hold. split; [by left|by left].
    + destruct (Hold k1 O1a) as [Hs1 Hs2]. intros s [Hs|Hs]; unfold header_in; rewrite Hs; auto.
Qed.

Lemma commit_ok k pid start bs :
  committable k pid start bs →
  ∃ k' obs, runs (commit k) obs tt k' ∧ idle_cache k' pid [] ∧ log_at k' start [] ∧
    lists (blk (disk k') start) [] ∧ (∀ m, home start m → blk (disk k') m = content k m) ∧
    Forall (λ s, header_in start bs s ∧
      ((∀ m, home start m → recovered start (disk s) m = blk (disk k) m) ∨
       (∀ m, home start m → recovered start (disk s) m = content k m))) obs.
Proof.
  intros Hc. pose proof (cm_log _ _ _ _ Hc) as L. unfold commit. rewrite bind_gets, (la_n _ _ _ L).
  destruct (Z.ltb_spec 0 (Z.of_nat (length bs))) as [Hpos|Hz]; cbn iota.
  - destruct (write_log_head_ok k pid start bs Hc) as (k1 & obs1 & E1 & I1 & F1 & Hd1 & Hl1 & Hr1 & O1).
    destruct (install_clear_ok k1 pid start bs bs) as (k2 & obs2 & E2 & I2 & L2 & Hl2 & O2 & Hb2); try done.
    { by eapply log_at_frame. } { apply (cm_room _ _ _ _ Hc). } { by left. }
    exists k2, (obs1 ++ obs2). split_and!; [|done..| |].
    + rewrite <- (bind_assoc write_log (λ _, write_head)). eapply runs_bind; [exact E1|exact E2].
    + intros m Hm. by rewrite Hb2, Hr1.
    + apply Forall_app. split; [done|]. eapply Forall_impl; [exact O2|]. cbn. intros s [Hh Hs].
      split; [done|]. right. intros m Hm. by rewrite Hs, Hr1.
  - destruct bs; [|cbn [length] in Hz; lia]. destruct Hc as [I _ _ _ Hl]. exists k, []. split_and!; [|done..| |done].
    + constructor.
    + intros m Hm. symmetry. eapply idle_content; [done|]. apply not_elem_of_nil.
Qed.

Lemma recover_ok k pid start bs :
  idle_cache k pid [] → log_area k start bs → lists (blk (disk k) start) bs →
  ∃ k' obs, runs (recover_from_log k) obs tt k' ∧ idle_cache k' pid [] ∧ log_at k' start [] ∧
    lists (blk (disk k') start) [] ∧
    Forall (λ s, header_in start bs s ∧
      ∀ m, home start m → recovered start (disk s) m = recovered start (disk k) m) obs ∧
    (∀ m, home start m → blk (disk k') m = recovered start (disk k) m).
Proof.
  intros I L Hl. destruct (read_head_ok T D k pid start bs HT I L) as (k1 & obs1 & E1 & O1 & I1 & _ & L1 & Hdk & _).
  { rewrite (idle_content k pid []); [done..|]. apply not_elem_of_nil. }
  destruct (install_clear_ok k1 pid start bs []) as (k2 & obs2 & E2 & I2 & L2 & Hl2 & O2 & Hb2);
    [done|done|unfold NBUF; cbn; lia|by intros b ?%not_elem_of_nil|right; unfold NBUF; cbn; lia|by rewrite Hdk|].
  rewrite Hdk in O2, Hb2. exists k2, (obs1 ++ obs2). split_and!; [|done..| |done].
  - eapply runs_bind; [exact E1|exact E2].
  - apply Forall_app. split; [|done]. eapply Forall_impl; [exact O1|]. cbn. intros s Hs.
    unfold header_in. rewrite Hs. auto.
Qed.
End crash.

(** ** Adding a block to the transaction *)

(** The entries after [log_write] of block [n]: a block that is already logged
    is absorbed. *)
Definition absorb (bs : list Z) (n : Z) : list Z := if decide (n ∈ bs) then bs else bs ++ [n].

Lemma log_find_ok fuel k start bs n t :
  log_at k start bs → (t <= length bs)%nat → (length bs < fuel + t)%nat →
  ∃ u, log_find fuel n (Z.of_nat t) k = Ret (Z.of_nat u) k ∧
    (bs !! u = Some n ∨ u = length bs ∧ ∀ v, (t <= v)%nat → bs !! v ≠ Some n).
Proof.
  intros L. revert t. induction fuel as [|fuel IH]; intros t Ht Hf; [lia|]. cbn [log_find].
  rewrite bind_gets, (la_n _ _ _ L). destruct (Z.ltb_spec (Z.of_nat t) (Z.of_nat (length bs))) as [Hlt|Hge]; cbn [negb].
  2: { exists (length bs). replace t with (length bs) by lia. split; [done|]. right. split; [done|].
    intros v Hv Hb%lookup_lt_Some. lia. }
  destruct (lookup_lt_is_Some_2 bs t) as [b Hb]; [lia|].
  rewrite (bind_Ret _ _ _ _ _ (get_lh_Ret k (Z.of_nat t) b ltac:(lia) ltac:(rewrite Nat2Z.id; by apply (la_lh _ _ _ L)))).
  destruct (la_home _ _ _ L b) as (Hr & H31 & _); [by eapply list_elem_of_lookup_2|].
  rewrite (u32_small b) by lia. destruct (Z.eqb_spec b n) as [->|Hne]; [exists t; by split; [|left]|].
  replace (Z.of_nat t + 1) with (Z.of_nat (S t)) by lia.
  destruct (IH (S t)) as (u & E & Hu); [lia..|]. exists u. split; [done|].
  destruct Hu as [|[-> Hno]]; [by left|right]. split; [done|]. intros v Hv Hn.
  destruct (decide (v = t)) as [->|]; [congruence|]. apply (Hno v); [lia|done].
Qed.

(** What [log_write] leaves in the header in memory. *)
Lemma log_at_absorb k k' start bs n u :
  log_at k start bs → (length bs < Z.to_nat LOGSIZE)%nat →
  0 <= n < u32 (disksize k) → n < 2 ^ 31 → home start n → disksize k' = disksize k →
  (bs !! u = Some n ∨ u = length bs ∧ ∀ v, (0 <= v)%nat → bs !! v ≠ Some n) →
  log k' = (log k) <|lh_block ::= <[u:=n]>|>
    <|lh_n := if Z.of_nat u =? lh_n (log k) then lh_n (log k) + 1 else lh_n (log k)|> →
  log_at k' start (absorb bs n).
Proof.
  intros L Hlen Hr H31 Hh Ez Hu El. pose proof (la_size _ _ _ L) as Hsz. rewrite (la_n _ _ _ L) in El.
  destruct L as [L1 L2 L3 L4 L5 L6 L7 L8 L9]. unfold absorb.
  destruct Hu as [Hu|[-> Hno]].
  - pose proof (lookup_lt_Some _ _ _ Hu) as Hlt. destruct (Z.eqb_spec (Z.of_nat u) (Z.of_nat (length bs))); [lia|].
    rewrite decide_True by (by eapply list_elem_of_lookup_2).
    split; rewrite ?El, ?Ez; rsimpl; try done.
    + intros t b Hb. destruct (decide (t = u)) as [->|]; [|rewrite list_lookup_insert_ne by done; by apply L4].
      rewrite list_lookup_insert_eq by lia. congruence.
    + by rewrite length_insert.
  - rewrite Z.eqb_refl in El. assert (n ∉ bs) as Hni.
    { intros [v Hv]%list_elem_of_lookup. apply (Hno v); [lia|done]. }
    rewrite decide_False by done. split; rewrite ?El, ?Ez; rsimpl; try done.
    + rewrite length_app. cbn [length]. lia.
    + intros t b [Hb|[Hge Hb]]%lookup_app_Some.
      * rewrite list_lookup_insert_ne; [by apply L4|]. apply lookup_lt_Some in Hb. lia.
      * apply list_lookup_singleton_Some in Hb as [Hz <-]. replace t with (length bs) by lia.
        apply list_lookup_insert_eq. lia.
    + by rewrite length_insert.
    + intros b [Hb|Hb]%elem_of_app; [by apply L7|]. apply list_elem_of_singleton in Hb as ->.
      exact (conj Hr (conj H31 Hh)).
    + apply NoDup_app. split_and!; [done| |apply NoDup_singleton].
      intros x Hx ->%list_elem_of_singleton. done.
    + rewrite length_app. cbn [length]. lia.
Qed.


(** A transaction is open and has room for one more block. *)
Definition loggable (k : kernel) (start : Z) (bs : list Z) : Prop :=
  log_at k start bs ∧ is_Some (locks k !! LLog) ∧ 1 <= lg_outstanding (log k) ∧
  Z.of_nat (length bs) < LOGSIZE ∧ Z.of_nat (length bs) < lg_size (log k) - 1.

(** A client changed the data of its buffer to [d]; [log_write] makes that the
    content of the block. *)
Lemma log_write_ok k pid H l i b n d start bs :
  quiet k pid → cache_ok k pid H l → i ∈ H → bufs k !! i = Some b → caches n b →
  loggable k start bs → n < 2 ^ 31 → home start n →
  ∃ k', log_write i (k <|bufs ::= <[i:=b <|b_data := d|>]>|>) = Ret tt k' ∧ calmly k k' ∧
    cache_ok k' pid H l ∧ log_at k' start (absorb bs n) ∧
    (∀ m, content k' m = if decide (m = n) then d else content k m) ∧
    (∀ m, dirty k' m ↔ m = n ∨ dirty k m) ∧
    k' = k <|cpus := cpus k'|> <|log := log k'|>
           <|bufs ::= <[i:=b <|b_data := d|> <|b_flags := Z.lor B_VALID B_DIRTY|>]>|> ∧
    log k' = (log k) <|lh_block := lh_block (log k')|> <|lh_n := lh_n (log k')|>.
Proof.
  intros Hq C Hi Hb Hc (L & Hll & Hout & Hsz1 & Hsz2) H31 Hh.
  destruct (bc_range _ _ _ _ C i b n Hb Hc) as [Hn0 Hn1].
  set (k0 := k <|bufs ::= _|>). set (b0 := b <|b_data := d|>) in k0.
  pose proof (lookup_lt_Some _ _ _ Hb) as Hlt.
  assert (calmly k k0) as Hk0 by (apply calmly_same; [by split_and!|by intros []]).
  assert (quiet k0 pid) as Hq0 by by eapply calmly_quiet.
  set (k1 := enter LLog k0).
  assert (log_at k1 start bs) as L1 by (by destruct L).
  destruct (log_find_ok (S (length bs)) k1 start bs n 0 L1) as (u & Ef & Hu); [lia..|].
  assert (u < 30)%nat as Hu30.
  { change LOGSIZE with 30 in *. destruct Hu as [?%lookup_lt_Some|[-> _]]; lia. }
  set (lg' := λ l, l <|lh_block ::= <[u:=n]>|> <|lh_n := if Z.of_nat u =? lh_n (log k) then lh_n (log k) + 1 else lh_n (log k)|>).
  set (b2 := b <|b_data := d|> <|b_flags := Z.lor B_VALID B_DIRTY|>).
  set (k2 := k1 <|log ::= lg'|> <|bufs ::= <[i:=b2]>|>).
  destruct (release_quiet k0 LLog pid k2 Hq0 Hll) as [Er Hcalm]; [by split_and!|by intros []|].
  assert (u32 n = n) as Eu by (apply u32_small; lia).
  assert (i32 n = n) as Ei by (apply wraps_small; lia).
  exists (leave k0 k2). split.
  - unfold log_write. rewrite bind_gets. change (log k0) with (log k). rewrite (la_n _ _ _ L).
    change LOGSIZE with 30 in *. destruct (Z.leb_spec 30 (Z.of_nat (length bs))); [lia|].
    destruct (Z.leb_spec (lg_size (log k) - 1) (Z.of_nat (length bs))); [lia|]. cbn [orb].
    destruct (Z.ltb_spec (lg_outstanding (log k)) 1); [lia|].
    rewrite (bind_Ret _ _ _ _ _ (acquire_quiet _ _ _ Hq0 Hll)). fold k1.
    rewrite (bind_Ret _ _ _ _ _ (get_buf_Ret k1 i b0 (list_lookup_insert_eq _ _ _ Hlt))).
    unfold lh_turns. rewrite bind_gets, (la_n _ _ _ L1), Nat2Z.id.
    replace (b_blockno b0) with n by (by destruct Hc). change 0 with (Z.of_nat 0). rewrite (bind_Ret _ _ _ _ _ Ef).
    unfold set_lh. rewrite bind_assoc, bind_gets. change LOGSIZE with 30.
    destruct (Z.ltb_spec (Z.of_nat u) 0), (Z.leb_spec 30 (Z.of_nat u)); [lia..|]. cbn [orb].
    rewrite Ei. unfold upd_log at 1. rewrite bind_modify, bind_assoc, bind_gets, Nat2Z.id.
    rewrite (bind_Ret _ _ _ tt (k1 <|log ::= lg'|>)).
    2: { unfold lg'. rsimpl. change (log k1) with (log k).
      destruct (Z.of_nat u =? lh_n (log k)); unfold upd_log, modify, ret; f_equal; kext; by destruct (log k). }
    rewrite (bind_Ret _ _ _ tt k2); [exact Er|].
    rewrite (upd_buf_Ret _ i b0) by exact (list_lookup_insert_eq _ _ _ Hlt). f_equal. unfold k2, b2. kext.
    change (b_flags b0) with (b_flags b). destruct (bc_flags _ _ _ _ C i b Hb) as [[_ ?]|[E|E]]; [done|..]; by rewrite E.
  - assert (bufs (leave k0 k2) = <[i:=b2]> (bufs k)) as Ebufs by (apply list_insert_insert_eq).
    destruct (held_upd k (leave k0 k2) pid H l i b n d (Z.lor B_VALID B_DIRTY) C Hi Hb Hc Ebufs)
      as (C' & Hct & Hdt); [done..|by right|].
    split_and!; [by eapply calmly_trans|done| |done| | |].
    + eapply (log_at_absorb k _ start bs n u); [exact L| |done|exact H31|exact Hh|reflexivity|exact Hu|reflexivity].
      change (Z.to_nat LOGSIZE) with 30%nat. change LOGSIZE with 30 in *. lia.
    + intros m. rewrite (Hdt m). destruct (decide (m = n)); [|tauto]. tauto.
    + clear - Ebufs. apply kernel_ext; first [exact Ebufs|reflexivity].
    + change (log (leave k0 k2)) with (lg' (log k)). unfold lg'. clear. by destruct (log k).
Qed.

(** C27: Recovery is correct and may itself crash.  When the header on the disk
    lists [bs], [recover_from_log] on a freshly started kernel installs the
    logged blocks and clears the header; at every disk access on the way the
    disk still recovers to the same blocks. *)
Theorem recovery_correct (T : Turns) (D : Driver) (k : kernel) (pid start : Z) (bs : list Z) :
  DriverLaws D → (0 < T)%nat → idle_cache k pid [] → log_area k start bs → lists (blk (disk k) start) bs →
  ∃ k' obs, runs (recover_from_log k) obs tt k' ∧ idle_cache k' pid [] ∧ log_at k' start [] ∧
    lists (blk (disk k') start) [] ∧
    Forall (λ s, header_in start bs s ∧
      ∀ m, home start m → recovered start (disk s) m = recovered start (disk k) m) obs ∧
    (∀ m, home start m → blk (disk k') m = recovered start (disk k) m).
Proof.
  intros HD HT I L Hl. apply recover_ok; done.
Qed.

(** C5: A commit is atomic with respect to crashes.  [commit] of the blocks
    [bs] writes their contents to their home blocks and leaves an empty log;
    and whenever the machine stops at one of the disk accesses, recovery on the
    next start shows for all the blocks outside the log what was on the disk
    before the commit, or for all of them what the transaction wrote. *)
Theorem commit_atomic (T : Turns) (D : Driver) (k : kernel) (pid start : Z) (bs : list Z) :
  DriverLaws D → (0 < T)%nat → committable k pid start bs →
  ∃ k' obs, runs (commit k) obs tt k' ∧ idle_cache k' pid [] ∧ log_at k' start [] ∧
    lists (blk (disk k') start) [] ∧ (∀ m, home start m → blk (disk k') m = content k m) ∧
    Forall (λ s, ∀ k0 pid0, disk k0 = disk s → idle_cache k0 pid0 [] → log_area k0 start bs →
      ∃ k1 obs1, runs (recover_from_log k0) obs1 tt k1 ∧
        ((∀ m, home start m → blk (disk k1) m = blk (disk k) m) ∨
         (∀ m, home start m → blk (disk k1) m = content k m))) obs.
Proof.
  intros HD HT Hc. destruct (commit_ok T D HT k pid start bs Hc) as (k' & obs & E & I & L & Hl & Hm & O).
  exists k', obs. split_and!; [done..|]. eapply Forall_impl; [exact O|].
  intros s [Hh Hr] k0 pid0 Ed I0 L0. unfold header_in in Hh. rewrite <- Ed in Hh, Hr.
  assert (∃ bs', log_area k0 start bs' ∧ lists (blk (disk k0) start) bs') as (bs' & L' & Hl').
  { destruct Hh; [exists []; split; [by eapply log_area_nil|done]|by exists bs]. }
  destruct (recover_ok T D HT k0 pid0 start bs' I0 L' Hl') as (k1 & obs1 & E1 & _ & _ & _ & _ & Hb).
  exists k1, obs1. split; [done|].
  destruct Hr as [Hr|Hr]; [left|right]; intros m Hm'; by rewrite Hb, Hr.
Qed.

(** ** Witnesses *)

(** An empty log of the demonstration disk, at block 2, with one transaction
    open. *)
Definition demo_log : log_t := MkLog 2 30 1 false 1 0 (replicate 30 0).

(** The transaction that writes sevens to block 100. *)
Lemma demo_transaction :
  ∃ k, committable k 1 2 [100] ∧ content k 100 = replicate 512 7 ∧ blk (disk k) 100 = zero_block.
Proof.
  destruct (demo_cache_on ∅) as (k0 & l & _ & Hq & C & Hcl & Hz & Hct & Hdk & Hlk).
  set (k := k0 <|log := demo_log|>).
  assert (cache_ok k 1 ∅ l) as Ck by (by apply cache_ok_log).
  assert (log_at k 2 []) as L.
  { split; try done; [change (disksize k) with (disksize k0); by rewrite Hz|by intros b ?%not_elem_of_nil|constructor|cbn; lia]. }
  destruct (bread_ok 1%nat memide_driver k 1 ∅ l 100) as
    (i & b & k1 & obs & E & _ & Q1 & F1 & _ & C1 & Hb & Hc & _ & Hct1 & Hdt1 & Hdk1 & _); try done.
  { destruct (lookup_lt_is_Some_2 (bufs k) 0) as [b Hb]; [rewrite (bc_len _ _ _ _ Ck); unfold NBUF; lia|].
    exists 0%nat, b. split_and!; [done|set_solver|right; by eapply Hcl]. }
  { apply Nat.lt_0_1. }
  { change (disksize k) with (disksize k0). rewrite Hz. done. }
  rewrite (right_id_L ∅ (∪) {[i]}) in C1.
  assert (calmly k k1) as Hcalm by done.
  destruct (log_write_ok k1 1 {[i]} l i b 100 (replicate 512 7) 2 []) as
    (k2 & E2 & Q2 & C2 & L2 & Hct2 & Hdt2 & Ek2 & _).
  { by eapply calmly_quiet. } { done. } { by apply elem_of_singleton. } { done. } { done. }
  { assert (locks k1 = locks k0) as El by apply Q1. destruct (frame_log _ _ F1) as [El1 _].
    split_and!; [by eapply log_at_frame| |by rewrite El1|done|by rewrite El1]. rewrite El, Hlk by done. by eexists. }
  { done. } { right. done. }
  pose proof (lookup_lt_Some _ _ _ Hb) as Hi. rewrite (bc_len _ _ _ _ C1) in Hi.
  destruct (brelse_ok k2 1 {[i]} l i) as (k3 & l1 & l2 & E3 & Q3 & F3 & _ & C3 & S3).
  { eapply calmly_quiet; [exact Q2|]. by eapply calmly_quiet. } { done. } { by apply elem_of_singleton. } { done. }
  assert (({[i]} : gset nat) ∖ {[i]} = ∅) as EH by (clear; set_solver). rewrite EH in C3.
  destruct (same_blocks_view _ _ S3) as [V3 W3]. destruct S3 as [_ Hdk3].
  assert (disk k3 = ∅) as Hd3 by (rewrite Hdk3, Ek2; rsimpl; rewrite Hdk1; exact Hdk).
  assert (∀ m, dirty k3 m ↔ m = 100) as Hdirty.
  { intros m. rewrite W3, Hdt2, Hdt1. split; [intros [|(j & x & Hx & _ & Hf)]; [done|]|by left].
    by destruct (Hcl j x Hx). }
  exists k3. split; [split|split].
  - split; [|by eexists|].
    + eapply calmly_quiet; [exact Q3|]. eapply calmly_quiet; [exact Q2|]. by eapply calmly_quiet.
    + intros m ->%Hdirty. apply list_elem_of_here.
  - by eapply log_at_frame.
  - unfold NBUF. cbn. lia.
  - intros m ->%list_elem_of_singleton. by apply Hdirty.
  - unfold blk. rewrite Hd3, lookup_empty. cbn [default from_option].
    split_and!; [done|vm_compute; reflexivity|cbn; lia|constructor].
  - by rewrite V3, Hct2.
  - unfold blk. by rewrite Hd3, lookup_empty.
Qed.

Lemma commit_atomic_witness :
  ∃ k k' obs, runs (@commit 1%nat observed_driver k) obs tt k' ∧ blk (disk k) 100 = zero_block ∧
    blk (disk k') 100 = replicate 512 7.
Proof.
  destruct demo_transaction as (k & Hc & Hct & Hb).
  destruct (commit_atomic 1%nat observed_driver k 1 2 [100] observed_laws) as (k' & obs & E & _ & _ & _ & Hm & _);
    [lia|exact Hc|].
  exists k, k', obs. refine (conj E (conj Hb _)). rewrite <- Hct. apply Hm. right. reflexivity.
Defined.

(** A disk on which a transaction with block 100 was committed but not yet
    installed. *)
Definition logged_disk : gmap Z (list Z) :=
  <[2:=hdr_data zero_block (hdr_entries [100])]> {[3:=replicate 512 7]}.

Lemma recovery_correct_witness :
  ∃ k k' obs, runs (@recover_from_log 1%nat memide_driver k) obs tt k' ∧ disk k = logged_disk ∧
    blk (disk k) 100 = zero_block ∧ blk (disk k') 100 = replicate 512 7.
Proof.
  destruct (demo_cache_on logged_disk) as (k0 & l & _ & Hq & C & Hcl & Hz & Hct & Hdk & _).
  set (k := k0 <|log := demo_log|>).
  assert (lists (blk logged_disk 2) [100]) as Hl.
  { split_and!; [reflexivity|vm_compute; reflexivity|cbn; lia|repeat constructor; lia]. }
  destruct (recovery_correct 1%nat memide_driver k 1 2 [100] memide_laws) as (k' & obs & E & _ & _ & _ & _ & Hm).
  { lia. }
  { split; [exact Hq|exists l; by apply cache_ok_log|]. intros m (i & b & Hb & _ & Hf). by destruct (Hcl i b Hb). }
  { split; [done|done|done| | |apply NoDup_singleton]; change (disksize k) with (disksize k0); rewrite Hz; [done|].
    intros b ->%list_elem_of_singleton. split_and!; [done|done|done|by right]. }
  { change (disk k) with (disk k0). rewrite Hdk. exact Hl. }
  exists k, k', obs. refine (conj E (conj Hdk _)). rewrite Hm by (right; reflexivity).
  change (disk k) with (disk k0). rewrite Hdk. split; [reflexivity|].
  exact (recovered_in 2 logged_disk [100] 0 100 Hl (NoDup_singleton 100) eq_refl).
Defined.
