(* ===== verification/Inode.v ===== *)
(** The lower half of [fs.c]: blocks, and the cache of inodes.

    A [struct inode *] is a slot of the cache.  Fields of the on-disk inodes
    and of the bitmap are read and written in the data of buffers. *)

From stdpp Require Import base gmap strings list.
From Stdlib Require Import ZArith Lia.
From S2P Require Import Prelude Heap CString Mmu State Disk Spinlock Kalloc Vm Proc Sleeplock Bio Log User Kbd Print.
#[local] Open Scope Z_scope.

(** ** The code *)

(** The data of a buffer. *)
Definition buf_data (i : nat) : M kernel (list Z) := let! b := get_buf i in ret (b_data b).
Definition set_data (i : nat) (d : list Z) : M kernel unit := upd_buf i (λ b, b <|b_data := d|>).

Definition get_inode (i : nat) : M kernel inode := λ k,
  match icache k !! i with Some x => Ret x k | None => Fault end.
Definition upd_inode (i : nat) (f : inode → inode) : M kernel unit :=
  let! _ := get_inode i in modify (λ k, k <|icache ::= alter f i|>).

Section inode.
Context `{Turns} `{Driver}.

Definition bzero (dev bno : Z) : M kernel unit :=
  let! bp := bread (u32 dev) (u32 bno) in
  set_data bp zero_block;;;
  log_write bp;;;
  brelse bp.

(** The search for a clear bit in one bitmap block, which sets it. *)
Fixpoint balloc_bits (fuel : nat) (bp : nat) (b bi : Z) : M kernel (option Z) :=
  match fuel with
  | O => λ _, Loop
  | S fuel =>
      let! size := gets (λ k, sb_size (sb k)) in
      if negb ((bi <? BPB) && (u32 (b + bi) <? size)) then ret None else
      let m := Z.shiftl 1 (bi mod 8) in
      let! d := buf_data bp in
      let! x := get_some (d !! Z.to_nat (bi / 8)) in
      if Z.land x m =? 0 then
        set_data bp (<[Z.to_nat (bi / 8):=u8 (Z.lor x m)]> d);;;
        ret (Some bi)
      else balloc_bits fuel bp b (bi + 1)
  end.

Fixpoint balloc_loop (fuel : nat) (dev b : Z) : M kernel Z :=
  match fuel with
  | O => λ _, Loop
  | S fuel =>
      let! s := gets sb in
      if negb (u32 b <? sb_size s) then panic "balloc: out of blocks" else
      let! bp := bread dev (BBLOCK b s) in
      let! r := balloc_bits (S (Z.to_nat BPB)) bp b 0 in
      match r with
      | Some bi =>
          log_write bp;;;
          brelse bp;;;
          bzero dev (b + bi);;;
          ret (u32 (b + bi))
      | None =>
          brelse bp;;;
          balloc_loop fuel dev (b + BPB)
      end
  end.

Definition balloc (dev : Z) : M kernel Z :=
  let! size := gets (λ k, sb_size (sb k)) in
  balloc_loop (S (S (Z.to_nat (size / BPB)))) dev 0.

Definition bfree (dev b : Z) : M kernel unit :=
  let! s := gets sb in
  let! bp := bread (u32 dev) (BBLOCK b s) in
  let bi := b mod BPB in
  let m := Z.shiftl 1 (bi mod 8) in
  let! d := buf_data bp in
  let! x := get_some (d !! Z.to_nat (bi / 8)) in
  if Z.land x m =? 0 then panic "freeing free block" else
  set_data bp (<[Z.to_nat (bi / 8):=Z.land x (Z.lnot m)]> d);;;
  log_write bp;;;
  brelse bp.

Fixpoint iinit_loop (n i : nat) : M kernel unit :=
  match n with
  | O => ret tt
  | S n => initsleeplock (SlInode i);;; iinit_loop n (S i)
  end.

Definition iinit (dev : Z) : M kernel unit :=
  initlock LIcache "icache";;;
  iinit_loop NINODE 0;;;
  (let! s := readsb (u32 dev) in
   modify (λ k, k <|sb := s|>));;;
  let! s := gets sb in
  cprintf (chars "sb: size %d nblocks %d ninodes %d nlog %d logstart %d inodestart %d bmap start %d" ++ [newline])
    [Word (sb_size s); Word (sb_nblocks s); Word (sb_ninodes s); Word (sb_nlog s); Word (sb_logstart s);
     Word (sb_inodestart s); Word (sb_bmapstart s)].

(** The slot of inode [inum], or the first slot without references. *)
Fixpoint iget_find (n i : nat) (dev inum : Z) (empty : option nat) : M kernel (nat + option nat) :=
  match n with
  | O => ret (inr empty)
  | S n =>
      let! ip := get_inode i in
      if (0 <? i_ref ip) && (i_dev ip =? dev) && (i_inum ip =? inum) then ret (inl i)
      else
        iget_find n (S i) dev inum
          (match empty with Some _ => empty | None => if i_ref ip =? 0 then Some i else None end)
  end.

Definition iget (dev inum : Z) : M kernel nat :=
  acquire LIcache;;;
  let! r := iget_find NINODE 0 dev inum None in
  match r with
  | inl ip =>
      upd_inode ip (λ x, x <|i_ref := i32 (i_ref x + 1)|>);;;
      release LIcache;;;
      ret ip
  | inr None => panic "iget: no inodes"
  | inr (Some ip) =>
      upd_inode ip (λ x, x <|i_dev := dev|> <|i_inum := inum|> <|i_ref := 1|> <|i_valid := false|>);;;
      release LIcache;;;
      ret ip
  end.

(** [(struct dinode * ) bp->data + inum % IPB] *)
Definition get_dinode (bp : nat) (inum : Z) : M kernel dinode :=
  let! d := buf_data bp in
  let! bs := get_some (slice d (DINODE_SIZE * (inum mod IPB)) DINODE_SIZE) in
  ret (dinode_of bs).
Definition set_dinode (bp : nat) (inum : Z) (x : dinode) : M kernel unit :=
  let! d := buf_data bp in
  let! d' := get_some (splice d (DINODE_SIZE * (inum mod IPB)) (dinode_bytes x)) in
  set_data bp d'.

Fixpoint ialloc_loop (fuel : nat) (dev type inum : Z) : M kernel nat :=
  match fuel with
  | O => λ _, Loop
  | S fuel =>
      let! s := gets sb in
      if negb (inum <? sb_ninodes s) then panic "ialloc: no inodes" else
      let! bp := bread dev (IBLOCK inum s) in
      let! dip := get_dinode bp inum in
      if d_type dip =? 0 then
        set_dinode bp inum (MkDinode type 0 0 0 0 (replicate 13 0));;;
        log_write bp;;;
        brelse bp;;;
        iget dev inum
      else
        brelse bp;;;
        ialloc_loop fuel dev type (inum + 1)
  end.

Definition ialloc (dev type : Z) : M kernel nat :=
  let! n := gets (λ k, sb_ninodes (sb k)) in
  ialloc_loop (S (Z.to_nat n)) dev type 1.

Definition iupdate (ip : nat) : M kernel unit :=
  let! x := get_inode ip in
  let! s := gets sb in
  let! bp := bread (i_dev x) (IBLOCK (i_inum x) s) in
  let! x := get_inode ip in
  set_dinode bp (i_inum x) (MkDinode (i_type x) (i_major x) (i_minor x) (i_nlink x) (i_size x) (i_addrs x));;;
  log_write bp;;;
  brelse bp.

Definition idup (ip : nat) : M kernel nat :=
  acquire LIcache;;;
  upd_inode ip (λ x, x <|i_ref := i32 (i_ref x + 1)|>);;;
  release LIcache;;;
  ret ip.

Definition ilock (ip : nat) : M kernel unit :=
  let! x := get_inode ip in
  if i_ref x <? 1 then panic "ilock" else
  acquiresleep (SlInode ip);;;
  let! x := get_inode ip in
  if i_valid x then ret tt else
  let! s := gets sb in
  let! bp := bread (i_dev x) (IBLOCK (i_inum x) s) in
  let! dip := get_dinode bp (i_inum x) in
  upd_inode ip (λ x, x <|i_type := d_type dip|> <|i_major := d_major dip|> <|i_minor := d_minor dip|>
    <|i_nlink := d_nlink dip|> <|i_size := d_size dip|> <|i_addrs := d_addrs dip|>);;;
  brelse bp;;;
  upd_inode ip (λ x, x <|i_valid := true|>);;;
  let! x := get_inode ip in
  if i_type x =? 0 then panic "ilock: no type" else ret tt.

Definition iunlock (ip : nat) : M kernel unit :=
  let! h := holdingsleep (SlInode ip) in
  let! x := get_inode ip in
  if negb h || (i_ref x <? 1) then panic "iunlock" else
  releasesleep (SlInode ip).

(** The loop over the direct blocks in [itrunc]. *)
Fixpoint itrunc_direct (n : nat) (ip : nat) (i : nat) : M kernel unit :=
  match n with
  | O => ret tt
  | S n =>
      let! x := get_inode ip in
      let! a := get_some (i_addrs x !! i) in
      (when negb (a =? 0) do
         (bfree (i_dev x) a;;;
          upd_inode ip (λ x, x <|i_addrs ::= <[i:=0]>|>)));;;
      itrunc_direct n ip (S i)
  end.

(** The loop over the indirect block. *)
Fixpoint itrunc_indirect (n : nat) (ip bp : nat) (j : Z) : M kernel unit :=
  match n with
  | O => ret tt
  | S n =>
      let! d := buf_data bp in
      let! a := get_some (get32 d (4 * j)) in
      (when negb (a =? 0) do (let! x := get_inode ip in bfree (i_dev x) a));;;
      itrunc_indirect n ip bp (j + 1)
  end.

Definition itrunc (ip : nat) : M kernel unit :=
  itrunc_direct (Z.to_nat NDIRECT) ip 0;;;
  (let! x := get_inode ip in
   let! a := get_some (i_addrs x !! Z.to_nat NDIRECT) in
   when negb (a =? 0) do
     (let! bp := bread (i_dev x) a in
      itrunc_indirect (Z.to_nat NINDIRECT) ip bp 0;;;
      brelse bp;;;
      bfree (i_dev x) a;;;
      upd_inode ip (λ x, x <|i_addrs ::= <[Z.to_nat NDIRECT:=0]>|>)));;;
  upd_inode ip (λ x, x <|i_size := 0|>);;;
  iupdate ip.

Definition iput (ip : nat) : M kernel unit :=
  acquiresleep (SlInode ip);;;
  (let! x := get_inode ip in
   when i_valid x && (i_nlink x =? 0) do
     (acquire LIcache;;;
      let! x := get_inode ip in
      let r := i_ref x in
      release LIcache;;;
      when r =? 1 do
        (itrunc ip;;;
         upd_inode ip (λ x, x <|i_type := 0|>);;;
         iupdate ip;;;
         upd_inode ip (λ x, x <|i_valid := false|>))));;;
  releasesleep (SlInode ip);;;
  acquire LIcache;;;
  upd_inode ip (λ x, x <|i_ref := i32 (i_ref x - 1)|>);;;
  release LIcache.

Definition iunlockput (ip : nat) : M kernel unit :=
  iunlock ip;;;
  iput ip.

(** [ip->addrs[i]], allocated if it is 0. *)
Definition addr_alloc (ip : nat) (i : nat) : M kernel Z :=
  let! x := get_inode ip in
  let! addr := get_some (i_addrs x !! i) in
  if addr =? 0 then
    let! addr := balloc (i_dev x) in
    upd_inode ip (λ x, x <|i_addrs ::= <[i:=addr]>|>);;;
    ret addr
  else ret addr.

Definition bmap (ip : nat) (bn : Z) : M kernel Z :=
  if bn <? NDIRECT then addr_alloc ip (Z.to_nat bn) else
  let bn := bn - NDIRECT in
  if bn <? NINDIRECT then
    let! addr := addr_alloc ip (Z.to_nat NDIRECT) in
    let! x := get_inode ip in
    let! bp := bread (i_dev x) addr in
    let! d := buf_data bp in
    let! addr := get_some (get32 d (4 * bn)) in
    let! addr :=
      (if addr =? 0 then
         let! addr := balloc (i_dev x) in
         let! d := buf_data bp in
         let! d' := get_some (put32 d (4 * bn) addr) in
         set_data bp d';;;
         log_write bp;;;
         ret addr
       else ret addr) in
    brelse bp;;;
    ret addr
  else panic "bmap: out of range".

(** The members of [struct stat] at their offsets. *)
Definition stati (ip : nat) (st : Z) : M kernel unit :=
  let! x := get_inode ip in
  vstore (u32 (st + 4)) (le 4 (i_dev x));;;
  vstore (u32 (st + 8)) (le 4 (i_inum x));;;
  vstore st (le 2 (u16 (i_type x)));;;
  vstore (u32 (st + 12)) (le 2 (u16 (i_nlink x)));;;
  vstore (u32 (st + 16)) (le 4 (i_size x)).
End inode.
