(* ===== verification/Console.v ===== *)
(** The input half of the console of [console.c]: the line editing of the
    interrupt handler, reading and writing; with the byte input of [uart.c]
    and the ports of [kbd.c]. *)

From stdpp Require Import base gmap strings list.
From Stdlib Require Import ZArith Lia Ascii.
From S2P Require Import Prelude Window Heap CString Mmu State Disk Spinlock Kalloc Vm User Kbd Print Proc Sleeplock Bio Log Inode.
#[local] Open Scope Z_scope.

(** ** Input *)

(** [kbdgetc]: -1 when no byte waits at the port. *)
Definition kbdgetc : M kernel Z :=
  let! c := gets console in
  match kbd_in c with
  | [] => ret (-1)
  | data :: rest =>
      let '(shift, r) := kbd_data (kbd_shift c) data in
      upd_console (λ x, x <|kbd_in := rest|> <|kbd_shift := shift|>);;;
      ret r
  end.

Definition uartgetc : M kernel Z :=
  let! c := gets console in
  if negb (uart c) then ret (-1) else
  match com1_in c with
  | [] => ret (-1)
  | data :: rest => upd_console (λ x, x <|com1_in := rest|>);;; ret data
  end.

Definition INPUT_BUF : Z := 128.

Definition upd_input (f : input_t → input_t) : M kernel unit := modify (λ k, k <|input ::= f|>).
(** [input.buf[i % INPUT_BUF]] *)
Definition in_cell (i : input_t) (n : Z) : Z := nth (Z.to_nat (n mod INPUT_BUF)) (in_buf i) 0.

(** The loop of [^U]. *)
Fixpoint kill_line (fuel : nat) : M kernel unit :=
  match fuel with
  | O => λ _, Loop
  | S fuel =>
      let! i := gets input in
      if negb (in_e i =? in_w i) && negb (in_cell i (u32 (in_e i - 1)) =? newline) then
        upd_input (λ i, i <|in_e := u32 (in_e i - 1)|>);;;
        consputc BACKSPACE;;;
        kill_line fuel
      else ret tt
  end.

(** One character: whether it asks for a process listing. *)
Definition consoleintr_char (c : Z) : M kernel bool :=
  if c =? C "P" then ret true
  else if c =? C "U" then
    (let! i := gets input in kill_line (S (Z.to_nat (u32 (in_e i - in_w i)))));;; ret false
  else if (c =? C "H") || (c =? 0x7f) then
    (let! i := gets input in
     when negb (in_e i =? in_w i) do
       (upd_input (λ i, i <|in_e := u32 (in_e i - 1)|>);;;
        consputc BACKSPACE));;; ret false
  else
    (let! i := gets input in
     when negb (c =? 0) && (u32 (in_e i - in_r i) <? INPUT_BUF) do
       (let c := if c =? 13 then newline else c in
        upd_input (λ i, i <|in_buf ::= <[Z.to_nat (in_e i mod INPUT_BUF):=u8 c]>|> <|in_e := u32 (in_e i + 1)|>);;;
        consputc c;;;
        let! i := gets input in
        when (c =? newline) || (c =? C "D") || (in_e i =? u32 (in_r i + INPUT_BUF)) do
          (upd_input (λ i, i <|in_w := in_e i|>);;;
           wakeup ChInput)));;; ret false.

Fixpoint consoleintr_loop (fuel : nat) (getc : M kernel Z) (doprocdump : bool) : M kernel bool :=
  match fuel with
  | O => λ _, Loop
  | S fuel =>
      let! c := getc in
      if negb (0 <=? c) then ret doprocdump else
      let! d := consoleintr_char c in
      consoleintr_loop fuel getc (doprocdump || d)
  end.

(** The return addresses that [getcallerpcs] finds on the kernel stack of a
    sleeping process; the stacks' contents are not part of the state. *)
Class Backtrace := callerpcs : kernel → nat → list Z.

Definition state_name (s : procstate) : list Z :=
  match s with
  | UNUSED => chars "unused" | EMBRYO => chars "embryo" | SLEEPING => chars "sleep "
  | RUNNABLE => chars "runble" | RUNNING => chars "run   " | ZOMBIE => chars "zombie"
  end.

Section console.
Context `{Turns} `{Driver} `{Backtrace}.

Fixpoint print_pcs (n : nat) (pcs : list Z) : M kernel unit :=
  match n, pcs with
  | S n, pc :: pcs =>
      if pc =? 0 then ret tt else cprintf (chars " %p") [Word pc];;; print_pcs n pcs
  | _, _ => ret tt
  end.

Fixpoint procdump_loop (n i : nat) : M kernel unit :=
  match n with
  | O => ret tt
  | S n =>
      (let! p := get_proc (PT i) in
       when negb (bool_decide (p_state p = UNUSED)) do
         (cprintf (chars "%d %s %s") [Word (p_pid p); Str (state_name (p_state p)); Str (p_name p)];;;
          (when bool_decide (p_state p = SLEEPING) do
             (let! pcs := gets (λ k, callerpcs k i) in print_pcs 10 pcs));;;
          cprintf [newline] []));;;
      procdump_loop n (S i)
  end.

Definition procdump : M kernel unit := procdump_loop NPROC 0.

Definition consoleintr (getc : M kernel Z) : M kernel unit :=
  acquire LCons;;;
  let! fuel := gets (λ k, S (length (kbd_in (console k)) + length (com1_in (console k)))) in
  let! doprocdump := consoleintr_loop fuel getc false in
  release LCons;;;
  when doprocdump do procdump.

Definition kbdintr : M kernel unit := consoleintr kbdgetc.
Definition uartintr : M kernel unit := consoleintr uartgetc.

(** [myproc()->killed] *)
Definition mykilled : M kernel bool :=
  let! p := myproc in
  let! p := deref p in
  let! pr := get_proc p in
  ret (p_killed pr).

(** Wait until there is input; [false] when the process was killed. *)
Fixpoint input_wait (fuel : nat) : M kernel bool :=
  match fuel with
  | O => λ _, Loop
  | S fuel =>
      let! i := gets input in
      if in_r i =? in_w i then
        let! d := mykilled in
        if d then ret false else
        sleep ChInput LCons;;;
        input_wait fuel
      else ret true
  end.

(** The outer loop of [consoleread]: the count that is left, or [None] when
    the process was killed. *)
Fixpoint consoleread_loop {A} `{Sink A} (fuel : nat) (dst : A) (target n : Z) : M kernel (option (Z * A)) :=
  match fuel with
  | O => λ _, Loop
  | S fuel =>
      if negb (0 <? n) then ret (Some (n, dst)) else
      let! ok := input_wait turns in
      if negb ok then ret None else
      let! i := gets input in
      let c := in_cell i (in_r i) in
      upd_input (λ i, i <|in_r := u32 (in_r i + 1)|>);;;
      if c =? C "D" then
        (when n <? target do upd_input (λ i, i <|in_r := u32 (in_r i - 1)|>));;;
        ret (Some (n, dst))
      else
        let! dst := put dst [c] in
        if c =? newline then ret (Some (n - 1, dst)) else
        consoleread_loop fuel dst target (n - 1)
  end.

Definition consoleread {A} `{Sink A} (ip : nat) (dst : A) (n : Z) : M kernel (Z * A) :=
  iunlock ip;;;
  let target := n in
  acquire LCons;;;
  let! r := consoleread_loop (S (Z.to_nat n)) dst target n in
  match r with
  | None => release LCons;;; ilock ip;;; ret (-1, dst)
  | Some (n, dst) => release LCons;;; ilock ip;;; ret (target - n, dst)
  end.

Fixpoint consolewrite_loop {A} `{Source A} (n : nat) (src : A) : M kernel unit :=
  match n with
  | O => ret tt
  | S n =>
      let! r := fetch src 1 in
      let '(bs, src) := r in
      consputs bs;;;
      consolewrite_loop n src
  end.

Definition consolewrite {A} `{Source A} (ip : nat) (src : A) (n : Z) : M kernel Z :=
  iunlock ip;;;
  acquire LCons;;;
  consolewrite_loop (Z.to_nat n) src;;;
  release LCons;;;
  ilock ip;;;
  ret n.

(** The enabling of the keyboard interrupt is left out. *)
Definition consoleinit : M kernel unit :=
  initlock LCons "console";;;
  upd_console (λ x, x <|cons_dev := true|>);;;
  upd_console (λ x, x <|cons_locking := true|>).
End console.

(** ** The line discipline *)

(** What a reader can get, and the line that is still being edited. *)
Definition committed (i : input_t) : list Z :=
  window INPUT_BUF (in_buf i) (in_r i) (Z.to_nat (u32 (in_w i - in_r i))).
Definition editing (i : input_t) : list Z :=
  window INPUT_BUF (in_buf i) (in_w i) (Z.to_nat (u32 (in_e i - in_w i))).
Definition line (i : input_t) : list Z * list Z := (committed i, editing i).

Definition input_ring (i : input_t) : Prop :=
  length (in_buf i) = 128%nat ∧ 0 <= in_r i < 2 ^ 32 ∧ 0 <= in_w i < 2 ^ 32 ∧ 0 <= in_e i < 2 ^ 32 ∧
  u32 (in_w i - in_r i) + u32 (in_e i - in_w i) <= INPUT_BUF.
Definition input_wf (i : input_t) : Prop := input_ring i ∧ newline ∉ editing i.

(** What a character does to them. *)
Definition edit (l : list Z * list Z) (c : Z) : list Z * list Z :=
  let '(com, ed) := l in
  if c =? C "P" then (com, ed)
  else if c =? C "U" then (com, [])
  else if (c =? C "H") || (c =? 0x7f) then (com, removelast ed)
  else if (c =? 0) || bool_decide (128 <= length com + length ed)%nat then (com, ed)
  else
    let c := if c =? 13 then newline else c in
    let ed := ed ++ [c] in
    if (c =? newline) || (c =? C "D") || bool_decide (length com + length ed = 128)%nat then (com ++ ed, [])
    else (com, ed).

Lemma input_divides : (INPUT_BUF | 2 ^ 32).
Proof. by exists (2 ^ 25). Qed.

Lemma length_line i :
  length (committed i) = Z.to_nat (u32 (in_w i - in_r i)) ∧ length (editing i) = Z.to_nat (u32 (in_e i - in_w i)).
Proof. split; apply length_window. Qed.

(** The buffer is full exactly when the test of the code says so. *)
Lemma input_room i :
  input_ring i → u32 (in_e i - in_r i) = Z.of_nat (length (committed i) + length (editing i)).
Proof.
  intros (Hl & Hr & Hw & He & Hn). destruct (length_line i) as [-> ->].
  unfold u32, wrapu, INPUT_BUF in *. zdiv.
Qed.

Definition type_in (c : Z) (i : input_t) : input_t :=
  i <|in_buf ::= <[Z.to_nat (in_e i mod INPUT_BUF):=u8 c]>|> <|in_e := u32 (in_e i + 1)|>.
Definition erase (i : input_t) : input_t := i <|in_e := u32 (in_e i - 1)|>.
Definition commit_line (i : input_t) : input_t := i <|in_w := in_e i|>.

Lemma type_in_line c i :
  input_ring i → u32 (in_e i - in_r i) < INPUT_BUF → 0 <= c < 256 →
  line (type_in c i) = (committed i, editing i ++ [c]) ∧ input_ring (type_in c i).
Proof.
  intros (Hl & Hr & Hw & He & Hn) Hroom Hc. unfold line, committed, editing, type_in. rsimpl.
  set (a := u32 (in_w i - in_r i)) in *. set (b := u32 (in_e i - in_w i)) in *.
  pose proof (u32_range (in_w i - in_r i)). pose proof (u32_range (in_e i - in_w i)).
  assert (u32 (in_e i - in_r i) = a + b) as Eab.
  { unfold a, b, u32, wrapu, INPUT_BUF in *. zdiv. }
  assert (u32 (u32 (in_e i + 1) - in_w i) = b + 1) as Eb.
  { unfold a, b, u32, wrapu, INPUT_BUF in *. zdiv. }
  assert (in_e i mod INPUT_BUF = (in_r i + (a + b)) mod INPUT_BUF) as E1.
  { unfold a, b, u32, wrapu, INPUT_BUF in *. zdiv. }
  assert (in_e i mod INPUT_BUF = (in_w i + Z.of_nat (Z.to_nat b)) mod INPUT_BUF) as E2.
  { unfold a, b, u32, wrapu, INPUT_BUF in *. zdiv. }
  rewrite (u8_small c Hc), Eb. split; [f_equal|].
  - rewrite E1. apply window_insert; unfold INPUT_BUF in *; lia.
  - rewrite E2, Z2Nat.inj_add, Nat.add_1_r by lia. apply window_snoc; unfold INPUT_BUF in *; lia.
  - unfold input_ring. rsimpl. rewrite length_insert, Eb.
    refine (conj Hl (conj Hr (conj Hw (conj (u32_range _) _)))). lia.
Qed.

Lemma erase_line i :
  input_ring i → in_e i ≠ in_w i → line (erase i) = (committed i, removelast (editing i)) ∧ input_ring (erase i) ∧
  editing i = editing (erase i) ++ [in_cell i (u32 (in_e i - 1))].
Proof.
  intros (Hl & Hr & Hw & He & Hn) Hne.
  assert (Z.to_nat (u32 (in_e i - in_w i)) = (Z.to_nat (u32 (in_e (erase i) - in_w i)) + 1)%nat) as Ec.
  { unfold erase. rsimpl. unfold u32, wrapu, INPUT_BUF in *. zdiv. }
  assert (editing i = editing (erase i) ++ [in_cell i (u32 (in_e i - 1))]) as Ee.
  { unfold editing. rewrite Ec, window_app. f_equal. unfold window. cbn [seq fmap list_fmap]. unfold in_cell.
    do 2 f_equal. f_equal. unfold erase. rsimpl. unfold u32, wrapu, INPUT_BUF in *. zdiv. }
  split; [|split; [|done]].
  - unfold line. f_equal. by rewrite Ee, removelast_last.
  - refine (conj Hl (conj Hr (conj Hw (conj (u32_range _) _)))).
    change (in_w (erase i)) with (in_w i). change (in_r (erase i)) with (in_r i). lia.
Qed.

Lemma commit_line_line i :
  input_ring i → line (commit_line i) = (committed i ++ editing i, []) ∧ input_ring (commit_line i).
Proof.
  intros (Hl & Hr & Hw & He & Hn). split.
  2: { refine (conj Hl (conj Hr (conj He (conj He _)))). unfold commit_line. rsimpl.
       unfold u32, wrapu, INPUT_BUF in *. zdiv. }
  unfold line, committed, editing, commit_line. rsimpl. rewrite Z.sub_diag. f_equal.
  assert (Z.to_nat (u32 (in_e i - in_r i)) = (Z.to_nat (u32 (in_w i - in_r i)) + Z.to_nat (u32 (in_e i - in_w i)))%nat) as ->.
  { unfold u32, wrapu, INPUT_BUF in *. zdiv. }
  rewrite window_app. f_equal. apply window_mod. unfold u32, wrapu, INPUT_BUF in *. zdiv.
Qed.

(** The line editor changes the input buffer, the screen and the serial
    port, and wakes processes. *)
Definition edited (k k' : kernel) : Prop :=
  k' = k <|mem := mem k'|> <|console := console k'|> <|input := input k'|> <|ptable := ptable k'|> ∧
  console k' = (console k) <|crt_pos := crt_pos (console k')|> <|com1 := com1 (console k')|> ∧
  con_ok k' ∧ input_ring (input k') ∧ length (ptable k') = length (ptable k).

Lemma edited_refl k : con_ok k → input_ring (input k) → edited k k.
Proof. intros H1 H2. refine (conj _ (conj _ (conj H1 (conj H2 eq_refl)))); [kext|by destruct (console k)]. Qed.

Lemma edited_trans k k1 k2 : edited k k1 → edited k1 k2 → edited k k2.
Proof.
  intros (A1 & A2 & _ & _ & A5) (B1 & B2 & B3 & B4 & B5). split; [rewrite B1, A1; kext|].
  split; [rewrite B2, A2; by destruct (console k)|]. split; [done|]. split; [done|congruence].
Qed.

Lemma edited_hw k k' : edited k k' → hw_same k k'.
Proof. intros [-> _]. by split_and!. Qed.

(** A change of the buffer and an echo. *)
Lemma edit_echo f c k :
  con_ok k → input_ring (f (input k)) →
  ∃ k', (upd_input f;;; consputc c) k = Ret tt k' ∧ edited k k' ∧ input k' = f (input k) ∧ ptable k' = ptable k.
Proof.
  intros Hc Hw. unfold upd_input. rewrite bind_modify. set (k1 := k <|input ::= f|>).
  destruct (consputc_Ret c k1) as (k' & E & _ & Hc' & [Hp _] & Ec); [by unfold k1|].
  assert (input k' = f (input k)) as Ei by (by rewrite Hp).
  assert (ptable k' = ptable k) as Et by (by rewrite Hp).
  assert (input_ring (input k')) as Hw' by (by rewrite Ei).
  exists k'. refine (conj E (conj (conj _ (conj _ (conj Hc' (conj Hw' (f_equal length Et))))) (conj Ei Et))).
  - rewrite Hp. unfold k1. kext.
  - rewrite Ec. unfold k1. rsimpl. by destruct (console k).
Qed.

Lemma kill_line_Ret fuel k :
  con_ok k → input_wf (input k) → (length (editing (input k)) < fuel)%nat →
  ∃ k', kill_line fuel k = Ret tt k' ∧ edited k k' ∧ line (input k') = (committed (input k), []) ∧
    ptable k' = ptable k.
Proof.
  revert k. induction fuel as [|fuel IH]; intros k Hc Hw Hf; [lia|]. cbn [kill_line]. rewrite bind_gets.
  pose proof (length_line (input k)) as [_ Hle].
  destruct (Z.eqb_spec (in_e (input k)) (in_w (input k))) as [E|E]; cbn [negb andb].
  { exists k. split; [done|]. split; [apply edited_refl; [done|apply Hw]|]. split; [|done]. unfold line. f_equal.
    apply length_zero_iff_nil. by rewrite Hle, E, Z.sub_diag. }
  destruct (erase_line (input k) (proj1 Hw) E) as (El & Hw' & Ee).
  destruct (Z.eqb_spec (in_cell (input k) (u32 (in_e (input k) - 1))) newline) as [En|En]; cbn [negb].
  { destruct Hw as [_ []]. rewrite Ee, En. apply elem_of_app. right. by constructor. }
  destruct (edit_echo erase BACKSPACE k Hc Hw') as (k1 & E1 & Hed & Ei & Et).
  rewrite <- bind_assoc. rewrite (bind_Ret _ _ _ _ _ E1).
  destruct (IH k1) as (k2 & E2 & Hed2 & El2 & Et2); [apply Hed|split; [apply Hed|]| |].
  { rewrite Ei. intros Hin. apply (proj2 Hw). rewrite Ee. apply elem_of_app. by left. }
  { rewrite Ei. rewrite Ee, length_app in Hf. cbn in Hf. lia. }
  exists k2. split; [done|]. split; [by eapply edited_trans|]. split; [|congruence].
  rewrite El2, Ei. unfold line in El. congruence.
Qed.

(** The end of a line: the reader is woken. *)
Lemma commit_wakeup k :
  con_ok k → input_ring (input k) → holds k LCons → lock_free k LPtable →
  ∃ k', (upd_input commit_line;;; wakeup ChInput) k = Ret tt k' ∧ edited k k' ∧
    line (input k') = (committed (input k) ++ editing (input k), []) ∧ no_sleeper ChInput k'.
Proof.
  intros Hc Hw Hh Hf. unfold upd_input. rewrite bind_modify. set (k1 := k <|input ::= commit_line|>).
  assert (holds k1 LCons) as Hh1 by (eapply holds_same; [|exact Hh]; by split_and!).
  rewrite wakeup_Ret by (done || by eapply holds_ready).
  rewrite (touch_holds _ LCons) by (eapply holds_same; [|exact Hh1]; by split_and!).
  destruct (commit_line_line (input k) Hw) as [El Hr]. eexists. split; [reflexivity|].
  split; [|split; [exact El|apply no_sleeper_wake]]. unfold k1.
  refine (conj _ (conj _ (conj Hc (conj Hr _)))); [kext|rsimpl; by destruct (console k)|apply length_map].
Qed.

(** When there is more for a reader, no reader sleeps. *)
Definition woken (k k' : kernel) : Prop :=
  ptable k' = ptable k ∧ committed (input k') = committed (input k) ∨ no_sleeper ChInput k'.

(** An ordinary character. *)
Lemma type_char c k :
  con_ok k → input_wf (input k) → holds k LCons → lock_free k LPtable → 0 <= c < 256 →
  u32 (in_e (input k) - in_r (input k)) < INPUT_BUF →
  ∃ k', (upd_input (type_in c);;; consputc c;;;
      let! i := gets input in
      when (c =? newline) || (c =? C "D") || (in_e i =? u32 (in_r i + INPUT_BUF)) do
        (upd_input commit_line;;; wakeup ChInput)) k = Ret tt k' ∧ edited k k' ∧ newline ∉ editing (input k') ∧ woken k k' ∧
    let ed := editing (input k) ++ [c] in
    line (input k') =
      if (c =? newline) || (c =? C "D") || bool_decide (length (committed (input k)) + length ed = 128)%nat
      then (committed (input k) ++ ed, []) else (committed (input k), ed).
Proof.
  intros Hc [Hw Hnl] Hh Hf Hr Hroom. cbn zeta. destruct (type_in_line c (input k) Hw Hroom Hr) as [El Hw1].
  destruct (edit_echo (type_in c) c k Hc Hw1) as (k1 & E1 & Hed & Ei & Et).
  rewrite <- bind_assoc, (bind_Ret _ _ _ _ _ E1), bind_gets.
  unfold line in El. rewrite <- Ei in El. injection El as Ecom Eed.
  assert ((in_e (input k1) =? u32 (in_r (input k1) + INPUT_BUF)) =
    bool_decide (length (committed (input k)) + length (editing (input k) ++ [c]) = 128)%nat) as Efull.
  { rewrite <- Ei in Hw1. pose proof (input_room _ Hw1) as Hroom1. rewrite Ecom, Eed in Hroom1.
    destruct Hw1 as (_ & ? & ? & ? & _). apply Bool.eq_iff_eq_true. rewrite bool_decide_eq_true, Z.eqb_eq.
    unfold u32, wrapu, INPUT_BUF in *. zdiv. }
  assert (holds k1 LCons) as Hh1 by (eapply holds_same; [by apply edited_hw|done]).
  assert (lock_free k1 LPtable) as Hf1 by (eapply lock_free_same; [by apply edited_hw|done]).
  rewrite Efull. destruct (_ || bool_decide _) eqn:Eend.
  - destruct (commit_wakeup k1) as (k2 & E2 & Hed2 & El2 & Hns); [apply Hed..|done|done|].
    exists k2. split; [done|]. split; [by eapply edited_trans|]. rewrite El2, Ecom, Eed. split; [|by split; [right|]].
    unfold line in El2. injection El2 as _ ->. apply not_elem_of_nil.
  - exists k1. split; [done|]. split; [done|]. unfold line. rewrite Ecom, Eed. split; [|by split; [left|]].
    apply orb_false_iff in Eend as [[Ec _]%orb_false_iff _]. apply Z.eqb_neq in Ec.
    rewrite elem_of_app, list_elem_of_singleton. intros [|]; congruence.
Qed.

Lemma consoleintr_char_Ret c k :
  con_ok k → input_wf (input k) → holds k LCons → lock_free k LPtable → 0 <= c < 256 →
  ∃ k', consoleintr_char c k = Ret (c =? C "P") k' ∧ edited k k' ∧ input_wf (input k') ∧ woken k k' ∧
    line (input k') = edit (line (input k)) c.
Proof.
  intros Hc Hw Hh Hf Hr. unfold consoleintr_char, edit, line at 2.
  destruct (Z.eqb_spec c (C "P")) as [EP|EP].
  { exists k. split; [done|]. split; [apply edited_refl; [done|apply Hw]|]. split; [done|]. split; [by left|done]. }
  destruct (Z.eqb_spec c (C "U")) as [EU|EU].
  { rewrite bind_assoc, bind_gets. pose proof (length_line (input k)) as [_ Hle].
    destruct (kill_line_Ret (S (Z.to_nat (u32 (in_e (input k) - in_w (input k))))) k) as (k' & E & Hed & El & Et);
      [done..|lia|]. rewrite (bind_Ret _ _ _ _ _ E). exists k'. split; [done|]. split; [done|]. unfold line in El.
    injection El as Ec Ee. split; [split; [apply Hed|rewrite Ee; apply not_elem_of_nil]|]. split; [by left|].
    unfold line. by rewrite Ec, Ee. }
  destruct ((c =? C "H") || (c =? 0x7f)) eqn:EH.
  { rewrite bind_assoc, bind_gets. destruct (Z.eqb_spec (in_e (input k)) (in_w (input k))) as [E|E]; cbn [negb].
    - rewrite bind_ret_l. exists k. split; [done|]. split; [apply edited_refl; [done|apply Hw]|]. split; [done|].
      split; [by left|]. unfold line. pose proof (length_line (input k)) as [_ Hle]. rewrite E, Z.sub_diag in Hle.
      by rewrite (proj1 (length_zero_iff_nil _) Hle).
    - destruct (erase_line (input k) (proj1 Hw) E) as (El & Hw' & Ee).
      destruct (edit_echo erase BACKSPACE k Hc Hw') as (k1 & E1 & Hed & Ei & Et).
      rewrite (bind_Ret _ _ _ _ _ E1). exists k1. split; [done|]. split; [done|]. unfold woken. rewrite Ei.
      split; [|split; [left; unfold line in El; split; congruence|done]]. split; [done|]. intros Hin. apply (proj2 Hw). rewrite Ee. apply elem_of_app. by left. }
  rewrite bind_assoc, bind_gets. pose proof (input_room _ (proj1 Hw)) as Hroom.
  assert (negb (c =? 0) && (u32 (in_e (input k) - in_r (input k)) <? INPUT_BUF) =
    negb ((c =? 0) || bool_decide (128 <= length (committed (input k)) + length (editing (input k)))%nat)) as ->.
  { rewrite negb_orb, Hroom. f_equal. unfold INPUT_BUF. case_bool_decide; cbn [negb]; [apply Z.ltb_ge|apply Z.ltb_lt]; lia. }
  destruct ((c =? 0) || bool_decide _) eqn:E0; cbn [negb].
  { exists k. split; [done|]. split; [apply edited_refl; [done|apply Hw]|]. split; [done|]. split; [by left|done]. }
  apply orb_false_iff in E0 as [_ E1]. apply bool_decide_eq_false in E1. cbn zeta.
  set (c' := if c =? 13 then newline else c).
  destruct (type_char c' k) as (k' & E & Hed & Hnl & Hwk & El); [done..|unfold c'; destruct (c =? 13); [done|lia]|
    rewrite Hroom; unfold INPUT_BUF; lia|].
  erewrite bind_Ret by exact E. exists k'. split; [done|]. split; [done|]. split; [|by split].
  split; [apply Hed|done].
Qed.

(** *** The interrupt handler *)

(** The handler's own changes. *)
Definition handled (k k' : kernel) : Prop :=
  k' = k <|mem := mem k'|> <|console := console k'|> <|input := input k'|> <|ptable := ptable k'|> ∧
  con_ok k' ∧ input_wf (input k') ∧ woken k k' ∧ length (ptable k') = length (ptable k).

Lemma handled_trans k k1 k2 : handled k k1 → handled k1 k2 → handled k k2.
Proof.
  intros (A1 & _ & _ & A4 & Al) (B1 & B2 & B3 & B4 & Bl). split; [rewrite B1, A1; kext|]. split; [done|].
  split; [done|]. split; [|congruence]. destruct B4 as [[B4 B5]|B4]; [|by right]. destruct A4 as [[A4 A5]|A4]; [left; split; congruence|].
  right. unfold no_sleeper in *. by rewrite B4.
Qed.

Lemma handled_hw k k' : handled k k' → hw_same k k'.
Proof. intros [-> _]. by split_and!. Qed.

(** The handler reads the keyboard until its port is empty. *)
Lemma consoleintr_loop_kbd codes fuel dump k :
  kbd_in (console k) = codes → (length codes < fuel)%nat → Forall (λ d, 0 <= d < 256) codes →
  0 <= kbd_shift (console k) < 128 → con_ok k → input_wf (input k) → holds k LCons → lock_free k LPtable →
  let cs := snd (kbd_run (kbd_shift (console k)) codes) in
  ∃ d k', consoleintr_loop fuel kbdgetc dump k = Ret d k' ∧ handled k k' ∧ kbd_in (console k') = [] ∧
    line (input k') = foldl edit (line (input k)) cs.
Proof.
  revert fuel dump k. induction codes as [|data codes IH]; intros fuel dump k Hi Hf Hb Hs Hc Hw Hh Hp cs;
    (destruct fuel as [|fuel]; [cbn in Hf; lia|]); cbn [consoleintr_loop]; unfold kbdgetc at 1; rewrite bind_assoc, bind_gets, Hi.
  { rewrite bind_ret_l. cbn. exists dump, k. split; [done|]. split; [|done].
    split; [kext|]. split; [done|]. split; [done|]. by split; [left|]. }
  apply Forall_cons in Hb as [Hd Hb]. unfold cs. cbn [kbd_run].
  pose proof (kbd_data_range _ _ Hs Hd) as Hr. destruct (kbd_data (kbd_shift (console k)) data) as [shift c].
  cbn [fst snd] in Hr. destruct Hr as [Hs' Hcr]. rewrite bind_assoc. unfold upd_console at 1. rewrite bind_modify, bind_ret_l.
  set (k1 := k <|console ::= _|>). destruct (Z.leb_spec 0 c) as [_|]; [|lia]. cbn [negb].
  destruct (consoleintr_char_Ret c k1) as (k2 & E2 & Hed & Hw2 & Hwk & El);
    [done|done|eapply holds_same; [|exact Hh]; by split_and!|done|lia|].
  rewrite (bind_Ret _ _ _ _ _ E2). pose proof (edited_hw _ _ Hed) as Hhw.
  assert (handled k k2) as Hh2.
  { destruct Hed as (A1 & A2 & A3 & A4 & A5). split; [rewrite A1; unfold k1; kext|]. by split; [|split]. }
  assert (kbd_in (console k2) = codes ∧ kbd_shift (console k2) = shift) as [Ei Es].
  { destruct Hed as (_ & -> & _). done. }
  destruct (IH fuel (dump || (c =? C "P")) k2) as (d & k' & E' & Hh' & Ei' & El').
  { done. } { cbn in Hf. lia. } { done. } { by rewrite Es. } { apply Hed. } { done. }
  { eapply holds_same; [exact Hhw|]. eapply holds_same; [|exact Hh]; by split_and!. }
  { eapply lock_free_same; [exact Hhw|done]. }
  exists d, k'. split; [done|]. split; [by eapply handled_trans|]. split; [done|]. rewrite El', Es, El.
  destruct (kbd_run shift codes) as [sh' cs']. done.
Qed.

(** *** The process listing *)

(** Printing from outside the critical sections. *)
Definition dumped (k k' : kernel) : Prop :=
  input k' = input k ∧ ptable k' = ptable k ∧ kbd_in (console k') = kbd_in (console k) ∧
  locks k' = locks k ∧ con_ok k' ∧ ∀ d, ready_in d k → ready_in d k'.

Lemma dumped_trans k k1 k2 : dumped k k1 → dumped k1 k2 → dumped k k2.
Proof.
  intros (A1 & A2 & A3 & A4 & _ & A6) (B1 & B2 & B3 & B4 & B5 & B6). unfold dumped.
  rewrite B1, B2, B3, B4. refine (conj A1 (conj A2 (conj A3 (conj A4 (conj B5 _))))).
  intros d Hd. by apply B6, A6.
Qed.

(** A piece of code that prints. *)
Definition prints (m : M kernel unit) : Prop :=
  ∀ k, con_ok k → ready k → lock_free k LCons → ∃ k', m k = Ret tt k' ∧ dumped k k'.

Lemma prints_ret : prints (ret tt).
Proof. intros k Hc Hr Hl. exists k. split; [done|]. refine (conj eq_refl (conj eq_refl (conj eq_refl (conj eq_refl (conj Hc _))))). done. Qed.

Lemma prints_bind m m' : prints m → prints m' → prints (m;;; m').
Proof.
  intros H1 H2 k Hc Hr Hl. destruct (H1 k Hc Hr Hl) as (k1 & E1 & D1). rewrite (bind_Ret _ _ _ _ _ E1).
  destruct (H2 k1) as (k2 & E2 & D2); [apply D1|by apply D1|unfold lock_free; destruct D1 as (_ & _ & _ & -> & _); done|].
  exists k2. split; [done|]. by eapply dumped_trans.
Qed.

Lemma prints_cprintf `{Turns} fmt args cs : render fmt args = Some cs → prints (cprintf fmt args).
Proof.
  intros Hf k Hc Hr Hl. destruct (cprintf_shows fmt args cs k Hc Hr Hl Hf) as (k' & E & Hs).
  exists k'. split; [done|]. destruct Hs as (_ & Hc' & [Ek _] & Ec).
  assert (∀ d, ready_in d k → ready_in d (if cons_locking (console k) then touch k else k)) as Hr'
    by (intros d Hd; destruct (cons_locking (console k)); [by apply ready_touch|done]).
  assert (∀ d, ready_in d k → ready_in d k') as Hr2
    by (intros d Hd; rewrite Ek; eapply ready_same; [|exact (Hr' d Hd)]; by split_and!).
  assert (kbd_in (console k') = kbd_in (console k)) as Ei by (rewrite Ec; by destruct (cons_locking (console k))).
  rewrite Ek. split; [by destruct (cons_locking (console k))|]. split; [by destruct (cons_locking (console k))|].
  rewrite <- Ek. split; [done|]. split; [rewrite Ek; by destruct (cons_locking (console k))|]. done.
Qed.

Lemma prints_pcs `{Turns} n pcs : prints (print_pcs n pcs).
Proof.
  revert pcs. induction n as [|n IH]; intros [|pc pcs]; cbn [print_pcs]; try apply prints_ret.
  destruct (pc =? 0); [apply prints_ret|]. apply prints_bind; [by eapply prints_cprintf|apply IH].
Qed.

Lemma procdump_Ret `{Turns} `{Backtrace} k :
  con_ok k → ready k → lock_free k LCons → length (ptable k) = NPROC →
  ∃ k', procdump k = Ret tt k' ∧ dumped k k'.
Proof.
  intros Hc Hr Hl Hn. unfold procdump.
  assert (∀ n i k, (i + n = NPROC)%nat → con_ok k → ready k → lock_free k LCons → length (ptable k) = NPROC →
    ∃ k', procdump_loop n i k = Ret tt k' ∧ dumped k k') as Hloop.
  2: { by apply Hloop. }
  clear k Hc Hr Hl Hn. intros n. induction n as [|n IH]; intros i k Hi Hc Hr Hl Hn; cbn [procdump_loop].
  { by apply prints_ret. }
  destruct (list_lookup_lt (ptable k) i) as [pr Hpr]; [lia|].
  rewrite bind_assoc. erewrite bind_Ret by (by apply get_proc_Ret).
  assert (prints (when negb (bool_decide (p_state pr = UNUSED)) do
    (cprintf (chars "%d %s %s") [Word (p_pid pr); Str (state_name (p_state pr)); Str (p_name pr)];;;
     (when bool_decide (p_state pr = SLEEPING) do (let! pcs := gets (λ k, callerpcs k i) in print_pcs 10 pcs));;;
     cprintf [newline] []))) as Hp.
  { destruct (negb _); [|apply prints_ret]. apply prints_bind; [by eapply prints_cprintf|].
    apply prints_bind; [|by eapply prints_cprintf]. destruct (bool_decide _); [|apply prints_ret].
    intros k1 ? ? ?. rewrite bind_gets. by apply prints_pcs. }
  destruct (Hp k Hc Hr Hl) as (k1 & E1 & D1). rewrite (bind_Ret _ _ _ _ _ E1).
  destruct (IH (S i) k1) as (k2 & E2 & D2).
  { lia. } { apply D1. } { by apply D1. } { unfold lock_free. by destruct D1 as (_ & _ & _ & -> & _). }
  { by destruct D1 as (_ & -> & _). }
  exists k2. split; [done|]. by eapply dumped_trans.
Qed.

(** ** Properties *)

(** C23: The keyboard interrupt.  The scan codes that wait at the port are
    decoded and edited into the input line: backspace and kill only touch
    the line that is not yet ended, a carriage return counts as a newline,
    input beyond the 128 cells of the buffer is dropped, and a newline, [^D]
    or a full buffer hands the line to the readers; readers that sleep are
    woken whenever there is more to read.  The ring of the buffer and its
    wrapping counters implement exactly this, and the handler always
    returns, with the port empty and the locks free again. *)
Theorem keyboard_line (T : Turns) (B : Backtrace) (k : kernel) :
  roomy k → lock_free k LCons → lock_free k LPtable → con_ok k → input_wf (input k) →
  Forall (λ d, 0 <= d < 256) (kbd_in (console k)) → 0 <= kbd_shift (console k) < 128 →
  length (ptable k) = NPROC →
  ∃ k', kbdintr k = Ret tt k' ∧ kbd_in (console k') = [] ∧ locks k' = locks k ∧ roomy k' ∧
    con_ok k' ∧ input_wf (input k') ∧
    line (input k') =
      foldl edit (line (input k)) (snd (kbd_run (kbd_shift (console k)) (kbd_in (console k)))) ∧
    (committed (input k') ≠ committed (input k) → no_sleeper ChInput k').
Proof.
  intros Hrm Hlc Hlp Hc Hw Hb Hs Hn. pose proof (roomy_ready _ Hrm) as Hr. unfold kbdintr, consoleintr.
  erewrite bind_Ret by (by apply acquire_enter). rewrite bind_gets.
  destruct (consoleintr_loop_kbd (kbd_in (console k)) (S (length (kbd_in (console k)) + length (com1_in (console k)))) false
    (enter LCons k) eq_refl ltac:(lia) Hb Hs Hc Hw (holds_enter _ _ Hrm Hlc)) as (d & k1 & E & Hh & Ei & El).
  { by apply lock_free_enter. }
  erewrite bind_Ret by exact E. pose proof (handled_hw _ _ Hh) as Hhw.
  rewrite (bind_Ret _ _ _ _ _ (release_leave k LCons k1 Hr Hlc Hhw)).
  destruct Hh as (Ek & Hc1 & Hw1 & Hwk & Hnl).
  assert (lapicid k1 = lapicid k) as Ea by (by rewrite Ek).
  assert (ready (leave k k1)) as Hr1 by (by apply ready_leave).
  assert (lock_free (leave k k1) LCons) as Hl1 by done.
  assert (con_ok (leave k k1)) as Hc2 by (by apply (term_same k1)).
  assert (length (ptable (leave k k1)) = NPROC) as Hn1 by (etransitivity; [exact Hnl|exact Hn]).
  assert (∃ k', (when d do procdump) (leave k k1) = Ret tt k' ∧ dumped (leave k k1) k') as (k' & E' & D).
  { destruct d; [by apply procdump_Ret|by apply prints_ret]. }
  exists k'. split; [done|]. destruct D as (D1 & D2 & D3 & D4 & D5 & D6).
  rewrite D1, D3, D4. split; [done|]. split; [done|]. split; [by apply D6, ready_leave|]. split; [done|]. split; [done|]. split; [done|].
  intros Hne. destruct Hwk as [[_ Hwk]|Hwk]; [by destruct Hne|]. unfold no_sleeper in *. by rewrite D2.
Qed.

(** The keys "x", backspace, "h", "i" and enter wait at the keyboard, and the
    counters of the input buffer are about to wrap around. *)
Definition demo_keys : kernel :=
  demo_console <|console ::= λ c, c <|kbd_in := [0x2D; 0x0E; 0x23; 0x17; 0x1C]|>|>
    <|input ::= λ i, i <|in_r := 2 ^ 32 - 1|> <|in_w := 2 ^ 32 - 1|> <|in_e := 2 ^ 32 - 1|>|>.

Lemma keyboard_line_witness :
  ∃ k', @kbdintr 1%nat (λ _ _, []) demo_keys = Ret tt k' ∧ line (input k') = (chars "hi" ++ [newline], []).
Proof.
  destruct (keyboard_line 1%nat (λ _ _, []) demo_keys) as (k' & E & _ & _ & _ & _ & _ & El & _).
  - exists (MkCpu 0 0 0 false None). by repeat split.
  - by exists EmptyString.
  - by exists EmptyString.
  - split; [|done]. split; [|done]. by intros a.
  - split; [by split_and!|apply not_elem_of_nil].
  - repeat constructor; done.
  - done.
  - reflexivity.
  - exists k'. split; [exact E|]. rewrite El. vm_compute. reflexivity.
Defined.
