(* ===== verification/Fs.v ===== *)
(** The upper half of [fs.c]: the content of inodes, directories, and path
    names.

    A path or a name is the list of its bytes before the terminating NUL. *)

From stdpp Require Import base gmap strings list.
From Stdlib Require Import ZArith Lia Ascii.
From S2P Require Import Prelude Heap CString Mmu State Disk Spinlock Kalloc Vm User Kbd Print Proc Sleeplock Bio Log Inode Console.
#[local] Open Scope Z_scope.

(** ** Path elements *)

Definition slash : Z := chr "/".

(** The path without its leading slashes. *)
Fixpoint skip_slashes (path : list Z) : list Z :=
  match path with
  | c :: rest => if c =? slash then skip_slashes rest else path
  | [] => []
  end.

(** The element up to the next slash, and the rest. *)
Fixpoint span_elem (path : list Z) : list Z * list Z :=
  match path with
  | c :: rest => if c =? slash then ([], path) else let '(s, r) := span_elem rest in (c :: s, r)
  | [] => ([], [])
  end.

(** The bytes of [name] before its NUL, if any, after the copy of the element
    [s]: at most [DIRSIZ]. *)
Definition elem_name (s : list Z) : list Z := take (Z.to_nat DIRSIZ) s.

Definition skipelem (path : list Z) : option (list Z * list Z) :=
  match skip_slashes path with
  | [] => None
  | path => let '(s, path) := span_elem path in Some (elem_name s, skip_slashes path)
  end.

(** [strncmp(s, t, n)] on the bytes of two arrays that end after their last
    byte or after [n] bytes. *)
Fixpoint cmp_bytes (n : nat) (s t : list Z) : Z :=
  match n with
  | O => 0
  | S n =>
      let p := hd 0 s in
      let q := hd 0 t in
      if negb (p =? 0) && (p =? q) then cmp_bytes n (tl s) (tl t) else p - q
  end.

Definition namecmp (s t : list Z) : Z := cmp_bytes (Z.to_nat DIRSIZ) s t.

(** [strncpy(de.name, name, DIRSIZ)]: padded with NULs. *)
Definition pad_name (name : list Z) : list Z :=
  take (Z.to_nat DIRSIZ) (name ++ replicate (Z.to_nat DIRSIZ) 0).

Section fs.
Context `{Turns} `{Driver}.

(** ** The content of an inode *)

(** The loop of [readi]; a turn reads at least one byte. *)
Fixpoint readi_loop {A} `{Sink A} (fuel : nat) (ip : nat) (dst : A) (off tot n : Z) : M kernel A :=
  match fuel with
  | O => λ _, Loop
  | S fuel =>
      if negb (tot <? n) then ret dst else
      let! x := get_inode ip in
      let! addr := bmap ip (off / BSIZE) in
      let! bp := bread (i_dev x) addr in
      let m := Z.min (n - tot) (BSIZE - off mod BSIZE) in
      let! d := buf_data bp in
      let! bs := get_some (slice d (off mod BSIZE) m) in
      let! dst := put dst bs in
      brelse bp;;;
      readi_loop fuel ip dst (off + m) (tot + m) n
  end.

(** Only the console's entry of [devsw] is ever set. *)
Definition CONSOLE : Z := 1.
Definition devsw_set (major : Z) : M kernel bool :=
  let! d := gets (λ k, cons_dev (console k)) in
  ret ((0 <=? major) && (major <? NDEV) && (major =? CONSOLE) && d).

Definition readi {A} `{Sink A} (ip : nat) (dst : A) (off n : Z) : M kernel (Z * A) :=
  let! x := get_inode ip in
  if i_type x =? T_DEV then
    let! d := devsw_set (i_major x) in
    if negb d then ret (-1, dst) else consoleread ip dst (i32 n)
  else
    if (i_size x <? off) || (u32 (off + n) <? off) then ret (-1, dst) else
    let n := if i_size x <? u32 (off + n) then u32 (i_size x - off) else n in
    let! dst := readi_loop (S (Z.to_nat n)) ip dst off 0 n in
    ret (i32 n, dst).

Fixpoint writei_loop {A} `{Source A} (fuel : nat) (ip : nat) (src : A) (off tot n : Z) : M kernel Z :=
  match fuel with
  | O => λ _, Loop
  | S fuel =>
      if negb (tot <? n) then ret off else
      let! x := get_inode ip in
      let! addr := bmap ip (off / BSIZE) in
      let! bp := bread (i_dev x) addr in
      let m := Z.min (n - tot) (BSIZE - off mod BSIZE) in
      let! r := fetch src (Z.to_nat m) in
      let '(bs, src) := r in
      let! d := buf_data bp in
      let! d' := get_some (splice d (off mod BSIZE) bs) in
      set_data bp d';;;
      log_write bp;;;
      brelse bp;;;
      writei_loop fuel ip src (off + m) (tot + m) n
  end.

Definition writei {A} `{Source A} (ip : nat) (src : A) (off n : Z) : M kernel Z :=
  let! x := get_inode ip in
  if i_type x =? T_DEV then
    let! d := devsw_set (i_major x) in
    if negb d then ret (-1) else consolewrite ip src (i32 n)
  else
    if (i_size x <? off) || (u32 (off + n) <? off) then ret (-1) else
    if MAXFILE * BSIZE <? u32 (off + n) then ret (-1) else
    let! off := writei_loop (S (Z.to_nat n)) ip src off 0 n in
    let! x := get_inode ip in
    (when (0 <? n) && (i_size x <? off) do
       (upd_inode ip (λ x, x <|i_size := off|>);;;
        iupdate ip));;;
    ret (i32 n).

(** ** Directories *)

(** [readi] of one entry. *)
Definition read_dirent (dp : nat) (off : Z) (msg : string) : M kernel dirent :=
  let! r := readi dp ([] : list Z) off DIRENT_SIZE in
  let '(n, bs) := r in
  if negb (n =? DIRENT_SIZE) then panic msg else ret (dirent_of bs).

Fixpoint dirlookup_loop (fuel : nat) (dp : nat) (name : list Z) (off : Z) : M kernel (option (nat * Z)) :=
  match fuel with
  | O => λ _, Loop
  | S fuel =>
      let! x := get_inode dp in
      if negb (off <? i_size x) then ret None else
      let! de := read_dirent dp off "dirlookup read" in
      if de_inum de =? 0 then dirlookup_loop fuel dp name (u32 (off + DIRENT_SIZE)) else
      if namecmp name (de_name de) =? 0 then
        let! x := get_inode dp in
        let! ip := iget (i_dev x) (de_inum de) in
        ret (Some (ip, off))
      else dirlookup_loop fuel dp name (u32 (off + DIRENT_SIZE))
  end.

(** The inode and the offset of the entry. *)
Definition dirlookup (dp : nat) (name : list Z) : M kernel (option (nat * Z)) :=
  let! x := get_inode dp in
  if negb (i_type x =? T_DIR) then panic "dirlookup not DIR" else
  dirlookup_loop (S (S (Z.to_nat (i_size x / DIRENT_SIZE)))) dp name 0.

(** The offset of the first empty entry, or the end of the directory. *)
Fixpoint dirlink_find (fuel : nat) (dp : nat) (off : Z) : M kernel Z :=
  match fuel with
  | O => λ _, Loop
  | S fuel =>
      let! x := get_inode dp in
      if negb (u32 off <? i_size x) then ret off else
      let! de := read_dirent dp (u32 off) "dirlink read" in
      if de_inum de =? 0 then ret off else dirlink_find fuel dp (off + DIRENT_SIZE)
  end.

Definition dirlink (dp : nat) (name : list Z) (inum : Z) : M kernel Z :=
  let! r := dirlookup dp name in
  match r with
  | Some (ip, _) => iput ip;;; ret (-1)
  | None =>
      let! x := get_inode dp in
      let! off := dirlink_find (S (S (Z.to_nat (i_size x / DIRENT_SIZE)))) dp 0 in
      let! n := writei dp (dirent_bytes (MkDirent (u16 inum) (pad_name name))) (u32 off) DIRENT_SIZE in
      if negb (n =? DIRENT_SIZE) then panic "dirlink" else ret 0
  end.

(** ** Paths *)

(** [myproc()->cwd] *)
Definition mycwd : M kernel nat :=
  let! p := myproc in
  let! p := deref p in
  let! pr := get_proc p in
  deref (p_cwd pr).

(** The inode, and with [parent] the last element of the path.  Every turn
    but the last takes an element off the path. *)
Fixpoint namex_loop (fuel : nat) (ip : nat) (path : list Z) (parent : bool) (name : list Z)
  : M kernel (option (nat * list Z)) :=
  match fuel with
  | O => λ _, Loop
  | S fuel =>
      match skipelem path with
      | None => if parent then iput ip;;; ret None else ret (Some (ip, name))
      | Some (name, path) =>
          ilock ip;;;
          let! x := get_inode ip in
          if negb (i_type x =? T_DIR) then iunlockput ip;;; ret None else
          if parent && bool_decide (path = []) then iunlock ip;;; ret (Some (ip, name)) else
          let! r := dirlookup ip name in
          match r with
          | None => iunlockput ip;;; ret None
          | Some (next, _) => iunlockput ip;;; namex_loop fuel next path parent name
          end
      end
  end.

Definition namex (path : list Z) (parent : bool) : M kernel (option (nat * list Z)) :=
  let! ip :=
    (if hd 0 path =? slash then iget ROOTDEV ROOTINO
     else let! cwd := mycwd in idup cwd) in
  namex_loop (S (length path)) ip path parent [].

Definition namei (path : list Z) : M kernel (option nat) :=
  let! r := namex path false in ret (fst <$> r).
Definition nameiparent (path : list Z) : M kernel (option (nat * list Z)) := namex path true.

(** From [vm.c]. *)
Fixpoint loaduvm_loop (fuel : nat) (pgdir addr : Z) (ip : nat) (offset sz i : Z) : M kernel Z :=
  match fuel with
  | O => λ _, Loop
  | S fuel =>
      if negb (i <? sz) then ret 0 else
      let! pte := walkpgdir pgdir (u32 (addr + i)) false in
      if pte =? 0 then panic "loaduvm: address should exist" else
      let! e := ld32 pte in
      let pa := PTE_ADDR e in
      let n := if u32 (sz - i) <? PGSIZE then u32 (sz - i) else PGSIZE in
      let! r := readi ip (P2V pa) (u32 (offset + i)) n in
      if negb (u32 (fst r) =? n) then ret (-1) else
      loaduvm_loop fuel pgdir addr ip offset sz (u32 (i + PGSIZE))
  end.

Definition loaduvm (pgdir addr : Z) (ip : nat) (offset sz : Z) : M kernel Z :=
  if negb (addr mod PGSIZE =? 0) then panic "loaduvm: addr must be page aligned" else
  loaduvm_loop (S (S (Z.to_nat (sz / PGSIZE)))) pgdir addr ip offset sz 0.
End fs.

(** ** Path names *)

(** The components of a path: the non-empty pieces between slashes. *)
Fixpoint pieces (path : list Z) : list (list Z) :=
  match path with
  | [] => [[]]
  | c :: path =>
      if c =? slash then [] :: pieces path
      else match pieces path with w :: ws => (c :: w) :: ws | [] => [[c]] end
  end.
Definition components (path : list Z) : list (list Z) := filter (λ w, w ≠ []) (pieces path).

Lemma pieces_not_nil path : pieces path ≠ [].
Proof. destruct path as [|c path]; cbn; [done|]. destruct (c =? slash); [done|]. by destruct (pieces path). Qed.

Lemma components_slash path : components (slash :: path) = components path.
Proof. unfold components. cbn [pieces]. rewrite Z.eqb_refl. by rewrite filter_cons_False by auto. Qed.

Lemma components_skip path : components (skip_slashes path) = components path.
Proof.
  induction path as [|c path IH]; cbn [skip_slashes]; [done|]. destruct (Z.eqb_spec c slash) as [->|]; [|done].
  by rewrite components_slash.
Qed.

Lemma skip_slashes_length path : (length (skip_slashes path) <= length path)%nat.
Proof. induction path as [|c path IH]; cbn [skip_slashes length]; [done|]. destruct (c =? slash); cbn [length]; lia. Qed.

Lemma skip_slashes_head path c rest : skip_slashes path = c :: rest → c ≠ slash.
Proof.
  induction path as [|c' path IH]; cbn [skip_slashes]; [done|]. destruct (Z.eqb_spec c' slash); [done|].
  by intros [= -> ->].
Qed.

(** An element up to the next slash. *)
Lemma span_elem_spec path s rest :
  span_elem path = (s, rest) →
  path = s ++ rest ∧ pieces path = s :: tl (pieces path) ∧
  components rest = filter (λ w, w ≠ []) (tl (pieces path)).
Proof.
  revert s rest. induction path as [|c path IH]; intros s rest H; cbn [span_elem] in H.
  { by injection H as <- <-. }
  cbn [pieces]. destruct (Z.eqb_spec c slash) as [->|Hc].
  { injection H as <- <-. split_and!; [done..|]. apply components_slash. }
  destruct (span_elem path) as [s' r'] eqn:E. injection H as <- <-.
  destruct (IH s' r' eq_refl) as (-> & E2 & E3). rewrite E2. cbn [tl]. split_and!; [done..|]. by rewrite E3.
Qed.

(** [skipelem] takes the first component off a path: the name it copies is
    that component, cut to the 14 bytes of a directory entry, and the rest of
    the path has the remaining components; the rest is the empty string
    exactly when there are none, which is how [namex] sees the last one.
    There is no element exactly when the path has no component, and each
    call makes the path shorter. *)
Theorem skipelem_correct (path : list Z) :
  match skipelem path with
  | None => components path = []
  | Some (name, rest) =>
      ∃ w, components path = w :: components rest ∧ w ≠ [] ∧ name = take 14 w ∧
        (rest = [] ↔ components rest = []) ∧ (length rest < length path)%nat
  end.
Proof.
  unfold skipelem. rewrite <- (components_skip path). pose proof (skip_slashes_length path) as Hlen.
  destruct (skip_slashes path) as [|c q] eqn:E; [done|]. pose proof (skip_slashes_head _ _ _ E) as Hc.
  destruct (span_elem (c :: q)) as [s rest] eqn:Es.
  pose proof (span_elem_spec _ _ _ Es) as (E1 & E2 & E3).
  assert (s ≠ []) as Hs.
  { cbn [span_elem] in Es. destruct (Z.eqb_spec c slash); [done|]. destruct (span_elem q). by injection Es as <- <-. }
  exists s. split_and!; [| done | done | | ].
  - unfold components at 1. rewrite E2, filter_cons_True by done. by rewrite components_skip, E3.
  - rewrite components_skip. split; [intros Hn; rewrite <- (components_skip rest), Hn; done|].
    intros Hn. rewrite <- (components_skip rest) in Hn. destruct (skip_slashes rest) as [|c' q'] eqn:Er; [done|].
    pose proof (skip_slashes_head _ _ _ Er) as Hc'. unfold components in Hn. cbn [pieces] in Hn.
    destruct (Z.eqb_spec c' slash); [done|]. destruct (pieces q'); rewrite filter_cons_True in Hn; done.
  - pose proof (skip_slashes_length rest). apply (f_equal length) in E1. rewrite length_app in E1.
    destruct s; [done|]. cbn in *. lia.
Qed.

(** The examples of the comment in [fs.c]. *)
Example skipelem_examples :
  skipelem (chars "a/bb/c") = Some (chars "a", chars "bb/c") ∧
  skipelem (chars "///a//bb") = Some (chars "a", chars "bb") ∧
  skipelem (chars "a") = Some (chars "a", []) ∧ skipelem [] = None ∧ skipelem (chars "////") = None.
Proof. by split_and!. Qed.
