(* ===== verification/Pipe.v ===== *)
(** Pipes, from [pipe.c]: a bounded ring of bytes with counters that only
    grow.  A pipe is named by the page it lives in. *)

From stdpp Require Import base gmap strings list.
From Stdlib Require Import ZArith Lia Ascii.
From S2P Require Import Prelude Window Heap CString Mmu State Disk Spinlock Kalloc Vm User Kbd Print Proc Sleeplock Bio Log Inode Console.
#[local] Open Scope Z_scope.

(** ** The code *)

Definition PIPESIZE : Z := 512.

Definition get_pipe (p : Z) : M kernel pipe := λ k,
  match pipes k !! p with Some x => Ret x k | None => Fault end.
Definition upd_pipe (p : Z) (f : pipe → pipe) : M kernel unit :=
  let! _ := get_pipe p in modify (λ k, k <|pipes ::= alter f p|>).

(** The byte at a counter. *)
Definition pipe_cell (x : pipe) (n : Z) : Z := nth (Z.to_nat (n mod PIPESIZE)) (pi_data x) 0.

(** The end of [pipeclose]: the page is given back, and with it the pipe and
    its lock are gone. *)
Definition pipefree (p : Z) : M kernel unit :=
  modify (λ k, k <|pipes ::= delete p|> <|locks ::= delete (LPipe p)|>);;;
  kfree p.

Definition pipeclose (p : Z) (writable : bool) : M kernel unit :=
  acquire (LPipe p);;;
  (if writable then
     upd_pipe p (λ x, x <|pi_writeopen := false|>);;;
     wakeup (ChNread p)
   else
     upd_pipe p (λ x, x <|pi_readopen := false|>);;;
     wakeup (ChNwrite p));;;
  let! x := get_pipe p in
  if negb (pi_readopen x) && negb (pi_writeopen x) then
    release (LPipe p);;;
    pipefree p
  else release (LPipe p).

Section pipe.
Context `{Turns}.

(** The wait for room; [false] when there is nobody to read or the process
    was killed. *)
Fixpoint room_wait (fuel : nat) (p : Z) : M kernel bool :=
  match fuel with
  | O => λ _, Loop
  | S fuel =>
      let! x := get_pipe p in
      if pi_nwrite x =? u32 (pi_nread x + PIPESIZE) then
        let! d := (if negb (pi_readopen x) then ret true else mykilled) in
        if d then ret false else
        wakeup (ChNread p);;;
        sleep (ChNwrite p) (LPipe p);;;
        room_wait fuel p
      else ret true
  end.

(** The loop over the bytes: [false] when it gave up. *)
Fixpoint pipewrite_loop {A} `{Source A} (n : nat) (p : Z) (addr : A) : M kernel bool :=
  match n with
  | O => ret true
  | S n =>
      let! ok := room_wait turns p in
      if negb ok then ret false else
      let! r := fetch addr 1 in
      let '(bs, addr) := r in
      upd_pipe p (λ x, x <|pi_data ::= <[Z.to_nat (pi_nwrite x mod PIPESIZE):=hd 0 bs]>|>
                         <|pi_nwrite := u32 (pi_nwrite x + 1)|>);;;
      pipewrite_loop n p addr
  end.

Definition pipewrite {A} `{Source A} (p : Z) (addr : A) (n : Z) : M kernel Z :=
  acquire (LPipe p);;;
  let! ok := pipewrite_loop (Z.to_nat n) p addr in
  if negb ok then release (LPipe p);;; ret (-1) else
  wakeup (ChNread p);;;
  release (LPipe p);;;
  ret n.

(** The wait for data or for the last writer to go; [false] when the process
    was killed. *)
Fixpoint data_wait (fuel : nat) (p : Z) : M kernel bool :=
  match fuel with
  | O => λ _, Loop
  | S fuel =>
      let! x := get_pipe p in
      if (pi_nread x =? pi_nwrite x) && pi_writeopen x then
        let! d := mykilled in
        if d then ret false else
        sleep (ChNread p) (LPipe p);;;
        data_wait fuel p
      else ret true
  end.

(** The loop over the bytes: how many were copied. *)
Fixpoint piperead_loop {A} `{Sink A} (n : nat) (p : Z) (addr : A) (i : Z) : M kernel (Z * A) :=
  match n with
  | O => ret (i, addr)
  | S n =>
      let! x := get_pipe p in
      if pi_nread x =? pi_nwrite x then ret (i, addr) else
      let! addr := put addr [pipe_cell x (pi_nread x)] in
      upd_pipe p (λ x, x <|pi_nread := u32 (pi_nread x + 1)|>);;;
      piperead_loop n p addr (i + 1)
  end.

Definition piperead {A} `{Sink A} (p : Z) (addr : A) (n : Z) : M kernel (Z * A) :=
  acquire (LPipe p);;;
  let! ok := data_wait turns p in
  if negb ok then release (LPipe p);;; ret (-1, addr) else
  let! r := piperead_loop (Z.to_nat n) p addr 0 in
  wakeup (ChNwrite p);;;
  release (LPipe p);;;
  ret r.
End pipe.

(** ** The queue of a pipe *)

(** The bytes between the two counters, which run modulo 2^32. *)
Definition queue (x : pipe) : list Z :=
  window PIPESIZE (pi_data x) (pi_nread x) (Z.to_nat (u32 (pi_nwrite x - pi_nread x))).

Definition pipe_wf (x : pipe) : Prop :=
  length (pi_data x) = 512%nat ∧ 0 <= pi_nread x < 2 ^ 32 ∧ 0 <= pi_nwrite x < 2 ^ 32 ∧
  u32 (pi_nwrite x - pi_nread x) <= PIPESIZE.

(** One byte in, one byte out. *)
Definition push (b : Z) (x : pipe) : pipe :=
  x <|pi_data ::= <[Z.to_nat (pi_nwrite x mod PIPESIZE):=b]>|> <|pi_nwrite := u32 (pi_nwrite x + 1)|>.
Definition pop (x : pipe) : pipe := x <|pi_nread := u32 (pi_nread x + 1)|>.

Lemma length_queue x : length (queue x) = Z.to_nat (u32 (pi_nwrite x - pi_nread x)).
Proof. apply length_window. Qed.

Lemma pipe_divides : (PIPESIZE | 2 ^ 32).
Proof. by exists (2 ^ 23). Qed.

Lemma push_window b x :
  pipe_wf x → (length (queue x) < 512)%nat →
  queue (push b x) = queue x ++ [b] ∧ pipe_wf (push b x).
Proof.
  intros (Hl & Hr & Hw & Hn) Hq. rewrite length_queue in Hq.
  set (c := u32 (pi_nwrite x - pi_nread x)) in *. pose proof (u32_range (pi_nwrite x - pi_nread x)) as Hc.
  assert (u32 (u32 (pi_nwrite x + 1) - pi_nread x) = c + 1) as E.
  { unfold c, u32, wrapu, PIPESIZE in *. zdiv. }
  assert (pi_nwrite x mod PIPESIZE = (pi_nread x + Z.of_nat (Z.to_nat c)) mod PIPESIZE) as Ew.
  { unfold c, u32, wrapu, PIPESIZE in *. zdiv. }
  split.
  - unfold queue, push. rsimpl. rewrite E, Z2Nat.inj_add, Nat.add_1_r, Ew by lia.
    apply window_snoc; [done|unfold PIPESIZE; lia|unfold PIPESIZE; lia].
  - unfold pipe_wf, push. rsimpl. rewrite length_insert, E.
    refine (conj Hl (conj Hr (conj (u32_range _) _))). unfold PIPESIZE. lia.
Qed.

Lemma pop_window x :
  pipe_wf x → (0 < length (queue x))%nat →
  queue x = pipe_cell x (pi_nread x) :: queue (pop x) ∧ pipe_wf (pop x).
Proof.
  intros (Hl & Hr & Hw & Hn) Hq. rewrite length_queue in Hq.
  assert (u32 (pi_nwrite x - u32 (pi_nread x + 1)) = u32 (pi_nwrite x - pi_nread x) - 1) as E.
  { unfold u32, wrapu, PIPESIZE in *. zdiv. }
  split.
  - unfold queue, pop. rsimpl. rewrite E, (window_u32 _ pipe_divides).
    replace (Z.to_nat (u32 (pi_nwrite x - pi_nread x))) with (S (Z.to_nat (u32 (pi_nwrite x - pi_nread x) - 1))) by lia.
    apply window_cons.
  - unfold pipe_wf, pop. rsimpl. rewrite E. refine (conj Hl (conj (u32_range _) (conj Hw _))). lia.
Qed.

(** ** Writing *)

Lemma get_pipe_Ret k p x : pipes k !! p = Some x → get_pipe p k = Ret x k.
Proof. unfold get_pipe. by intros ->. Qed.

Lemma upd_pipe_Ret k p x f : pipes k !! p = Some x → upd_pipe p f k = Ret tt (k <|pipes ::= <[p:=f x]>|>).
Proof.
  intros H. unfold upd_pipe. erewrite bind_Ret by (by apply get_pipe_Ret). unfold modify. f_equal.
  kext. by apply map_alter_insert.
Qed.

Lemma inside_pipes p pid lk k f : inside p pid lk k → inside p pid lk (k <|pipes ::= f|>).
Proof. intros Hi. apply (inside_same p pid lk k); [by split_and!|by destruct p|done]. Qed.

Lemma mykilled_inside p pid lk k : inside p pid lk k → ∃ b, mykilled k = Ret b k.
Proof.
  intros Hi. pose proof Hi as (_ & _ & Hp). destruct (lookup_proc k p) as [pr|] eqn:E; [|done].
  exists (p_killed pr). unfold mykilled. erewrite bind_Ret by (by eapply myproc_inside).
  unfold deref, get_some. rewrite bind_ret_l. by erewrite bind_Ret by (by apply get_proc_Ret).
Qed.

(** The pipe at [pi], with queue [q]. *)
Definition pipe_at (pi : Z) (q : list Z) (k : kernel) : Prop :=
  ∃ x, pipes k !! pi = Some x ∧ pipe_wf x ∧ queue x = q.

Section writing.
Context `{Turns} (p : pptr) (pid pi addr : Z) (bs : list Z).
#[local] Notation lk := (LPipe pi).

(** A writer sleeps only while the pipe is full, after waking the readers. *)
Definition writer_sleeps (s : kernel) : Prop :=
  asleep_on p pid (ChNwrite pi) lk s ∧ (∃ q, pipe_at pi q s ∧ length q = 512%nat) ∧
  no_sleeper (ChNread pi) s.

(** Meanwhile readers take bytes from the front of the queue, and the bytes to
    write stay where they are. *)
Definition readers_only (s s' : kernel) : Prop :=
  given_back p pid lk s' ∧ sees s' addr bs ∧
  ∃ q taken q', pipe_at pi q s ∧ pipe_at pi q' s' ∧ q = taken ++ q'.

Lemma room_wait_wp (Q : bool → kernel → Prop) fuel k q :
  inside p pid lk k → sees k addr bs → pipe_at pi q k →
  (∀ b k' q' taken, inside p pid lk k' → sees k' addr bs → pipe_at pi q' k' → q = taken ++ q' →
     (b = true → (length q' < 512)%nat) → Q b k') →
  wp True writer_sleeps readers_only Q (room_wait fuel pi) k.
Proof.
  intros Hi Hs Hq HQ. revert k q Hi Hs Hq HQ. induction fuel as [|fuel IH]; intros k q Hi Hs Hq HQ; [done|].
  cbn [room_wait]. pose proof Hq as (x & Hx & Hwf & <-).
  apply wp_bind. eapply wp_Ret; [by apply get_pipe_Ret|]. destruct (Z.eqb_spec (pi_nwrite x) (u32 (pi_nread x + PIPESIZE))) as [E|E].
  2: { eapply wp_Ret; [done|]. eapply (HQ _ _ _ []); [done..|]. intros _. rewrite length_queue.
       destruct Hwf as (_ & ? & ? & ?). unfold u32, wrapu, PIPESIZE in *. zdiv. }
  assert (∃ b, (if negb (pi_readopen x) then ret true else mykilled) k = Ret b k) as [b Hb].
  { destruct (pi_readopen x); cbn; [by eapply mykilled_inside|by eexists]. }
  apply wp_bind. eapply wp_Ret; [exact Hb|]. destruct b; [by eapply wp_Ret; [done|]; eapply (HQ _ _ _ [])|].
  destruct (wakeup_inside p pid lk k (ChNread pi) Hi) as [Ew Hiw].
  apply wp_bind. eapply wp_Ret; [exact Ew|]. apply wp_bind.
  eapply sleep_wp; [exact Hiw|done|..].
  - intros s Ha Hf Ep. split_and!; [done|exists (queue x); split|].
    + exists x. by rewrite Hf.
    + rewrite length_queue. destruct Hwf as (_ & ? & ? & ?). unfold u32, wrapu, PIPESIZE in *. zdiv.
    + eapply no_sleeper_asleep; [|exact Ep|done]. apply no_sleeper_wake.
  - by intros s s' [? _].
  - intros s s' k' [_ _] Hfs (_ & Hs' & q & taken & q' & Hqs & Hqs' & Et) Hf Hi'.
    assert (q = queue x) as ->.
    { destruct Hqs as (y & Hy & _ & <-). rewrite Hfs in Hy. rsimpl. congruence. }
    apply (IH k' q'); [done| | |].
    + eapply sees_view; [|exact Hs']. by rewrite Hf.
    + destruct Hqs' as (x' & ? & ? & ?). exists x'. by rewrite Hf.
    + intros b k2 q2 t2 H1 H2 H3 H4 H5. eapply (HQ b k2 q2 (taken ++ t2)); [done..| |done].
      rewrite Et, H4. by rewrite app_assoc.
Qed.

(** One byte from memory into the pipe. *)
Lemma pipe_store k q i b :
  sees k addr bs → bs !! i = Some b → pipe_at pi q k → (length q < 512)%nat →
  ∃ k', fetch (nextn i addr) 1 k = Ret ([b], nextn (S i) addr) k ∧
    upd_pipe pi (push b) k = Ret tt k' ∧ pipe_at pi (q ++ [b]) k' ∧ k' = k <|pipes := pipes k'|>.
Proof.
  intros Hs Hb (x & Hx & Hwf & Eq) Hq. subst q. exists (k <|pipes ::= <[pi:=push b x]>|>). split_and!.
  - unfold fetch, source_mem. cbn [vload]. rewrite bind_assoc.
    erewrite bind_Ret by (by eapply sees_lookup). done.
  - by apply upd_pipe_Ret.
  - exists (push b x). destruct (push_window b x Hwf Hq) as [E1 E2].
    split_and!; [rsimpl; apply lookup_insert_eq|done..].
  - kext.
Qed.

Lemma pipewrite_loop_wp (Q : bool → kernel → Prop) n i k q :
  inside p pid lk k → sees k addr bs → pipe_at pi q k → (i + n = length bs)%nat →
  (∀ ok k' q' taken m, inside p pid lk k' → pipe_at pi q' k' → q ++ take m (drop i bs) = taken ++ q' →
     (m <= n)%nat → (ok = true → m = n) → Q ok k') →
  wp True writer_sleeps readers_only Q (pipewrite_loop n pi (nextn i addr)) k.
Proof.
  revert i k q. induction n as [|n IH]; intros i k q Hi Hs Hq Hn HQ; cbn [pipewrite_loop].
  { eapply wp_Ret; [done|]. eapply (HQ _ _ q [] 0%nat); [done..| |lia|done]. by rewrite take_0, app_nil_r. }
  apply wp_bind. eapply room_wait_wp; [done..|]. intros ok k1 q1 t1 Hi1 Hs1 Hq1 E1 Hok.
  destruct ok; cbn [negb].
  2: { eapply wp_Ret; [done|]. eapply (HQ _ _ q1 t1 0%nat); [done..| |lia|done]. by rewrite take_0, app_nil_r. }
  destruct (list_lookup_lt bs i) as [b Hb]; [lia|].
  destruct (pipe_store k1 q1 i b Hs1 Hb Hq1 (Hok eq_refl)) as (k2 & Ef & Eu & Hq2 & Ek).
  apply wp_bind. eapply wp_Ret; [exact Ef|]. cbn beta iota. apply wp_bind.
  eapply wp_Ret; [exact Eu|]. eapply (IH (S i)); [| |exact Hq2|lia|].
  - rewrite Ek. by apply (inside_pipes p pid lk k1 (λ _, _)).
  - eapply sees_view; [|exact Hs1]. by rewrite Ek.
  - intros ok k' q' t m H1 H2 H3 H4 H5. eapply (HQ ok k' q' (t1 ++ t) (S m)); [done..| |lia|intros; f_equal; auto].
    rewrite (drop_S _ _ _ Hb). cbn [take]. rewrite E1, <- !app_assoc. f_equal.
    rewrite <- (app_assoc q1 [b]) in H3. exact H3.
Qed.

(** With room for all the bytes nothing waits. *)
Lemma pipewrite_loop_now n i k q :
  sees k addr bs → pipe_at pi q k → (i + n = length bs)%nat → (length q + n <= 512)%nat → (0 < turns)%nat →
  ∃ k', pipewrite_loop n pi (nextn i addr) k = Ret true k' ∧ pipe_at pi (q ++ drop i bs) k' ∧
    k' = k <|pipes := pipes k'|>.
Proof.
  intros Hs Hq Hn Hr Ht. revert i k q Hs Hq Hn Hr. induction n as [|n IH]; intros i k q Hs Hq Hn Hr; cbn [pipewrite_loop].
  { exists k. rewrite drop_ge, app_nil_r by lia. split_and!; [done..|kext]. }
  assert (room_wait turns pi k = Ret true k) as Ew.
  { destruct Hq as (x & Hx & Hwf & <-). destruct turns as [|t]; [lia|]. cbn [room_wait].
    erewrite bind_Ret by (by apply get_pipe_Ret). destruct (Z.eqb_spec (pi_nwrite x) (u32 (pi_nread x + PIPESIZE))); [|done].
    rewrite length_queue in Hr. destruct Hwf as (_ & ? & ? & ?). unfold u32, wrapu, PIPESIZE in *. zdiv. }
  rewrite (bind_Ret _ _ _ _ _ Ew). cbn [negb]. destruct (list_lookup_lt bs i) as [b Hb]; [lia|].
  destruct (pipe_store k q i b Hs Hb Hq) as (k2 & Ef & Eu & Hq2 & Ek); [lia|].
  rewrite (bind_Ret _ _ _ _ _ Ef). cbn beta iota. rewrite (bind_Ret _ _ _ _ _ Eu).
  destruct (IH (S i) k2 (q ++ [b])) as (k' & E & Hq' & Ek'); [|done|lia|rewrite length_app; cbn; lia|].
  { eapply sees_view; [|exact Hs]. by rewrite Ek. }
  exists k'. split_and!; [exact E| |rewrite Ek', Ek; kext].
  rewrite (drop_S _ _ _ Hb). by rewrite <- (app_assoc q [b]) in Hq'.
Qed.
End writing.

(** ** Reading *)

Section reading.
Context `{Turns} (p : pptr) (pid pi addr : Z) (n : nat) (f : nat → Z).
#[local] Notation lk := (LPipe pi).

(** A reader sleeps only while the pipe is empty. *)
Definition reader_sleeps (s : kernel) : Prop := asleep_on p pid (ChNread pi) lk s ∧ pipe_at pi [] s.

(** Meanwhile writers add bytes, and the memory to read into stays. *)
Definition writers_only (s s' : kernel) : Prop :=
  given_back p pid lk s' ∧ stores s' addr n f ∧ ∃ more, pipe_at pi more s'.

(** Whether the pipe has a writer. *)
Definition has_writer (k : kernel) : Prop := ∃ x, pipes k !! pi = Some x ∧ pi_writeopen x = true.

Lemma data_wait_wp (Q : bool → kernel → Prop) fuel k q :
  inside p pid lk k → stores k addr n f → pipe_at pi q k →
  (∀ b k' more, inside p pid lk k' → stores k' addr n f → pipe_at pi (q ++ more) k' →
     (b = true → q ++ more ≠ [] ∨ ¬ has_writer k') → Q b k') →
  wp True reader_sleeps writers_only Q (data_wait fuel pi) k.
Proof.
  revert k q. induction fuel as [|fuel IH]; intros k q Hi Hs Hq HQ; [done|].
  cbn [data_wait]. pose proof Hq as (x & Hx & Hwf & <-).
  apply wp_bind. eapply wp_Ret; [by apply get_pipe_Ret|].
  destruct (Z.eqb_spec (pi_nread x) (pi_nwrite x)) as [E|E]; cbn [andb].
  2: { eapply wp_Ret; [done|]. apply (HQ _ _ []); rewrite ?app_nil_r; [done..|]. intros _. left. intros Hn.
       pose proof (length_queue x) as Hl. rewrite Hn in Hl. cbn in Hl.
       destruct Hwf as (_ & ? & ? & ?). unfold u32, wrapu, PIPESIZE in *. zdiv. }
  assert (queue x = []) as Eq.
  { apply length_zero_iff_nil. rewrite length_queue, E, Z.sub_diag. done. }
  destruct (pi_writeopen x) eqn:Ew.
  2: { eapply wp_Ret; [done|]. apply (HQ _ _ []); rewrite ?app_nil_r; [done..|]. intros _. right.
       intros (y & Hy & Hw). congruence. }
  destruct (mykilled_inside p pid lk k Hi) as [b Hb]. apply wp_bind. eapply wp_Ret; [exact Hb|].
  destruct b; [by eapply wp_Ret; [done|]; apply (HQ _ _ []); rewrite ?app_nil_r|].
  apply wp_bind. eapply sleep_wp; [exact Hi|done|..].
  - intros s Ha Hf _. split; [done|]. exists x. by rewrite Hf.
  - by intros s s' [? _].
  - intros s s' k' _ _ (_ & Hs' & more & x' & Hx' & Hwf' & Em) Hf Hi'.
    apply (IH k' more); [done| | |].
    + apply (stores_view s'); [by rewrite Hf|rewrite Hf; apply same_but_refl|done].
    + exists x'. by rewrite Hf.
    + rewrite Eq in HQ. intros b k2 m2 H1 H2 H3 H4. by eapply HQ.
Qed.

(** The copying does not wait. *)
Lemma piperead_loop_Ret m i k q :
  stores k addr n f → pipe_at pi q k → (i + m = n)%nat →
  ∃ k', piperead_loop m pi (nextn i addr) (Z.of_nat i) k =
      Ret (Z.of_nat (i + length (take m q)), nextn (i + length (take m q)) addr) k' ∧
    pipe_at pi (drop m q) k' ∧ (∀ j b, take m q !! j = Some b → rd (mem k') (f (i + j)%nat) = u8 b) ∧
    same_but n f (mem k) (mem k') ∧ (∀ j, (j < i)%nat → rd (mem k') (f j) = rd (mem k) (f j)) ∧
    (has_writer k' → has_writer k) ∧ k' = k <|pipes := pipes k'|> <|mem := mem k'|>.
Proof.
  revert i k q. induction m as [|m IH]; intros i k q Hs Hq Hm; cbn [piperead_loop].
  { exists k. cbn. rewrite Nat.add_0_r, drop_0. split_and!; first [done|kext]. }
  pose proof Hq as (x & Hx & Hwf & Eq). erewrite bind_Ret by (by apply get_pipe_Ret).
  destruct (Z.eqb_spec (pi_nread x) (pi_nwrite x)) as [E|E].
  { assert (q = []) as ->.
    { apply length_zero_iff_nil. rewrite <- Eq, length_queue, E, Z.sub_diag. done. }
    exists k. cbn. rewrite Nat.add_0_r. split_and!; first [done|kext]. }
  assert (0 < length (queue x))%nat as Hl.
  { rewrite length_queue. destruct Hwf as (_ & ? & ? & ?). unfold u32, wrapu, PIPESIZE in *. zdiv. }
  destruct (pop_window x Hwf Hl) as [Ep Hwf']. set (b := pipe_cell x (pi_nread x)) in *.
  destruct (put_byte k addr n f i b Hs ltac:(lia)) as (E1 & H2 & H3). rewrite (bind_Ret _ _ _ _ _ E1).
  set (k1 := k <|mem ::= _|>) in *. erewrite bind_Ret by (by apply (upd_pipe_Ret k1 pi x)).
  set (k2 := k1 <|pipes ::= _|>). destruct (IH (S i) k2 (queue (pop x))) as (k' & E' & Hq' & Hb & Hsb & Hlt & Hw & Ek).
  { by apply (stores_view k1). }
  { exists (pop x). split_and!; [apply lookup_insert_eq|done..]. }
  { lia. }
  replace (Z.of_nat i + 1) with (Z.of_nat (S i)) by lia. exists k'. rewrite <- Eq, Ep. cbn [take drop length].
  rewrite !Nat.add_succ_r. split_and!; [exact E'|exact Hq'| | | | |].
  - intros [|j] c Hj; cbn in Hj.
    + injection Hj as <-. rewrite Nat.add_0_r, Hlt by lia. change (mem k2) with (wr (mem k) (f i) b).
      rewrite rd_wr. by rewrite decide_True.
    + rewrite Nat.add_succ_r. by apply Hb.
  - intros a Ha. rewrite (Hsb a Ha). by apply H2.
  - intros j Hj. rewrite Hlt by lia. change (mem k2) with (wr (mem k) (f i) b). rewrite rd_wr, decide_False; [done|].
    intros Ef. apply (proj1 Hs) in Ef; lia.
  - intros (y & Hy & Hyw)%Hw. unfold k2 in Hy. rsimpl. rewrite lookup_insert_eq in Hy. simplify_eq.
    by exists x.
  - rewrite Ek. unfold k2, k1. kext.
Qed.

(** The end of [piperead], once there is something to copy. *)
Lemma piperead_tail k q :
  inside p pid lk k → stores k addr n f → pipe_at pi q k →
  ∃ r k', (let! r := piperead_loop n pi addr 0 in wakeup (ChNwrite pi);;; release lk;;; ret r) k = Ret r k' ∧
    r.1 = Z.of_nat (length (take n q)) ∧ pipe_at pi (drop n q) k' ∧
    (∀ i b, take n q !! i = Some b → rd (mem k') (f i) = u8 b) ∧ (has_writer k' → has_writer k) ∧
    running k' p ∧ lock_free k' lk ∧ lock_free k' LPtable ∧ no_sleeper (ChNwrite pi) k'.
Proof.
  intros Hi Hs Hq. destruct (piperead_loop_Ret n 0 k q Hs Hq eq_refl) as (k2 & E & (x & Hx) & Hb & _ & _ & Hw & Ek).
  assert (inside p pid lk k2) as Hi2.
  { rewrite Ek. apply (inside_same p pid lk k); [by split_and!|by destruct p|done]. }
  destruct (wakeup_inside p pid _ k2 (ChNwrite pi) Hi2) as [Ew Hiw].
  destruct (release_inside _ _ _ _ Hiw) as (k' & Er & H1 & H2 & H3 & H4 & _ & H5).
  eexists _, k'. split; [|split; [|split_and!]].
  - rewrite (bind_Ret _ _ _ _ _ E), (bind_Ret _ _ _ _ _ Ew), (bind_Ret _ _ _ _ _ Er). reflexivity.
  - done.
  - exists x. by rewrite H3.
  - intros i b Hj. rewrite H3. by apply Hb.
  - intros Hy. apply Hw. unfold has_writer in *. by rewrite H3 in Hy.
  - done.
  - done.
  - by apply H4.
  - unfold no_sleeper. rewrite H5. apply no_sleeper_wake.
Qed.
End reading.

(** ** Properties *)

(** C10: [pipewrite] of the [n] bytes at [addr], while readers may take bytes
    whenever the writer sleeps.  The writer sleeps only on a full pipe and
    after waking the readers; when the call returns [n], what the pipe held
    and the [n] bytes have gone through it in order: the readers took a
    prefix and the queue is the rest.  A call that gives up (the reader is
    gone or the writer was killed) returns -1 after a prefix of the bytes.
    With room for all of them the call returns [n] at once, with the bytes at
    the end of the queue. *)
Theorem pipewrite_correct (T : Turns) (k : kernel) (p : pptr) (pid pi addr : Z) (bs q : list Z) :
  running k p → lock_free k (LPipe pi) → lock_free k LPtable → p_pid <$> lookup_proc k p = Some pid →
  pipe_at pi q k → sees k addr bs →
  wp True (writer_sleeps p pid pi) (readers_only p pid pi addr bs)
    (λ r k', running k' p ∧ lock_free k' (LPipe pi) ∧ lock_free k' LPtable ∧
       ∃ q' taken m, pipe_at pi q' k' ∧ q ++ take m bs = taken ++ q' ∧
         (r = Z.of_nat (length bs) ∧ m = length bs ∧ no_sleeper (ChNread pi) k' ∨ r = -1))
    (pipewrite pi addr (Z.of_nat (length bs))) k ∧
  ((length q + length bs <= 512)%nat → (0 < T)%nat →
   ∃ k', pipewrite pi addr (Z.of_nat (length bs)) k = Ret (Z.of_nat (length bs)) k' ∧ pipe_at pi (q ++ bs) k').
Proof.
  intros Hr Hf Hpt Hp Hq Hs. destruct (acquire_inside k p pid (LPipe pi)) as [E Hi]; [done..|].
  assert (pipe_at pi q (enter (LPipe pi) k)) as Hq1 by exact Hq.
  assert (sees (enter (LPipe pi) k) addr bs) as Hs1 by (refine (sees_view k _ _ _ _ Hs); split; done).
  unfold pipewrite. rewrite Nat2Z.id. split.
  - apply wp_bind. eapply wp_Ret; [exact E|]. apply wp_bind.
    eapply (pipewrite_loop_wp _ _ _ _ _ _ _ 0%nat); [done..|]. clear Hi Hq1 Hs1 E.
    intros ok k1 q1 taken m Hi Hq1 Eq Hm Hok. rewrite drop_0 in Eq. destruct ok; cbn [negb].
    + destruct (wakeup_inside p pid _ k1 (ChNread pi) Hi) as [Ew Hiw]. apply wp_bind. eapply wp_Ret; [exact Ew|].
      destruct (release_inside _ _ _ _ Hiw) as (k' & Er & H1 & H2 & H3 & H4 & _ & H5). apply wp_bind. eapply wp_Ret; [exact Er|].
      eapply wp_Ret; [done|]. split_and!; [done..|by apply H4|]. exists q1, taken, m. split_and!; [|done|left; split_and!; auto].
      * destruct Hq1 as (x & Hx). exists x. by rewrite H3.
      * unfold no_sleeper. rewrite H5. apply no_sleeper_wake.
    + destruct (release_inside _ _ _ _ Hi) as (k' & Er & H1 & H2 & H3 & H4 & _). apply wp_bind. eapply wp_Ret; [exact Er|].
      eapply wp_Ret; [done|]. split_and!; [done..|by apply H4|]. exists q1, taken, m. split_and!; [|done|by right].
      destruct Hq1 as (x & Hx). exists x. by rewrite H3.
  - intros Hroom Ht. rewrite (bind_Ret _ _ _ _ _ E).
    destruct (pipewrite_loop_now pi addr bs (length bs) 0 _ q Hs1 Hq1 eq_refl Hroom Ht) as (k1 & E1 & Hq2 & Ek).
    rewrite (bind_Ret _ _ _ _ _ E1). cbn [negb].
    assert (inside p pid (LPipe pi) k1) as Hi1 by (rewrite Ek; by apply (inside_pipes _ _ _ _ (λ _, _))).
    destruct (wakeup_inside p pid _ k1 (ChNread pi) Hi1) as [Ew Hiw]. rewrite (bind_Ret _ _ _ _ _ Ew).
    destruct (release_inside _ _ _ _ Hiw) as (k' & Er & _ & _ & H3 & _). rewrite (bind_Ret _ _ _ _ _ Er).
    exists k'. split; [done|]. rewrite drop_0 in Hq2. destruct Hq2 as (x & Hx). exists x. by rewrite H3.
Qed.

(** C11: [piperead] of up to [n] bytes into memory, while writers may add bytes
    whenever the reader sleeps.  The reader sleeps only on an empty pipe.
    When the call returns a count, that many bytes are off the front of the
    queue and in the process's memory, in order; it is [n] or all there was,
    and 0 only when there is no writer (or [n] is 0).  A killed reader gets
    -1 and the pipe keeps its bytes.  On a pipe that is not empty the call
    returns at once. *)
Theorem piperead_correct (T : Turns) (k : kernel) (p : pptr) (pid pi addr : Z) (n : nat) (f : nat → Z)
  (q : list Z) :
  running k p → lock_free k (LPipe pi) → lock_free k LPtable → p_pid <$> lookup_proc k p = Some pid →
  pipe_at pi q k → stores k addr n f →
  wp True (reader_sleeps p pid pi) (writers_only p pid pi addr n f)
    (λ r k', running k' p ∧ lock_free k' (LPipe pi) ∧ lock_free k' LPtable ∧
       ∃ more, r.1 = -1 ∧ pipe_at pi (q ++ more) k' ∨
         r.1 = Z.of_nat (length (take n (q ++ more))) ∧ pipe_at pi (drop n (q ++ more)) k' ∧
         (∀ i b, take n (q ++ more) !! i = Some b → rd (mem k') (f i) = u8 b) ∧
         (q ++ more ≠ [] ∨ ¬ has_writer pi k') ∧ no_sleeper (ChNwrite pi) k')
    (piperead pi addr (Z.of_nat n)) k ∧
  (q ≠ [] → (0 < T)%nat →
   ∃ r k', piperead pi addr (Z.of_nat n) k = Ret r k' ∧ r.1 = Z.of_nat (length (take n q)) ∧
     pipe_at pi (drop n q) k' ∧ ∀ i b, take n q !! i = Some b → rd (mem k') (f i) = u8 b).
Proof.
  intros Hr Hf Hpt Hp Hq Hs. destruct (acquire_inside k p pid (LPipe pi)) as [E Hi]; [done..|].
  assert (pipe_at pi q (enter (LPipe pi) k)) as Hq1 by exact Hq.
  assert (stores (enter (LPipe pi) k) addr n f) as Hs1 by exact Hs.
  unfold piperead. rewrite Nat2Z.id.
  split.
  - apply wp_bind. eapply wp_Ret; [exact E|]. apply wp_bind. eapply data_wait_wp; [done..|]. clear Hi Hq1 Hs1 E.
    intros ok k1 more Hi Hs1 Hq1 Hok. destruct ok; cbn [negb].
    + destruct (piperead_tail p pid pi addr n f k1 _ Hi Hs1 Hq1) as (r & k' & Et & H1 & H2 & H3 & H4 & H5 & H6 & H7 & H8).
      eapply wp_Ret; [exact Et|]. split_and!; [done..|]. exists more. right. split_and!; try done.
      destruct (Hok eq_refl); [by left|right; auto].
    + destruct (release_inside _ _ _ _ Hi) as (k' & Er & H1 & H2 & H3 & H4 & _). apply wp_bind. eapply wp_Ret; [exact Er|].
      eapply wp_Ret; [done|]. split_and!; [done..|by apply H4|]. exists more. left. split; [done|].
      destruct Hq1 as (x & Hx). exists x. by rewrite H3.
  - intros Hne Ht. rewrite (bind_Ret _ _ _ _ _ E).
    assert (data_wait turns pi (enter (LPipe pi) k) = Ret true (enter (LPipe pi) k)) as Ew.
    { destruct Hq1 as (x & Hx & Hwf & <-). unfold turns. destruct T as [|t]; [lia|]. cbn [data_wait].
      erewrite bind_Ret by (by apply get_pipe_Ret). destruct (Z.eqb_spec (pi_nread x) (pi_nwrite x)) as [En|]; [|done].
      destruct Hne. apply length_zero_iff_nil. rewrite length_queue, En, Z.sub_diag. done. }
    rewrite (bind_Ret _ _ _ _ _ Ew). cbn [negb].
    destruct (piperead_tail p pid pi addr n f _ _ Hi Hs1 Hq1) as (r & k' & Et & H1 & H2 & H3 & _). by exists r, k'.
Qed.

(** [demo] with the bytes "hi!" in memory and a pipe whose counters are about
    to wrap around and whose queue holds "a". *)
Definition demo_addr : Z := KERNBASE + 0x400000.
Definition demo_pipe : kernel :=
  demo <|locks ::= <[LPipe KERNBASE:=zero_lock]>|>
       <|pipes ::= <[KERNBASE:=MkPipe (replicate 512 97) (2 ^ 32 - 2) (2 ^ 32 - 1) true true]>|>
       <|mem ::= λ m, wr (wr (wr m demo_addr 104) (demo_addr + 1) 105) (demo_addr + 2) 33|>.

Lemma demo_pipe_running : running demo_pipe (PT 0).
Proof. exists (MkCpu 0 0 0 false (Some (PT 0))). by repeat split. Qed.

Lemma demo_pipe_at : pipe_at KERNBASE [97] demo_pipe.
Proof.
  exists (MkPipe (replicate 512 97) (2 ^ 32 - 2) (2 ^ 32 - 1) true true). split_and!; [done| |done].
  split; [done|]. by split_and!.
Qed.

Lemma pipewrite_correct_witness :
  ∃ k', @pipewrite 1%nat Z _ KERNBASE demo_addr 3 demo_pipe = Ret 3 k' ∧ pipe_at KERNBASE [97; 104; 105; 33] k'.
Proof.
  refine (proj2 (pipewrite_correct 1%nat demo_pipe (PT 0) 1 KERNBASE demo_addr [104; 105; 33] [97]
    demo_pipe_running _ _ eq_refl demo_pipe_at _) _ Nat.lt_0_1).
  - by exists EmptyString.
  - by exists EmptyString.
  - reflexivity.
  - cbn. lia.
Defined.

Lemma piperead_correct_witness :
  ∃ r k', @piperead 1%nat Z _ KERNBASE demo_addr 4 demo_pipe = Ret r k' ∧ r.1 = 1 ∧ pipe_at KERNBASE [] k' ∧
    ∀ i b, [97] !! i = Some b → rd (mem k') (demo_addr + Z.of_nat i) = u8 b.
Proof.
  refine (proj2 (piperead_correct 1%nat demo_pipe (PT 0) 1 KERNBASE demo_addr 4 (λ i, demo_addr + Z.of_nat i) [97]
    demo_pipe_running _ _ eq_refl demo_pipe_at _) _ Nat.lt_0_1).
  - by exists EmptyString.
  - by exists EmptyString.
  - split; [intros; lia|]. intros k' i _ _ Hi. rewrite translate_kernel; [|by do 4 (destruct i as [|i]; [done|]); lia].
    do 4 (destruct i as [|i]; [done|]). lia.
  - done.
Defined.
