(* ===== verification/File.v ===== *)
(** The table of open files: [file.c], and the creation of pipes from
    [pipe.c], which needs it. *)

From stdpp Require Import base gmap strings list.
From Stdlib Require Import ZArith Lia Ascii.
From S2P Require Import Prelude Heap CString Mmu State Disk Spinlock Kalloc Vm User Kbd Print Proc Sleeplock Bio Log Inode Console Fs Pipe.
#[local] Open Scope Z_scope.

(** ** The code *)

Definition get_file (f : nat) : M kernel file := λ k,
  match ftable k !! f with Some x => Ret x k | None => Fault end.
Definition upd_file (f : nat) (g : file → file) : M kernel unit :=
  let! _ := get_file f in modify (λ k, k <|ftable ::= alter g f|>).

Definition fileinit : M kernel unit := initlock LFtable "ftable".

(** The first file without references. *)
Definition free_file (k : kernel) : option nat := fst <$> list_find (λ f, f_ref f = 0) (ftable k).

Definition filealloc : M kernel (option nat) :=
  acquire LFtable;;;
  let! r := gets free_file in
  match r with
  | Some f =>
      upd_file f (λ x, x <|f_ref := 1|>);;;
      release LFtable;;;
      ret (Some f)
  | None => release LFtable;;; ret None
  end.

Definition filedup (f : nat) : M kernel nat :=
  acquire LFtable;;;
  let! x := get_file f in
  if f_ref x <? 1 then panic "filedup" else
  upd_file f (λ x, x <|f_ref := i32 (f_ref x + 1)|>);;;
  release LFtable;;;
  ret f.

Section file.
Context `{Turns} `{Driver}.

Definition fileclose (f : nat) : M kernel unit :=
  acquire LFtable;;;
  let! x := get_file f in
  if f_ref x <? 1 then panic "fileclose" else
  upd_file f (λ x, x <|f_ref := i32 (f_ref x - 1)|>);;;
  let! ff := get_file f in
  if 0 <? f_ref ff then release LFtable else
  upd_file f (λ x, x <|f_ref := 0|> <|f_type := FD_NONE|>);;;
  release LFtable;;;
  match f_type ff with
  | FD_PIPE => pipeclose (f_pipe ff) (f_writable ff)
  | FD_INODE => begin_op;;; iput (f_ip ff);;; end_op
  | FD_NONE => ret tt
  end.

Definition filestat (f : nat) (st : Z) : M kernel Z :=
  let! x := get_file f in
  match f_type x with
  | FD_INODE =>
      ilock (f_ip x);;;
      stati (f_ip x) st;;;
      iunlock (f_ip x);;;
      ret 0
  | _ => ret (-1)
  end.

Definition fileread {A} `{Sink A} (f : nat) (addr : A) (n : Z) : M kernel (Z * A) :=
  let! x := get_file f in
  if negb (f_readable x) then ret (-1, addr) else
  match f_type x with
  | FD_PIPE => piperead (f_pipe x) addr n
  | FD_INODE =>
      ilock (f_ip x);;;
      let! x := get_file f in
      let! r := readi (f_ip x) addr (f_off x) (u32 n) in
      (when 0 <? fst r do upd_file f (λ x, x <|f_off := u32 (f_off x + fst r)|>));;;
      iunlock (f_ip x);;;
      ret r
  | FD_NONE => panic "fileread"
  end.

(** The most bytes one transaction of [filewrite] writes. *)
Definition filewrite_max : Z := ((MAXOPBLOCKS - 1 - 1 - 2) / 2) * 512.

(** Each turn is a transaction of its own; the address is [addr + i]. *)
Fixpoint filewrite_loop (fuel : nat) (f : nat) (addr n i : Z) : M kernel Z :=
  match fuel with
  | O => λ _, Loop
  | S fuel =>
      if negb (i <? n) then ret i else
      let n1 := if filewrite_max <? n - i then filewrite_max else n - i in
      begin_op;;;
      (let! x := get_file f in ilock (f_ip x));;;
      let! x := get_file f in
      let! r := writei (f_ip x) (u32 (addr + i)) (f_off x) (u32 n1) in
      (when 0 <? r do upd_file f (λ x, x <|f_off := u32 (f_off x + r)|>));;;
      iunlock (f_ip x);;;
      end_op;;;
      if r <? 0 then ret i else
      if negb (r =? n1) then panic "short filewrite" else
      filewrite_loop fuel f addr n (i + r)
  end.

Definition filewrite (f : nat) (addr n : Z) : M kernel Z :=
  let! x := get_file f in
  if negb (f_writable x) then ret (-1) else
  match f_type x with
  | FD_PIPE => pipewrite (f_pipe x) addr n
  | FD_INODE =>
      let! i := filewrite_loop (S (Z.to_nat n)) f addr n 0 in
      ret (if i =? n then n else -1)
  | FD_NONE => panic "filewrite"
  end.

(** *** [pipealloc] *)

(** The bytes the new page holds where [struct pipe] has its [data]; the spin
    lock before it has 52 bytes. *)
Definition pipe_junk (k : kernel) (p : Z) : list Z :=
  (λ i : nat, rd (mem k) (p + 52 + Z.of_nat i)) <$> seq 0 (Z.to_nat PIPESIZE).

(** Give back what [pipealloc] has taken so far. *)
Definition pipe_bad (f0 f1 : option nat) : M kernel (option (nat * nat)) :=
  match f0 with Some f => fileclose f | None => ret tt end;;;
  match f1 with Some f => fileclose f | None => ret tt end;;;
  ret None.

Definition pipealloc : M kernel (option (nat * nat)) :=
  let! f0 := filealloc in
  match f0 with
  | None => pipe_bad None None
  | Some r =>
      let! f1 := filealloc in
      match f1 with
      | None => pipe_bad (Some r) None
      | Some w =>
          let! p := kalloc in
          if p =? 0 then pipe_bad (Some r) (Some w) else
          modify (λ k, k <|pipes ::= <[p:=MkPipe (pipe_junk k p) 0 0 true true]>|>);;;
          initlock (LPipe p) "pipe";;;
          upd_file r (λ x, x <|f_type := FD_PIPE|> <|f_readable := true|> <|f_writable := false|> <|f_pipe := p|>);;;
          upd_file w (λ x, x <|f_type := FD_PIPE|> <|f_readable := false|> <|f_writable := true|> <|f_pipe := p|>);;;
          ret (Some (r, w))
      end
  end.
End file.
