(* ===== verification/Lifecycle.v ===== *)
(** The life of a process, from [proc.c]: the first process, [growproc],
    [fork], [exit], [wait] and the first return to user space. *)

From stdpp Require Import base gmap strings list.
From Stdlib Require Import ZArith Lia Ascii.
From S2P Require Import Prelude Heap CString Mmu State Disk Spinlock Kalloc Vm User Kbd Print Proc Sleeplock Bio Log Inode Console Fs Pipe File.
#[local] Open Scope Z_scope.

(** ** The code *)

(** The segment selectors of user programs. *)
Definition SEG_UCODE : Z := 3.
Definition SEG_UDATA : Z := 4.
Definition DPL_USER : Z := 3.
Definition FL_IF : Z := 0x200.

Definition zero_tf : trapframe := MkTf 0 0 0 0 0 0 0 0 0 0 0 0 0 0 0 0 0 0 0.

Definition get_tf (a : Z) : M kernel trapframe := λ k,
  match frames k !! a with Some t => Ret t k | None => Fault end.
Definition set_tf (a : Z) (t : trapframe) : M kernel unit := modify (λ k, k <|frames ::= <[a:=t]>|>).

(** [safestrcpy(dst, s, sizeof(p->name))] of a string: at most 15 of its
    bytes. *)
Definition name_copy (s : list Z) : list Z := take 15 s.

(** The fields of the stride scheduler at the start of a process. *)
Definition stride_init (pr : proc) : proc :=
  pr <|p_tickets := TICKETS_INIT|> <|p_stride := STRIDE1 / TICKETS_INIT|> <|p_pass := 0|>
     <|p_remain := STRIDE1 / TICKETS_INIT|> <|p_last_scheduled := 0|> <|p_last_interrupted := 0|>
     <|p_runtime := 0|>.

Section life.
Context `{Turns} `{Driver}.

(** The embedded program [initcode] is [sz] bytes at address [init]; the
    trap frame of the new process is cleared and filled.  A failure of
    [allocproc] is not checked for. *)
Definition userinit (init sz : Z) : M kernel unit :=
  let! r := allocproc in
  modify (λ k, k <|initproc := r|>);;;
  let! p := deref r in
  let! d := setupkvm in
  upd_proc p (λ pr, pr <|p_pgdir := d|>);;;
  if d =? 0 then panic "userinit: out of memory?" else
  inituvm d init sz;;;
  upd_proc p (λ pr, pr <|p_sz := PGSIZE|>);;;
  (let! pr := get_proc p in
   let ds := Z.lor (Z.shiftl SEG_UDATA 3) DPL_USER in
   set_tf (p_tf pr)
     (zero_tf <|tf_cs := Z.lor (Z.shiftl SEG_UCODE 3) DPL_USER|> <|tf_ds := ds|> <|tf_es := ds|>
              <|tf_ss := ds|> <|tf_eflags := FL_IF|> <|tf_esp := PGSIZE|> <|tf_eip := 0|>));;;
  upd_proc p (λ pr, pr <|p_name := name_copy (chars "initcode")|>);;;
  (let! cwd := namei [slash] in
   upd_proc p (λ pr, pr <|p_cwd := cwd|>));;;
  acquire LPtable;;;
  upd_proc p (λ pr, pr <|p_state := RUNNABLE|>);;;
  (let! stride := gets stride_scheduler in
   when stride do
     ((let! pr := get_proc p in
       cprintf (chars "adding stride details for PID: %d in userinit()" ++ [newline]) [Word (p_pid pr)]);;;
      upd_proc p stride_init));;;
  release LPtable.

Definition growproc (n : Z) : M kernel Z :=
  let! curproc := myproc in
  let! p := deref curproc in
  let! pr := get_proc p in
  let! sz :=
    (if 0 <? n then allocuvm (p_pgdir pr) (p_sz pr) (u32 (p_sz pr + n))
     else if n <? 0 then deallocuvm (p_pgdir pr) (p_sz pr) (u32 (p_sz pr + n))
     else ret (p_sz pr)) in
  if negb (n =? 0) && (sz =? 0) then ret (-1) else
  upd_proc p (λ pr, pr <|p_sz := sz|>);;;
  switchuvm curproc;;;
  ret 0.

(** The open files of the parent, duplicated into the child. *)
Fixpoint dup_files (p np : pptr) (n i : nat) : M kernel unit :=
  match n with
  | O => ret tt
  | S n =>
      (let! pr := get_proc p in
       match p_ofile pr !! i with
       | Some (Some f) =>
           let! f := filedup f in
           upd_proc np (λ pr, pr <|p_ofile ::= <[i:=Some f]>|>)
       | _ => ret tt
       end);;;
      dup_files p np n (S i)
  end.

Definition fork : M kernel Z :=
  let! curproc := myproc in
  let! p := deref curproc in
  let! r := allocproc in
  match r with
  | None => ret (-1)
  | Some np =>
      let! pr := get_proc p in
      let! d := copyuvm (p_pgdir pr) (p_sz pr) in
      upd_proc np (λ q, q <|p_pgdir := d|>);;;
      if d =? 0 then
        (let! q := get_proc np in kfree (p_kstack q));;;
        upd_proc np (λ q, q <|p_kstack := 0|>);;;
        upd_proc np (λ q, q <|p_state := UNUSED|>);;;
        ret (-1)
      else
        let! pr := get_proc p in
        upd_proc np (λ q, q <|p_sz := p_sz pr|> <|p_parent := curproc|>);;;
        (let! tf := get_tf (p_tf pr) in
         let! q := get_proc np in
         set_tf (p_tf q) (tf <|tf_eax := 0|>));;;
        dup_files p np NOFILE 0;;;
        (let! cwd := deref (p_cwd pr) in
         let! cwd := idup cwd in
         upd_proc np (λ q, q <|p_cwd := Some cwd|>));;;
        upd_proc np (λ q, q <|p_name := name_copy (p_name pr)|>);;;
        let! q := get_proc np in
        let pid := p_pid q in
        acquire LPtable;;;
        upd_proc np (λ q, q <|p_state := RUNNABLE|>);;;
        (let! stride := gets stride_scheduler in
         when stride do
           (cprintf (chars "adding stride details for PID: %d in fork()" ++ [newline]) [Word pid];;;
            upd_proc np stride_init));;;
        release LPtable;;;
        ret pid
  end.

(** Close the open files of the exiting process. *)
Fixpoint close_files (p : pptr) (n fd : nat) : M kernel unit :=
  match n with
  | O => ret tt
  | S n =>
      (let! pr := get_proc p in
       match p_ofile pr !! fd with
       | Some (Some f) =>
           fileclose f;;;
           upd_proc p (λ pr, pr <|p_ofile ::= <[fd:=None]>|>)
       | _ => ret tt
       end);;;
      close_files p n (S fd)
  end.

(** Pass the children of the exiting process to [init]. *)
Fixpoint reparent (p : pptr) (n i : nat) : M kernel unit :=
  match n with
  | O => ret tt
  | S n =>
      (let! q := get_proc (PT i) in
       when bool_decide (p_parent q = Some p) do
         (let! init := gets initproc in
          upd_proc (PT i) (λ q, q <|p_parent := init|>);;;
          when bool_decide (p_state q = ZOMBIE) do wakeup1 (ChProc <$> init)));;;
      reparent p n (S i)
  end.

(** [exit] does not return. *)
Definition exit : M kernel unit :=
  let! curproc := myproc in
  let! init := gets initproc in
  if bool_decide (curproc = init) then panic "init exiting" else
  let! p := deref curproc in
  close_files p NOFILE 0;;;
  begin_op;;;
  (let! pr := get_proc p in
   let! cwd := deref (p_cwd pr) in
   iput cwd);;;
  end_op;;;
  upd_proc p (λ pr, pr <|p_cwd := None|>);;;
  acquire LPtable;;;
  (let! pr := get_proc p in wakeup1 (ChProc <$> p_parent pr));;;
  reparent p NPROC 0;;;
  upd_proc p (λ pr, pr <|p_state := ZOMBIE|>);;;
  sched;;;
  panic "zombie exit".

(** What the scan of [wait] found. *)
Inductive waited := Reaped (pid : Z) | Kids (b : bool).

(** A zombie child: its memory is freed and its slot is unused. *)
Definition reap (i : nat) (q : proc) : M kernel Z :=
  kfree (p_kstack q);;;
  upd_proc (PT i) (λ q, q <|p_kstack := 0|>);;;
  freevm (p_pgdir q);;;
  upd_proc (PT i) (λ q, q <|p_pid := 0|> <|p_parent := None|> <|p_name := []|> <|p_killed := false|>
                          <|p_state := UNUSED|>);;;
  ret (p_pid q).

Fixpoint wait_scan (p : pptr) (n i : nat) (havekids : bool) : M kernel waited :=
  match n with
  | O => ret (Kids havekids)
  | S n =>
      let! q := get_proc (PT i) in
      if negb (bool_decide (p_parent q = Some p)) then wait_scan p n (S i) havekids else
      if bool_decide (p_state q = ZOMBIE) then
        let! pid := reap i q in
        ret (Reaped pid)
      else wait_scan p n (S i) true
  end.

Fixpoint wait_loop (fuel : nat) (p : pptr) : M kernel Z :=
  match fuel with
  | O => λ _, Loop
  | S fuel =>
      let! r := wait_scan p NPROC 0 false in
      match r with
      | Reaped pid => release LPtable;;; ret pid
      | Kids havekids =>
          let! pr := get_proc p in
          if negb havekids || p_killed pr then release LPtable;;; ret (-1) else
          sleep (ChProc p) LPtable;;;
          wait_loop fuel p
      end
  end.

Definition wait : M kernel Z :=
  let! curproc := myproc in
  acquire LPtable;;;
  let! p := deref curproc in
  wait_loop turns p.

Definition forkret : M kernel unit :=
  release LPtable;;;
  let! first := gets forkret_first in
  when first do
    (modify (λ k, k <|forkret_first := false|>);;;
     iinit ROOTDEV;;;
     initlog ROOTDEV).
End life.

(** ** Growing and shrinking *)

(** The CPU runs process [p], whose memory is the [p_sz] bytes of [us]. *)
Definition has_space (k : kernel) (p : pptr) (pr : proc) (l : list Z) (ts us : gmap Z Z) : Prop :=
  ready k ∧ curproc k = Some p ∧ lookup_proc k p = Some pr ∧ can_run pr ∧ kmem_ready k ∧
  uvm_ok k l (p_pgdir pr) ts us ∧ sized us (p_sz pr) ∧ 0 <= p_sz pr < KERNBASE.

Lemma kmem_ready_touch' k : ready k → kmem_ready k → kmem_ready (touch k).
Proof. intros Hr H Hu. destruct (H Hu) as [_ Hl]. split; [by apply ready_touch|done]. Qed.

(** The allocator changes neither the processes nor which one runs. *)
Lemma mem_frame_proc k k' p :
  mem_frame k k' → lookup_proc k' p = lookup_proc k p ∧ locks k' = locks k.
Proof. intros [-> _]. by destruct p. Qed.


(** The start of [growproc]. *)
Lemma growproc_start k p pr l ts us n :
  has_space k p pr l ts us →
  has_space (touch k) p pr l ts us ∧
  growproc n k =
    (let! sz :=
       (if 0 <? n then allocuvm (p_pgdir pr) (p_sz pr) (u32 (p_sz pr + n))
        else if n <? 0 then deallocuvm (p_pgdir pr) (p_sz pr) (u32 (p_sz pr + n))
        else ret (p_sz pr)) in
     if negb (n =? 0) && (sz =? 0) then ret (-1) else
     upd_proc p (λ pr, pr <|p_sz := sz|>);;; switchuvm (Some p);;; ret 0) (touch k).
Proof.
  intros (Hr & Hcp & Hp & Hc & Hm & Hu & Hs & Hsz). split.
  - split; [by apply ready_touch|]. split; [by rewrite curproc_touch|]. split; [rewrite <- Hp; by destruct p|].
    split; [done|]. split; [by apply kmem_ready_touch'|]. split; [|done]. by eapply uvm_ok_same; [..|exact Hu].
  - unfold growproc. erewrite bind_Ret by (by apply myproc_Ret). rewrite Hcp. unfold deref, get_some.
    rewrite bind_ret_l. erewrite bind_Ret; [done|]. apply get_proc_Ret. rewrite <- Hp. by destruct p.
Qed.








(** Shrinking to size 0 goes wrong: all the pages of the process are freed
    and unmapped, but [deallocuvm] returns the new size, 0, which [growproc]
    takes for a failure: it returns -1 and the process keeps its old size,
    without any memory below it. *)
Theorem growproc_to_zero k p pr l ts us :
  has_space k p pr l ts us → 0 < p_sz pr →
  ∃ k' l', growproc (- p_sz pr) k = Ret (-1) k' ∧ lookup_proc k' p = Some pr ∧
    uvm_ok k' l' (p_pgdir pr) ts ∅ ∧ ∀ i q, us !! i = Some q → q ∈ l'.
Proof.
  intros Hh Hpos. destruct (growproc_start k p pr l ts us (- p_sz pr) Hh) as ((Hr & Hcp & Hp & Hc & Hm & Hu & Hs & Hsz) & ->).
  set (k1 := touch k) in *. clearbody k1. clear Hh k. rename k1 into k.
  destruct (Z.ltb_spec 0 (- p_sz pr)); [lia|]. destruct (Z.ltb_spec (- p_sz pr) 0); [|lia].
  rewrite Z.add_opp_diag_r. change (u32 0) with 0.
  destruct (deallocuvm_ok k l (p_pgdir pr) ts us (p_sz pr) 0 Hu Hm) as (k1 & l' & us' & E & F); [lia|lia|].
  rewrite (bind_Ret _ _ _ _ _ E). destruct (Z.eqb_spec (- p_sz pr) 0); [lia|]. cbn [negb andb Z.eqb].
  pose proof (fr_frame _ _ _ _ _ _ _ _ _ _ F) as Hf. destruct (mem_frame_proc _ _ p Hf) as [Ep _].
  assert (us' = ∅) as ->.
  { apply map_empty. intros i. rewrite (fr_us _ _ _ _ _ _ _ _ _ _ F). case_decide as Hx; [done|].
    apply eq_None_not_Some. intros Hi%Hs. by apply Hx. }
  exists k1, l'. split; [done|]. split; [by rewrite Ep|]. split; [apply F|].
  intros i q Hi. apply (fr_l _ _ _ _ _ _ _ _ _ _ F). right. exists i. split; [done|].
  assert (in_range 0 (p_sz pr) i) as Hx by (apply Hs; by eexists). exact Hx.
Qed.

(** ** Witnesses *)

(** [demo] with two free pages. *)
Definition demo_two : kernel := demo <|mem ::= λ m, wr32 m 0x80200000 0x80201000|>.

Lemma demo_two_rd32 a : a ≠ 0x80200000 → a mod 4 = 0 → rd32 (mem demo_two) a = 0.
Proof.
  intros Ha Hm. change (mem demo_two) with (wr32 ∅ 0x80200000 0x80201000).
  rewrite rd32_wr32_ne; [apply empty_rd32|zdiv].
Qed.

Lemma demo_two_ok : uvm_ok demo_two [0x80200000; 0x80201000] 0x80301000 ∅ ∅.
Proof.
  assert (kmem_ok demo_two [0x80200000; 0x80201000]) as Hk.
  { split; [by repeat split|]. split; [by repeat constructor; set_solver|]. split; [|done]. by repeat constructor. }
  assert (∀ i, 0 <= i < NPDENTRIES → rd32 (mem demo_two) (0x80301000 + 4 * i) = 0) as Hd.
  { intros i Hi. apply demo_two_rd32; [unfold NPDENTRIES in *; lia|zdiv]. }
  assert (∀ va, pte_at (mem demo_two) 0x80301000 va = 0) as Hp.
  { intros va. unfold pte_at. rewrite Hd by apply PDX_range. done. }
  split.
  - split; [exact Hk|]. split.
    + split; [by split| |done|done]. intros i Hi. rewrite lookup_empty. by rewrite Hd.
    + intros p [->|[i Hi]]; [|done]. set_solver.
  - intros n _. by rewrite lookup_empty, Hp.
  - done.
  - done.
Qed.

Lemma demo_two_space : has_space demo_two (PT 0) (demo_proc 1 RUNNING) [0x80200000; 0x80201000] ∅ ∅.
Proof.
  split; [exists (MkCpu 0 0 0 false (Some (PT 0))); by repeat split|]. split; [done|]. split; [done|]. split; [done|].
  split; [done|]. split; [exact demo_two_ok|]. split; [exact sized_empty|done].
Qed.


(** A process with one page, made by [allocuvm]. *)
Lemma demo_one_page : ∃ k l ts us, has_space k (PT 0) ((demo_proc 1 RUNNING) <|p_sz := 4096|>) l ts us.
Proof.
  destruct demo_two_space as (Hr & Hcp & Hp & Hc & Hm & Hu & Hs & Hsz).
  destruct (allocuvm_ok demo_two _ _ _ _ 0 4096 Hu Hm Hs) as (_ & _ & H); [lia..|].
  destruct (H ltac:(lia) ltac:(done)) as (k1 & l & ts & [(E & _)|(us & _ & G & Hs')]).
  { exfalso. assert (match allocuvm 0x80301000 0 4096 demo_two with Ret r _ => r =? 4096 | _ => false end = true) as X
      by (vm_compute; reflexivity). change 0x80301000 with (p_pgdir (demo_proc 1 RUNNING)) in X. by rewrite E in X. }
  clear H. pose proof (gr_frame _ _ _ _ _ _ _ _ _ _ G) as Hf. pose proof (gr_ready _ _ _ _ _ _ _ _ _ _ G) as Hrd.
  destruct (mem_frame_proc _ _ (PT 0) Hf) as [Ep _]. destruct (mem_frame_hw _ _ Hf) as (_ & Ecp & Hrk & _).
  exists (update_proc (PT 0) (λ pr, pr <|p_sz := 4096|>) k1), l, ts, us.
  pose proof (hw_same_update_proc k1 (PT 0) (λ pr, pr <|p_sz := 4096|>)) as Hh.
  split; [eapply ready_same; [exact Hh|by apply Hrk]|]. split; [unfold curproc; rewrite (hw_same_cur _ _ Hh); exact (eq_trans Ecp Hcp)|].
  split; [by rewrite lookup_proc_update, Ep, Hp|]. split; [done|].
  split; [intros Hul; split; [eapply ready_same; [exact Hh|by apply Hrk]|by apply (Hrd Hul)]|].
  split; [by eapply uvm_ok_same; [..|apply G]|]. by split.
Qed.

Lemma growproc_to_zero_witness :
  ∃ k pr l ts us k' l', has_space k (PT 0) pr l ts us ∧ p_sz pr = 4096 ∧
    growproc (- 4096) k = Ret (-1) k' ∧ lookup_proc k' (PT 0) = Some pr ∧ uvm_ok k' l' (p_pgdir pr) ts ∅.
Proof.
  destruct demo_one_page as (k & l & ts & us & H).
  destruct (growproc_to_zero k (PT 0) _ l ts us H ltac:(done)) as (k' & l' & E & H1 & H2 & _).
  exists k, ((demo_proc 1 RUNNING) <|p_sz := 4096|>), l, ts, us, k', l'. split; [exact H|]. split; [done|].
  split; [exact E|]. split; [exact H1|exact H2].
Defined.

(** ** Waiting for a child *)

(** Everything a dead process [q] leaves: its page directory with the pages in
    it, and the page of its kernel stack. *)
Record remains (k : kernel) (l : list Z) (q : proc) (ts us : gmap Z Z) : Prop := {
  rm_space : uvm_ok k l (p_pgdir q) ts us;
  rm_page : page_ok (kernel_end k) (p_kstack q);
  rm_own : ¬ owns (p_pgdir q) ts (p_kstack q);
  rm_free : p_kstack q ∉ l;
  rm_user : ∀ n, us !! n ≠ Some (p_kstack q)
}.

(** The slot of [q] after [wait] has dealt with it. *)
Definition cleared (q : proc) : proc :=
  q <|p_kstack := 0|> <|p_pid := 0|> <|p_parent := None|> <|p_name := []|> <|p_killed := false|>
    <|p_state := UNUSED|>.

Definition child_of (p : pptr) (q : proc) : bool := bool_decide (p_parent q = Some p).

(** With a lock held, the allocator leaves CPUs, interrupts and locks alone. *)
Lemma mem_frame_held k k' l : holds k l → mem_frame k k' → hw_same k k' ∧ ptable k' = ptable k.
Proof.
  intros Hh [E Hc]. rewrite (touch_holds _ _ Hh) in Hc.
  assert (cpus k' = cpus k) as Ec by (by destruct Hc as [|[_ ?]]). split; [|by rewrite E].
  split; [done|]. rewrite E. by split_and!.
Qed.

Lemma kmem_ready_same k k' :
  hw_same k k' → use_lock k' = use_lock k → kmem_ready k → kmem_ready k'.
Proof.
  intros Hs E Hm Hu. destruct Hm as [Hr [nm Hl]]; [by rewrite <- E|].
  split; [by eapply ready_same|]. exists nm. by destruct Hs as (_ & _ & _ & ->).
Qed.

Lemma reap_Ret k i q l ts us :
  holds k LPtable → kmem_ready k → ptable k !! i = Some q → remains k l q ts us →
  ∃ k' l', reap i q k = Ret (p_pid q) k' ∧ hw_same k k' ∧ ptable k' = <[i:=cleared q]> (ptable k) ∧
    kmem_ok k' l' ∧
    ∀ a, a ∈ l' ↔ a = p_kstack q ∨ a ∈ l ∨ owns (p_pgdir q) ts a ∨ ∃ n, us !! n = Some a.
Proof.
  intros Hh Hm Hq [Hu Hp Ho Hl Hus]. unfold reap.
  destruct (free_extra k l _ ts us (p_kstack q) Hu Hm) as (k1 & E1 & Hu1 & Hm1 & Hf1 & _); [done..|].
  rewrite (bind_Ret _ _ _ _ _ E1). destruct (mem_frame_held _ _ _ Hh Hf1) as [Hs1 Ep1].
  assert (ptable k1 !! i = Some q) as Hq1 by (by rewrite Ep1).
  erewrite bind_Ret by (apply upd_proc_Ret; by exists q).
  set (k2 := update_proc (PT i) _ k1).
  assert (hw_same k k2) as Hs2 by exact Hs1.
  assert (uvm_ok k2 (p_kstack q :: l) (p_pgdir q) ts us) as Hu2 by (by eapply uvm_ok_same; [..|exact Hu1]).
  assert (kmem_ready k2) as Hm2 by (by eapply kmem_ready_same; [..|exact Hm1]).
  assert (holds k2 LPtable) as Hh2 by (by eapply holds_same).
  destruct (freevm_ok k2 _ _ ts us Hu2 Hm2) as (k3 & l' & E3 & Hk3 & _ & Hf3 & _ & Hl3).
  rewrite (bind_Ret _ _ _ _ _ E3). destruct (mem_frame_held _ _ _ Hh2 Hf3) as [Hs3 Ep3].
  assert (ptable k3 = <[i:=q <|p_kstack := 0|>]> (ptable k)) as Ep.
  { rewrite Ep3, <- Ep1. by apply list_alter_insert. }
  assert (i < length (ptable k))%nat by (by eapply lookup_lt_Some).
  erewrite bind_Ret.
  2: { apply upd_proc_Ret. exists (q <|p_kstack := 0|>). cbn. rewrite Ep. by apply list_lookup_insert_eq. }
  eexists _, l'. split; [reflexivity|]. split; [destruct Hs2 as (? & ? & ? & ?), Hs3 as (? & ? & ? & ?); split_and!; by etransitivity|]. split; [|split; [done|]].
  - unfold update_proc. rsimpl. rewrite Ep.
    erewrite list_alter_insert by (by apply list_lookup_insert_eq).
    by rewrite list_insert_insert_eq.
  - intros a. rewrite Hl3, elem_of_cons. tauto.
Qed.

(** The scan passes over the slots that are no dead children. *)
Lemma wait_scan_alive p n i h k m :
  (∀ j, (i ≤ j < i + n)%nat →
     ∃ q, ptable k !! j = Some q ∧ (p_parent q = Some p → p_state q ≠ ZOMBIE)) →
  wait_scan p (n + m) i h k = wait_scan p m (i + n) (h || existsb (child_of p) (take n (drop i (ptable k)))) k.
Proof.
  revert i h. induction n as [|n IH]; intros i h Hs.
  { cbn. by rewrite orb_false_r, Nat.add_0_r. }
  destruct (Hs i) as (q & Hq & Hz); [lia|]. cbn [wait_scan Nat.add].
  erewrite bind_Ret by (apply get_proc_Ret; exact Hq).
  rewrite (drop_S _ q) by done. cbn [take existsb]. unfold child_of at 1.
  replace (i + S n)%nat with (S i + n)%nat by lia.
  assert (∀ j, (S i ≤ j < S i + n)%nat →
    ∃ q, ptable k !! j = Some q ∧ (p_parent q = Some p → p_state q ≠ ZOMBIE)) as Hs'
    by (intros; apply Hs; lia).
  case_bool_decide as Hc; cbn [negb].
  - rewrite bool_decide_false by auto. rewrite IH by done. by rewrite orb_true_r.
  - rewrite IH by done. by rewrite orb_false_l.
Qed.

(** Process [p] runs again without locks, with the interrupts as they were
    before the lock of the table was taken. *)
Definition back (k : kernel) (p : pptr) (k' : kernel) : Prop :=
  running k' p ∧ lock_free k' LPtable ∧ eflags_if k' = cur_intena k.

Lemma release_back k p :
  handover k p →
  release LPtable k = Ret tt (dropped LPtable k) ∧ back k p (dropped LPtable k).
Proof.
  intros Hh. pose proof (handover_holds _ _ Hh) as Hl. pose proof Hh as (_ & _ & c & H & Hn & Hp).
  split; [by apply release_dropped|]. split; [|split; [by apply lock_free_dropped|]].
  - pose proof (on_cpu_dropped _ LPtable c H) as H1. exists (cpu_pop c).
    rewrite (on_cpu_cur _ _ _ H1). split; [done|]. unfold cpu_pop. rsimpl. by rewrite Hn.
  - unfold dropped, cur_intena. rsimpl. by rewrite (proj2 H), Hn.
Qed.

Lemma back_same k k1 p k' : hw_same k k1 → back k1 p k' → back k p k'.
Proof.
  intros Hs (H1 & H2 & H3). split; [done|]. split; [done|]. rewrite H3. unfold cur_intena.
  rewrite (hw_same_cur _ _ Hs). by destruct Hs as (-> & _).
Qed.

Lemma handover_same k k' p : hw_same k k' → handover k p → handover k' p.
Proof.
  intros Hs ([nm Hl] & He & c & H & Hn). unfold handover. rewrite (hw_same_cur _ _ Hs).
  pose proof Hs as (_ & _ & Hf & Hk). split; [exists nm; by rewrite Hk|]. split; [by rewrite Hf|].
  exists c. split; [by eapply on_cpu_same|done].
Qed.

(** A round of [wait] that finds a dead child. *)
Lemma wait_round_dead fuel k p i q l ts us :
  handover k p → length (ptable k) = NPROC → kmem_ready k →
  ptable k !! i = Some q → p_parent q = Some p → p_state q = ZOMBIE →
  (∀ j q', (j < i)%nat → ptable k !! j = Some q' → p_parent q' = Some p → p_state q' ≠ ZOMBIE) →
  remains k l q ts us →
  ∃ k' l', wait_loop (S fuel) p k = Ret (p_pid q) k' ∧ back k p k' ∧
    ptable k' = <[i:=cleared q]> (ptable k) ∧ kmem_ok k' l' ∧
    ∀ a, a ∈ l' ↔ a = p_kstack q ∨ a ∈ l ∨ owns (p_pgdir q) ts a ∨ ∃ n, us !! n = Some a.
Proof.
  intros Hh Hlen Hm Hq Hpar Hz Hfst Hrm. pose proof (lookup_lt_Some _ _ _ Hq) as Hi. rewrite Hlen in Hi.
  destruct (reap_Ret k i q l ts us) as (k1 & l' & E & Hs & Hpt & Hk & Hl); [by eapply handover_holds|done..|].
  destruct (release_back k1 p) as [Er Hb]; [by eapply handover_same|].
  exists (dropped LPtable k1), l'. split; [|split; [by eapply back_same|done]].
  cbn [wait_loop]. replace NPROC with (i + S (NPROC - S i))%nat by (unfold NPROC in *; lia).
  erewrite bind_Ret.
  2: { rewrite wait_scan_alive; [cbn [wait_scan Nat.add]|].
       - erewrite bind_Ret by (apply get_proc_Ret; exact Hq).
         rewrite bool_decide_true by done. cbn [negb]. rewrite bool_decide_true by done.
         erewrite bind_Ret by exact E. reflexivity.
       - intros j [_ Hj]. destruct (lookup_lt_is_Some_2 (ptable k) j) as [q' Hq'];
           [unfold NPROC in *; lia|]. exists q'. split; [done|]. by apply Hfst with j. }
  cbv iota beta. by rewrite (bind_Ret _ _ _ _ _ Er).
Qed.

(** A round of [wait] that finds none: it returns, or sleeps and looks again. *)
Lemma wait_round_alive fuel k p pr :
  handover k p → length (ptable k) = NPROC → lookup_proc k p = Some pr →
  (∀ j q, ptable k !! j = Some q → p_parent q = Some p → p_state q ≠ ZOMBIE) →
  wait_loop (S fuel) p k =
    if negb (existsb (child_of p) (ptable k)) || p_killed pr then Ret (-1) (dropped LPtable k)
    else Suspend (asleep p (ChProc p) k)
           (sleep_resume p LPtable (cur_intena k);;; wait_loop fuel p).
Proof.
  intros Hh Hlen Hp Hno. cbn [wait_loop].
  erewrite bind_Ret.
  2: { replace NPROC with (NPROC + 0)%nat at 1 by lia. rewrite wait_scan_alive; [reflexivity|].
       intros j [_ Hj]. destruct (lookup_lt_is_Some_2 (ptable k) j) as [q' Hq']; [lia|].
       exists q'. split; [done|]. by apply Hno with j. }
  rewrite drop_0, take_ge by lia. cbn [orb].
  erewrite bind_Ret by (by apply get_proc_Ret).
  destruct (negb _ || p_killed pr).
  - destruct (release_back k p Hh) as [E _]. by rewrite (bind_Ret _ _ _ _ _ E).
  - destruct (sleep_Suspend k p pr (ChProc p) LPtable) as [_ E]; [done|done|done|].
    by rewrite (bind_Suspend _ _ _ _ _ E).
Qed.

(** C9: [wait] in a process [p].  It takes the lock of the table and looks
    through it, in rounds.  When the first dead child of [p] is in slot [i],
    the round returns that child's identifier: the slot is unused, no other
    slot changes, and the free list has gained exactly the child's kernel
    stack, its page directory, its page tables and its user pages.  Without
    a child, or with none dead and [p] killed, the round returns -1 and the
    table is as it was.  Otherwise [p] gives up the CPU, asleep on its own
    address; when it is switched to again, on any CPU and whatever the other
    processes did, the next round begins.  On return the lock is free and the
    interrupts are as they were at the call. *)
Theorem wait_correct `{Turns} p :
  (∀ k, running k p → lock_free k LPtable →
     ∃ k1, wait k = wait_loop turns p k1 ∧ handover k1 p ∧ cur_intena k1 = eflags_if k ∧
       ptable k1 = ptable k) ∧
  ∀ fuel k pr, handover k p → length (ptable k) = NPROC → lookup_proc k p = Some pr →
  (∀ i q l ts us, kmem_ready k → ptable k !! i = Some q → p_parent q = Some p → p_state q = ZOMBIE →
     (∀ j q', (j < i)%nat → ptable k !! j = Some q' → p_parent q' = Some p → p_state q' ≠ ZOMBIE) →
     remains k l q ts us →
     ∃ k' l', wait_loop (S fuel) p k = Ret (p_pid q) k' ∧ back k p k' ∧
       ptable k' = <[i:=cleared q]> (ptable k) ∧ kmem_ok k' l' ∧
       ∀ a, a ∈ l' ↔ a = p_kstack q ∨ a ∈ l ∨ owns (p_pgdir q) ts a ∨ ∃ n, us !! n = Some a) ∧
  ((∀ j q, ptable k !! j = Some q → p_parent q = Some p → p_state q ≠ ZOMBIE) →
     if negb (existsb (child_of p) (ptable k)) || p_killed pr then
       ∃ k', wait_loop (S fuel) p k = Ret (-1) k' ∧ back k p k' ∧ ptable k' = ptable k
     else
       ∃ s m, wait_loop (S fuel) p k = Suspend s m ∧ handover s p ∧
         lookup_proc s p = Some (pr <|p_chan := Some (ChProc p)|> <|p_state := SLEEPING|>
                                    <|p_context := CtxSaved|>) ∧
         ∀ s', handover s' p → valid s' p →
           ∃ k', m s' = wait_loop fuel p k' ∧ handover k' p ∧ cur_intena k' = cur_intena k ∧
             k' = update_proc p (λ pr, pr <|p_chan := None|>) (s' <|cpus := cpus k'|>)).
Proof.
  split.
  - intros k Hr Hf. pose proof (running_ready _ _ Hr) as Hrd. pose proof (running_touch k p Hr) as Hrt.
    exists (enter LPtable (touch k)). split.
    + unfold wait. erewrite bind_Ret by (by apply myproc_Ret).
      erewrite bind_Ret by (apply acquire_enter; [by apply ready_touch|done]).
      replace (curproc k) with (Some p); [apply bind_ret_l|].
      destruct Hr as (c & H1 & _ & <-). unfold curproc. by rewrite (proj2 H1).
    + split; [by apply handover_enter|]. split; [by erewrite cur_intena_enter|done].
  - intros fuel k pr Hh Hlen Hp. split.
    + intros. by eapply wait_round_dead.
    + intros Hno. pose proof (wait_round_alive fuel k p pr Hh Hlen Hp Hno) as E.
      destruct (negb _ || p_killed pr).
      * eexists. split; [exact E|]. by destruct (release_back k p Hh).
      * eexists _, _. split; [exact E|]. split; [by apply handover_update|].
        split; [unfold asleep; by rewrite lookup_proc_update, Hp|].
        intros s' Hs' Hv. eexists. split.
        { unfold sleep_resume. rewrite !bind_assoc.
          erewrite bind_Ret by (by eapply sched_resume_Ret). rewrite bind_assoc.
          erewrite bind_Ret by (apply upd_proc_Ret; by apply (valid_eq s')).
          rewrite bool_decide_true by done. cbn [negb]. rewrite bind_ret_l. reflexivity. }
        split; [by apply handover_update, handover_resumed|].
        split; [rewrite cur_intena_update; by eapply cur_intena_resumed|]. by destruct p.
Qed.

(** [demo_two] with a dead child of process 1, in [wait] with the lock taken. *)
Definition demo_dead : proc := (demo_proc 2 ZOMBIE) <|p_parent := Some (PT 0)|>.
Definition demo_wait : kernel := demo_two <|ptable ::= <[1%nat:=demo_dead]>|>.

Lemma demo_wait_remains : remains demo_wait [0x80200000; 0x80201000] demo_dead ∅ ∅.
Proof.
  split.
  - by eapply uvm_ok_same; [..|exact demo_two_ok].
  - by split.
  - intros [?|[i Hi]]; done.
  - set_solver.
  - done.
Qed.

Lemma wait_correct_witness :
  ∃ k' l', wait_loop 1 (PT 0) (enter LPtable demo_wait) = Ret 2 k' ∧ kmem_ok k' l' ∧
    ptable k' !! 1%nat = Some (cleared demo_dead) ∧ (0x80300000 ∈ l' ∧ 0x80301000 ∈ l').
Proof.
  assert (running demo_wait (PT 0)) as Hr by (exists (MkCpu 0 0 0 false (Some (PT 0))); by repeat split).
  assert (lock_free demo_wait LPtable) as Hf by (by exists EmptyString).
  destruct (proj2 (@wait_correct 1%nat (PT 0)) 0%nat (enter LPtable demo_wait) (demo_proc 1 RUNNING)) as [H _].
  - by apply handover_enter.
  - done.
  - done.
  - destruct (H 1%nat demo_dead [0x80200000; 0x80201000] ∅ ∅) as (k' & l' & E & _ & Ep & Hk & Hl).
    + intros _. split; [by apply ready_enter; [eapply running_roomy|]|]. by exists EmptyString.
    + done.
    + done.
    + done.
    + intros [|] q' Hj Hq; [|lia]. injection Hq as <-. done.
    + destruct demo_wait_remains as [H1 H2 H3 H4 H5]. split; [|done..].
      by eapply uvm_ok_same; [..|exact H1].
    + exists k', l'. split; [exact E|]. split; [exact Hk|].
      split; [rewrite Ep; apply list_lookup_insert_eq; vm_compute; lia|].
      split; apply Hl; [by left|]. right. right. left. by left.
Defined.
