(* ===== verification/Fork.v ===== *)
(** The guarantees of [fork] of [proc.c]: the child's slot in the process
    table, its memory, its open files and what happens when memory or slots
    run out.  The definitions are in [Lifecycle]; copying memory is in
    [Space]. *)

From stdpp Require Import base gmap strings list.
From Stdlib Require Import ZArith Lia Ascii.
From S2P Require Import Prelude CString Mmu State Spinlock Kalloc Vm Bytes Space Kbd Print Proc Sleeplock Inode File Lifecycle.
#[local] Open Scope Z_scope.

(** ** References *)

Definition one_more (x : file) : file := x <|f_ref := i32 (f_ref x + 1)|>.

(** One more reference for each file in [fs]. *)
Definition add_refs (fs : list (option nat)) (ft : list file) : list file :=
  foldl (λ ft o, match o with Some f => alter one_more f ft | None => ft end) ft fs.

(** The files of [fs] are open, and their reference counts, which are [int]s,
    can grow by [n]. *)
Definition open_files (n : nat) (fs : list (option nat)) (ft : list file) : Prop :=
  ∀ f, Some f ∈ fs → ∃ x, ft !! f = Some x ∧ 1 <= f_ref x < 2 ^ 31 - Z.of_nat n.

Lemma get_file_Ret k f x : ftable k !! f = Some x → get_file f k = Ret x k.
Proof. intros H. unfold get_file. by rewrite H. Qed.

Lemma get_inode_Ret k i x : icache k !! i = Some x → get_inode i k = Ret x k.
Proof. intros H. unfold get_inode. by rewrite H. Qed.

Lemma filedup_Ret k f x :
  ready k → lock_free k LFtable → ftable k !! f = Some x → 1 <= f_ref x →
  filedup f k = Ret f (touch (k <|ftable ::= alter one_more f|>)).
Proof.
  intros Hr Hl Hf Hx. unfold filedup, upd_file. erewrite bind_Ret by (by apply acquire_enter).
  erewrite bind_Ret by (by apply get_file_Ret). destruct (Z.ltb_spec (f_ref x) 1); [lia|].
  rewrite bind_assoc. erewrite bind_Ret by (by apply get_file_Ret).
  rewrite bind_modify. erewrite bind_Ret by (by apply release_leave). unfold ret. f_equal.
Qed.

Lemma idup_Ret k ip x :
  ready k → lock_free k LIcache → icache k !! ip = Some x →
  idup ip k = Ret ip (touch (k <|icache ::= alter (λ x, x <|i_ref := i32 (i_ref x + 1)|>) ip|>)).
Proof.
  intros Hr Hl Hf. unfold idup, upd_inode. erewrite bind_Ret by (by apply acquire_enter).
  rewrite bind_assoc. erewrite bind_Ret by (by apply get_inode_Ret).
  rewrite bind_modify. erewrite bind_Ret by (by apply release_leave). unfold ret. f_equal.
Qed.

Lemma upd_slot k c q f :
  ptable k !! c = Some q → upd_proc (PT c) f k = Ret tt (k <|ptable := <[c:=f q]> (ptable k)|>).
Proof.
  intros Hq. rewrite upd_proc_Ret by (by exists q). f_equal. cbn. kext. by apply list_alter_insert.
Qed.

(** ** The open files *)

(** What [fork] changes outside memory. *)
Definition side (k k' : kernel) : Prop :=
  k' = k <|cpus := cpus k'|> <|ptable := ptable k'|> <|ftable := ftable k'|> <|icache := icache k'|>
         <|frames := frames k'|>.

Lemma side_refl k : side k k.
Proof. unfold side. kext. Qed.

Lemma side_trans k k1 k2 : side k k1 → side k1 k2 → side k k2.
Proof. unfold side. intros E1 E2. rewrite E2. rewrite E1 at 1. kext. Qed.

Lemma open_files_more n fs ft f :
  open_files (S n) fs ft → open_files n fs (alter one_more f ft).
Proof.
  intros Ho g Hg. destruct (Ho g Hg) as (x & Hx & Hn). destruct (decide (g = f)) as [->|Hne].
  - exists (one_more x). rewrite list_lookup_alter_eq, Hx. split; [done|].
    unfold one_more. rsimpl. rewrite i32_small; lia.
  - exists x. rewrite list_lookup_alter_ne by done. split; [done|lia].
Qed.

Lemma open_files_less n fs ft : open_files (S n) fs ft → open_files n fs ft.
Proof. intros Ho f Hf. destruct (Ho f Hf) as (x & Hx & Hn). exists x. split; [done|lia]. Qed.

(** Slot [j] of the open files, [x] before [n] files of [fs] from [i] on were
    duplicated. *)
Definition inherit (n i : nat) (fs : list (option nat)) (j : nat) (x : option nat) : option nat :=
  if decide (i ≤ j < i + n)%nat then match fs !! j with Some (Some f) => Some f | _ => x end else x.

Lemma running_same k k' p : hw_same k k' → running k p → running k' p.
Proof.
  intros Hs (c & H & Hc). exists c. rewrite (hw_same_cur _ _ Hs). split; [by eapply on_cpu_same|done].
Qed.

Lemma lookup_other k p c (pt : list proc) :
  p ≠ PT c → (∀ j, j ≠ c → pt !! j = ptable k !! j) →
  lookup_proc (k <|ptable := pt|>) p = lookup_proc k p.
Proof. intros Hp Hpt. destruct p as [j|j]; [|done]. apply Hpt. by intros ->. Qed.

Lemma list_lookup_insert_fmap {A} (l : list A) i x j :
  <[i:=x]> l !! j = (λ y, if decide (j = i) then x else y) <$> (l !! j).
Proof.
  destruct (decide (j = i)) as [->|Hne].
  - destruct (l !! i) eqn:E; cbn; [by apply list_lookup_insert_eq; eapply lookup_lt_Some|].
    by rewrite list_insert_ge by (by apply lookup_ge_None).
  - rewrite list_lookup_insert_ne by done. by destruct (l !! j).
Qed.

(** The next slot, with a file or without. *)
Lemma inherit_file n i fs j x f :
  fs !! i = Some (Some f) →
  inherit (S n) i fs j x = inherit n (S i) fs j (if decide (j = i) then Some f else x).
Proof.
  intros Hi. unfold inherit. destruct (decide (j = i)) as [->|].
  - rewrite (decide_True (P := (i ≤ i < i + S n)%nat)), Hi by lia. by destruct (decide _).
  - destruct (decide (S i ≤ j < S i + n)%nat); [by rewrite decide_True by lia|by rewrite decide_False by lia].
Qed.

Lemma inherit_none n i fs j x :
  (∀ f, fs !! i ≠ Some (Some f)) → inherit (S n) i fs j x = inherit n (S i) fs j x.
Proof.
  intros Hi. unfold inherit. destruct (decide (j = i)) as [->|].
  - rewrite (decide_False (P := (S i ≤ i < S i + n)%nat)) by lia.
    destruct (decide _); [|done]. destruct (fs !! i) as [[f|]|]; [|done..]. by destruct (Hi f).
  - destruct (decide (S i ≤ j < S i + n)%nat); [by rewrite decide_True by lia|by rewrite decide_False by lia].
Qed.

Lemma add_refs_file n i fs ft f :
  fs !! i = Some (Some f) →
  add_refs (take (S n) (drop i fs)) ft = add_refs (take n (drop (S i) fs)) (alter one_more f ft).
Proof. intros Hi. by rewrite (drop_S _ _ _ Hi). Qed.

Lemma add_refs_none n i fs ft :
  (∀ f, fs !! i ≠ Some (Some f)) →
  add_refs (take (S n) (drop i fs)) ft = add_refs (take n (drop (S i) fs)) ft.
Proof.
  intros Hi. destruct (fs !! i) as [[f|]|] eqn:E; [by destruct (Hi f)|by rewrite (drop_S _ _ _ E)|].
  apply lookup_ge_None in E. by rewrite !drop_ge, !take_nil by lia.
Qed.

Lemma dup_files_Ret p c n i k pr q :
  running k p → lock_free k LFtable → lookup_proc k p = Some pr → p ≠ PT c → ptable k !! c = Some q →
  open_files n (p_ofile pr) (ftable k) →
  ∃ k' o, dup_files p (PT c) n i k = Ret tt k' ∧ side k k' ∧ running k' p ∧
    ptable k' = <[c:=q <|p_ofile := o|>]> (ptable k) ∧
    ftable k' = add_refs (take n (drop i (p_ofile pr))) (ftable k) ∧
    icache k' = icache k ∧ frames k' = frames k ∧
    ∀ j, o !! j = inherit n i (p_ofile pr) j <$> (p_ofile q !! j).
Proof.
  revert i k q. induction n as [|n IH]; intros i k q Hr Hl Hp Hne Hq Ho; cbn [dup_files].
  { exists k, (p_ofile q). split; [done|]. split; [apply side_refl|]. split; [done|].
    split; [rewrite list_insert_id; [done|]; rewrite Hq; by destruct q|]. do 3 (split; [done|]).
    intros j. unfold inherit. destruct (p_ofile q !! j); [|done]. cbn. by rewrite decide_False by lia. }
  rewrite bind_assoc. erewrite bind_Ret by (by apply get_proc_Ret).
  assert (p_ofile pr !! i = p_ofile pr !! i) as Hi by done. revert Hi.
  destruct (p_ofile pr !! i) as [[f|]|] at 2 3; intros Hi.
  2,3: rewrite bind_ret_l; destruct (IH (S i) k q Hr Hl Hp Hne Hq (open_files_less _ _ _ Ho)) as
         (k' & o & E & Hs & Hr' & Hpt & Hft & Hic & Hfr & Ho');
       exists k', o; do 4 (split; [done|]); rewrite add_refs_none by (by rewrite Hi); do 3 (split; [done|]);
       intros j; rewrite Ho'; destruct (p_ofile q !! j); [|done]; cbn; by rewrite inherit_none by (by rewrite Hi).
  destruct (Ho f) as (x & Hf & Hx); [by eapply list_elem_of_lookup_2|]. rewrite bind_assoc.
  erewrite bind_Ret by (eapply filedup_Ret; [by eapply running_ready|done|done|lia]).
  set (k1 := touch _). assert (ptable k1 !! c = Some q) as Hq1 by done.
  rewrite (bind_Ret _ _ _ _ _ (upd_slot k1 c q _ Hq1)). set (q1 := q <|p_ofile ::= _|>).
  set (k2 := k1 <|ptable := _|>).
  assert (running k2 p) as Hr2.
  { apply (running_same k1); [done|]. apply running_touch. by apply (running_same k). }
  destruct (IH (S i) k2 q1) as (k' & o & E & Hs & Hr' & Hpt & Hft & Hic & Hfr & Ho').
  { done. } { done. }
  { rewrite <- Hp. apply (lookup_other k1 p c); [done|]. intros j Hj. by apply list_lookup_insert_ne. }
  { done. }
  { unfold k2. rsimpl. apply list_lookup_insert_eq. by eapply lookup_lt_Some. }
  { by apply open_files_more. }
  exists k', o. split; [done|]. split; [eapply side_trans; [|exact Hs]; unfold side; kext|]. split; [done|].
  split; [rewrite Hpt; unfold k2; rsimpl; by rewrite list_insert_insert_eq|].
  rewrite (add_refs_file _ _ _ _ f) by done. split; [exact Hft|]. split; [exact Hic|]. split; [exact Hfr|].
  intros j. rewrite Ho'. unfold q1. rsimpl. rewrite list_lookup_insert_fmap.
  destruct (p_ofile q !! j); [|done]. cbn. by rewrite (inherit_file _ _ _ _ _ f).
Qed.

(** ** The end of [fork] *)

(** The child as it is published. *)
Definition published (stride : bool) (q : proc) : proc :=
  if stride then stride_init (q <|p_state := RUNNABLE|>) else q <|p_state := RUNNABLE|>.

(** The message of the stride scheduler goes to the screen. *)
Definition announced (k k' : kernel) : Prop :=
  k' = k <|cpus := cpus (touch k)|> <|ptable := ptable k'|> <|mem := mem k'|> <|console := console k'|> ∧
  off_screen (mem k) (mem k') ∧ bytes_ok (mem k').

Lemma stride_message pid :
  ∃ cs, render (chars "adding stride details for PID: %d in fork()" ++ [newline]) [Word pid] = Some cs.
Proof. eexists. reflexivity. Qed.

Lemma publish_Ret `{Turns} k c q pid :
  roomy k → lock_free k LPtable → lock_free k LCons → con_ok k → ptable k !! c = Some q →
  ∃ k', (acquire LPtable;;;
         upd_proc (PT c) (λ q, q <|p_state := RUNNABLE|>);;;
         (let! stride := gets stride_scheduler in
          when stride do
            (cprintf (chars "adding stride details for PID: %d in fork()" ++ [newline]) [Word pid];;;
             upd_proc (PT c) stride_init));;;
         release LPtable;;;
         ret pid) k = Ret pid k' ∧
    announced k k' ∧ ptable k' = <[c:=published (stride_scheduler k) q]> (ptable k).
Proof.
  intros Hr Hl Hlc Hc Hq. pose proof (roomy_ready _ Hr) as Hr'.
  erewrite bind_Ret by (by apply acquire_enter).
  rewrite (bind_Ret _ _ _ _ _ (upd_slot (enter LPtable k) c q _ Hq)).
  set (k1 := (enter LPtable k) <|ptable := _|>). rewrite bind_assoc, bind_gets.
  change (stride_scheduler k1) with (stride_scheduler k). unfold published.
  destruct (stride_scheduler k).
  - destruct (stride_message pid) as [cs Hcs].
    assert (holds k1 LPtable) as Hh by (apply (holds_same (enter LPtable k)); [done|by apply holds_enter]).
    destruct (λ Ha Hb Hc, cprintf_shows _ _ cs k1 Ha Hb Hc Hcs) as (k2 & E2 & Hs); [|by eapply holds_ready| |].
    { by apply (term_same k k1). }
    { destruct Hlc as [nm Hlc]. exists nm. unfold k1, enter. rsimpl. by rewrite lookup_alter_ne. }
    rewrite bind_assoc, (bind_Ret _ _ _ _ _ E2).
    rewrite (touch_holds _ _ Hh) in Hs. destruct Hs as (_ & [[Hb _] _] & [Hs Hoff] & _).
    replace (if cons_locking (console k1) then k1 else k1) with k1 in * by (by destruct (cons_locking (console k1))).
    assert (ptable k2 = <[c:=q <|p_state := RUNNABLE|>]> (ptable k)) as Hp2 by (by rewrite Hs).
    assert (ptable k2 !! c = Some (q <|p_state := RUNNABLE|>)) as Hq2.
    { rewrite Hp2. apply list_lookup_insert_eq. by eapply lookup_lt_Some. }
    rewrite (bind_Ret _ _ _ _ _ (upd_slot k2 c _ _ Hq2)). set (k3 := k2 <|ptable := _|>).
    erewrite bind_Ret by (apply release_leave; [done|done|]; unfold k3; rewrite Hs; by split_and!).
    eexists. split; [reflexivity|]. split.
    + split; [|by split]. unfold k3. rewrite Hs. unfold leave. kext.
    + change (ptable (leave k k3)) with (<[c:=stride_init (q <|p_state := RUNNABLE|>)]> (ptable k2)).
      by rewrite Hp2, list_insert_insert_eq.
  - rewrite bind_ret_l. erewrite bind_Ret by (by apply release_leave).
    eexists. split; [reflexivity|]. split; [|done]. split; [unfold leave; kext|]. split; [by intros b|].
    apply Hc.
Qed.

(** The child of [p] in the slot that was [q], with open files [o]. *)
Definition child (p : pptr) (pr q : proc) (stride : bool) (o : list (option nat)) : proc :=
  published stride
    (q <|p_sz := p_sz pr|> <|p_parent := Some p|> <|p_ofile := o|> <|p_cwd := p_cwd pr|>
       <|p_name := name_copy (p_name pr)|>).

(** What [fork] leaves of [k], with the child [q] in slot [c]. *)
Record forked (k : kernel) (pr q : proc) (c : nat) (tf : trapframe) (a : Z) (k' : kernel) : Prop := {
  fk_table : ptable k' = <[c:=q]> (ptable k);
  fk_heap : heap_arr k' = heap_arr k;
  fk_files : ftable k' = add_refs (take NOFILE (p_ofile pr)) (ftable k);
  fk_cwd : ∃ ip, p_cwd pr = Some ip ∧
    icache k' = alter (λ x, x <|i_ref := i32 (i_ref x + 1)|>) ip (icache k);
  fk_frames : frames k' = <[a:=tf <|tf_eax := 0|>]> (frames k);
  fk_locks : locks k' = locks k;
  fk_if : eflags_if k' = eflags_if k
}.

(** The part of [fork] after the memory was copied. *)
Lemma fork_finish `{Turns} k p pr c q tf ip x :
  running k p → lock_free k LPtable → lock_free k LFtable → lock_free k LIcache → lock_free k LCons →
  con_ok k → lookup_proc k p = Some pr → p ≠ PT c → ptable k !! c = Some q →
  frames k !! p_tf pr = Some tf → p_cwd pr = Some ip → icache k !! ip = Some x →
  open_files NOFILE (p_ofile pr) (ftable k) →
  ∃ k' o,
    (let! pr := get_proc p in
     upd_proc (PT c) (λ q, q <|p_sz := p_sz pr|> <|p_parent := Some p|>);;;
     (let! tf := get_tf (p_tf pr) in
      let! q := get_proc (PT c) in
      set_tf (p_tf q) (tf <|tf_eax := 0|>));;;
     dup_files p (PT c) NOFILE 0;;;
     (let! cwd := deref (p_cwd pr) in
      let! cwd := idup cwd in
      upd_proc (PT c) (λ q, q <|p_cwd := Some cwd|>));;;
     upd_proc (PT c) (λ q, q <|p_name := name_copy (p_name pr)|>);;;
     let! q := get_proc (PT c) in
     let pid := p_pid q in
     acquire LPtable;;;
     upd_proc (PT c) (λ q, q <|p_state := RUNNABLE|>);;;
     (let! stride := gets stride_scheduler in
      when stride do
        (cprintf (chars "adding stride details for PID: %d in fork()" ++ [newline]) [Word pid];;;
         upd_proc (PT c) stride_init));;;
     release LPtable;;;
     ret pid) k = Ret (p_pid q) k' ∧
    forked k pr (child p pr q (stride_scheduler k) o) c tf (p_tf q) k' ∧
    freelist k' = freelist k ∧ kernel_end k' = kernel_end k ∧ off_screen (mem k) (mem k') ∧
    ∀ j, o !! j = inherit NOFILE 0 (p_ofile pr) j <$> (p_ofile q !! j).
Proof.
  intros Hr Hlp Hlf Hli Hlc Hc Hp Hne Hq Htf Hcwd Hip Ho.
  assert (c < length (ptable k))%nat as Hlen by (by eapply lookup_lt_Some).
  erewrite bind_Ret by (by apply get_proc_Ret).
  rewrite (bind_Ret _ _ _ _ _ (upd_slot k c q _ Hq)). set (q1 := q <|p_sz := _|> <|p_parent := _|>).
  set (k1 := k <|ptable := _|>). rewrite bind_assoc.
  erewrite bind_Ret by (unfold get_tf; change (frames k1) with (frames k); by rewrite Htf).
  rewrite bind_assoc. erewrite bind_Ret by (apply get_proc_Ret; by apply list_lookup_insert_eq).
  unfold set_tf. rewrite bind_modify. set (k2 := k1 <|frames ::= _|>).
  destruct (dup_files_Ret p c NOFILE 0 k2 pr q1) as (k3 & o & E3 & Hs3 & Hr3 & Hpt3 & Hft3 & Hic3 & Hfr3 & Ho3).
  { by apply (running_same k). } { done. }
  { rewrite <- Hp. apply (lookup_other k p c); [done|]. intros j Hj. by apply list_lookup_insert_ne. }
  { done. } { by apply list_lookup_insert_eq. } { done. }
  rewrite (bind_Ret _ _ _ _ _ E3), Hcwd. unfold deref, get_some. rewrite bind_assoc, bind_ret_l, bind_assoc.
  assert (locks k3 = locks k) as El3 by (by rewrite Hs3).
  erewrite bind_Ret.
  2: { eapply idup_Ret; [by eapply running_ready|unfold lock_free; by rewrite El3|by rewrite Hic3]. }
  set (k4 := touch _). assert (ptable k4 = <[c:=q1 <|p_ofile := o|>]> (ptable k)) as Hpt4.
  { etransitivity; [exact Hpt3|]. apply list_insert_insert_eq. }
  assert (ptable k4 !! c = Some (q1 <|p_ofile := o|>)) as Hq4 by (rewrite Hpt4; by apply list_lookup_insert_eq).
  rewrite (bind_Ret _ _ _ _ _ (upd_slot k4 c _ _ Hq4)). set (k5 := k4 <|ptable := _|>).
  assert (ptable k5 !! c = Some (q1 <|p_ofile := o|> <|p_cwd := Some ip|>)) as Hq5
    by (apply list_lookup_insert_eq; by eapply lookup_lt_Some).
  rewrite (bind_Ret _ _ _ _ _ (upd_slot k5 c _ _ Hq5)). set (k6 := k5 <|ptable := _|>).
  set (q6 := q1 <|p_ofile := o|> <|p_cwd := Some ip|> <|p_name := name_copy (p_name pr)|>).
  assert (ptable k6 !! c = Some q6) as Hq6 by (apply list_lookup_insert_eq; by eapply lookup_lt_Some).
  erewrite bind_Ret by (apply get_proc_Ret; exact Hq6). cbv zeta.
  assert (roomy k6) as Hr6.
  { apply (ready_same k4); [done|]. apply ready_touch, (ready_same k3); [done|]. by eapply running_roomy. }
  destruct (publish_Ret k6 c q6 (p_pid q) Hr6) as (k' & E' & (Ha & Hoff & _) & Hpt').
  { unfold lock_free. change (locks k6) with (locks k3). by rewrite El3. }
  { unfold lock_free. change (locks k6) with (locks k3). by rewrite El3. }
  { apply (term_same k k6); [change (mem k6) with (mem k3)|change (console k6) with (console k3)|done]; by rewrite Hs3. }
  { exact Hq6. }
  exists k', o. split; [exact E'|].
  split; [|split; [rewrite Ha; change (freelist k3 = freelist k); by rewrite Hs3|]].
  2: { split; [rewrite Ha; change (kernel_end k3 = kernel_end k); by rewrite Hs3|]. split; [|exact Ho3].
       change (mem k6) with (mem k3) in Hoff. replace (mem k3) with (mem k) in Hoff by (by rewrite Hs3). exact Hoff. }
  change (stride_scheduler k6) with (stride_scheduler k3) in Hpt'.
  assert (stride_scheduler k3 = stride_scheduler k) as Es3 by (by rewrite Hs3). rewrite Es3 in Hpt'.
  split.
  - rewrite Hpt'. change (ptable k6) with (<[c:=q6]> (<[c:=q1 <|p_ofile := o|> <|p_cwd := Some ip|>]> (ptable k4))).
    rewrite Hpt4, !list_insert_insert_eq. unfold child. by rewrite Hcwd.
  - rewrite Ha. change (heap_arr k3 = heap_arr k). by rewrite Hs3.
  - rewrite Ha. exact Hft3.
  - exists ip. split; [done|]. rewrite Ha.
    transitivity (alter (λ x, x <|i_ref := i32 (i_ref x + 1)|>) ip (icache k3)); [done|]. by rewrite Hic3.
  - rewrite Ha. exact Hfr3.
  - rewrite Ha. exact El3.
  - rewrite Ha. change (eflags_if k3 = eflags_if k). by rewrite Hs3.
Qed.

(** ** Memory *)

(** A change outside the pages above the kernel keeps a space. *)
Lemma uvm_ok_pages k k' l D ts us :
  uvm_ok k l D ts us → freelist k' = freelist k → kernel_end k' = kernel_end k →
  (∀ q, page_ok (kernel_end k) q → page_eq (mem k) (mem k') q) →
  uvm_ok k' l D ts us ∧ ∀ va, pte_at (mem k') D va = pte_at (mem k) D va.
Proof.
  intros [(Hk & Hd & Ho) He Hp Hi] El Ee Hq.
  destruct (pgdir_frame _ (mem k) (mem k') D ts Hd) as [Hd' Hpte].
  { intros q Hqo. apply Hq. by eapply owns_page. }
  split; [|done]. split; [|intros n Hn; rewrite Hpte; by apply He| |done].
  - split; [|split; [by rewrite Ee|done]]. eapply kmem_ok_frame; [exact Hk|done|done|].
    intros q Hql. apply Hq. by eapply kmem_page.
  - intros n a Hn. rewrite Ee. by apply Hp.
Qed.

Lemma off_screen_page k k' q :
  off_screen (mem k) (mem k') → KERNLINK <= kernel_end k → page_ok (kernel_end k) q →
  page_eq (mem k) (mem k') q.
Proof.
  intros Hoff He [_ Hq] b Hb. apply Hoff. unfold crt, P2V, KERNLINK, KERNBASE, EXTMEM in *.
  change (u32 (0xb8000 + 0x80000000)) with 0x800b8000. lia.
Qed.

(** Taking the first free page. *)
Lemma uvm_ok_pop k k' p l D ts us :
  uvm_ok k (p :: l) D ts us → mem k' = mem k → kernel_end k' = kernel_end k →
  freelist k' = rd32 (mem k) p → uvm_ok k' l D ts us.
Proof.
  intros [(((Ep & Hc) & Hnd & Hf & He) & Hd & Ho) Hen Hp Hi] Em Ee El.
  apply NoDup_cons in Hnd as [_ Hnd]. apply Forall_cons in Hf as [_ Hf]. split.
  - split; [|split].
    + unfold kmem_ok. by rewrite Em, Ee, El.
    + by rewrite Em, Ee.
    + intros q Hq ?. apply (Ho q Hq). by right.
  - by rewrite Em.
  - intros n q Hq. rewrite Ee. destruct (Hp n q Hq) as (? & ? & ? & [_ ?]%not_elem_of_cons). done.
  - done.
Qed.

(** The memory of the child: its own copy of each page of the parent, made of
    the pages [l] that were free; [ks] is its kernel stack. *)
Record child_space (k : kernel) (ks : Z) (l : list Z) (D : Z) (us : gmap Z Z) (sz : Z)
    (k' : kernel) (l' : list Z) (D' : Z) (ts' us' : gmap Z Z) : Prop := {
  cs_ok : uvm_ok k' l' D' ts' us';
  cs_sized : sized us' sz;
  cs_pages : ∀ n a, us' !! n = Some a → ∃ b, us !! n = Some b ∧ same_bytes (mem k) b (mem k') a ∧
    PTE_FLAGS (pte_at (mem k') D' (n * PGSIZE)) = PTE_FLAGS (pte_at (mem k) D (n * PGSIZE));
  cs_own : ∀ a, a ∈ l' ∨ owns D' ts' a ∨ (∃ n, us' !! n = Some a) → a ∈ l;
  cs_keep : ∀ a, a ∈ ks :: l → a = ks ∨ a ∈ l' ∨ owns D' ts' a ∨ ∃ n, us' !! n = Some a
}.

Lemma copied_space k0 k k1 ks l D us sz k' l' D' ts' us' :
  copied k0 l D us D' k1 l' ts' us' → sized us' sz → mem k0 = mem k → KERNLINK <= kernel_end k1 →
  off_screen (mem k1) (mem k') → freelist k' = freelist k1 → kernel_end k' = kernel_end k1 →
  child_space k ks l D us sz k' l' D' ts' us'.
Proof.
  intros C Hs Em He Hoff El Ee. destruct C as [C1 _ _ C4 C5 C6 _].
  assert (∀ q, page_ok (kernel_end k1) q → page_eq (mem k1) (mem k') q) as Hq
    by (intros; by apply off_screen_page).
  destruct (uvm_ok_pages k1 k' l' D' ts' us') as [Hu Hpte]; [done..|].
  split; [done|done| | |].
  - intros n a Hn. destruct (C6 n a Hn) as (Ha & b & Hb & Hsb & Hfl). exists b. split; [done|].
    rewrite Hpte, <- Em. split; [|done]. destruct (uv_page _ _ _ _ _ C1 n a Hn) as (_ & Hao & _).
    intros i Hi. rewrite <- (Hsb i Hi). apply (Hq a Hao). lia.
  - intros a [?|[?|[n Hn]]]; [apply C4; by auto..|]. by apply (C6 n a).
  - intros a [->|Ha]%elem_of_cons; [by left|right]. by apply C5.
Qed.

(** ** [fork] *)

(** A process [p] that calls [fork]: it runs without locks, its memory is the
    [p_sz] bytes in the pages [us], and its files, directory and trap frame
    are there. *)
Record can_fork (k : kernel) (p : pptr) (pr : proc) (l : list Z) (ts us : gmap Z Z) (tf : trapframe) : Prop := {
  cf_running : running k p;
  cf_locks : Forall (lock_free k) [LPtable; LFtable; LIcache; LCons];
  cf_kmem : kmem_calm k;
  cf_con : con_ok k;
  cf_proc : lookup_proc k p = Some pr;
  cf_used : p_state pr ≠ UNUSED;
  cf_tf : frames k !! p_tf pr = Some tf;
  cf_cwd : ∃ ip x, p_cwd pr = Some ip ∧ icache k !! ip = Some x;
  cf_open : open_files NOFILE (p_ofile pr) (ftable k);
  cf_space : uvm_ok k l (p_pgdir pr) ts us;
  cf_size : sized us (p_sz pr) ∧ 0 <= p_sz pr <= KERNBASE;
  cf_data : data_ok (kernel_data k)
}.

(** The slot after a failed copy. *)
Definition abandoned (pid ks : Z) (q : proc) : proc :=
  (embryo pid ks q) <|p_pgdir := 0|> <|p_kstack := 0|> <|p_state := UNUSED|>.

Lemma fork_abandon k c q l D ts us :
  uvm_ok k l D ts us → kmem_ready k → ptable k !! c = Some q →
  page_ok (kernel_end k) (p_kstack q) → ¬ owns D ts (p_kstack q) → p_kstack q ∉ l →
  (∀ n, us !! n ≠ Some (p_kstack q)) →
  ∃ k', (let! q := get_proc (PT c) in kfree (p_kstack q)) k = Ret tt k' ∧
    uvm_ok k' (p_kstack q :: l) D ts us ∧ mem_frame k k' ∧
    (upd_proc (PT c) (λ q, q <|p_kstack := 0|>);;;
     upd_proc (PT c) (λ q, q <|p_state := UNUSED|>);;; ret (-1)) k' =
      Ret (-1) (k' <|ptable := <[c:=q <|p_kstack := 0|> <|p_state := UNUSED|>]> (ptable k)|>).
Proof.
  intros Hu Hm Hq Hp Ho Hl Hus. erewrite bind_Ret by (by apply get_proc_Ret).
  destruct (free_extra k l D ts us (p_kstack q) Hu Hm) as (k' & E & Hu' & _ & Hf & _); [done..|].
  assert (ptable k' = ptable k) as Ept by (by destruct Hf as [-> _]).
  exists k'. split; [done|]. split; [done|]. split; [done|].
  assert (ptable k' !! c = Some q) as Hq' by (by rewrite Ept).
  rewrite (bind_Ret _ _ _ _ _ (upd_slot k' c q _ Hq')).
  erewrite bind_Ret.
  2: { apply upd_slot. rsimpl. apply list_lookup_insert_eq. by eapply lookup_lt_Some. }
  unfold ret. f_equal. rsimpl. kext. rewrite Ept. apply list_insert_insert_eq.
Qed.

(** The state in which [fork] copies memory, when slot [c] is free. *)
Definition fork_slot (k : kernel) (c : nat) : kernel :=
  touch ((touch k) <|ptable ::= alter (embryo (nextpid k) (freelist k)) c|>
           <|nextpid := i32 (nextpid k + 1)|> <|freelist ::= rd32 (mem k)|>).

Lemma fork_start k p c (m : option pptr → pptr → pptr → M kernel Z) :
  running k p → lock_free k LPtable → kmem_calm k → find_proc is_unused (ptable k) = Some c →
  freelist k ≠ 0 →
  (let! curproc := myproc in
   let! p := deref curproc in
   let! r := allocproc in
   match r with None => ret (-1) | Some np => m curproc p np end) k = m (Some p) p (PT c) (fork_slot k c).
Proof.
  intros Hr Hl Hm Hf Hn. pose proof (running_ready _ _ Hr) as Hrd.
  erewrite bind_Ret by (by apply myproc_Ret).
  replace (curproc k) with (Some p) by (destruct Hr as (d & H & _ & <-); unfold curproc; by rewrite (proj2 H)).
  unfold deref, get_some. rewrite bind_ret_l.
  erewrite bind_Ret by (apply (allocproc_some (touch k) c); [split; [by apply ready_touch|done]|done..]).
  done.
Qed.

Lemma mem_frame_if k k' : mem_frame k k' → eflags_if k' = eflags_if k ∧ ptable k' = ptable k.
Proof. by intros [-> _]. Qed.

Lemma mem_frame_rest k k' :
  mem_frame k k' →
  frames k' = frames k ∧ icache k' = icache k ∧ ftable k' = ftable k ∧ console k' = console k ∧
  heap_arr k' = heap_arr k ∧ stride_scheduler k' = stride_scheduler k.
Proof. by intros [-> _]. Qed.

Lemma running_frame k k' p : mem_frame k k' → running k p → running k' p.
Proof.
  intros [E [Hc|[_ Hc]]] Hr; [apply (running_same k)|apply (running_same (touch k)); [|by apply running_touch]];
    (done || (split; [done|]; rewrite E; by split_and!)).
Qed.

(** What [fork] has when it copies memory: a slot [c] with a kernel stack
    [ks]. *)
Record slotted (k : kernel) (p : pptr) (pr : proc) (ks : Z) (l : list Z) (ts us : gmap Z Z) (c : nat) (q : proc)
    : Prop := {
  sl_start : freelist k = ks ∧ ks ≠ 0;
  sl_space : uvm_ok (fork_slot k c) l (p_pgdir pr) ts us;
  sl_running : running (fork_slot k c) p;
  sl_kmem : kmem_ready (fork_slot k c);
  sl_parent : p ≠ PT c ∧ lookup_proc (fork_slot k c) p = Some pr;
  sl_table : ptable (fork_slot k c) = <[c:=embryo (nextpid k) ks q]> (ptable k) ∧ (c < length (ptable k))%nat;
  sl_stack : page_ok (kernel_end k) ks ∧ ¬ owns (p_pgdir pr) ts ks ∧ ks ∉ l ∧ ∀ n, us !! n ≠ Some ks
}.

Lemma can_fork_slotted k p pr ks l ts us tf c q :
  can_fork k p pr (ks :: l) ts us tf → find_proc is_unused (ptable k) = Some c → ptable k !! c = Some q →
  slotted k p pr ks l ts us c q.
Proof.
  intros [Hr Hlk Hkm _ Hp Hused _ _ _ Hu _ _] Hfind Hq.
  pose proof (uv_vm _ _ _ _ _ Hu) as Hv. pose proof (vm_ok_end _ _ _ _ Hv) as Hke.
  pose proof Hv as (((Efl & _) & Hnd & Hfo & _) & _ & Hown).
  apply Forall_cons in Hfo as [Hkso _]. apply NoDup_cons in Hnd as [Hksl _].
  destruct (page_phys _ _ Hke Hkso) as (_ & _ & _ & _ & Hks0).
  assert (p ≠ PT c) as Hne.
  { intros ->. cbn in Hp. assert (q = pr) as -> by congruence.
    destruct (find_proc_Some _ _ _ Hfind) as (q' & Hq' & Hun & _). assert (q' = pr) as -> by congruence.
    by apply bool_decide_eq_true in Hun. }
  assert (running (fork_slot k c) p) as Hr1.
  { apply running_touch. apply (running_same (touch k)); [done|]. by apply running_touch. }
  split.
  - done.
  - eapply uvm_ok_pop; [exact Hu|done|done|]. rewrite <- Efl. done.
  - done.
  - apply kmem_calm_ready; [by eapply running_ready|done].
  - split; [done|]. rewrite <- Hp. destruct p as [j|j]; [|done]. apply list_lookup_alter_ne. by intros ->.
  - split; [|by eapply lookup_lt_Some]. rewrite <- Efl. by apply (list_alter_insert _ _ _ _ Hq).
  - split; [done|]. split; [intros Hx; apply (Hown ks Hx); by left|]. split; [done|].
    intros n Hn. destruct (uv_page _ _ _ _ _ Hu n ks Hn) as (_ & _ & _ & Hx). apply Hx. by left.
Qed.

(** No slot, or no page for the kernel stack. *)
Lemma fork_early `{Turns} k p pr l ts us tf :
  can_fork k p pr l ts us tf → find_proc is_unused (ptable k) = None ∨ l = [] →
  ∃ k', fork k = Ret (-1) k' ∧ locks k' = locks k ∧ eflags_if k' = eflags_if k ∧
    ptable k' = match find_proc is_unused (ptable k) with
                | Some c => alter (stillborn (nextpid k)) c (ptable k) | None => ptable k end.
Proof.
  intros [Hr Hlk Hkm _ _ _ _ _ _ Hu _ _] Hno. apply Forall_cons in Hlk as [Hlp _].
  pose proof (running_ready _ _ Hr) as Hrd. assert (calm (touch k)) as Hc by (split; [by apply ready_touch|done]).
  unfold fork. erewrite bind_Ret by (by apply myproc_Ret).
  replace (curproc k) with (Some p) by (destruct Hr as (d & Hd & _ & <-); unfold curproc; by rewrite (proj2 Hd)).
  unfold deref, get_some. rewrite bind_ret_l. destruct (find_proc is_unused (ptable k)) as [c|] eqn:Hfind.
  - destruct Hno as [|E]; [done|subst l]. destruct (uv_vm _ _ _ _ _ Hu) as ((Efl & _) & _). cbn in Efl.
    erewrite bind_Ret by (by apply (allocproc_nomem (touch k) c)). by eexists.
  - erewrite bind_Ret by (by apply (allocproc_none (touch k))). by eexists.
Qed.

Section fork_ends.
Context `{Turns} (k : kernel) (p : pptr) (pr : proc) (ks : Z) (l : list Z) (ts us : gmap Z Z) (tf : trapframe).
Context (c : nat) (q : proc) (Hcan : can_fork k p pr (ks :: l) ts us tf).
Context (Hfind : find_proc is_unused (ptable k) = Some c) (Hq : ptable k !! c = Some q).

(** [fork] up to the copy. *)
Lemma fork_copies d k2 :
  copyuvm (p_pgdir pr) (p_sz pr) (fork_slot k c) = Ret d k2 →
  mem_frame (fork_slot k c) k2 ∧ kernel_end k2 = kernel_end k →
  ptable k2 = <[c:=embryo (nextpid k) ks q]> (ptable k) ∧ locks k2 = locks k ∧ eflags_if k2 = eflags_if k ∧
  ptable k2 !! c = Some (embryo (nextpid k) ks q).
Proof.
  intros _ [Hf _]. destruct (can_fork_slotted _ _ _ _ _ _ _ _ _ _ Hcan Hfind Hq) as [_ _ _ _ _ [Ept Hlt] _].
  destruct (mem_frame_if _ _ Hf) as [Ei Ep]. destruct (mem_frame_hw _ _ Hf) as (_ & _ & _ & El).
  rewrite Ep, Ept, El, Ei. split; [done|]. split; [done|]. split; [done|]. by apply list_lookup_insert_eq.
Qed.

(** The copy fails: the kernel stack and the slot are given back. *)
Lemma fork_failed k2 l2 :
  uvm_ok k2 l2 (p_pgdir pr) ts us → given_up (fork_slot k c) l k2 l2 →
  copyuvm (p_pgdir pr) (p_sz pr) (fork_slot k c) = Ret 0 k2 →
  ∃ k' l', fork k = Ret (-1) k' ∧ uvm_ok k' l' (p_pgdir pr) ts us ∧
    locks k' = locks k ∧ eflags_if k' = eflags_if k ∧
    ptable k' = <[c:=abandoned (nextpid k) ks q]> (ptable k) ∧ ∀ a, a ∈ l' ↔ a ∈ ks :: l.
Proof.
  intros Hu2 [G1 G2 G3 G4 _] E2. pose proof (mem_frame_end _ _ G3) as Ee.
  destruct (fork_copies 0 k2 E2 (conj G3 Ee)) as (Ept2 & El2 & Ei2 & Hq2).
  destruct (can_fork_slotted _ _ _ _ _ _ _ _ _ _ Hcan Hfind Hq) as [[Efl Hks] _ _ _ [_ Hp1] [_ Hlt] (S1 & S2 & S3 & S4)].
  destruct Hcan as [Hr Hlk Hkm _ _ _ _ _ _ _ _ _]. apply Forall_cons in Hlk as [Hlp _].
  unfold fork. rewrite (fork_start k p c); [|done|done|done|done|by rewrite Efl].
  erewrite bind_Ret by (by apply get_proc_Ret). rewrite (bind_Ret _ _ _ _ _ E2).
  rewrite (bind_Ret _ _ _ _ _ (upd_slot k2 c _ _ Hq2)). cbn [Z.eqb].
  set (q3 := (embryo (nextpid k) ks q) <|p_pgdir := 0|>). set (k3 := k2 <|ptable := _|>).
  destruct (fork_abandon k3 c q3 l2 (p_pgdir pr) ts us) as (k4 & E4 & Hu4 & Hf4 & E5).
  { by eapply uvm_ok_same; [..|exact Hu2]. } { by eapply kmem_ready_same; [..|exact G2]. }
  { apply list_lookup_insert_eq. by eapply lookup_lt_Some. }
  { change (kernel_end k3) with (kernel_end k2). by rewrite Ee. }
  { done. } { by rewrite G4. } { done. }
  destruct (mem_frame_hw _ _ Hf4) as (_ & _ & _ & El4). destruct (mem_frame_if _ _ Hf4) as [Ei4 _].
  rewrite (bind_Ret _ _ _ _ _ E4), E5. eexists _, _. split; [reflexivity|].
  split; [by eapply uvm_ok_same; [..|exact Hu4]|]. split; [exact (eq_trans El4 El2)|].
  split; [exact (eq_trans Ei4 Ei2)|]. split.
  - change (<[c:=abandoned (nextpid k) ks q]> (<[c:=q3]> (ptable k2)) = <[c:=abandoned (nextpid k) ks q]> (ptable k)).
    by rewrite Ept2, !list_insert_insert_eq.
  - intros a. by rewrite !elem_of_cons, G4.
Qed.

(** The copy succeeds. *)
Lemma fork_done k2 l2 D' ts' us' :
  uvm_ok k2 l2 (p_pgdir pr) ts us → copied (fork_slot k c) l (p_pgdir pr) us D' k2 l2 ts' us' →
  sized us' (p_sz pr) → D' ≠ 0 → copyuvm (p_pgdir pr) (p_sz pr) (fork_slot k c) = Ret D' k2 →
  ∃ k' o, fork k = Ret (nextpid k) k' ∧ uvm_ok k' l2 (p_pgdir pr) ts us ∧
    child_space k ks l (p_pgdir pr) us (p_sz pr) k' l2 D' ts' us' ∧
    let q' := (embryo (nextpid k) ks q) <|p_pgdir := D'|> in
    forked k pr (child p pr q' (stride_scheduler k) o) c tf (p_tf q') k' ∧
    ∀ j, o !! j = inherit NOFILE 0 (p_ofile pr) j <$> (p_ofile q !! j).
Proof.
  intros Hu2 C Hs' HD' E2. pose proof (cp_frame _ _ _ _ _ _ _ _ _ C) as Hf2. pose proof (mem_frame_end _ _ Hf2) as Ee2.
  destruct (fork_copies D' k2 E2 (conj Hf2 Ee2)) as (Ept2 & El2 & Ei2 & Hq2).
  destruct (can_fork_slotted _ _ _ _ _ _ _ _ _ _ Hcan Hfind Hq) as [[Efl Hks] _ Hr1 _ [Hne Hp1] [Ept1 Hlt] _].
  destruct (mem_frame_rest _ _ Hf2) as (Efr & Eic & Eft & Eco & Ehp & Est).
  destruct Hcan as [Hr Hlk Hkm [[Hb Hpos] Hpan] _ _ Htf (ip & x & Hcwd & Hip) Hopen _ _ _].
  unfold fork. rewrite (fork_start k p c); [|done|by apply Forall_cons in Hlk as [? _]|done|done|by rewrite Efl].
  erewrite bind_Ret by (by apply get_proc_Ret). rewrite (bind_Ret _ _ _ _ _ E2).
  rewrite (bind_Ret _ _ _ _ _ (upd_slot k2 c _ _ Hq2)). destruct (Z.eqb_spec D' 0); [done|].
  set (q3 := (embryo (nextpid k) ks q) <|p_pgdir := D'|>). set (k3 := k2 <|ptable := _|>).
  assert (Forall (lock_free k3) [LPtable; LFtable; LIcache; LCons]) as Hlk3.
  { eapply Forall_impl; [exact Hlk|]. intros lk [nm Hx]. exists nm. change (locks k3) with (locks k2). by rewrite El2. }
  rewrite !Forall_cons in Hlk3. destruct Hlk3 as (L1 & L2 & L3 & L4 & _).
  destruct (fork_finish k3 p pr c q3 tf ip x) as (k' & o & E & F & El & Ee & Hoff & Ho); [|exact L1|exact L2|exact L3|exact L4|..].
  { apply (running_same k2); [done|]. by eapply running_frame. }
  { unfold con_ok, term_wf. change (console k3) with (console k2). change (mem k3) with (mem k2).
    rewrite Eco. split; [split; [|done]|done]. by eapply (kb_copyuvm _ _ (fork_slot k c)). }
  { rewrite <- Hp1. destruct p as [j|j]; [|exact (f_equal (.!! j) Ehp)].
    transitivity (ptable k2 !! j); [apply list_lookup_insert_ne; by intros ->|]. by rewrite Ept2, <- Ept1. }
  { done. } { apply list_lookup_insert_eq. by eapply lookup_lt_Some. }
  { change (frames k3) with (frames k2). by rewrite Efr. } { done. }
  { change (icache k3) with (icache k2). by rewrite Eic. }
  { change (ftable k3) with (ftable k2). by rewrite Eft. }
  assert (KERNLINK <= kernel_end k2) as Hke by (eapply vm_ok_end, uv_vm, Hu2).
  exists k', o. split; [exact E|]. split; [|split; [|split; [|exact Ho]]].
  - eapply (uvm_ok_pages k2); [exact Hu2|exact El|exact Ee|]. intros a Ha. by apply (off_screen_page k2).
  - by eapply (copied_space _ k k2).
  - destruct F as [F1 F2 F3 (ip' & Hip' & F4) F5 F6 F7]. split.
    + rewrite F1. change (stride_scheduler k3) with (stride_scheduler k2). rewrite Est.
      change (ptable k3) with (<[c:=q3]> (ptable k2)). by rewrite Ept2, !list_insert_insert_eq.
    + exact (eq_trans F2 Ehp).
    + etransitivity; [exact F3|]. change (ftable k3) with (ftable k2). by rewrite Eft.
    + exists ip'. split; [done|]. etransitivity; [exact F4|]. change (icache k3) with (icache k2). by rewrite Eic.
    + etransitivity; [exact F5|]. change (frames k3) with (frames k2). by rewrite Efr.
    + exact (eq_trans F6 El2).
    + exact (eq_trans F7 Ei2).
Qed.
End fork_ends.

(** ** Property *)

(** C7: [fork] by a process that may fork (see [can_fork]).  Without an unused
    slot, or without a page for the kernel stack, it returns -1 and at most
    an identifier is used up.  Otherwise it takes the first unused slot [c].
    Either memory does not suffice for a copy: it returns -1, the slot is
    unused, the parent's memory is as before and the same pages are free.  Or
    it returns the new identifier, and the child in slot [c] is runnable, has
    the parent's size, name, directory and open files, each with one more
    reference, its own copy of every page of the parent with the same bytes
    and permissions, and the parent's trap frame but for a 0 in [%eax], the
    value [fork] returns in the child; no other slot has changed.  Locks and
    the interrupt flag are as before in every case. *)
Theorem fork_correct `{Turns} k p pr l ts us tf :
  can_fork k p pr l ts us tf →
  ∃ r k', fork k = Ret r k' ∧ locks k' = locks k ∧ eflags_if k' = eflags_if k ∧
    match find_proc is_unused (ptable k), l with
    | None, _ => r = -1 ∧ ptable k' = ptable k
    | Some c, [] => r = -1 ∧ ptable k' = alter (stillborn (nextpid k)) c (ptable k)
    | Some c, ks :: l =>
        ∃ q l', ptable k !! c = Some q ∧ uvm_ok k' l' (p_pgdir pr) ts us ∧
          (r = -1 ∧ ptable k' = <[c:=abandoned (nextpid k) ks q]> (ptable k) ∧
             (∀ a, a ∈ l' ↔ a ∈ ks :: l) ∧ Z.of_nat (length l) <= 2 + NPDENTRIES + p_sz pr / PGSIZE ∨
           r = nextpid k ∧ ∃ D' ts' us' o,
             let q' := (embryo (nextpid k) ks q) <|p_pgdir := D'|> in
             child_space k ks l (p_pgdir pr) us (p_sz pr) k' l' D' ts' us' ∧
             forked k pr (child p pr q' (stride_scheduler k) o) c tf (p_tf q') k' ∧
             ∀ j, o !! j = inherit NOFILE 0 (p_ofile pr) j <$> (p_ofile q !! j))
    end.
Proof.
  intros Hcan. destruct (find_proc is_unused (ptable k)) as [c|] eqn:Hfind; [destruct l as [|ks l]|].
  - destruct (fork_early k p pr [] ts us tf Hcan) as (k' & E & H1 & H2 & H3); [by right|].
    exists (-1), k'. rewrite Hfind in H3. done.
  - destruct (find_proc_Some _ _ _ Hfind) as (q & Hq & _).
    destruct (can_fork_slotted _ _ _ _ _ _ _ _ _ _ Hcan Hfind Hq) as [_ Su Sr Sm _ _ _].
    destruct (copyuvm_ok (fork_slot k c) l (p_pgdir pr) ts us (p_sz pr)) as (k2 & l2 & Hu2 & Hcopy);
      [done|done|apply (cf_con _ _ _ _ _ _ _ Hcan)|apply (cf_data _ _ _ _ _ _ _ Hcan)|apply (cf_size _ _ _ _ _ _ _ Hcan)..|].
    destruct Hcopy as [(E2 & G & Hshort)|(D' & ts' & us' & E2 & HD' & C & Hs' & _)].
    + destruct (fork_failed k p pr ks l ts us tf c q Hcan Hfind Hq k2 l2 Hu2 G E2) as (k' & l' & E & H1 & H2 & H3 & H4 & H5).
      exists (-1), k'. split; [done|]. split; [done|]. split; [done|]. exists q, l'. split; [done|]. split; [done|].
      left. done.
    + destruct (fork_done k p pr ks l ts us tf c q Hcan Hfind Hq k2 l2 D' ts' us' Hu2 C Hs' HD' E2) as (k' & o & E & H1 & H2 & H3 & H4).
      exists (nextpid k), k'. split; [done|]. split; [apply H3|]. split; [apply H3|]. exists q, l2.
      split; [done|]. split; [done|]. right. split; [done|]. exists D', ts', us', o. done.
  - destruct (fork_early k p pr l ts us tf Hcan) as (k' & E & H1 & H2 & H3); [by left|].
    exists (-1), k'. rewrite Hfind in H3. done.
Qed.

(** ** Witness *)

(** A process without memory but with an open file and 1100 free pages. *)
Definition demo_parent : proc :=
  zero_proc <|p_pid := 1|> <|p_state := RUNNING|> <|p_kstack := 0x80301000|> <|p_pgdir := space_dir|>
    <|p_tf := 0x80301fb4|> <|p_cwd := Some 0%nat|> <|p_ofile ::= <[0%nat:=Some 0%nat]>|>.
Definition demo_fork : kernel :=
  k_many <|cpus := [MkCpu 0 0 0 false (Some (PT 0))]|> <|ptable ::= <[0%nat:=demo_parent]>|>
    <|nextpid := 2|> <|frames := {[0x80301fb4 := zero_tf]}|>
    <|ftable ::= <[0%nat:=zero_file <|f_ref := 1|>]>|>.

Lemma with_process k l D ts us cs pt n fr ft :
  uvm_ok k l D ts us →
  uvm_ok (k <|cpus := cs|> <|ptable ::= pt|> <|nextpid := n|> <|frames := fr|> <|ftable ::= ft|>) l D ts us.
Proof. by apply uvm_ok_same. Qed.

Lemma demo_fork_can : can_fork demo_fork (PT 0) demo_parent many ∅ ∅ zero_tf.
Proof.
  split.
  - exists (MkCpu 0 0 0 false (Some (PT 0))). by repeat split.
  - repeat constructor; by exists EmptyString.
  - unfold kmem_calm. discriminate.
  - split; [split; [exact (links_bytes many)|done]|done].
  - done.
  - done.
  - done.
  - by exists 0%nat, zero_inode.
  - intros f Hf. assert (f = 0%nat) as ->.
    { apply list_elem_of_lookup in Hf as [i Hi]. do 16 (destruct i as [|i]; [by injection Hi|]). done. }
    by exists (zero_file <|f_ref := 1|>).
  - exact (with_process k_many many _ _ _ _ _ _ _ _ k_many_ok).
  - split; [exact sized_empty|done].
  - split; [done|]. by split.
Qed.

Lemma fork_correct_witness :
  ∃ k' q, @fork 1%nat demo_fork = Ret 2 k' ∧ ptable k' !! 1%nat = Some q ∧ p_state q = RUNNABLE ∧
    p_parent q = Some (PT 0) ∧ p_pid q = 2 ∧ option_map f_ref (ftable k' !! 0%nat) = Some 2.
Proof.
  destruct (@fork_correct 1%nat demo_fork (PT 0) demo_parent many ∅ ∅ zero_tf demo_fork_can)
    as (r & k' & E & _ & _ & H).
  change (find_proc is_unused (ptable demo_fork)) with (Some 1%nat) in H.
  remember many as l eqn:El. destruct l as [|ks l]; [by apply (f_equal length) in El|].
  destruct H as (q & l' & Hq & _ & [(_ & _ & _ & Hl)|(-> & D' & ts' & us' & o & _ & F & _)]).
  - exfalso. apply (f_equal (λ l, Z.of_nat (length l))) in El. unfold many in El.
    rewrite length_fmap, length_seqZ in El. cbn [length] in El.
    change (p_sz demo_parent / PGSIZE) with 0 in Hl. change NPDENTRIES with 1024 in Hl. lia.
  - exists k'. eexists. split; [exact E|].
    rewrite (fk_table _ _ _ _ _ _ _ F), (fk_files _ _ _ _ _ _ _ F).
    split; [apply list_lookup_insert_eq; vm_compute; lia|].
    unfold child, published. generalize (stride_scheduler demo_fork). intros b.
    split; [by destruct b|]. split; [by destruct b|]. split; [by destruct b|]. vm_compute. reflexivity.
Defined.
