(* ===== verification/Exec.v ===== *)
(** [exec] of [exec.c], with the ELF structures of [elf.h] and [copyout] of
    [vm.c].

    The path and the arguments are the lists of the bytes of their strings. *)

From stdpp Require Import base gmap strings list.
From Stdlib Require Import ZArith Lia Ascii.
From S2P Require Import Prelude Heap CString Mmu State Disk Spinlock Kalloc Vm User Kbd Print Proc Sleeplock Bio Log Inode Console Fs Pipe File Lifecycle.
#[local] Open Scope Z_scope.

(** ** ELF *)

Definition ELF_MAGIC : Z := 0x464C457F.
Definition ELF_PROG_LOAD : Z := 1.
Definition MAXARG : nat := 32.

(** The members of [struct elfhdr] that [exec] uses. *)
Record elfhdr := MkElf { elf_magic : Z; elf_entry : Z; elf_phoff : Z; elf_phnum : Z }.
Definition ELFHDR_SIZE : Z := 52.
Definition elf_of (bs : list Z) : elfhdr :=
  let w off := unle (take 4 (drop off bs)) in
  MkElf (w 0%nat) (w 24%nat) (w 28%nat) (unle (take 2 (drop 44 bs))).

(** The members of [struct proghdr] that [exec] uses. *)
Record proghdr := MkPh { ph_type : Z; ph_off : Z; ph_vaddr : Z; ph_filesz : Z; ph_memsz : Z }.
Definition PROGHDR_SIZE : Z := 32.
Definition ph_of (bs : list Z) : proghdr :=
  let w off := unle (take 4 (drop off bs)) in
  MkPh (w 0%nat) (w 4%nat) (w 8%nat) (w 16%nat) (w 20%nat).

(** ** The code *)

(** Write bytes at a kernel address. *)
Fixpoint wr_bytes (m : gmap Z Z) (a : Z) (bs : list Z) : gmap Z Z :=
  match bs with
  | [] => m
  | b :: bs => wr_bytes (wr m a b) (a + 1) bs
  end.

(** Copy the bytes to user address [va] of the directory, page by page. *)
Fixpoint copyout_loop (fuel : nat) (pgdir va : Z) (bs : list Z) : M kernel Z :=
  match fuel with
  | O => λ _, Loop
  | S fuel =>
      if Z.of_nat (length bs) =? 0 then ret 0 else
      let va0 := PGROUNDDOWN va in
      let! pa0 := uva2ka pgdir va0 in
      if pa0 =? 0 then ret (-1) else
      let n := Z.to_nat (Z.min (PGSIZE - (va - va0)) (Z.of_nat (length bs))) in
      modify (λ k, k <|mem ::= λ m, wr_bytes m (pa0 + (va - va0)) (take n bs)|>);;;
      copyout_loop fuel pgdir (u32 (va0 + PGSIZE)) (drop n bs)
  end.

Definition copyout (pgdir va : Z) (bs : list Z) : M kernel Z :=
  copyout_loop (S (length bs)) pgdir va bs.

(** The name of the program: what follows the last slash of the path. *)
Fixpoint last_elem (last path : list Z) : list Z :=
  match path with
  | [] => last
  | c :: rest => if c =? slash then last_elem rest rest else last_elem last rest
  end.

Section exec.
Context `{Turns} `{Driver}.

(** Load the segments; 0 where the code goes to [bad]. *)
Fixpoint load_loop (n : nat) (ip : nat) (pgdir off sz : Z) : M kernel (option Z) :=
  match n with
  | O => ret (Some sz)
  | S n =>
      let! r := readi ip ([] : list Z) (u32 off) PROGHDR_SIZE in
      if negb (fst r =? PROGHDR_SIZE) then ret None else
      let ph := ph_of (snd r) in
      if negb (ph_type ph =? ELF_PROG_LOAD) then load_loop n ip pgdir (off + PROGHDR_SIZE) sz else
      if ph_memsz ph <? ph_filesz ph then ret None else
      if u32 (ph_vaddr ph + ph_memsz ph) <? ph_vaddr ph then ret None else
      let! sz := allocuvm pgdir sz (u32 (ph_vaddr ph + ph_memsz ph)) in
      if sz =? 0 then ret None else
      if negb (ph_vaddr ph mod PGSIZE =? 0) then ret None else
      let! l := loaduvm pgdir (ph_vaddr ph) ip (ph_off ph) (ph_filesz ph) in
      if l <? 0 then ret None else
      load_loop n ip pgdir (off + PROGHDR_SIZE) sz
  end.

(** Push the argument strings: the stack pointer and their addresses. *)
Fixpoint push_args (argv : list (list Z)) (argc : nat) (pgdir sp : Z) : M kernel (option (Z * list Z)) :=
  match argv with
  | [] => ret (Some (sp, []))
  | s :: argv =>
      if (MAXARG <=? argc)%nat then ret None else
      let sp := Z.land (u32 (sp - (Z.of_nat (length s) + 1))) (Z.lnot 3) in
      let! r := copyout pgdir sp (s ++ [0]) in
      if r <? 0 then ret None else
      let! rest := push_args argv (S argc) pgdir sp in
      ret (match rest with Some (sp', ptrs) => Some (sp', sp :: ptrs) | None => None end)
  end.

(** The exit of [exec] on failure. *)
Definition exec_bad (pgdir : Z) (ip : option nat) : M kernel Z :=
  (when negb (pgdir =? 0) do freevm pgdir);;;
  match ip with
  | Some ip => iunlockput ip;;; end_op
  | None => ret tt
  end;;;
  ret (-1).

(** After the program is loaded: its stack, and the switch to the new
    image. *)
Definition exec_stack (path : list Z) (argv : list (list Z)) (p : pptr) (entry pgdir sz : Z) : M kernel Z :=
  let sz := PGROUNDUP sz in
  let! sz := allocuvm pgdir sz (u32 (sz + 2 * PGSIZE)) in
  if sz =? 0 then exec_bad pgdir None else
  clearpteu pgdir (u32 (sz - 2 * PGSIZE));;;
  let! r := push_args argv 0 pgdir sz in
  match r with
  | None => exec_bad pgdir None
  | Some (sp, ptrs) =>
      let argc := Z.of_nat (length ptrs) in
      let ustack := [0xffffffff; argc; u32 (sp - (argc + 1) * 4)] ++ ptrs ++ [0] in
      let sp := u32 (sp - (3 + argc + 1) * 4) in
      let! r := copyout pgdir sp (le_many 4 ustack) in
      if r <? 0 then exec_bad pgdir None else
      upd_proc p (λ pr, pr <|p_name := name_copy (last_elem path path)|>);;;
      let! pr := get_proc p in
      let oldpgdir := p_pgdir pr in
      upd_proc p (λ pr, pr <|p_pgdir := pgdir|> <|p_sz := sz|>);;;
      (let! tf := get_tf (p_tf pr) in
       set_tf (p_tf pr) (tf <|tf_eip := entry|> <|tf_esp := sp|>));;;
      switchuvm (Some p);;;
      freevm oldpgdir;;;
      ret 0
  end.

Definition exec (path : list Z) (argv : list (list Z)) : M kernel Z :=
  let! curproc := myproc in
  let! p := deref curproc in
  begin_op;;;
  let! r := namei path in
  match r with
  | None => end_op;;; cprintf (chars "exec: fail" ++ [newline]) [];;; ret (-1)
  | Some ip =>
      ilock ip;;;
      let! r := readi ip ([] : list Z) 0 ELFHDR_SIZE in
      if negb (fst r =? ELFHDR_SIZE) then exec_bad 0 (Some ip) else
      let elf := elf_of (snd r) in
      if negb (elf_magic elf =? ELF_MAGIC) then exec_bad 0 (Some ip) else
      let! pgdir := setupkvm in
      if pgdir =? 0 then exec_bad 0 (Some ip) else
      let! r := load_loop (Z.to_nat (elf_phnum elf)) ip pgdir (elf_phoff elf) 0 in
      match r with
      | None => exec_bad pgdir (Some ip)
      | Some sz =>
          iunlockput ip;;;
          end_op;;;
          exec_stack path argv p (elf_entry elf) pgdir sz
      end
  end.
End exec.
