(* ===== verification/Syscall.v ===== *)
(** System calls: their arguments from [syscall.c], the calls of [sysproc.c]
    and [sysfile.c], and the dispatch.

    A string argument is the list of its bytes: [fetchstr] checks that the
    string ends within the process, and nothing else writes to the memory of
    the process while it is in the kernel. *)

From stdpp Require Import base gmap strings list.
From Stdlib Require Import ZArith Lia Ascii.
From S2P Require Import Prelude Heap CString Mmu State Disk Spinlock Kalloc Vm User Kbd Print Proc Sleeplock Bio Log Inode Console Fs Pipe File Lifecycle Exec.
#[local] Open Scope Z_scope.

(** ** Arguments *)

(** The running process. *)
Definition me : M kernel (pptr * proc) :=
  let! p := myproc in
  let! p := deref p in
  let! pr := get_proc p in
  ret (p, pr).

(** The word, or [None] where the C function returns -1. *)
Definition fetchint (addr : Z) : M kernel (option Z) :=
  let! c := me in
  if (p_sz (snd c) <=? addr) || (p_sz (snd c) <? u32 (addr + 4)) then ret None else
  let! v := vld32 addr in ret (Some (i32 v)).

(** The bytes before the first NUL below [ep]. *)
Fixpoint fetch_bytes (fuel : nat) (s ep : Z) : M kernel (option (list Z)) :=
  match fuel with
  | O => λ _, Loop
  | S fuel =>
      if negb (s <? ep) then ret None else
      let! c := ld8 s in
      if c =? 0 then ret (Some []) else
      let! r := fetch_bytes fuel (s + 1) ep in
      ret (cons c <$> r)
  end.

Definition fetchstr (addr : Z) : M kernel (option (list Z)) :=
  let! c := me in
  if p_sz (snd c) <=? addr then ret None else
  fetch_bytes (S (Z.to_nat (p_sz (snd c) - addr))) addr (p_sz (snd c)).

Definition argint (n : Z) : M kernel (option Z) :=
  let! c := me in
  let! tf := get_tf (p_tf (snd c)) in
  fetchint (u32 (tf_esp tf + 4 + 4 * n)).

Definition argptr (n size : Z) : M kernel (option Z) :=
  let! c := me in
  let! r := argint n in
  match r with
  | None => ret None
  | Some i =>
      if (size <? 0) || (p_sz (snd c) <=? u32 i) || (p_sz (snd c) <? u32 (u32 i + size)) then ret None
      else ret (Some (u32 i))
  end.

Definition argstr (n : Z) : M kernel (option (list Z)) :=
  let! r := argint n in
  match r with None => ret None | Some addr => fetchstr (u32 addr) end.

(** Use an argument, or return -1. *)
Definition or_fail {A} (m : M kernel (option A)) (f : A → M kernel Z) : M kernel Z :=
  let! r := m in match r with None => ret (-1) | Some x => f x end.
Notation "'arg!' x ':=' m 'in' k" := (or_fail m (λ x, k))
  (at level 100, x name, m at level 90, k at level 100, right associativity, only parsing).

Section syscalls.
Context `{Turns} `{Driver}.

(** ** [sysproc.c] *)

Definition sys_fork : M kernel Z := fork.
Definition sys_exit : M kernel Z := exit;;; ret 0.
Definition sys_wait : M kernel Z := wait.
Definition sys_kill : M kernel Z := arg! pid := argint 0 in kill pid.
Definition sys_getpid : M kernel Z := let! c := me in ret (p_pid (snd c)).

Definition sys_sbrk : M kernel Z :=
  arg! n := argint 0 in
  let! c := me in
  let addr := p_sz (snd c) in
  let! r := growproc n in
  if r <? 0 then ret (-1) else ret (i32 addr).

(** [ticks - ticks0 < n] compares as [uint]. *)
Fixpoint sleep_loop (fuel : nat) (ticks0 n : Z) : M kernel Z :=
  match fuel with
  | O => λ _, Loop
  | S fuel =>
      let! t := gets ticks in
      if negb (u32 (t - ticks0) <? u32 n) then release LTicks;;; ret 0 else
      let! d := mykilled in
      if d then release LTicks;;; ret (-1) else
      sleep ChTicks LTicks;;;
      sleep_loop fuel ticks0 n
  end.

Definition sys_sleep : M kernel Z :=
  arg! n := argint 0 in
  acquire LTicks;;;
  let! ticks0 := gets ticks in
  sleep_loop turns ticks0 n.

Definition sys_uptime : M kernel Z :=
  acquire LTicks;;;
  let! xticks := gets ticks in
  release LTicks;;;
  ret (i32 xticks).

(** ** [sysfile.c] *)

Definition argfd (n : Z) : M kernel (option (nat * nat)) :=
  let! r := argint n in
  match r with
  | None => ret None
  | Some fd =>
      if (fd <? 0) || (Z.of_nat NOFILE <=? fd) then ret None else
      let! c := me in
      match p_ofile (snd c) !! Z.to_nat fd with
      | Some (Some f) => ret (Some (Z.to_nat fd, f))
      | _ => ret None
      end
  end.

(** The first free descriptor of the running process. *)
Definition fdalloc (f : nat) : M kernel Z :=
  let! c := me in
  match list_find (λ o : option nat, o = None) (p_ofile (snd c)) with
  | Some (fd, _) =>
      upd_proc (fst c) (λ pr, pr <|p_ofile ::= <[fd:=Some f]>|>);;;
      ret (Z.of_nat fd)
  | None => ret (-1)
  end.

Definition sys_dup : M kernel Z :=
  arg! a := argfd 0 in
  let! fd := fdalloc (snd a) in
  if fd <? 0 then ret (-1) else
  let! _ := filedup (snd a) in
  ret fd.

Definition sys_read : M kernel Z :=
  arg! a := argfd 0 in
  arg! n := argint 2 in
  arg! p := argptr 1 n in
  let! r := fileread (snd a) p n in
  ret (fst r).

Definition sys_write : M kernel Z :=
  arg! a := argfd 0 in
  arg! n := argint 2 in
  arg! p := argptr 1 n in
  filewrite (snd a) p n.

Definition sys_close : M kernel Z :=
  arg! a := argfd 0 in
  let! c := me in
  upd_proc (fst c) (λ pr, pr <|p_ofile ::= <[fst a:=None]>|>);;;
  fileclose (snd a);;;
  ret 0.

(** [sizeof(struct stat)] *)
Definition STAT_SIZE : Z := 20.

Definition sys_fstat : M kernel Z :=
  arg! a := argfd 0 in
  arg! st := argptr 1 STAT_SIZE in
  filestat (snd a) st.

(** The exit of [sys_link] after the link count was raised. *)
Definition link_bad (ip : nat) : M kernel Z :=
  ilock ip;;;
  upd_inode ip (λ x, x <|i_nlink := i16 (i_nlink x - 1)|>);;;
  iupdate ip;;;
  iunlockput ip;;;
  end_op;;;
  ret (-1).

Definition sys_link : M kernel Z :=
  arg! old := argstr 0 in
  arg! new := argstr 1 in
  begin_op;;;
  let! r := namei old in
  match r with
  | None => end_op;;; ret (-1)
  | Some ip =>
      ilock ip;;;
      let! x := get_inode ip in
      if i_type x =? T_DIR then iunlockput ip;;; end_op;;; ret (-1) else
      upd_inode ip (λ x, x <|i_nlink := i16 (i_nlink x + 1)|>);;;
      iupdate ip;;;
      iunlock ip;;;
      let! r := nameiparent new in
      match r with
      | None => link_bad ip
      | Some (dp, name) =>
          ilock dp;;;
          let! y := get_inode dp in
          let! x := get_inode ip in
          let! ok :=
            (if negb (i_dev y =? i_dev x) then ret false
             else let! d := dirlink dp name (i_inum x) in ret (negb (d <? 0))) in
          if negb ok then iunlockput dp;;; link_bad ip else
          iunlockput dp;;;
          iput ip;;;
          end_op;;;
          ret 0
      end
  end.

Fixpoint isdirempty_loop (fuel : nat) (dp : nat) (off : Z) : M kernel bool :=
  match fuel with
  | O => λ _, Loop
  | S fuel =>
      let! x := get_inode dp in
      if negb (u32 off <? i_size x) then ret true else
      let! de := read_dirent dp (u32 off) "isdirempty: readi" in
      if negb (de_inum de =? 0) then ret false else
      isdirempty_loop fuel dp (off + DIRENT_SIZE)
  end.

Definition isdirempty (dp : nat) : M kernel bool :=
  let! x := get_inode dp in
  isdirempty_loop (S (S (Z.to_nat (i_size x / DIRENT_SIZE)))) dp (2 * DIRENT_SIZE).

Definition unlink_bad (dp : nat) : M kernel Z :=
  iunlockput dp;;;
  end_op;;;
  ret (-1).

Definition sys_unlink : M kernel Z :=
  arg! path := argstr 0 in
  begin_op;;;
  let! r := nameiparent path in
  match r with
  | None => end_op;;; ret (-1)
  | Some (dp, name) =>
      ilock dp;;;
      if (namecmp name (chars ".") =? 0) || (namecmp name (chars "..") =? 0) then unlink_bad dp else
      let! r := dirlookup dp name in
      match r with
      | None => unlink_bad dp
      | Some (ip, off) =>
          ilock ip;;;
          let! x := get_inode ip in
          if i_nlink x <? 1 then panic "unlink: nlink < 1" else
          let! full := (if i_type x =? T_DIR then let! e := isdirempty ip in ret (negb e) else ret false) in
          if full then iunlockput ip;;; unlink_bad dp else
          let! n := writei dp (replicate (Z.to_nat DIRENT_SIZE) 0) off DIRENT_SIZE in
          if negb (n =? DIRENT_SIZE) then panic "unlink: writei" else
          (when i_type x =? T_DIR do
             (upd_inode dp (λ y, y <|i_nlink := i16 (i_nlink y - 1)|>);;;
              iupdate dp));;;
          iunlockput dp;;;
          upd_inode ip (λ x, x <|i_nlink := i16 (i_nlink x - 1)|>);;;
          iupdate ip;;;
          iunlockput ip;;;
          end_op;;;
          ret 0
      end
  end.

Definition create (path : list Z) (type major minor : Z) : M kernel (option nat) :=
  let! r := nameiparent path in
  match r with
  | None => ret None
  | Some (dp, name) =>
      ilock dp;;;
      let! r := dirlookup dp name in
      match r with
      | Some (ip, _) =>
          iunlockput dp;;;
          ilock ip;;;
          let! x := get_inode ip in
          if (type =? T_FILE) && (i_type x =? T_FILE) then ret (Some ip) else
          iunlockput ip;;;
          ret None
      | None =>
          let! y := get_inode dp in
          let! ip := ialloc (i_dev y) type in
          ilock ip;;;
          upd_inode ip (λ x, x <|i_major := major|> <|i_minor := minor|> <|i_nlink := 1|>);;;
          iupdate ip;;;
          (when type =? T_DIR do
             (upd_inode dp (λ y, y <|i_nlink := i16 (i_nlink y + 1)|>);;;
              iupdate dp;;;
              let! x := get_inode ip in
              let! y := get_inode dp in
              let! d := dirlink ip (chars ".") (i_inum x) in
              if d <? 0 then panic "create dots" else
              let! d := dirlink ip (chars "..") (i_inum y) in
              if d <? 0 then panic "create dots" else ret tt));;;
          let! x := get_inode ip in
          let! d := dirlink dp name (i_inum x) in
          if d <? 0 then panic "create: dirlink" else
          iunlockput dp;;;
          ret (Some ip)
      end
  end.

(** [fcntl.h] *)
Definition O_RDONLY : Z := 0.
Definition O_WRONLY : Z := 1.
Definition O_RDWR : Z := 2.
Definition O_CREATE : Z := 0x200.
Definition oflag (omode flag : Z) : bool := negb (Z.land omode flag =? 0).

(** The locked inode that [sys_open] opens. *)
Definition open_inode (path : list Z) (omode : Z) : M kernel (option nat) :=
  if oflag omode O_CREATE then create path T_FILE 0 0
  else
    let! r := namei path in
    match r with
    | None => ret None
    | Some ip =>
        ilock ip;;;
        let! x := get_inode ip in
        if (i_type x =? T_DIR) && negb (omode =? O_RDONLY) then iunlockput ip;;; ret None
        else ret (Some ip)
    end.

Definition sys_open : M kernel Z :=
  arg! path := argstr 0 in
  arg! omode := argint 1 in
  begin_op;;;
  let! r := open_inode path omode in
  match r with
  | None => end_op;;; ret (-1)
  | Some ip =>
      let! f := filealloc in
      let! fd := (match f with None => ret (-1) | Some f => fdalloc f end) in
      if fd <? 0 then
        match f with Some f => fileclose f | None => ret tt end;;;
        iunlockput ip;;;
        end_op;;;
        ret (-1)
      else
        iunlock ip;;;
        end_op;;;
        let! f := deref f in
        upd_file f (λ x, x <|f_type := FD_INODE|> <|f_ip := ip|> <|f_off := 0|>
          <|f_readable := negb (oflag omode O_WRONLY)|>
          <|f_writable := oflag omode O_WRONLY || oflag omode O_RDWR|>);;;
        ret fd
  end.

(** The common end of [sys_mkdir] and [sys_mknod]. *)
Definition created (r : option nat) : M kernel Z :=
  match r with
  | None => end_op;;; ret (-1)
  | Some ip => iunlockput ip;;; end_op;;; ret 0
  end.

Definition sys_mkdir : M kernel Z :=
  begin_op;;;
  let! path := argstr 0 in
  let! r := (match path with None => ret None | Some path => create path T_DIR 0 0 end) in
  created r.

Definition sys_mknod : M kernel Z :=
  begin_op;;;
  let! path := argstr 0 in
  let! r :=
    (match path with
     | None => ret None
     | Some path =>
         let! major := argint 1 in
         match major with
         | None => ret None
         | Some major =>
             let! minor := argint 2 in
             match minor with
             | None => ret None
             | Some minor => create path T_DEV (i16 major) (i16 minor)
             end
         end
     end) in
  created r.

Definition sys_chdir : M kernel Z :=
  let! c := me in
  begin_op;;;
  let! path := argstr 0 in
  let! r := (match path with None => ret None | Some path => namei path end) in
  match r with
  | None => end_op;;; ret (-1)
  | Some ip =>
      ilock ip;;;
      let! x := get_inode ip in
      if negb (i_type x =? T_DIR) then iunlockput ip;;; end_op;;; ret (-1) else
      iunlock ip;;;
      (let! pr := get_proc (fst c) in
       let! cwd := deref (p_cwd pr) in
       iput cwd);;;
      end_op;;;
      upd_proc (fst c) (λ pr, pr <|p_cwd := Some ip|>);;;
      ret 0
  end.

(** The argument vector at [uargv], with at most [MAXARG] cells. *)
Fixpoint fetch_argv (n : nat) (uargv i : Z) : M kernel (option (list (list Z))) :=
  match n with
  | O => ret None
  | S n =>
      let! u := fetchint (u32 (uargv + 4 * i)) in
      match u with
      | None => ret None
      | Some uarg =>
          if uarg =? 0 then ret (Some []) else
          let! s := fetchstr (u32 uarg) in
          match s with
          | None => ret None
          | Some s =>
              let! r := fetch_argv n uargv (i + 1) in
              ret (cons s <$> r)
          end
      end
  end.

Definition sys_exec : M kernel Z :=
  arg! path := argstr 0 in
  arg! uargv := argint 1 in
  arg! argv := fetch_argv MAXARG (u32 uargv) 0 in
  exec path argv.

Definition sys_pipe : M kernel Z :=
  arg! fd := argptr 0 8 in
  let! r := pipealloc in
  match r with
  | None => ret (-1)
  | Some (rf, wf) =>
      let! fd0 := fdalloc rf in
      let! fd1 := (if fd0 <? 0 then ret (-1) else fdalloc wf) in
      if (fd0 <? 0) || (fd1 <? 0) then
        (when 0 <=? fd0 do
           (let! c := me in
            upd_proc (fst c) (λ pr, pr <|p_ofile ::= <[Z.to_nat fd0:=None]>|>)));;;
        fileclose rf;;;
        fileclose wf;;;
        ret (-1)
      else
        vst32 fd fd0;;;
        vst32 (u32 (fd + 4)) fd1;;;
        ret 0
  end.

(** ** The dispatch *)

(** The table [syscalls], with the numbers of [syscall.h]. *)
Definition syscalls (num : Z) : option (M kernel Z) :=
  match num with
  | 1 => Some sys_fork | 2 => Some sys_exit | 3 => Some sys_wait | 4 => Some sys_pipe
  | 5 => Some sys_read | 6 => Some sys_kill | 7 => Some sys_exec | 8 => Some sys_fstat
  | 9 => Some sys_chdir | 10 => Some sys_dup | 11 => Some sys_getpid | 12 => Some sys_sbrk
  | 13 => Some sys_sleep | 14 => Some sys_uptime | 15 => Some sys_open | 16 => Some sys_write
  | 17 => Some sys_mknod | 18 => Some sys_unlink | 19 => Some sys_link | 20 => Some sys_mkdir
  | 21 => Some sys_close | _ => None
  end.

Definition syscall : M kernel unit :=
  let! c := me in
  let! tf := get_tf (p_tf (snd c)) in
  let num := i32 (tf_eax tf) in
  let! r :=
    (match syscalls num with
     | Some call => call
     | None =>
         cprintf (chars "%d %s: unknown sys call %d" ++ [newline])
           [Word (p_pid (snd c)); Str (p_name (snd c)); Word num];;;
         ret (-1)
     end) in
  let! pr := get_proc (fst c) in
  let! tf := get_tf (p_tf pr) in
  set_tf (p_tf pr) (tf <|tf_eax := u32 r|>).
End syscalls.

(** ** Properties *)

(** The kernel runs process [p] on behalf of a system call: its trap frame is
    there, and the [p_sz] bytes of its memory are mapped. *)
Definition in_syscall (k : kernel) (p : pptr) (pr : proc) (tf : trapframe) : Prop :=
  ready k ∧ curproc k = Some p ∧ lookup_proc k p = Some pr ∧ frames k !! p_tf pr = Some tf ∧
  0 <= p_sz pr <= KERNBASE ∧ ∀ va, 0 <= va < p_sz pr → is_Some (translate k false va).

Lemma in_syscall_touch k p pr tf : in_syscall k p pr tf → in_syscall (touch k) p pr tf.
Proof.
  intros (Hr & Hc & Hp & Hf & Hs & Hm). split; [by apply ready_touch|]. split; [by rewrite curproc_touch|].
  split; [rewrite <- Hp; by destruct p|]. exact (conj Hf (conj Hs Hm)).
Qed.

Lemma me_Ret k p pr tf : in_syscall k p pr tf → me k = Ret (p, pr) (touch k).
Proof.
  intros (Hr & Hc & Hp & _). unfold me. erewrite bind_Ret by (by apply myproc_Ret). rewrite Hc.
  unfold deref, get_some. rewrite bind_ret_l. erewrite bind_Ret; [done|]. apply get_proc_Ret.
  rewrite <- Hp. by destruct p.
Qed.

Lemma ld8_mapped k va : is_Some (translate k false va) → ∃ b, ld8 va k = Ret b k.
Proof. intros [a Ha]. unfold ld8. rewrite Ha. by eexists. Qed.

Lemma u32_in_process x sz : 0 <= x < sz → sz <= KERNBASE → u32 x = x.
Proof. intros H1 H2. apply u32_small. unfold KERNBASE in *. lia. Qed.

(** [n] bytes that are mapped can be loaded. *)
Lemma vload_mapped k sz n va :
  (∀ a, 0 <= a < sz → is_Some (translate k false a)) → sz <= KERNBASE → 0 <= va → va + Z.of_nat n <= sz →
  ∃ bs, vload n va k = Ret bs k ∧ length bs = n.
Proof.
  intros Hm Hsz. revert va. induction n as [|n IH]; intros va Hva Hn; cbn [vload]; [by exists []|].
  destruct (ld8_mapped k va) as [b Eb]; [apply Hm; lia|]. rewrite (bind_Ret _ _ _ _ _ Eb).
  destruct n as [|n].
  { exists [b]. by rewrite (bind_Ret _ _ _ _ _ (eq_refl : vload 0 _ _ = _)). }
  rewrite (u32_in_process (va + 1) sz) by lia. destruct (IH (va + 1)) as (bs & E & Hl); [lia..|].
  rewrite (bind_Ret _ _ _ _ _ E). exists (b :: bs). split; [done|]. cbn. lia.
Qed.

Lemma fetchint_Ret k p pr tf addr :
  in_syscall k p pr tf → 0 <= addr →
  ∃ r, fetchint addr k = Ret r (touch k) ∧
    match r with
    | Some v => addr + 4 <= p_sz pr ∧ ∃ bs, sees k addr bs ∧ length bs = 4%nat ∧ v = i32 (unle bs)
    | None => p_sz pr < addr + 4
    end.
Proof.
  intros Hin Ha. pose proof Hin as (Hr & Hc & Hp & _ & Hs & Hm). unfold fetchint.
  erewrite bind_Ret by (by eapply me_Ret). cbn [fst snd].
  destruct (Z.leb_spec (p_sz pr) addr) as [H1|H1]; cbn [orb]; [exists None; split; [done|lia]|].
  rewrite u32_small by (unfold KERNBASE in *; lia).
  destruct (Z.ltb_spec (p_sz pr) (addr + 4)) as [H2|H2]; [by exists None|].
  destruct (vload_mapped (touch k) (p_sz pr) 4 addr) as (bs & E & Hl); [done|lia..|].
  exists (Some (i32 (unle bs))). split; [unfold vld32; by rewrite bind_assoc, (bind_Ret _ _ _ _ _ E)|].
  split; [done|]. exists bs. split; [|done]. apply (sees_view (touch k)); [done|]. unfold sees. by rewrite Hl.
Qed.

Lemma fetch_bytes_Ret k sz fuel s :
  (∀ a, 0 <= a < sz → is_Some (translate k false a)) → sz <= KERNBASE → 0 <= s <= sz → sz - s < Z.of_nat fuel →
  ∃ r, fetch_bytes fuel s sz k = Ret r k ∧
    match r with
    | Some bs => s + Z.of_nat (length bs) < sz ∧ 0 ∉ bs ∧ sees k s (bs ++ [0])
    | None => ∀ i, s <= i < sz → ld8 i k ≠ Ret 0 k
    end.
Proof.
  intros Hm Hsz. revert s. induction fuel as [|fuel IH]; intros s Hs Hf; cbn [fetch_bytes].
  { lia. }
  destruct (Z.ltb_spec s sz) as [H1|H1]; cbn [negb]; [|exists None; split; [done|lia]].
  destruct (ld8_mapped k s) as [b Eb]; [apply Hm; lia|]. rewrite (bind_Ret _ _ _ _ _ Eb).
  destruct (Z.eqb_spec b 0) as [->|Hb].
  { exists (Some []). split; [done|]. cbn [length app]. split; [lia|]. split; [apply not_elem_of_nil|].
    unfold sees. cbn. by rewrite (bind_Ret _ _ _ _ _ Eb). }
  destruct (IH (s + 1)) as (r & E & Hr); [lia..|]. rewrite (bind_Ret _ _ _ _ _ E).
  exists (cons b <$> r). split; [done|]. destruct r as [bs|]; cbn [fmap option_fmap option_map].
  - destruct Hr as (H2 & H3 & H4). cbn [length]. split; [lia|]. split; [apply not_elem_of_cons; split; [congruence|done]|].
    unfold sees in *. cbn [app length vload]. rewrite (bind_Ret _ _ _ _ _ Eb), (u32_in_process (s + 1) sz) by lia.
    by rewrite (bind_Ret _ _ _ _ _ H4).
  - intros i Hi. destruct (decide (i = s)) as [->|]; [rewrite Eb; congruence|]. apply Hr. lia.
Qed.

Lemma argint_Ret k p pr tf n :
  in_syscall k p pr tf → 0 <= n →
  ∃ r, argint n k = Ret r (touch k) ∧
    match r with
    | Some v => u32 (tf_esp tf + 4 + 4 * n) + 4 <= p_sz pr ∧
        ∃ bs, sees k (u32 (tf_esp tf + 4 + 4 * n)) bs ∧ length bs = 4%nat ∧ v = i32 (unle bs)
    | None => p_sz pr < u32 (tf_esp tf + 4 + 4 * n) + 4
    end.
Proof.
  intros Hin Hn. pose proof Hin as (Hr & _ & _ & Hf & _). unfold argint.
  erewrite bind_Ret by (by eapply me_Ret). cbn [snd].
  erewrite bind_Ret by (unfold get_tf; change (frames (touch k)) with (frames k); by rewrite Hf).
  destruct (fetchint_Ret (touch k) p pr tf (u32 (tf_esp tf + 4 + 4 * n))) as (r & E & H).
  - by apply in_syscall_touch.
  - apply u32_range.
  - rewrite E, touch_touch by done. exists r. split; [done|]. destruct r; [|done].
    destruct H as (H1 & bs & H2 & H3). split; [done|]. exists bs. split; [|done]. by apply (sees_view (touch k)).
Qed.

Lemma sees_ld8 k a b : sees k a [b] → ld8 a k = Ret b k.
Proof.
  unfold sees. cbn. unfold bind, ld8. destruct (translate k false a) as [x|]; cbn; [|done]. by intros [= ->].
Qed.

Lemma argptr_Ret k p pr tf n size r :
  in_syscall k p pr tf → - 2 ^ 31 <= size < 2 ^ 31 → argint n (touch k) = Ret r (touch k) →
  argptr n size k = Ret (match r with
    | Some v => if bool_decide (0 <= size ∧ u32 v < p_sz pr ∧ u32 v + size <= p_sz pr) then Some (u32 v) else None
    | None => None
    end) (touch k).
Proof.
  intros Hin Hsz E. pose proof Hin as (_ & _ & _ & _ & Hs & _). unfold argptr. erewrite bind_Ret by (by eapply me_Ret).
  rewrite (bind_Ret _ _ _ _ _ E). cbn [snd]. destruct r as [v|]; [|done]. pose proof (u32_range v).
  destruct (Z.ltb_spec size 0); cbn [orb]; [by rewrite bool_decide_eq_false_2 by lia|].
  destruct (Z.leb_spec (p_sz pr) (u32 v)); cbn [orb]; [by rewrite bool_decide_eq_false_2 by lia|].
  rewrite u32_small by (unfold KERNBASE in *; lia).
  destruct (Z.ltb_spec (p_sz pr) (u32 v + size)); [by rewrite bool_decide_eq_false_2 by lia|by rewrite bool_decide_eq_true_2 by lia].
Qed.

Lemma fetchstr_Ret k p pr tf a :
  in_syscall k p pr tf → 0 <= a →
  ∃ r, fetchstr a (touch k) = Ret r (touch k) ∧
    match r with
    | Some bs => 0 ∉ bs ∧ a + Z.of_nat (length bs) < p_sz pr ∧ sees k a (bs ++ [0])
    | None => ∀ i, a <= i < p_sz pr → ¬ sees k i [0]
    end.
Proof.
  intros Hin Ha. pose proof Hin as (Hr & _ & _ & _ & Hs & Hm). unfold fetchstr.
  erewrite bind_Ret by (by eapply me_Ret, in_syscall_touch). rewrite touch_touch by done. cbn [snd].
  destruct (Z.leb_spec (p_sz pr) a); [exists None; split; [done|lia]|].
  destruct (fetch_bytes_Ret (touch k) (p_sz pr) (S (Z.to_nat (p_sz pr - a))) a) as (r & Er & H3); [done|lia..|].
  exists r. split; [done|]. destruct r as [bs|].
  - destruct H3 as (H3 & H4 & H5). split; [done|]. split; [done|]. by apply (sees_view (touch k)).
  - intros i Hi Hz. apply (H3 i Hi), sees_ld8. by apply (sees_view k).
Qed.

(** C30: The arguments of system calls.  Whatever the user program left on its
    stack and in its registers, fetching an argument returns without a fault
    and changes nothing.  A word is fetched exactly if it lies within the
    process's memory.  A pointer is accepted exactly if its block does, without
    overflow; a string exactly if it starts and has a NUL there, and then the
    kernel gets the bytes up to the NUL. *)
Theorem arguments_safe (k : kernel) (p : pptr) (pr : proc) (tf : trapframe) (n size : Z)
    (Hin : in_syscall k p pr tf) (Hn : 0 <= n) (Hsize : - 2 ^ 31 <= size < 2 ^ 31) :
  let addr := u32 (tf_esp tf + 4 + 4 * n) in
  ∃ r, argint n k = Ret r (touch k) ∧
    match r with
    | None => p_sz pr < addr + 4 ∧ argptr n size k = Ret None (touch k) ∧ argstr n k = Ret None (touch k)
    | Some v =>
        addr + 4 <= p_sz pr ∧ (∃ bs, sees k addr bs ∧ length bs = 4%nat ∧ v = i32 (unle bs)) ∧
        argptr n size k = Ret (if bool_decide (0 <= size ∧ u32 v < p_sz pr ∧ u32 v + size <= p_sz pr)
                               then Some (u32 v) else None) (touch k) ∧
        ∃ str, argstr n k = Ret str (touch k) ∧
          match str with
          | Some bs => 0 ∉ bs ∧ u32 v + Z.of_nat (length bs) < p_sz pr ∧ sees k (u32 v) (bs ++ [0])
          | None => ∀ a, u32 v <= a < p_sz pr → ¬ sees k a [0]
          end
    end.
Proof.
  pose proof Hin as (Hr & _). destruct (argint_Ret k p pr tf n Hin Hn) as (r & E & Hv). exists r. split; [done|].
  destruct (argint_Ret (touch k) p pr tf n (in_syscall_touch _ _ _ _ Hin) Hn) as (r' & E' & Hv').
  rewrite touch_touch in E' by done.
  assert (r' = r) as ->.
  { destruct r as [v|], r' as [v'|]; [|lia|lia|done]. destruct Hv as (_ & bs & H1 & H2 & ->), Hv' as (_ & bs' & H1' & H2' & ->).
    apply (sees_view _ k) in H1'; [|done]. unfold sees in *. rewrite H2, H2' in *. congruence. }
  pose proof (argptr_Ret k p pr tf n size r Hin Hsize E') as Ep. unfold argstr. rewrite (bind_Ret _ _ _ _ _ E).
  destruct r as [v|]; [|done]. destruct Hv as [Hv1 Hv2]. split; [done|]. split; [done|]. split; [done|].
  destruct (fetchstr_Ret k p pr tf (u32 v) Hin) as (str & Es & Hs); [apply u32_range|]. by exists str.
Qed.

(** [demo] in a system call of a process with one page of memory, whose stack
    holds the arguments 8 and 64, a pointer to the string "ls". *)
Definition demo_syscall_proc : proc :=
  (demo_proc 1 RUNNING) <|p_tf := 0x80300f00|> <|p_sz := PGSIZE|>.
Definition demo_tf : trapframe := zero_tf <|tf_esp := 0x100|>.
Definition demo_syscall : kernel :=
  demo <|frames := {[0x80300f00 := demo_tf]}|> <|cr3 := 0x301000|>
    <|ptable ::= <[0%nat:=demo_syscall_proc]>|>
    <|mem ::= λ m, wr32 (wr32 (wr32 (wr32 (wr32 m 0x80301000 0x302007) 0x80302000 0x303007)
       0x80303104 8) 0x80303108 64) 0x80303040 0x736c|>.

Lemma demo_in_syscall : in_syscall demo_syscall (PT 0) demo_syscall_proc demo_tf.
Proof.
  split; [exists (MkCpu 0 0 0 false (Some (PT 0))); by repeat split|]. split; [done|]. split; [done|].
  split; [done|]. split; [done|]. intros va Hva. change (p_sz _) with 4096 in Hva. unfold translate, pte_at.
  replace (PDX va) with 0; [replace (PTX va) with 0|].
  - destruct (Z.leb_spec KERNBASE va); [unfold KERNBASE in *; lia|]. by eexists.
  - unfold PTX. rewrite u32_small, Z.shiftr_div_pow2 by (done || lia). change (2 ^ PTXSHIFT) with 4096. by rewrite Z.div_small.
  - unfold PDX. rewrite u32_small, Z.shiftr_div_pow2 by (done || lia). change (2 ^ PDXSHIFT) with 4194304. by rewrite Z.div_small by lia.
Qed.

Lemma arguments_safe_witness :
  match argint 0 demo_syscall with Ret r _ => r = Some 8 | _ => False end ∧
  match argstr 1 demo_syscall with Ret r _ => r = Some (chars "ls") | _ => False end ∧
  argptr 1 8 demo_syscall = Ret (Some 64) (touch demo_syscall) ∧ argint 1000 demo_syscall = Ret None (touch demo_syscall).
Proof.
  split; [vm_compute; reflexivity|]. split; [vm_compute; reflexivity|]. split.
  - destruct (arguments_safe demo_syscall (PT 0) demo_syscall_proc demo_tf 1 8 demo_in_syscall) as (r & E & Hr); [lia..|].
    assert (match argint 1 demo_syscall with Ret r _ => r = Some 64 | _ => False end) as E' by (vm_compute; reflexivity).
    rewrite E in E'. subst r. exact (proj1 (proj2 (proj2 Hr))).
  - destruct (arguments_safe demo_syscall (PT 0) demo_syscall_proc demo_tf 1000 8 demo_in_syscall) as ([v|] & E & Hr); [lia..| |exact E].
    exfalso. destruct Hr as [Hr _]. revert Hr. apply Z.lt_nge. vm_compute. reflexivity.
Defined.
