(* ===== verification/Trap.v ===== *)
(** Traps and interrupts, from [trap.c]. *)

From stdpp Require Import base gmap strings list.
From Stdlib Require Import ZArith Lia Ascii.
From S2P Require Import Prelude Heap CString Mmu State Disk Spinlock Kalloc Vm User Kbd Print Proc Sleeplock Bio Log Inode Console Fs Pipe File Lifecycle Exec Syscall.
#[local] Open Scope Z_scope.

(** ** The code *)

(** [traps.h] *)
Definition T_SYSCALL : Z := 64.
Definition SEG_KCODE : Z := 1.

(** The interrupt descriptor table that [tvinit] builds from the entry points
    [vectors] of [vectors.S]. *)
Definition idt (vectors : nat → Z) : list gatedesc :=
  <[Z.to_nat T_SYSCALL:=SETGATE true (Z.shiftl SEG_KCODE 3) (vectors (Z.to_nat T_SYSCALL)) DPL_USER]>
    ((λ i, SETGATE false (Z.shiftl SEG_KCODE 3) (vectors i) 0) <$> seq 0 256).

Definition tvinit : M kernel unit := initlock LTicks "time".

(** The disk driver's interrupt handler; that of [memide.c] does nothing. *)
Class DiskIntr := ideintr : M kernel unit.
Definition memide_intr : DiskIntr := ret tt.

Section trap.
Context `{Turns} `{Driver} `{Backtrace} `{DiskIntr}.

Definition timer_tick : M kernel unit :=
  let! id := cpuid in
  when id =? 0 do
    (acquire LTicks;;;
     modify (λ k, k <|ticks ::= λ t, u32 (t + 1)|>);;;
     wakeup ChTicks;;;
     release LTicks).

Definition exit_if_killed : M kernel unit :=
  let! d := mykilled in when d do exit.

(** [myproc() && myproc()->killed && (tf->cs&3) == DPL_USER] leads to
    [exit]. *)
Definition exit_from_user (tf : trapframe) : M kernel unit :=
  let! p := myproc in
  match p with
  | None => ret tt
  | Some _ =>
      let! d := mykilled in
      when d && (Z.land (tf_cs tf) 3 =? DPL_USER) do exit
  end.

(** A trap that is not an interrupt or a system call. *)
Definition unexpected (tf : trapframe) (cr2 : Z) : M kernel unit :=
  let! p := myproc in
  let! id := cpuid in
  if bool_decide (p = None) || (Z.land (tf_cs tf) 3 =? 0) then
    cprintf (chars "unexpected trap %d from cpu %d eip %x (cr2=0x%x)" ++ [newline])
      [Word (tf_trapno tf); Word id; Word (tf_eip tf); Word cr2];;;
    panic "trap"
  else
    let! c := me in
    cprintf (chars "pid %d %s: trap %d err %d on cpu %d eip 0x%x addr 0x%x--kill proc" ++ [newline])
      [Word (p_pid (snd c)); Str (p_name (snd c)); Word (tf_trapno tf); Word (tf_err tf); Word id;
       Word (tf_eip tf); Word cr2];;;
    upd_proc (fst c) (λ pr, pr <|p_killed := true|>).

(** [trap] with the frame at [tfp]; [cr2] is the faulting address the CPU
    reports.  The end-of-interrupt message to the local APIC has no effect on
    the state. *)
Definition trap (tfp cr2 : Z) : M kernel unit :=
  let! tf := get_tf tfp in
  let trapno := tf_trapno tf in
  if trapno =? T_SYSCALL then
    exit_if_killed;;;
    (let! c := me in upd_proc (fst c) (λ pr, pr <|p_tf := tfp|>));;;
    syscall;;;
    exit_if_killed
  else
    (if trapno =? T_IRQ0 + IRQ_TIMER then timer_tick
     else if trapno =? T_IRQ0 + IRQ_IDE then ideintr
     else if trapno =? T_IRQ0 + IRQ_IDE + 1 then ret tt
     else if trapno =? T_IRQ0 + IRQ_KBD then kbdintr
     else if trapno =? T_IRQ0 + IRQ_COM1 then uartintr
     else if (trapno =? T_IRQ0 + 7) || (trapno =? T_IRQ0 + IRQ_SPURIOUS) then
       let! id := cpuid in
       cprintf (chars "cpu%d: spurious interrupt at %x:%x" ++ [newline])
         [Word id; Word (tf_cs tf); Word (tf_eip tf)]
     else unexpected tf cr2);;;
    exit_from_user tf;;;
    (let! p := myproc in
     match p with
     | None => ret tt
     | Some p =>
         let! pr := get_proc p in
         when bool_decide (p_state pr = RUNNING) && (trapno =? T_IRQ0 + IRQ_TIMER) do
           (cprintf (chars "timer interrupt" ++ [newline]) [];;;
            yield)
     end);;;
    exit_from_user tf.
End trap.
