(* ===== verification/Sched.v ===== *)
(** The two schedulers of [proc.c].

    A scheduler is a thread that switches to the process it chose and goes on
    when the process switches back.  [for(;;)] loops are bounded by a number of
    rounds; the theorems are about one round, started in any state. *)

From stdpp Require Import base gmap strings list sorting.
From Stdlib Require Import ZArith Lia.
From S2P Require Import Prelude Heap CString Mmu State Spinlock Kalloc Vm Proc.
#[local] Open Scope Z_scope.

(** ** The code *)

(** [c->proc = p] for CPU number [c]. *)
Definition set_cproc (c : nat) (p : option pptr) : M kernel unit :=
  let! d := get_cpu c in set_cpu c (d <|c_proc := p|>).

(** [for(;;)]. *)
Fixpoint forever (n : nat) (m : M kernel unit) : M kernel unit :=
  match n with
  | O => λ _, Loop
  | S n => m;;; forever n m
  end.

(** The body of the loop over the table in [sched_RR]. *)
Definition rr_visit (c i : nat) : M kernel unit :=
  let p := PT i in
  let! pr := get_proc p in
  if negb (bool_decide (p_state pr = RUNNABLE)) then ret tt else
  set_cproc c (Some p);;;
  switchuvm (Some p);;;
  upd_proc p (λ pr, pr <|p_state := RUNNING|>);;;
  suspend;;;
  switchkvm;;;
  set_cproc c None.

Fixpoint rr_scan (c n i : nat) : M kernel unit :=
  match n with
  | O => ret tt
  | S n => rr_visit c i;;; rr_scan c n (S i)
  end.

Definition rr_round (c : nat) : M kernel unit :=
  sti;;;
  acquire LPtable;;;
  rr_scan c NPROC 0;;;
  release LPtable.

Definition sched_RR (n : nat) : M kernel unit :=
  let! c := mycpu in
  set_cproc c None;;;
  forever n (rr_round c).

(** The loop that fills the heap; the result of [push] is ignored. *)
Fixpoint stride_scan {Q} `{MinQueue proc Q NPROC} (t : list proc) (q : Q) : option Q :=
  match t with
  | [] => Some q
  | p :: t =>
      if bool_decide (p_state p = RUNNABLE)
      then r ← q_push q p; stride_scan t r.2
      else stride_scan t q
  end.

(** A round of [sched_stride].  The heap is a variable of the function: its
    array keeps the values of the last round, its size starts at 0.  The
    array is on the stack of the scheduler, one for each CPU; [heap_arr] is
    that of the CPU that runs. *)
Definition stride_round (c : nat) : M kernel unit :=
  sti;;;
  let! t := gets ptable in
  let! a := gets heap_arr in
  let! heap := get_some (stride_scan t (MkHeap a 0)) in
  modify (λ k, k <|heap_arr := arr heap|>);;;
  when bool_decide (0 < hsize heap)%nat do
    (let p := HP 0 in
     set_cproc c (Some p);;;
     switchuvm (Some p);;;
     acquire LPtable;;;
     upd_proc p (λ pr, pr <|p_state := RUNNING|>);;;
     (let! t := getticks in upd_proc p (λ pr, pr <|p_last_scheduled := t|>));;;
     suspend;;;
     (let! t := getticks in upd_proc p (λ pr, pr <|p_last_interrupted := t|>));;;
     upd_proc p (λ pr, pr <|p_runtime :=
       i32 (p_runtime pr + (p_last_interrupted pr - p_last_scheduled pr))|>);;;
     switchkvm;;;
     set_cproc c None;;;
     release LPtable).

Definition sched_stride (n : nat) : M kernel unit :=
  let! c := mycpu in
  set_cproc c None;;;
  forever n (stride_round c).

(** [scheduler]: the called scheduler never returns. *)
Definition scheduler (n : nat) : M kernel unit :=
  let! b := gets stride_scheduler in
  if b then sched_stride n else sched_RR n.

(** ** Specification *)

(** A run of a scheduler.  The processes it switches to change the state as
    [R] allows; the trace lists the processes. *)
Inductive drives (R : kernel → kernel → Prop) :
  outcome kernel unit → list pptr → kernel → Prop :=
| drives_ret k : drives R (Ret tt k) [] k
| drives_switch s cont p s' tr k :
    curproc s = Some p → R s s' → drives R (cont s') tr k →
    drives R (Suspend s cont) (p :: tr) k.

(** The scheduler of CPU [c] holds the table's lock and runs no process. *)
Definition at_sched (c : nat) (k : kernel) : Prop :=
  cur k = c ∧ lock_held k LPtable c ∧ eflags_if k = false ∧
  ∃ d, on_cpu k c d ∧ ncli d = 1.

(** Runnable and sleeping processes have a kernel stack and a page table. *)
Definition table_ok (k : kernel) : Prop :=
  length (ptable k) = NPROC ∧
  ∀ i pr, ptable k !! i = Some pr → p_state pr = RUNNABLE → can_run pr.

Definition runnable (k : kernel) (i : nat) : Prop :=
  ∃ pr, ptable k !! i = Some pr ∧ p_state pr = RUNNABLE.

(** What a process does between the two switches: it comes back on the same
    CPU with the table's lock, and makes no other process unable to run. *)
Definition rr_rely (c : nat) (s s' : kernel) : Prop :=
  at_sched c s' ∧ table_ok s' ∧
  ∀ j, runnable s j → curproc s ≠ Some (PT j) → runnable s' j.

(** The scheduler of CPU [c] between rounds: no lock held. *)
Definition idle (c : nat) (k : kernel) : Prop :=
  lock_free k LPtable ∧ ∃ d, on_cpu k c d ∧ ncli d = 0.

(** The scheduler switches away to process [i], chosen from [k]'s table. *)
Definition dispatched (c i : nat) (s : kernel) : Prop :=
  handover s (PT i) ∧ cur s = c ∧
  ∃ pr, ptable s !! i = Some pr ∧ p_state pr = RUNNING ∧ cr3 s = V2P (p_pgdir pr) ∧ can_run pr.

(** ** Lemmas *)

Lemma set_cproc_Ret k c d p :
  on_cpu k c d → set_cproc c p k = Ret tt (k <|cpus ::= alter (λ d, d <|c_proc := p|>) c|>).
Proof.
  intros H. unfold set_cproc. erewrite bind_Ret by (by eapply get_cpu_Ret).
  unfold set_cpu, modify. f_equal. kext. symmetry. by eapply list_alter_insert, H.
Qed.

Lemma at_sched_ready c k : at_sched c k → ready k.
Proof.
  intros (<- & _ & He & d & H & Hn). exists d. split; [done|]. split; [lia|by rewrite He].
Qed.

Lemma at_sched_holds c k : at_sched c k → holds k LPtable.
Proof. intros (<- & Hl & He & d & H & Hn). split_and!; [done..|]. exists d. split; [done|lia]. Qed.

Lemma at_sched_handover c k p : at_sched c k → curproc k = Some p → handover k p.
Proof.
  intros (<- & Hl & He & d & H & Hn) Hp. split_and!; [done..|]. exists d.
  unfold curproc in Hp. by rewrite (proj2 H) in Hp.
Qed.

(** Changes to the data of the running CPU that keep its id and depth. *)
Lemma at_sched_alter c k f :
  at_sched c k → (∀ d, apicid (f d) = apicid d ∧ ncli (f d) = ncli d) →
  at_sched c (k <|cpus ::= alter f c|>).
Proof.
  intros (Hc & Hl & He & d & H & Hn) Hf. destruct (Hf d) as [Ha Hd].
  pose proof (on_cpu_alter k c d f H Ha) as H1. split_and!; [|done..|].
  - by eapply on_cpu_cur.
  - exists (f d). split; [done|]. by rewrite Hd.
Qed.

Lemma curproc_alter c k d p :
  on_cpu k c d → curproc (k <|cpus ::= alter (λ d, d <|c_proc := p|>) c|>) = p.
Proof.
  intros H. pose proof (on_cpu_alter k c d (λ d, d <|c_proc := p|>) H eq_refl) as H1.
  unfold curproc. by rewrite (on_cpu_cur _ _ _ H1), (proj2 H1).
Qed.

(** The rest of a visit after the process switched back. *)
Definition rr_back (c : nat) : M kernel unit := switchkvm;;; set_cproc c None.

Lemma rr_back_Ret c k :
  at_sched c k →
  ∃ k', rr_back c k = Ret tt k' ∧ at_sched c k' ∧ ptable k' = ptable k ∧ curproc k' = None ∧
    locks k' = locks k.
Proof.
  intros Ha. pose proof Ha as (Hc & Hl & He & d & H & Hn). unfold rr_back, switchkvm.
  rewrite bind_modify. eexists. split; [by eapply set_cproc_Ret|]. split_and!; try done.
  - by apply (at_sched_alter c (k <|cr3 := V2P (kpgdir k)|>) (λ d, d <|c_proc := None|>)).
  - by apply (curproc_alter c (k <|cr3 := V2P (kpgdir k)|>) d).
Qed.

Lemma rr_visit_skip c i k pr :
  ptable k !! i = Some pr → p_state pr ≠ RUNNABLE → rr_visit c i k = Ret tt k.
Proof.
  intros Hi Hs. unfold rr_visit. erewrite bind_Ret by (by apply get_proc_Ret).
  by rewrite bool_decide_false.
Qed.

Lemma rr_visit_switch c i k pr :
  at_sched c k → ptable k !! i = Some pr → p_state pr = RUNNABLE → can_run pr →
  ∃ s, rr_visit c i k = Suspend s (rr_back c) ∧ dispatched c i s ∧
    ptable s = <[i:=pr <|p_state := RUNNING|>]> (ptable k) ∧ locks s = locks k.
Proof.
  intros Ha Hi Hs Hr. pose proof Ha as (Hc & Hl & He & d & H & Hn). unfold rr_visit.
  erewrite bind_Ret by (by apply get_proc_Ret). rewrite bool_decide_true by done. cbn [negb].
  erewrite bind_Ret by (by eapply set_cproc_Ret).
  set (k1 := k <|cpus ::= _|>).
  assert (at_sched c k1) as Ha1 by (by apply (at_sched_alter c k (λ d, d <|c_proc := _|>))).
  assert (curproc k1 = Some (PT i)) as Hp1 by (by eapply curproc_alter).
  erewrite bind_Ret.
  2: { eapply switchuvm_Ret; [by eapply at_sched_ready|exact Hi|done]. }
  pose proof Ha1 as (Hc1 & Hl1 & He1 & d1 & H1 & Hn1).
  pose proof (on_cpu_switched k1 pr d1) as H2. rewrite Hc1 in H2. specialize (H2 H1).
  assert (at_sched c (switched pr k1)) as Ha2.
  { split_and!; [by eapply on_cpu_cur|done..|]. eexists. split; [exact H2|done]. }
  rewrite (touch_holds _ LPtable) by (by eapply at_sched_holds).
  erewrite bind_Ret by (apply upd_proc_Ret; by exists pr).
  eexists. split; [reflexivity|]. cbn [update_proc]. rsimpl.
  assert (alter (λ pr, pr <|p_state := RUNNING|>) i (ptable (switched pr k1)) =
    <[i:=pr <|p_state := RUNNING|>]> (ptable k)) as E by (by apply list_alter_insert).
  split_and!; [|exact E|done]. unfold dispatched. split_and!.
  - apply (at_sched_handover c (switched pr k1) _ Ha2).
    unfold curproc in *. rewrite (on_cpu_cur _ _ _ H2), (proj2 H2).
    rewrite Hc1, (proj2 H1) in Hp1. done.
  - apply (on_cpu_cur _ _ _ H2).
  - exists (pr <|p_state := RUNNING|>). rsimpl. rewrite E. split_and!; try done.
    by eapply list_lookup_insert_eq, lookup_lt_Some.
Qed.

(** *** Runs *)

Lemma drives_bind_inv R o (f : unit → M kernel unit) tr k :
  drives R (obind o f) tr k →
  ∃ tr1 tr2 k1, drives R o tr1 k1 ∧ drives R (f tt k1) tr2 k ∧ tr = tr1 ++ tr2.
Proof.
  revert tr. induction o as [[] s|msg|s cont IH| | |]; intros tr H; cbn in H; try by inversion H.
  - exists [], tr, s. split_and!; [constructor|done|done].
  - inversion H as [|? ? p s' tr' ? Hp HR Hd]; subst.
    destruct (IH s' tr' Hd) as (tr1 & tr2 & k1 & H1 & H2 & ->).
    exists (p :: tr1), tr2, k1. split_and!; [by econstructor|done|done].
Qed.

Lemma drives_Ret_inv R k tr k' : drives R (Ret tt k) tr k' → tr = [] ∧ k' = k.
Proof. by inversion 1. Qed.

Lemma table_ok_insert k i pr :
  table_ok k → (p_state pr = RUNNABLE → can_run pr) →
  ∀ k', ptable k' = <[i:=pr]> (ptable k) → table_ok k'.
Proof.
  intros [Hn Ht] Hp k' E. split; [by rewrite E, length_insert|].
  intros j q Hj Hs. rewrite E, list_lookup_insert_Some in Hj.
  destruct Hj as [(-> & -> & _)|[_ Hj]]; eauto.
Qed.

Lemma runnable_insert k k' i pr j :
  ptable k' = <[i:=pr]> (ptable k) → j ≠ i → runnable k j → runnable k' j.
Proof.
  intros E Hne (q & Hq & Hs). exists q. split; [|done]. rewrite E.
  by rewrite list_lookup_insert_ne.
Qed.

Lemma runnable_eq k k' j : ptable k' = ptable k → runnable k j → runnable k' j.
Proof. unfold runnable. by intros ->. Qed.

(** One visit: at most one switch, to process [i], exactly when it can run. *)
Lemma rr_visit_drives c i k tr k' :
  at_sched c k → table_ok k → (i < NPROC)%nat →
  drives (rr_rely c) (rr_visit c i k) tr k' →
  at_sched c k' ∧ table_ok k' ∧
  (tr = [PT i] ∧ runnable k i ∨ tr = [] ∧ ¬ runnable k i) ∧
  ∀ j, j ≠ i → runnable k j → runnable k' j.
Proof.
  intros Ha [Hn Ht] Hi Hd. destruct (list_lookup_lt (ptable k) i) as [pr Hp]; [lia|].
  destruct (decide (p_state pr = RUNNABLE)) as [Hs|Hs].
  - destruct (rr_visit_switch c i k pr) as (s & E & Hds & Et & _); [by eauto..|].
    rewrite E in Hd. inversion Hd as [|? ? p s' tr' ? Hcp HR Hd']; subst.
    destruct HR as (Ha' & Ht' & Hr').
    destruct (rr_back_Ret c s' Ha') as (k2 & E2 & Ha2 & Et2 & _). rewrite E2 in Hd'.
    apply drives_Ret_inv in Hd' as [-> ->].
    rewrite (handover_curproc s (PT i)) in Hcp by apply Hds. injection Hcp as <-. split_and!; try done.
    + destruct Ht' as [? ?]. split; by rewrite Et2.
    + left. split; [done|]. by exists pr.
    + intros j Hj Hrj. apply (runnable_eq s'); [done|]. apply Hr'.
      * by eapply runnable_insert.
      * rewrite (handover_curproc s (PT i)) by apply Hds. congruence.
  - rewrite (rr_visit_skip c i k pr) in Hd by done. apply drives_Ret_inv in Hd as [-> ->].
    split_and!; try done. right. split; [done|]. intros (q & Hq & Hsq). by simplify_eq.
Qed.

Lemma rr_scan_drives c n i k tr k' :
  at_sched c k → table_ok k → (i + n = NPROC)%nat →
  drives (rr_rely c) (rr_scan c n i k) tr k' →
  at_sched c k' ∧ table_ok k' ∧
  ∃ l, tr = PT <$> l ∧ StronglySorted lt l ∧ Forall (λ j, i ≤ j)%nat l ∧
    ∀ j, (i ≤ j)%nat → runnable k j → j ∈ l.
Proof.
  revert i k tr. induction n as [|n IH]; intros i k tr Ha Ht Hn Hd; cbn [rr_scan] in Hd.
  - apply drives_Ret_inv in Hd as [-> ->]. split_and!; try done.
    exists []. split_and!; [done|constructor|done|].
    intros j Hj (q & Hq & _). apply lookup_lt_Some in Hq. destruct Ht as [Ht _]. lia.
  - apply drives_bind_inv in Hd as (tr1 & tr2 & k1 & H1 & H2 & ->).
    destruct (rr_visit_drives c i k tr1 k1) as (Ha1 & Ht1 & Htr & Hr); [done..|lia|done|].
    destruct (IH (S i) k1 tr2) as (Ha' & Ht' & l & -> & Hs & Hf & Hl); [done..|lia|done|].
    split_and!; try done.
    assert (∀ j, (i ≤ j)%nat → j ≠ i → runnable k j → j ∈ l) as Hin.
    { intros j Hj Hne Hrj. apply Hl; [lia|]. by apply Hr. }
    destruct Htr as [[-> Hri]|[-> Hri]].
    + exists (i :: l). split_and!; [done|..].
      * constructor; [done|]. eapply Forall_impl; [exact Hf|]. cbn. lia.
      * constructor; [done|]. eapply Forall_impl; [exact Hf|]. cbn. lia.
      * intros j Hj Hrj. destruct (decide (j = i)) as [->|]; [by left|]. right. by apply Hin.
    + exists l. split_and!; [done..| |].
      * eapply Forall_impl; [exact Hf|]. cbn. lia.
      * intros j Hj Hrj. destruct (decide (j = i)) as [->|]; [done|by apply Hin].
Qed.

(** No visit can go wrong, whatever the processes do within the rely. *)
Lemma rr_visit_wp c i k (Q : unit → kernel → Prop) :
  at_sched c k → table_ok k → (i < NPROC)%nat →
  (∀ k', at_sched c k' → table_ok k' → Q tt k') →
  wp False (λ s, table_ok s ∧ ∃ j, dispatched c j s) (rr_rely c) Q (rr_visit c i) k.
Proof.
  intros Ha [Hn Ht] Hi HQ. destruct (list_lookup_lt (ptable k) i) as [pr Hp]; [lia|].
  unfold wp. destruct (decide (p_state pr = RUNNABLE)) as [Hs|Hs].
  - destruct (rr_visit_switch c i k pr) as (s & E & Hds & Et & _); [by eauto..|].
    rewrite E. split; [split; [by eapply (table_ok_insert k i (pr <|p_state := RUNNING|>))|by exists i]|].
    intros s' (Ha' & [Hn' Ht'] & Hr').
    destruct (rr_back_Ret c s' Ha') as (k2 & E2 & Ha2 & Et2 & _). rewrite E2.
    apply HQ; [done|]. split; by rewrite Et2.
  - rewrite (rr_visit_skip c i k pr) by done. by apply HQ.
Qed.

Lemma rr_scan_wp c n i k (Q : unit → kernel → Prop) :
  at_sched c k → table_ok k → (i + n = NPROC)%nat →
  (∀ k', at_sched c k' → table_ok k' → Q tt k') →
  wp False (λ s, table_ok s ∧ ∃ j, dispatched c j s) (rr_rely c) Q (rr_scan c n i) k.
Proof.
  revert i k. induction n as [|n IH]; intros i k Ha Ht Hn HQ; cbn [rr_scan]; [by apply HQ|].
  apply wp_bind, rr_visit_wp; [done..|lia|]. intros k' Ha' Ht'. apply IH; [done..|lia|done].
Qed.

(** *** The start and the end of a round *)

Lemma idle_enter c k k0 :
  idle c k0 → k = k0 <|eflags_if := true|> →
  ready k ∧ lock_free k LPtable ∧ at_sched c (enter LPtable k) ∧ cur k = c.
Proof.
  intros (Hf & d & H & Hn) ->. set (k := k0 <|eflags_if := true|>).
  assert (on_cpu k c d) as H' by (by apply on_cpu_if).
  pose proof (on_cpu_cur _ _ _ H') as Hc.
  assert (roomy k) as Hr. { exists d. rewrite Hc. split; [done|]. by split; [lia|]. }
  split_and!; try done; [by apply roomy_ready|]. pose proof Hf as [nm Hl].
  destruct (holds_enter k LPtable Hr Hf) as (Hh & He & _).
  assert (on_cpu (enter LPtable k) c (cpu_push true d)) as H1.
  { rewrite (enter_acquired LPtable k c d (MkSpinlock false nm None)) by done.
    by apply (on_cpu_acquired LPtable k). }
  pose proof (on_cpu_cur _ _ _ H1) as Hc1. rewrite Hc1 in Hh. split_and!; try done.
  exists (cpu_push true d). split; [done|]. rewrite ncli_push; lia.
Qed.

Lemma release_idle c k :
  at_sched c k →
  ∃ k', release LPtable k = Ret tt k' ∧ idle c k' ∧ ptable k' = ptable k ∧
    heap_arr k' = heap_arr k ∧ (∀ l, l ≠ LPtable → locks k' !! l = locks k !! l).
Proof.
  intros Ha. pose proof (at_sched_holds _ _ Ha) as Hh. exists (dropped LPtable k).
  split; [by apply release_dropped|]. destruct Ha as (Hc & _ & _ & d & H & Hn).
  split_and!; try done.
  - split; [by apply lock_free_dropped|]. exists (cpu_pop d). rewrite <- Hc in H |- *.
    split; [by apply on_cpu_dropped|]. unfold cpu_pop. rsimpl. by rewrite Hn.
  - intros l Hl. by apply locks_dropped_ne.
Qed.

Lemma rr_round_enter c k (m : M kernel unit) :
  idle c k → (sti;;; acquire LPtable;;; m) k = m (enter LPtable (k <|eflags_if := true|>)) ∧
  at_sched c (enter LPtable (k <|eflags_if := true|>)).
Proof.
  intros H. destruct (idle_enter c _ k H eq_refl) as (H1 & H2 & H3 & _). split; [|done].
  unfold sti. rewrite bind_modify. by erewrite bind_Ret by (by apply acquire_enter).
Qed.

(** *** Stride: the choice *)

Section stride_choice.
Context {Q : Type} `{MinQueue proc Q NPROC}.

Definition is_runnable (p : proc) : bool := bool_decide (p_state p = RUNNABLE).

(** The scan pushes the runnable processes, and the queue never overflows. *)
Lemma stride_scan_ok (t : list proc) (q : Q) (l : list proc) :
  q_rep q l → (length l + length t ≤ NPROC)%nat →
  ∃ q', stride_scan t q = Some q' ∧ q_rep q' (filter is_runnable t ++ l).
Proof.
  revert q l. induction t as [|p t IH]; intros q l Hq Hn; cbn [stride_scan length] in *.
  - by exists q.
  - rewrite filter_cons. unfold is_runnable at 1. case_bool_decide as Hs.
    + destruct (q_push_ok q l p) as (q1 & -> & Hq1); [done|lia|]. cbn.
      destruct (IH q1 (p :: l)) as (q' & -> & Hq'); [done|cbn; lia|]. exists q'. split; [done|].
      rewrite decide_True by (unfold is_runnable; by rewrite bool_decide_true).
      eapply q_rep_perm; [|exact Hq']. symmetry. apply Permutation_middle.
    + destruct (IH q l) as (q' & -> & Hq'); [done|lia|]. exists q'. split; [done|].
      rewrite decide_False; [done|]. unfold is_runnable. by rewrite bool_decide_spec.
Qed.

(** The front of the filled queue is a least runnable process. *)
Lemma stride_scan_min (t : list proc) (q : Q) :
  q_rep q [] → (length t ≤ NPROC)%nat → (∃ p, p ∈ t ∧ p_state p = RUNNABLE) →
  ∃ q' m, stride_scan t q = Some q' ∧ q_min q' = Some m ∧ m ∈ t ∧ p_state m = RUNNABLE ∧
    (∀ p, p ∈ t → p_state p = RUNNABLE → lexle m p) ∧ q_rep q' (filter is_runnable t).
Proof.
  intros Hq Hn (p & Hp & Hs).
  destruct (stride_scan_ok t q [] Hq) as (q' & E & Hq'); [done|]. rewrite app_nil_r in Hq'.
  assert (∀ x, x ∈ filter is_runnable t ↔ x ∈ t ∧ p_state x = RUNNABLE) as Hin.
  { intros x. rewrite list_elem_of_filter. unfold is_runnable. rewrite bool_decide_spec. tauto. }
  destruct (q_min_ok q' (filter is_runnable t)) as (m & Hm & Hmt & Hle); [done| |].
  { intros E'. assert (p ∈ filter is_runnable t) as Hx by (by apply Hin). rewrite E' in Hx.
    by apply elem_of_nil in Hx. }
  apply Hin in Hmt as [Hmt Hms]. exists q', m. split_and!; try done.
  intros x Hx Hxs. apply Hle, Hin. done.
Qed.
End stride_choice.

(** *** Stride: a round *)

(** A round may start. *)
Definition stride_ready (c : nat) (k : kernel) : Prop :=
  idle c k ∧ lock_free k LTicks ∧ table_ok k ∧ length (heap_arr k) = NPROC.

(** The rest of a round after the process switched back. *)
Definition stride_back (c : nat) : M kernel unit :=
  (let! t := getticks in upd_proc (HP 0) (λ pr, pr <|p_last_interrupted := t|>));;;
  upd_proc (HP 0) (λ pr, pr <|p_runtime :=
    i32 (p_runtime pr + (p_last_interrupted pr - p_last_scheduled pr))|>);;;
  switchkvm;;;
  set_cproc c None;;;
  release LPtable.

(** [c->proc = p; switchuvm(p)] between rounds. *)
Lemma idle_switch c k p pr :
  idle c k → eflags_if k = true → lookup_proc k p = Some pr → can_run pr →
  ∃ k', (set_cproc c (Some p);;; switchuvm (Some p)) k = Ret tt k' ∧ idle c k' ∧
    eflags_if k' = true ∧ curproc k' = Some p ∧ ptable k' = ptable k ∧
    heap_arr k' = heap_arr k ∧ locks k' = locks k ∧ cr3 k' = V2P (p_pgdir pr) ∧ ticks k' = ticks k.
Proof.
  intros (Hf & d & H & Hn) He Hp Hr. erewrite bind_Ret by (by eapply set_cproc_Ret).
  set (k1 := k <|cpus ::= _|>). set (d1 := d <|c_proc := Some p|>).
  assert (on_cpu k1 c d1) as H1 by (by apply (on_cpu_alter k c d (λ d, d <|c_proc := Some p|>))).
  pose proof (on_cpu_cur _ _ _ H1) as Hc1.
  assert (ready k1) as Hr1.
  { exists d1. rewrite Hc1. split; [done|]. split; unfold d1; rsimpl; lia. }
  erewrite switchuvm_Ret; [|done| |done]; [|by destruct p].
  pose proof (on_cpu_switched k1 pr d1) as H2. rewrite Hc1 in H2. specialize (H2 H1).
  pose proof (on_cpu_touch (switched pr k1)) as H3. rewrite (on_cpu_cur _ _ _ H2) in H3.
  specialize (H3 _ H2). eexists. split; [done|]. split_and!; try done.
  - split; [done|]. eexists. split; [exact H3|]. by rewrite ncli_note.
  - unfold curproc. rewrite (on_cpu_cur _ _ _ H3), (proj2 H3). cbn. by rewrite c_proc_note.
Qed.

Lemma getticks_held k l :
  holds k l → lock_free k LTicks → getticks k = Ret (i32 (ticks k)) k.
Proof.
  intros H Hf. rewrite getticks_Ret by (done || by eapply holds_ready).
  by rewrite (touch_holds _ _ H).
Qed.

Lemma stride_round_none c k :
  stride_ready c k → (∀ i, ¬ runnable k i) →
  stride_round c k = Ret tt (k <|eflags_if := true|>).
Proof.
  intros (Hi & _ & [Ht _] & Hn) Hno. unfold stride_round, sti. rewrite bind_modify, !bind_gets.
  rsimpl. assert (∀ t (q : minheap proc), (∀ p, p ∈ t → p_state p ≠ RUNNABLE) →
    stride_scan t q = Some q) as Hsc.
  { induction t as [|p t IH]; intros q Hp; [done|]. cbn [stride_scan].
    rewrite bool_decide_false by (apply Hp; by left). apply IH. intros x Hx. apply Hp. by right. }
  rewrite Hsc.
  - cbn [get_some]. rewrite bind_ret_l, bind_modify. cbn [arr hsize].
    rewrite bool_decide_false by lia. unfold ret. f_equal.
  - intros p (i & Hp)%list_elem_of_lookup Hs. apply (Hno i). by exists p.
Qed.

Lemma stride_round_some c k :
  stride_ready c k → (∃ i, runnable k i) →
  ∃ s m, stride_round c k = Suspend s (stride_back c) ∧ m ∈ ptable k ∧ p_state m = RUNNABLE ∧
    (∀ p, p ∈ ptable k → p_state p = RUNNABLE → lexle m p) ∧
    handover s (HP 0) ∧ at_sched c s ∧ ptable s = ptable k ∧ cr3 s = V2P (p_pgdir m) ∧
    heap_arr s !! 0%nat =
      Some (m <|p_state := RUNNING|> <|p_last_scheduled := i32 (ticks k)|>) ∧
    length (heap_arr s) = NPROC ∧ lock_free s LTicks.
Proof.
  intros (Hi & Htk & [Ht Hcr] & Hn) (i & pr & Hpi & Hps).
  destruct (stride_scan_min (ptable k) (MkHeap (heap_arr k) 0)) as
    (q & m & Eq & Hmin & Hmt & Hms & Hle & (Hok & Hlen & Hper)).
  { split_and!; [|done|done]. split; cbn; [lia|]. intros ? ? ? ?. lia. }
  { lia. } { exists pr. split; [by eapply list_elem_of_lookup_2|done]. }
  assert (0 < hsize q)%nat as Hq.
  { rewrite <- (contents_length q Hok), Hper. destruct (filter is_runnable (ptable k)) eqn:E; [|cbn; lia].
    exfalso. assert (pr ∈ filter is_runnable (ptable k)) as Hx; [|rewrite E in Hx; by apply elem_of_nil in Hx].
    apply list_elem_of_filter. unfold is_runnable. rewrite bool_decide_spec.
    split; [done|by eapply list_elem_of_lookup_2]. }
  unfold stride_round, sti. rewrite bind_modify, !bind_gets. rsimpl. rewrite Eq.
  cbn [get_some]. rewrite bind_ret_l, bind_modify, bool_decide_true by done.
  set (k1 := k <|eflags_if := true|> <|heap_arr := arr q|>).
  assert (can_run m) as Hrm by (apply list_elem_of_lookup in Hmt as [j Hj]; by eauto).
  destruct (idle_switch c k1 (HP 0) m) as (k2 & E2 & Hi2 & He2 & Hc2 & Et2 & Eh2 & El2 & Er2 & Ek2);
    [done..|]. rewrite <- bind_assoc, (bind_Ret _ _ _ _ _ E2).
  destruct (idle_enter c k2 k2 Hi2) as (Hr2 & Hf2 & Ha2 & Hcu2); [kext; by rewrite He2|].
  erewrite bind_Ret by (by apply acquire_enter).
  assert (lookup_proc (enter LPtable k2) (HP 0) = Some m) as Hm2.
  { change (heap_arr k2 !! 0%nat = Some m). rewrite Eh2. exact Hmin. }
  assert (valid (enter LPtable k2) (HP 0)) as Hv by (by eexists). run_upd.
  set (k3 := update_proc (HP 0) _ (enter LPtable k2)).
  assert (lock_free k3 LTicks) as Hf3.
  { destruct Htk as [nm Htk]. exists nm. unfold k3. cbn [update_proc]. unfold enter. rsimpl.
    rewrite lookup_alter_ne, El2 by done. exact Htk. }
  assert (at_sched c k3) as Ha3 by exact Ha2.
  assert (valid k3 (HP 0)) as Hv3 by (by apply valid_update).
  rewrite bind_assoc. erewrite bind_Ret by (eapply getticks_held; [by eapply at_sched_holds|done]).
  run_upd. eexists _, m. split; [reflexivity|].
  assert (∀ f, update_proc (HP 0) f k3 = update_proc (HP 0) (λ pr, f (pr <|p_state := RUNNING|>))
    (enter LPtable k2)) as Ek3 by (intros f; apply update_proc_compose).
  rewrite Ek3. split_and!; try done.
  - apply handover_update. apply (at_sched_handover c); [done|].
    by rewrite curproc_enter.
  - change (lookup_proc (update_proc (HP 0) (λ pr, pr <|p_state := RUNNING|>
      <|p_last_scheduled := i32 (ticks k3)|>) (enter LPtable k2)) (HP 0) = Some (m
      <|p_state := RUNNING|> <|p_last_scheduled := i32 (ticks k)|>)).
    rewrite lookup_proc_update, Hm2. change (ticks k3) with (ticks k2). by rewrite Ek2.
  - cbn [update_proc]. rsimpl. rewrite length_alter. change (length (heap_arr k2) = NPROC).
    by rewrite Eh2.
Qed.

(** The accounting after a process ran until tick [t]. *)
Definition account (t : Z) (pr : proc) : proc :=
  pr <|p_last_interrupted := t|> <|p_runtime := i32 (p_runtime pr + (t - p_last_scheduled pr))|>.

Lemma stride_back_Ret c s :
  at_sched c s → lock_free s LTicks → valid s (HP 0) →
  ∃ k', stride_back c s = Ret tt k' ∧ idle c k' ∧ ptable k' = ptable s ∧
    heap_arr k' = alter (account (i32 (ticks s))) 0%nat (heap_arr s) ∧ lock_free k' LTicks.
Proof.
  intros Ha Hf Hv. unfold stride_back. rewrite bind_assoc.
  erewrite bind_Ret by (eapply getticks_held; [by eapply at_sched_holds|done]).
  run_upd. run_upd. unfold switchkvm. rewrite update_proc_compose, bind_modify.
  set (k1 := (update_proc (HP 0) _ s) <|cr3 ::= _|>).
  assert (at_sched c k1) as Ha1 by exact Ha. pose proof Ha1 as (_ & _ & _ & d & H & _).
  erewrite bind_Ret by (by eapply set_cproc_Ret).
  destruct (release_idle c (k1 <|cpus ::= alter (λ d, d <|c_proc := None|>) c|>))
    as (k' & E & Hi & Et & Eh & El).
  { by apply (at_sched_alter c k1 (λ d, d <|c_proc := None|>)). }
  exists k'. split_and!; try done.
  - destruct Hf as [nm Hf]. exists nm. by rewrite El.
Qed.

(** What the stride scheduler finds when a process that it dispatched switches
    back: the CPU has the table's lock; the table is any table. *)
Definition stride_rely (c : nat) (s' : kernel) : Prop :=
  at_sched c s' ∧ table_ok s' ∧ lock_free s' LTicks ∧ length (heap_arr s') = NPROC.

Lemma stride_back_ready c s :
  stride_rely c s →
  ∃ k', stride_back c s = Ret tt k' ∧ stride_ready c k' ∧ ptable k' = ptable s ∧
    heap_arr k' = alter (account (i32 (ticks s))) 0%nat (heap_arr s).
Proof.
  intros (Ha & Ht & Hf & Hn). destruct (stride_back_Ret c s) as (k' & E & Hi & Ek & Eh & Hfk); [done..| |].
  { apply lookup_lt_is_Some. rewrite Hn. unfold NPROC. lia. }
  exists k'. split; [done|]. split; [|done]. split; [done|]. split; [done|]. split.
  - unfold table_ok. by rewrite Ek.
  - by rewrite Eh, length_alter.
Qed.

(** The scheduler switches to the process with identifier [pid]. *)
Definition runs_pid (pid : Z) (s : kernel) : Prop :=
  curproc s = Some (HP 0) ∧ ∃ pr, heap_arr s !! 0%nat = Some pr ∧ p_pid pr = pid.

(** Process [m] of table [t] is runnable and comes before every other process
    that is. *)
Definition first_runnable (m : proc) (t : list proc) : Prop :=
  m ∈ t ∧ p_state m = RUNNABLE ∧ ∀ p, p ∈ t → p_state p = RUNNABLE → p_pid p ≠ p_pid m → ¬ lexle p m.

(** From the time process [m] is dispatched on CPU [c] until it calls [yield],
    anything may happen, as long as the table has [m] as it was and first. *)
Definition runs_and_yields (c : nat) (m : proc) (s' : kernel) : Prop :=
  ∃ k cont, running k (HP 0) ∧ cur k = c ∧ lock_free k LPtable ∧ lock_free k LTicks ∧ table_ok k ∧
    length (heap_arr k) = NPROC ∧ first_runnable m (ptable k) ∧ yield k = Suspend s' cont.

Lemma yields_rely c m s' : runs_and_yields c m s' → stride_rely c s' ∧ first_runnable m (ptable s').
Proof.
  intros (k & cont & Hr & Hc & Hf & Hft & Ht & Hn & Hm & E).
  destruct (lookup_proc k (HP 0)) as [pr|] eqn:Ep.
  2: { apply lookup_ge_None in Ep. rewrite Hn in Ep. unfold NPROC in Ep. lia. }
  rewrite (yield_Suspend k (HP 0) pr Hr Hf Ep) in E. injection E as <- _.
  pose proof (handover_enter k (HP 0) Hr Hf) as (Hl & He & d & Hd & Hn1 & _). split; [|exact Hm].
  assert (cur (enter LPtable k) = c) as Hc'.
  { destruct Hr as (d0 & H0 & _). destruct Hf as [nm Hf]. pose proof (on_cpu_acquired LPtable k _ d0 (MkSpinlock false nm None) H0) as H1.
    rewrite <- (enter_acquired LPtable k (cur k) d0 _ H0 Hf) in H1. by rewrite (on_cpu_cur _ _ _ H1). }
  rewrite Hc' in Hl, Hd. split; [|split; [exact Ht|split]].
  - split; [exact Hc'|]. split; [exact Hl|]. split; [exact He|]. by exists d.
  - destruct Hft as [nm Hft]. exists nm. cbn [update_proc]. unfold enter. rsimpl. by rewrite lookup_alter_ne.
  - cbn [update_proc]. rsimpl. by rewrite length_alter.
Qed.

(** In each of the next [n] turns the scheduler switches away, to a process
    [G] allows, and goes on when the process comes back as [R] says. *)
Fixpoint turns_of (G R : kernel → Prop) (n : nat) (o : outcome kernel unit) : Prop :=
  match n with
  | O => o = Loop
  | S n => ∃ s cont, o = Suspend s cont ∧ G s ∧ ∀ s', R s' → turns_of G R n (cont s')
  end.

Lemma stride_turns c n k m :
  stride_ready c k → first_runnable m (ptable k) →
  turns_of (runs_pid (p_pid m)) (runs_and_yields c m) n (forever n (stride_round c) k).
Proof.
  revert k. induction n as [|n IH]; intros k Hr (Hm & Hs & Hl); [done|]. cbn [turns_of forever].
  destruct (stride_round_some c k Hr) as (s & q & E & Hq & Hqs & Hle & Hh & _ & _ & _ & Eh & _).
  { apply list_elem_of_lookup in Hm as [i Hi]. by exists i, m. }
  eexists s, _. split; [by apply bind_Suspend|]. split.
  - split; [by apply handover_curproc|]. eexists. split; [done|]. rsimpl.
    destruct (decide (p_pid q = p_pid m)) as [|Hne]; [done|]. destruct (Hl q Hq Hqs Hne). by apply Hle.
  - intros s' Hy. destruct (yields_rely c m s' Hy) as [Hy1 Hy2].
    destruct (stride_back_ready c s' Hy1) as (k' & E' & Hr' & Et & _).
    rewrite (bind_Ret _ _ _ _ _ E'). apply IH; [done|]. by rewrite Et.
Qed.

Lemma rr_round_wp c k (Q : unit → kernel → Prop) :
  idle c k → table_ok k → (∀ k', idle c k' → table_ok k' → Q tt k') →
  wp False (λ s, table_ok s ∧ ∃ j, dispatched c j s) (rr_rely c) Q (rr_round c) k.
Proof.
  intros Hi Ht HQ. unfold rr_round.
  destruct (rr_round_enter c k (rr_scan c NPROC 0;;; release LPtable) Hi) as [E Ha].
  unfold wp. rewrite E. apply wp_bind, rr_scan_wp; [done|done|done|].
  intros k' Ha' [Hn' Ht']. destruct (release_idle c k' Ha') as (k2 & E2 & Hi2 & Et & _).
  eapply wp_Ret; [exact E2|]. apply HQ; [done|]. split; by rewrite Et.
Qed.

(** Processes that behave within the rely make a run. *)
Lemma wp_drives G R (Q : unit → kernel → Prop) o :
  (∀ s, G s → ∃ p s', curproc s = Some p ∧ R s s') → owp False G R Q o →
  ∃ tr k, drives R o tr k.
Proof.
  intros HG. induction o as [[] s|msg|s cont IH| | |]; cbn; try done.
  - intros _. exists [], s. constructor.
  - intros [Hs Hc]. destruct (HG s Hs) as (p & s' & Hp & HR).
    destruct (IH s' (Hc s' HR)) as (tr & k & Hd). exists (p :: tr), k. by econstructor.
Qed.

(** ** Properties *)

(** C4: A round of the round-robin scheduler is safe.  Whatever the processes
    do, as long as each comes back holding the table's lock, the scheduler
    never panics, spins or faults; each time it switches away it does so to
    one process, marked [RUNNING], whose address space is loaded, with the
    table's lock held and interrupts off; and the round ends with the lock
    free. *)
Theorem rr_round_safe (c : nat) (k : kernel) :
  idle c k → table_ok k →
  wp False (λ s, table_ok s ∧ ∃ j, dispatched c j s) (rr_rely c)
    (λ _ k', idle c k' ∧ table_ok k') (rr_round c) k.
Proof.
  intros Hi Ht. by apply rr_round_wp.
Qed.

(** C2: The round-robin scheduler is fair.  In a round, the processes that run
    do so in the order of the table, each at most once, and every process
    that was runnable when the round started runs. *)
Theorem rr_round_fair (c : nat) (k k' : kernel) (tr : list pptr) :
  idle c k → table_ok k → drives (rr_rely c) (rr_round c k) tr k' →
  ∃ l, tr = PT <$> l ∧ StronglySorted lt l ∧ ∀ j, runnable k j → j ∈ l.
Proof.
  intros Hi Ht Hd. unfold rr_round in Hd.
  destruct (rr_round_enter c k (rr_scan c NPROC 0;;; release LPtable) Hi) as [E Ha].
  rewrite E in Hd. apply drives_bind_inv in Hd as (tr1 & tr2 & k1 & H1 & H2 & ->).
  destruct (rr_scan_drives c NPROC 0 _ tr1 k1 Ha Ht eq_refl H1)
    as (Ha1 & _ & l & -> & Hs & _ & Hl).
  destruct (release_idle c k1 Ha1) as (k2 & E2 & _). rewrite E2 in H2.
  apply drives_Ret_inv in H2 as [-> ->]. exists l. rewrite app_nil_r.
  split_and!; try done. intros j Hj. apply Hl; [lia|]. exact Hj.
Qed.

(** C1: The stride scheduler's choice.  With no runnable process a round does
    nothing but enable interrupts.  Otherwise it switches to a copy of a
    runnable process that comes first in the order (pass, runtime, pid),
    marked [RUNNING] and stamped with the current tick, with its address
    space loaded and the table's lock held. *)
Theorem stride_picks_least (c : nat) (k : kernel) :
  stride_ready c k →
  ((∀ i, ¬ runnable k i) → stride_round c k = Ret tt (k <|eflags_if := true|>)) ∧
  ((∃ i, runnable k i) →
   ∃ s cont m, stride_round c k = Suspend s cont ∧ m ∈ ptable k ∧ p_state m = RUNNABLE ∧
     (∀ p, p ∈ ptable k → p_state p = RUNNABLE → lexle m p) ∧
     handover s (HP 0) ∧ cr3 s = V2P (p_pgdir m) ∧
     heap_arr s !! 0%nat =
       Some (m <|p_state := RUNNING|> <|p_last_scheduled := i32 (ticks k)|>)).
Proof.
  intros H. split; [by apply stride_round_none|]. intros Hr.
  destruct (stride_round_some c k H Hr) as
    (s & m & E & Hm & Hs & Hle & Hh & _ & _ & Hc & Ha & _).
  by exists s, (stride_back c), m.
Qed.

(** C16: Under the stride scheduler a process runs on a copy of its entry in the
    table.  The scheduler does not write to the table: when it switches to the
    copy the table is the one it started with, and when the process switches
    back, with whatever table, the round ends with that table, and the running
    time is added to the copy, which the next round overwrites.  What [yield]
    and [sleep] of the process record goes to the copy as well: the process is
    [RUNNABLE] or [SLEEPING] there, and the table is as before. *)
Theorem stride_runs_copy (c : nat) (k : kernel) :
  (stride_ready c k → (∃ i, runnable k i) →
   ∃ s cont, stride_round c k = Suspend s cont ∧ curproc s = Some (HP 0) ∧ ptable s = ptable k ∧
     ∀ s', stride_rely c s' → ∃ k', cont s' = Ret tt k' ∧ ptable k' = ptable s' ∧
       heap_arr k' = alter (account (i32 (ticks s'))) 0%nat (heap_arr s')) ∧
  (∀ pr, running k (HP 0) → lock_free k LPtable → lookup_proc k (HP 0) = Some pr →
   ∃ s cont, yield k = Suspend s cont ∧ ptable s = ptable k ∧
     lookup_proc s (HP 0) = Some (pr <|p_state := RUNNABLE|> <|p_context := CtxSaved|>)) ∧
  (∀ pr chan lk, holds_only k lk (HP 0) → (lk ≠ LPtable → lock_free k LPtable) →
   lookup_proc k (HP 0) = Some pr →
   ∃ s cont, sleep chan lk k = Suspend s cont ∧ ptable s = ptable k ∧
     lookup_proc s (HP 0) = Some (pr <|p_chan := Some chan|> <|p_state := SLEEPING|> <|p_context := CtxSaved|>)).
Proof.
  split; [|split].
  - intros H Hr. destruct (stride_round_some c k H Hr) as (s & m & E & _ & _ & _ & Hh & _ & Et & _).
    exists s, (stride_back c). split; [done|]. split; [by apply handover_curproc|]. split; [done|]. intros s' Hs'.
    destruct (stride_back_ready c s' Hs') as (k' & E' & _ & Ek & Eh). by exists k'.
  - intros pr Hr Hf Hp. eexists _, _. split; [by eapply yield_Suspend|]. split; [done|].
    rewrite lookup_proc_update. change (lookup_proc (enter LPtable k) (HP 0)) with (lookup_proc k (HP 0)). by rewrite Hp.
  - intros pr chan lk Ho Hf Hp. destruct (sleep_Suspend k (HP 0) pr chan lk Ho Hf Hp) as [_ E].
    eexists _, _. split; [exact E|]. unfold asleep. rewrite lookup_proc_update.
    replace (lookup_proc (sleep_lock lk k) (HP 0)) with (Some pr) by (unfold sleep_lock; by case_bool_decide).
    split; [|done]. unfold sleep_lock. by case_bool_decide.
Qed.

(** C18: Starvation under the stride scheduler.  Let process [m] be runnable and
    come before every other runnable process in the order (pass, runtime,
    pid).  [sched_stride] switches to it in its first round; and when it runs,
    however long, and calls [yield], with its entry in the table still as it
    was and still first, the next round switches to it again, and so on for
    every number of rounds: running does not move a process back. *)
Theorem stride_starves (n : nat) (k : kernel) (m : proc)
    (Hready : stride_ready (cur k) k) (Hoff : eflags_if k = false) (Hfirst : first_runnable m (ptable k)) :
  turns_of (runs_pid (p_pid m)) (runs_and_yields (cur k) m) n (sched_stride n k).
Proof.
  pose proof Hready as ((Hf & d & Hd & Hn) & Htk & Ht & Hh). unfold sched_stride.
  erewrite bind_Ret by (by eapply mycpu_Ret). erewrite bind_Ret by (by eapply set_cproc_Ret).
  apply stride_turns; [|exact Hfirst]. split; [|by split].
  split; [done|]. exists (d <|c_proc := None|>). split; [|done]. by apply (on_cpu_alter k _ d (λ d, d <|c_proc := None|>)).
Qed.

(** *** Concrete states *)

(** Processes 1 and 2 are runnable, in slots 0 and 1. *)
Definition two : kernel :=
  (bss 0x80110000) <|ptable ::= <[0%nat:=demo_proc 1 RUNNABLE]>|>
    <|ptable ::= <[1%nat:=demo_proc 2 RUNNABLE]>|>.

Lemma two_table : ptable two = demo_proc 1 RUNNABLE :: demo_proc 2 RUNNABLE :: replicate 62 zero_proc.
Proof. reflexivity. Qed.

Lemma two_runnable : runnable two 0 ∧ runnable two 1.
Proof. split; [by exists (demo_proc 1 RUNNABLE)|by exists (demo_proc 2 RUNNABLE)]. Qed.

Lemma two_ready : stride_ready 0 two.
Proof.
  split_and!; [|by exists EmptyString| |reflexivity].
  - split; [by exists EmptyString|]. exists (MkCpu 0 0 0 false None). by repeat split.
  - split; [reflexivity|]. rewrite two_table. intros [|[|i]] pr H Hs.
    + by injection H as <-.
    + by injection H as <-.
    + cbn [lookup list_lookup] in H. apply lookup_replicate in H as [-> _]. done.
Qed.

Lemma rr_round_safe_witness :
  wp False (λ s, table_ok s ∧ ∃ j, dispatched 0 j s) (rr_rely 0)
    (λ _ k', idle 0 k' ∧ table_ok k') (rr_round 0) two.
Proof. apply (rr_round_safe 0 two); apply two_ready. Defined.

(** Each process just goes to sleep. *)
Lemma some_run k :
  idle 0 k → table_ok k → ∃ tr k', drives (rr_rely 0) (rr_round 0 k) tr k'.
Proof.
  intros Hi Ht.
  pose proof (rr_round_wp 0 k (λ _ _, True) Hi Ht (λ _ _ _, I)) as Hw. unfold wp in Hw.
  refine (wp_drives _ _ _ _ _ Hw). clear Hi Ht Hw.
  intros s ([Hn Ht] & j & (Hl & He & d & H & Hd & Hp) & Hc & pr & Hj & Hs & _ & Hr).
  exists (PT j), (update_proc (PT j) (λ pr, pr <|p_state := SLEEPING|>) s).
  assert (curproc s = Some (PT j)) as Hcp by (unfold curproc; by rewrite (proj2 H)).
  split; [done|]. rewrite Hc in H, Hl. split_and!.
  - split_and!; try done. by exists d.
  - eapply (table_ok_insert s); [done| |by apply list_alter_insert, Hj]. done.
  - intros i Hi Hne. eapply runnable_insert; [by apply list_alter_insert, Hj| |done]. congruence.
Qed.

Lemma rr_round_fair_witness :
  ∃ tr k' l, drives (rr_rely 0) (rr_round 0 two) tr k' ∧ tr = PT <$> l ∧ 0%nat ∈ l ∧ 1%nat ∈ l.
Proof.
  destruct two_ready as (Hi & _ & Ht & _). destruct (some_run two Hi Ht) as (tr & k' & Hd). exists tr, k'.
  destruct (rr_round_fair 0 two k' tr) as (l & Hl & _ & Hr); [apply two_ready..|exact Hd|].
  exists l. split; [exact Hd|]. split; [exact Hl|]. split; apply Hr; apply two_runnable.
Defined.

Lemma stride_picks_least_witness :
  ∃ s cont m, stride_round 0 two = Suspend s cont ∧ m ∈ ptable two ∧ p_state m = RUNNABLE.
Proof.
  destruct (stride_picks_least 0 two two_ready) as [_ H].
  destruct H as (s & cont & m & H1 & H2 & H3 & _); [exists 0%nat; apply two_runnable|].
  exists s, cont, m. exact (conj H1 (conj H2 H3)).
Defined.

(** Process 1 runs on the copy in slot 0 of the heap. *)
Definition on_copy : kernel :=
  two <|cpus := [MkCpu 0 0 0 false (Some (HP 0))]|> <|heap_arr ::= <[0%nat:=demo_proc 1 RUNNING]>|>.
Definition on_copy_ticks : kernel :=
  on_copy <|cpus := [MkCpu 0 0 1 true (Some (HP 0))]|> <|locks ::= <[LTicks:=MkSpinlock true "time" (Some 0%nat)]>|>.

Lemma on_copy_running : running on_copy (HP 0) ∧ lock_free on_copy LPtable ∧ lock_free on_copy LTicks.
Proof.
  split; [exists (MkCpu 0 0 0 false (Some (HP 0))); by repeat split|]. split; by exists EmptyString.
Qed.

Lemma stride_runs_copy_witness :
  (∃ s cont, stride_round 0 two = Suspend s cont ∧ ptable s = ptable two) ∧
  (∃ s cont, yield on_copy = Suspend s cont ∧ ptable s = ptable two) ∧
  (∃ s cont, sleep ChTicks LTicks on_copy_ticks = Suspend s cont ∧ ptable s = ptable two).
Proof.
  split; [|split].
  - destruct (stride_runs_copy 0 two) as [H _].
    destruct H as (s & cont & H1 & _ & H2 & _); [apply two_ready|exists 0%nat; apply two_runnable|].
    exists s, cont. exact (conj H1 H2).
  - destruct (stride_runs_copy 0 on_copy) as (_ & H & _). destruct on_copy_running as (H1 & H2 & _).
    destruct (H (demo_proc 1 RUNNING) H1 H2 eq_refl) as (s & cont & E & Et & _). exists s, cont. exact (conj E Et).
  - destruct (stride_runs_copy 0 on_copy_ticks) as (_ & _ & H).
    destruct (H (demo_proc 1 RUNNING) ChTicks LTicks) as (s & cont & E & Et & _); [..|exists s, cont; exact (conj E Et)].
    + split; [by exists "time"%string|]. split; [reflexivity|]. exists (MkCpu 0 0 1 true (Some (HP 0))). by repeat split.
    + intros _. by exists EmptyString.
    + reflexivity.
Defined.

Lemma two_first : first_runnable (demo_proc 1 RUNNABLE) (ptable two).
Proof.
  split; [rewrite two_table; by left|]. split; [reflexivity|]. rewrite two_table. intros p Hp Hs Hne.
  apply elem_of_cons in Hp as [->|Hp]; [|apply elem_of_cons in Hp as [->|Hp]].
  - done.
  - intros [Hl|[_ [Hl|[_ Hl]]]]; vm_compute in Hl; congruence || (by destruct Hl).
  - apply elem_of_replicate in Hp as [-> _]. done.
Qed.

(** Process 2 never runs: the scheduler switches to process 1, and when that
    has run and yields, to process 1 again. *)
Lemma stride_starves_witness :
  turns_of (runs_pid 1) (runs_and_yields 0 (demo_proc 1 RUNNABLE)) 1000 (sched_stride 1000 two) ∧
  ∃ s', runs_and_yields 0 (demo_proc 1 RUNNABLE) s'.
Proof.
  split; [exact (stride_starves 1000 two (demo_proc 1 RUNNABLE) two_ready eq_refl two_first)|].
  destruct on_copy_running as (H1 & H2 & H3).
  eexists _, on_copy, _. split; [exact H1|]. split; [reflexivity|]. split; [exact H2|]. split; [exact H3|].
  split; [apply two_ready|]. split; [reflexivity|]. split; [exact two_first|].
  exact (yield_Suspend on_copy (HP 0) (demo_proc 1 RUNNING) H1 H2 eq_refl).
Defined.
