(* ===== verification/Grep.v ===== *)
(** [grep.c]: the matcher for [^], [.], [*] and [$], and the loop that prints
    the lines that match.

    A string is the list of its bytes before the terminating NUL. *)

From Stdlib Require Import ZArith Lia Ascii.
From stdpp Require Import base list strings.
From S2P Require Import Prelude Kbd.
#[local] Open Scope Z_scope.

(** ** The matcher *)

(** [matchhere], with [matchstar] as the inner loop over the text. *)
Fixpoint matchhere (re : list Z) (text : list Z) {struct re} : bool :=
  match re with
  | [] => true
  | c :: re1 =>
      let one :=
        match text with
        | t :: text => if (c =? chr ".") || (c =? t) then matchhere re1 text else false
        | [] => false
        end in
      match re1 with
      | [] => if c =? chr "$" then match text with [] => true | _ => false end else one
      | s :: re2 =>
          if s =? chr "*" then
            (fix matchstar (text : list Z) : bool :=
               if matchhere re2 text then true else
               match text with
               | [] => false
               | t :: text => if (t =? c) || (c =? chr ".") then matchstar text else false
               end) text
          else one
      end
  end.

Definition matchstar (c : Z) (re : list Z) : list Z → bool :=
  fix matchstar (text : list Z) : bool :=
    if matchhere re text then true else
    match text with
    | [] => false
    | t :: text => if (t =? c) || (c =? chr ".") then matchstar text else false
    end.

(** The loop of [match], which must look at the empty string too. *)
Fixpoint match_any (re text : list Z) : bool :=
  if matchhere re text then true else
  match text with [] => false | _ :: text => match_any re text end.

(** [match], whose name is reserved here. *)
Definition match_ (re text : list Z) : bool :=
  match re with
  | c :: re1 => if c =? chr "^" then matchhere re1 text else match_any re text
  | [] => match_any re text
  end.

(** ** The loop over the input *)

(** The first line of the buffer and what follows its newline; the search
    with [strchr] ends at a NUL. *)
Fixpoint split_line (buf : list Z) : option (list Z * list Z) :=
  match buf with
  | [] => None
  | c :: buf =>
      if c =? 0 then None else
      if c =? newline then Some ([], buf) else
      match split_line buf with Some (l, r) => Some (c :: l, r) | None => None end
  end.

(** The inner loop: the bytes written, and what is left of the buffer. *)
Fixpoint grep_lines (fuel : nat) (re buf : list Z) : list Z * list Z :=
  match fuel with
  | O => ([], buf)
  | S fuel =>
      match split_line buf with
      | None => ([], buf)
      | Some (l, r) =>
          let '(out, rest) := grep_lines fuel re r in
          ((if match_ re l then l ++ [newline] else []) ++ out, rest)
      end
  end.

Definition BUFSIZE : Z := 1024.

(** The outer loop.  [rest] are the bytes at the start of the buffer, and
    [reads] what the calls of [read] return, for each any bytes that the
    buffer has room for; a buffer without a newline is dropped. *)
Fixpoint grep_loop (re rest : list Z) (reads : list (list Z)) : list Z :=
  match reads with
  | [] => []
  | chunk :: reads =>
      if bool_decide (chunk = []) then [] else
      let buf := rest ++ chunk in
      let '(out, remains) := grep_lines (S (length buf)) re buf in
      out ++ grep_loop re (if bool_decide (split_line buf = None) then [] else remains) reads
  end.

(** [grep(pattern, fd)] where the calls of [read] return [reads]. *)
Definition grep (re : list Z) (reads : list (list Z)) : list Z := grep_loop re [] reads.

(** ** The language of a pattern *)

(** A pattern is a sequence of items; [One] and [Many] of a dot stand for any
    character.  The flag says that the match must reach the end. *)
Inductive item := One (c : Z) | Many (c : Z).

Fixpoint parse (re : list Z) : list item * bool :=
  match re with
  | [] => ([], false)
  | c :: re1 =>
      let one := let '(its, e) := parse re1 in (One c :: its, e) in
      match re1 with
      | [] => if c =? chr "$" then ([], true) else one
      | s :: re2 => if s =? chr "*" then let '(its, e) := parse re2 in (Many c :: its, e) else one
      end
  end.

(** [c] stands for the character [t]. *)
Definition stands (c t : Z) : Prop := c = chr "." ∨ c = t.

Inductive lang : list item → list Z → Prop :=
| lang_nil : lang [] []
| lang_one c t its w : stands c t → lang its w → lang (One c :: its) (t :: w)
| lang_many c u its w : Forall (stands c) u → lang its w → lang (Many c :: its) (u ++ w).

(** A prefix of the text is in the language; with [e] it is the whole text. *)
Definition prefix_in (p : list item * bool) (text : list Z) : Prop :=
  ∃ w rest, text = w ++ rest ∧ lang (fst p) w ∧ (snd p = true → rest = []).

Lemma stands_spec c t : (c =? chr ".") || (c =? t) = true ↔ stands c t.
Proof. unfold stands. rewrite orb_true_iff, !Z.eqb_eq. done. Qed.

Lemma prefix_one c p text :
  prefix_in (One c :: p.1, p.2) text ↔ ∃ t rest, text = t :: rest ∧ stands c t ∧ prefix_in p rest.
Proof.
  split.
  - intros (w & rest & -> & Hl & He). inversion Hl as [|? t ? w' Hs Hl'|]; subst.
    exists t, (w' ++ rest). split_and!; [done..|]. by exists w', rest.
  - intros (t & text' & -> & Hs & w & rest & -> & Hl & He). exists (t :: w), rest.
    split_and!; [done|by constructor|done].
Qed.

Lemma prefix_many c p text :
  prefix_in (Many c :: p.1, p.2) text ↔
  prefix_in p text ∨ ∃ t rest, text = t :: rest ∧ stands c t ∧ prefix_in (Many c :: p.1, p.2) rest.
Proof.
  split.
  - intros (w & rest & -> & Hl & He). inversion Hl as [| |? u ? w' Hu Hl']; subst.
    destruct Hu as [|t u Ht Hu].
    + left. by exists w', rest.
    + right. exists t, ((u ++ w') ++ rest). split_and!; [done..|].
      exists (u ++ w'), rest. split_and!; [done|by constructor|done].
  - intros [(w & rest & -> & Hl & He)|(t & text' & -> & Ht & w & rest & -> & Hl & He)].
    + exists ([] ++ w), rest. split_and!; [done|by constructor|done].
    + inversion Hl as [| |? u ? w' Hu Hl']; subst. exists ((t :: u) ++ w'), rest.
      split_and!; [done|constructor; [by constructor|done]|done].
Qed.

(** [matchstar] is the closure of the rest of the pattern under leading
    instances of [c]. *)
Lemma matchstar_spec c re p text :
  (∀ text, matchhere re text = true ↔ prefix_in p text) →
  matchstar c re text = true ↔ prefix_in (Many c :: p.1, p.2) text.
Proof.
  intros IH. induction text as [|t text IHt]; rewrite prefix_many; cbn [matchstar].
  - rewrite <- IH. destruct (matchhere re []); [tauto|]. split; [done|].
    intros [|(t & rest & ? & _)]; done.
  - rewrite <- IH. destruct (matchhere re (t :: text)); [tauto|].
    rewrite orb_comm, (Z.eqb_sym t c). destruct ((c =? chr ".") || (c =? t)) eqn:E.
    + fold (matchstar c re text). rewrite IHt. apply stands_spec in E. split.
      * intros H. right. by exists t, text.
      * intros [|(t' & rest & [= <- <-] & _ & H)]; done.
    + split; [done|]. intros [|(t' & rest & [= <- <-] & Hs & _)]; [done|].
      apply stands_spec in Hs. congruence.
Qed.

Lemma one_spec c re p text :
  (∀ text, matchhere re text = true ↔ prefix_in p text) →
  match text with
  | t :: text => if (c =? chr ".") || (c =? t) then matchhere re text else false
  | [] => false
  end = true ↔ prefix_in (One c :: p.1, p.2) text.
Proof.
  intros IH. rewrite prefix_one. destruct text as [|t text].
  - split; [done|]. by intros (t & rest & ? & _).
  - destruct ((c =? chr ".") || (c =? t)) eqn:E.
    + rewrite IH. apply stands_spec in E. split; [intros H; by exists t, text|].
      by intros (t' & rest & [= <- <-] & _ & H).
    + split; [done|]. intros (t' & rest & [= <- <-] & Hs & _). apply stands_spec in Hs. congruence.
Qed.

Lemma matchhere_spec re text : matchhere re text = true ↔ prefix_in (parse re) text.
Proof.
  assert (∀ n re, (length re <= n)%nat → ∀ text, matchhere re text = true ↔ prefix_in (parse re) text) as H;
    [|by apply (H (length re))].
  clear re text. induction n as [|n IH]; intros re Hn text.
  - destruct re; [|cbn in Hn; lia]. split; [intros _; exists [], text; by split_and!; [|constructor|]|done].
  - destruct re as [|c re1]; [split; [intros _; exists [], text; by split_and!; [|constructor|]|done]|].
    cbn [length] in Hn.
    assert (∀ text, matchhere re1 text = true ↔ prefix_in (parse re1) text) as IH1 by (intros; apply IH; lia).
    cbn [matchhere parse].
    assert (parse re1 = ((parse re1).1, (parse re1).2)) as Ep by (by destruct (parse re1)).
    destruct re1 as [|s re2].
    + destruct (c =? chr "$"); [|by apply (one_spec c [] (parse []))].
      split.
      * destruct text; [|done]. intros _. exists [], []. by split_and!; [|constructor|].
      * intros (w & rest & -> & Hl & He). inversion Hl; subst. by rewrite He.
    + destruct (s =? chr "*"); [|rewrite Ep; by apply one_spec].
      assert (∀ text, matchhere re2 text = true ↔ prefix_in (parse re2) text) as IH2
        by (intros; apply IH; cbn in Hn; lia).
      destruct (parse re2) as [its e] eqn:E2. by apply (matchstar_spec c re2 (its, e)).
Qed.

(** The text contains a match; with [a] it starts there. *)
Definition occurs (a : bool) (p : list item * bool) (text : list Z) : Prop :=
  ∃ pre w post, text = pre ++ w ++ post ∧ lang (fst p) w ∧ (a = true → pre = []) ∧ (snd p = true → post = []).

Lemma match_any_spec re text : match_any re text = true ↔ occurs false (parse re) text.
Proof.
  assert (match_any re text = true ↔ ∃ pre rest, text = pre ++ rest ∧ prefix_in (parse re) rest) as ->.
  { induction text as [|t text IH]; cbn [match_any]; destruct (matchhere re _) eqn:E.
    - apply matchhere_spec in E. split; [|done]. intros _. by exists [], [].
    - split; [done|]. intros (pre & rest & Ht & H). symmetry in Ht. apply app_nil in Ht as [_ ->].
      apply matchhere_spec in H. congruence.
    - apply matchhere_spec in E. split; [|done]. intros _. by exists [], (t :: text).
    - rewrite IH. split.
      + intros (pre & rest & -> & H). by exists (t :: pre), rest.
      + intros ([|t' pre] & rest & Ht & H).
        * cbn in Ht. subst. apply matchhere_spec in H. congruence.
        * injection Ht as -> ->. by exists pre, rest. }
  split.
  - intros (pre & rest & -> & w & post & -> & Hl & He). by exists pre, w, post.
  - intros (pre & w & post & -> & Hl & _ & He). exists pre, (w ++ post). split; [done|]. by exists w, post.
Qed.

(** C25: [match] decides the language of its pattern: it succeeds exactly when
    some part of the text spells the pattern, where [.] stands for any
    character, [c*] for any number of instances of [c], a leading [^] fixes
    the start and a final [$] the end.  It terminates for every pattern. *)
Theorem match_correct (re text : list Z) :
  match_ re text = true ↔
  match re with
  | c :: re1 => if c =? chr "^" then occurs true (parse re1) text else occurs false (parse re) text
  | [] => occurs false (parse re) text
  end.
Proof.
  unfold match_. destruct re as [|c re1]; [apply match_any_spec|].
  destruct (c =? chr "^"); [|apply match_any_spec]. rewrite matchhere_spec. split.
  - intros (w & rest & -> & Hl & He). by exists [], w, rest.
  - intros (pre & w & post & -> & Hl & Hp & He). rewrite Hp by done. by exists w, post.
Qed.

(** ** Lines *)

(** The complete lines of a text without NULs, without their newlines, and
    what follows the last newline. *)
Fixpoint text_lines (s : list Z) : list (list Z) * list Z :=
  match s with
  | [] => ([], [])
  | c :: s =>
      let '(ls, r) := text_lines s in
      if c =? newline then ([] :: ls, r)
      else match ls with [] => ([], c :: r) | l :: ls => ((c :: l) :: ls, r) end
  end.

(** The lines that match, as they are printed. *)
Definition selected (re : list Z) (ls : list (list Z)) : list Z :=
  ls ≫= λ l, if match_ re l then l ++ [newline] else [].

Lemma selected_app re ls ls' : selected re (ls ++ ls') = selected re ls ++ selected re ls'.
Proof. apply bind_app. Qed.

Lemma text_lines_split s :
  0 ∉ s →
  text_lines s = match split_line s with Some (l, r) => (l :: (text_lines r).1, (text_lines r).2) | None => ([], s) end.
Proof.
  intros Hz. induction s as [|c s IH]; [done|]. cbn [text_lines split_line].
  apply not_elem_of_cons in Hz as [Hc Hz]. rewrite IH by done. destruct (Z.eqb_spec c 0); [congruence|].
  destruct (c =? newline) eqn:E.
  - rewrite <- IH by done. by destruct (text_lines s).
  - by destruct (split_line s) as [[l r]|].
Qed.

Lemma split_line_Some s l r : split_line s = Some (l, r) → s = l ++ newline :: r.
Proof.
  revert l. induction s as [|c s IH]; intros l H; cbn in H; [done|].
  destruct (c =? 0); [done|]. destruct (Z.eqb_spec c newline) as [->|]; [by injection H as <- <-|].
  destruct (split_line s) as [[l' r']|]; [|done]. injection H as <- <-. cbn. f_equal. by apply IH.
Qed.

Lemma grep_lines_spec fuel re s :
  0 ∉ s → (length s < fuel)%nat → grep_lines fuel re s = (selected re (text_lines s).1, (text_lines s).2).
Proof.
  revert s. induction fuel as [|fuel IH]; intros s Hz Hf; [lia|]. cbn [grep_lines].
  rewrite text_lines_split by done. destruct (split_line s) as [[l r]|] eqn:E; [|done].
  apply split_line_Some in E as ->. rewrite IH.
  - done.
  - intros H. apply Hz, elem_of_app. right. by constructor.
  - rewrite length_app in Hf. cbn in Hf. lia.
Qed.

Lemma text_lines_app s t :
  text_lines (s ++ t) =
  ((text_lines s).1 ++ (text_lines ((text_lines s).2 ++ t)).1, (text_lines ((text_lines s).2 ++ t)).2).
Proof.
  induction s as [|c s IH]; cbn [app text_lines]; [apply surjective_pairing|]. rewrite IH.
  destruct (text_lines s) as [ls r] eqn:Es. cbn [fst snd].
  destruct (c =? newline) eqn:E; [done|]. destruct ls as [|l ls]; [|done]. cbn [app fst snd text_lines].
  rewrite E. by destruct (text_lines (r ++ t)) as [[|l' ls'] r'].
Qed.

Lemma text_lines_rest s : (text_lines (text_lines s).2).1 = [].
Proof.
  pose proof (text_lines_app s []) as H. rewrite !app_nil_r in H.
  destruct (text_lines s) as [ls r]. cbn [fst snd] in *. apply (f_equal fst) in H. cbn in H.
  rewrite <- (app_nil_r ls) in H at 1. by apply (inj (app ls)) in H.
Qed.

Lemma text_lines_sub s x : x ∈ (text_lines s).2 → x ∈ s.
Proof.
  induction s as [|c s IH]; [done|]. cbn [text_lines]. destruct (text_lines s) as [ls r]. cbn [snd] in *.
  destruct (c =? newline); [intros; right; by apply IH|].
  destruct ls; cbn [snd]; [|intros; right; by apply IH].
  intros [->|]%elem_of_cons; [left|right; by apply IH].
Qed.

(** Every read completes a line, and the chunks are those of the file. *)
Fixpoint line_reads (rest : list Z) (reads : list (list Z)) : Prop :=
  match reads with
  | [] => True
  | chunk :: reads =>
      (text_lines (rest ++ chunk)).1 ≠ [] ∧ line_reads (text_lines (rest ++ chunk)).2 reads
  end.

Lemma grep_loop_spec re rest reads :
  (text_lines rest).1 = [] → 0 ∉ rest ++ concat reads → line_reads rest reads →
  grep_loop re rest reads = selected re (text_lines (rest ++ concat reads)).1.
Proof.
  revert rest. induction reads as [|chunk reads IH]; intros rest Hr Hz Hl; cbn [grep_loop concat].
  - rewrite app_nil_r, Hr. done.
  - destruct Hl as [Hn Hl]. cbn [concat] in Hz. rewrite app_assoc in Hz.
    assert (0 ∉ rest ++ chunk) as Hz1 by (intros H; apply Hz, elem_of_app; by left).
    rewrite bool_decide_false by (intros ->; apply Hn; by rewrite app_nil_r).
    rewrite grep_lines_spec by (done || lia). cbn [fst snd].
    pose proof (text_lines_split (rest ++ chunk) Hz1) as Hsp.
    rewrite bool_decide_false by (intros E; rewrite E in Hsp; apply Hn; by rewrite Hsp).
    rewrite app_assoc, (text_lines_app (rest ++ chunk)). cbn [fst]. rewrite selected_app. f_equal.
    apply IH; [|intros H; apply Hz|done].
    + apply text_lines_rest.
    + apply elem_of_app in H as [H|H]; apply elem_of_app; [left; by apply text_lines_sub|by right].
Qed.

(** C26: [grep] prints the lines of its input that match, in order, when every
    [read] completes at least one line and the input has no NUL; the bytes
    after the last newline are not looked at. *)
Theorem grep_correct (re : list Z) (reads : list (list Z)) :
  0 ∉ concat reads → line_reads [] reads →
  grep re reads = selected re (text_lines (concat reads)).1.
Proof. intros Hz Hl. by apply grep_loop_spec. Qed.

(** [b*] at the start of a line, over two reads that split a line. *)
Lemma grep_correct_witness :
  grep (chars "^bb*a") [chars "abba" ++ [newline] ++ chars "bba"; chars "b" ++ [newline]] =
    chars "bbab" ++ [newline].
Proof.
  rewrite (grep_correct (chars "^bb*a") [chars "abba" ++ [newline] ++ chars "bba"; chars "b" ++ [newline]]).
  - reflexivity.
  - intros H. repeat (apply elem_of_cons in H as [H|H]; [done|]). by apply elem_of_nil in H.
  - by repeat split.
Defined.

(** A line that arrives in two reads, neither of which has another newline, is
    lost: [grep] drops a buffer without a newline even when it has room. *)
Lemma grep_drops_partial_line :
  grep (chars "abc") [chars "ab"; chars "c" ++ [newline]] = [] ∧
  selected (chars "abc") (text_lines (chars "abc" ++ [newline])).1 = chars "abc" ++ [newline].
Proof. by vm_compute. Qed.
