(* ===== verification/Ulib.v ===== *)
(** The library of user programs: the string functions of [ulib.c] on the
    memory of a process, and user programs as sequences of system calls.

    A program is a tree: a system call of [user.h], and what follows for each
    reply of the kernel.  Data that a call copies out of or into the memory of
    the process is part of the call or of the reply. *)

From stdpp Require Import base gmap list strings.
From Stdlib Require Import ZArith Lia.
From S2P Require Import Prelude Effects CString.
#[local] Open Scope Z_scope.

(** ** Strings *)

Fixpoint strcpy (fuel : nat) (m : gmap Z Z) (s t : Z) : option (gmap Z Z) :=
  match fuel with
  | O => None
  | S fuel =>
      let c := rd m t in
      let m := wr m s c in
      if c =? 0 then Some m else strcpy fuel m (s + 1) (t + 1)
  end.

Fixpoint strcmp (fuel : nat) (m : gmap Z Z) (p q : Z) : option Z :=
  match fuel with
  | O => None
  | S fuel =>
      if negb (rd m p =? 0) && (rd m p =? rd m q) then strcmp fuel m (p + 1) (q + 1)
      else Some (rd m p - rd m q)
  end.

Fixpoint ustrlen (fuel : nat) (m : gmap Z Z) (s n : Z) : option Z :=
  match fuel with
  | O => None
  | S fuel => if rd m (s + n) =? 0 then Some n else ustrlen fuel m s (i32 (n + 1))
  end.

Fixpoint strchr (fuel : nat) (m : gmap Z Z) (s c : Z) : option Z :=
  match fuel with
  | O => None
  | S fuel =>
      if rd m s =? 0 then Some 0
      else if rd m s =? u8 c then Some s
      else strchr fuel m (s + 1) c
  end.

Fixpoint atoi_loop (fuel : nat) (m : gmap Z Z) (s n : Z) : option Z :=
  match fuel with
  | O => None
  | S fuel =>
      if (48 <=? rd m s) && (rd m s <=? 57) then atoi_loop fuel m (s + 1) (i32 (n * 10 + rd m s - 48))
      else Some n
  end.

Definition atoi (fuel : nat) (m : gmap Z Z) (s : Z) : option Z := atoi_loop fuel m s 0.

Definition umemset (m : gmap Z Z) (dst c n : Z) : gmap Z Z := stosb m dst c n.

(** [memmove] of user programs: always upwards. *)
Definition umemmove (m : gmap Z Z) (dst src n : Z) : gmap Z Z := copy_up m dst src (Z.to_nat n).

(** ** Programs *)

Record stat_t := MkStat { st_type : Z; st_dev : Z; st_ino : Z; st_nlink : Z; st_size : Z }.

(** The system calls of [user.h]; [exit] is the end of a program. *)
Inductive sys :=
| SysFork | SysWait | SysPipe | SysWrite (fd : Z) (bs : list Z) | SysRead (fd n : Z) | SysClose (fd : Z)
| SysKill (pid : Z) | SysExec (path : list Z) (argv : list (list Z)) | SysOpen (path : list Z) (mode : Z)
| SysMknod (path : list Z) (major minor : Z) | SysUnlink (path : list Z) | SysFstat (fd : Z)
| SysLink (old new : list Z) | SysMkdir (path : list Z) | SysChdir (path : list Z) | SysDup (fd : Z)
| SysGetpid | SysSbrk (n : Z) | SysSleep (n : Z) | SysUptime.

(** A reply: the result, with the bytes that [read] or the record that [fstat]
    has stored. *)
Inductive reply := Num (n : Z) | Data (bs : list Z) | Stat (st : stat_t).

Definition num (r : reply) : Z := match r with Num n => n | Data bs => Z.of_nat (length bs) | Stat _ => 0 end.
Definition bytes_of (r : reply) : list Z := match r with Data bs => bs | _ => [] end.

(** A user program. *)
Notation uprog := (prog sys reply).

(** [gets(buf, max)]: the characters read.  At most [max - 1] turns. *)
Fixpoint gets_loop (n : nat) : uprog (list Z) :=
  match n with
  | O => PRet []
  | S n =>
      let* r := pcall (SysRead 0 1) in
      match bytes_of r with
      | c :: _ =>
          if (c =? 10) || (c =? 13) then PRet [c]
          else let* l := gets_loop n in PRet (c :: l)
      | [] => PRet []
      end
  end.

Definition ugets (max : Z) : uprog (list Z) := gets_loop (Z.to_nat (max - 1)).

(** [stat(n, st)]: the result, and the record if there is one. *)
Definition stat (n : list Z) : uprog (Z * option stat_t) :=
  let* fd := pcall (SysOpen n 0) in
  if num fd <? 0 then PRet (-1, None) else
  let* r := pcall (SysFstat (num fd)) in
  let* _ := pcall (SysClose (num fd)) in
  PRet (num r, match r with Stat st => Some st | _ => None end).

(** ** Specification *)

(** The string at [a]. *)
Fixpoint is_str (m : gmap Z Z) (a : Z) (s : list Z) : Prop :=
  match s with
  | [] => rd m a = 0
  | c :: s => rd m a = c ∧ 0 < c < 256 ∧ is_str m (a + 1) s
  end.

(** The difference of the first characters in which two strings differ. *)
Fixpoint str_diff (s t : list Z) : Z :=
  match s, t with
  | c :: s, d :: t => if c =? d then str_diff s t else c - d
  | c :: _, [] => c
  | [], d :: _ => - d
  | [], [] => 0
  end.

(** ** Lemmas *)

Lemma is_str_rd m a s i : is_str m a s → (i < length s)%nat → rd m (a + Z.of_nat i) ≠ 0.
Proof.
  revert a i. induction s as [|c s IH]; intros a i Hs Hi; cbn in *; [lia|]. destruct Hs as (H1 & H2 & Hs).
  destruct i as [|i]; [replace (a + Z.of_nat 0) with a by lia; lia|].
  replace (a + Z.of_nat (S i)) with (a + 1 + Z.of_nat i) by lia. apply IH; [done|lia].
Qed.

Lemma is_str_ext m m' a s :
  (∀ x, a <= x <= a + Z.of_nat (length s) → rd m' x = rd m x) → is_str m a s → is_str m' a s.
Proof.
  revert a. induction s as [|c s IH]; intros a E; cbn; [intros <-; apply E; lia|].
  intros (H1 & H2 & H3). rewrite E by lia. split; [done|]. split; [done|]. apply IH; [|done].
  intros x Hx. apply E. cbn [length]. lia.
Qed.

(** ** Properties *)

Lemma strcpy_ok fuel m s t str :
  is_str m t str → (length str < fuel)%nat →
  s <= t ∨ t + Z.of_nat (length str) < s →
  ∃ m', strcpy fuel m s t = Some m' ∧ is_str m' s str ∧ same_outside m m' s (Z.of_nat (length str) + 1).
Proof.
  revert fuel m s t. induction str as [|c str IH]; intros fuel m s t Hs Hf Hd; (destruct fuel as [|fuel]; [cbn in Hf; lia|]);
    cbn [strcpy is_str length] in *.
  - rewrite Hs. cbn. eexists. split; [done|]. split; [by rewrite rd_wr, decide_True|].
    intros b Hb. by rewrite rd_wr, decide_False by lia.
  - destruct Hs as (H1 & H2 & Hs). rewrite H1. replace (c =? 0) with false by lia.
    destruct (IH fuel (wr m s c) (s + 1) (t + 1)) as (m' & E & Hm' & Hout); [|lia|lia|].
    { eapply is_str_ext; [|done]. intros x Hx. by rewrite rd_wr, decide_False by lia. }
    exists m'. split; [done|]. split; [split; [|split; [done|done]]|].
    + rewrite Hout, rd_wr, decide_True by lia. apply u8_small. lia.
    + intros b Hb. rewrite Hout, rd_wr, decide_False by lia. done.
Qed.

(** [strcpy] copies a string with its NUL and nothing else changes, if the
    target does not start inside the string. *)
Theorem strcpy_correct (fuel : nat) (m : gmap Z Z) (s t : Z) (str : list Z)
    (Hstr : is_str m t str) (Hfuel : (length str < fuel)%nat)
    (Hapart : s <= t ∨ t + Z.of_nat (length str) < s) :
  ∃ m', strcpy fuel m s t = Some m' ∧ is_str m' s str ∧ same_outside m m' s (Z.of_nat (length str) + 1).
Proof. by apply strcpy_ok. Qed.

(** [strcmp] returns the difference of the first characters in which the
    strings differ; in particular it is 0 exactly for equal strings. *)
Theorem strcmp_correct (fuel : nat) (m : gmap Z Z) (p q : Z) (s t : list Z)
    (Hs : is_str m p s) (Ht : is_str m q t) (Hfuel : (length s < fuel)%nat) :
  strcmp fuel m p q = Some (str_diff s t) ∧ (str_diff s t = 0 ↔ s = t).
Proof.
  revert fuel p q t Hs Ht Hfuel. induction s as [|c s IH]; intros fuel p q t Hs Ht Hf;
    (destruct fuel as [|fuel]; [cbn in Hf; lia|]); cbn [strcmp is_str length] in *.
  - rewrite Hs. cbn [Z.eqb negb andb]. destruct t as [|d t]; cbn [is_str str_diff] in *; [by rewrite Ht|].
    destruct Ht as (H1 & H2 & _). rewrite H1. split; [f_equal; lia|]. split; [lia|done].
  - destruct Hs as (H1 & H2 & Hs). rewrite H1. replace (c =? 0) with false by lia. cbn [negb andb].
    destruct t as [|d t]; cbn [is_str str_diff] in *.
    + rewrite Ht. replace (c =? 0) with false by lia. split; [f_equal; lia|]. split; [lia|done].
    + destruct Ht as (H3 & H4 & Ht). rewrite H3. destruct (Z.eqb_spec c d) as [->|Hne].
      * destruct (IH fuel (p + 1) (q + 1) t) as [-> E]; [done|done|lia|]. split; [done|]. rewrite E. naive_solver.
      * split; [done|]. split; [lia|]. intros [= ? ?]. done.
Qed.

(** [strchr] returns the address of the first occurrence of the character,
    or 0. *)
Theorem strchr_correct (fuel : nat) (m : gmap Z Z) (s c : Z) (str : list Z)
    (Hs : is_str m s str) (Hfuel : (length str < fuel)%nat) (Hc : 0 <= c < 256) :
  strchr fuel m s c = Some (match list_find (c =.) str with Some (i, _) => s + Z.of_nat i | None => 0 end).
Proof.
  revert fuel s Hs Hfuel. induction str as [|d str IH]; intros fuel s Hs Hf;
    (destruct fuel as [|fuel]; [cbn in Hf; lia|]); cbn [strchr is_str length list_find] in *; [by rewrite Hs|].
  destruct Hs as (H1 & H2 & Hs). rewrite H1, u8_small by done. replace (d =? 0) with false by lia.
  destruct (Z.eqb_spec d c) as [->|Hne].
  - rewrite decide_True by done. f_equal. lia.
  - rewrite decide_False by done. rewrite (IH fuel (s + 1)) by (done || lia).
    destruct (list_find (c =.) str) as [[i x]|]; cbn; [f_equal; lia|done].
Qed.

(** The value of a string of digits. *)
Definition digits_value (ds : list Z) : Z := foldl (λ n d, 10 * n + (d - 48)) 0 ds.

Lemma digits_value_mono ds n : Forall (λ d, 48 <= d <= 57) ds → 0 <= n → n <= foldl (λ n d, 10 * n + (d - 48)) n ds.
Proof.
  revert n. induction ds as [|d ds IH]; intros n Hd Hn; cbn; [lia|]. apply Forall_cons in Hd as [Hd Hds].
  specialize (IH (10 * n + (d - 48)) Hds). lia.
Qed.

Lemma atoi_loop_ok fuel m s ds n rest :
  is_str m s (ds ++ rest) → Forall (λ d, 48 <= d <= 57) ds → (∀ d, head rest = Some d → ¬ 48 <= d <= 57) →
  0 <= n → foldl (λ n d, 10 * n + (d - 48)) n ds < 2 ^ 31 → (length ds < fuel)%nat →
  atoi_loop fuel m s n = Some (foldl (λ n d, 10 * n + (d - 48)) n ds).
Proof.
  revert fuel s n. induction ds as [|d ds IH]; intros fuel s n Hs Hd Hr Hn Hv Hf;
    (destruct fuel as [|fuel]; [cbn in Hf; lia|]); cbn [atoi_loop app foldl length is_str] in *.
  - assert ((48 <=? rd m s) && (rd m s <=? 57) = false) as ->; [|done].
    destruct rest as [|d rest]; cbn [is_str] in Hs; [by rewrite Hs|]. destruct Hs as (-> & _). specialize (Hr d eq_refl). lia.
  - destruct Hs as (-> & H2 & Hs). apply Forall_cons in Hd as [Hd Hds]. replace ((48 <=? d) && (d <=? 57)) with true by lia.
    pose proof (digits_value_mono ds (10 * n + (d - 48)) Hds ltac:(lia)).
    assert (i32 (n * 10 + d - 48) = 10 * n + (d - 48)) as ->
      by (replace (n * 10 + d - 48) with (10 * n + (d - 48)) by lia; apply wraps_small; lia).
    apply IH; try done; lia.
Qed.

(** [atoi] returns the value of the digits at the start of the string, if
    it fits an [int]. *)
Theorem atoi_correct (fuel : nat) (m : gmap Z Z) (s : Z) (ds rest : list Z)
    (Hs : is_str m s (ds ++ rest)) (Hd : Forall (λ d, 48 <= d <= 57) ds)
    (Hr : ∀ d, head rest = Some d → ¬ 48 <= d <= 57) (Hv : digits_value ds < 2 ^ 31) (Hf : (length ds < fuel)%nat) :
  atoi fuel m s = Some (digits_value ds).
Proof. by eapply atoi_loop_ok. Qed.

(** Copying upwards into a later target repeats the bytes between the two. *)
Lemma copy_up_later n m d s b :
  bytes_ok m → s < d →
  rd (copy_up m d s n) b =
    if decide (d <= b < d + Z.of_nat n) then rd m (s + (b - d) mod (d - s)) else rd m b.
Proof.
  revert m d s. induction n as [|n IH]; intros m d s Hm Hd; cbn [copy_up]; [by rewrite decide_False by lia|].
  rewrite IH by (lia || by apply wr_bytes_ok). replace (d + 1 - (s + 1)) with (d - s) by lia.
  assert (u8 (rd m s) = rd m s) as E8 by (apply u8_small, Hm).
  destruct (decide (d + 1 <= b < d + 1 + Z.of_nat n)) as [Hb|Hb].
  - rewrite decide_True by lia. rewrite rd_wr, E8. replace (b - d) with (b - (d + 1) + 1) by lia.
    pose proof (Z.mod_pos_bound (b - (d + 1)) (d - s) ltac:(lia)). case_decide as Hc.
    + f_equal. rewrite <- Zplus_mod_idemp_l. replace ((b - (d + 1)) mod (d - s) + 1) with (d - s) by lia.
      rewrite Z.mod_same by lia. lia.
    + f_equal. rewrite <- (Zplus_mod_idemp_l (b - (d + 1))), (Z.mod_small (_ + 1)) by lia. lia.
  - rewrite rd_wr, E8. case_decide as Hc.
    + subst. rewrite decide_True by lia. f_equal. rewrite Z.sub_diag, Z.mod_0_l by lia. lia.
    + by rewrite decide_False by lia.
Qed.

(** [memmove] of user programs copies [n] bytes if the target does not
    start inside the source; otherwise it repeats the bytes before the target,
    which is not what the kernel's [memmove] does. *)
Theorem umemmove_behaves (m : gmap Z Z) (dst src n b : Z) (Hm : bytes_ok m) (Hn : 0 <= n) :
  rd (umemmove m dst src n) b =
    if decide (dst <= b < dst + n) then
      if decide (src < dst < src + n) then rd m (src + (b - dst) mod (dst - src)) else rd m (src + (b - dst))
    else rd m b.
Proof.
  unfold umemmove. destruct (decide (src < dst)) as [Hl|Hl].
  - rewrite copy_up_later, Z2Nat.id by done. repeat case_decide; try done; try lia. f_equal. rewrite Z.mod_small by lia. done.
  - rewrite copy_up_spec, Z2Nat.id by (done || lia). repeat case_decide; try done; lia.
Qed.

(** ** Witnesses *)

(** The strings "ab" at 100 and "abc" at 200. *)
Definition two_strings : gmap Z Z := wr (wr (wr (wr (wr ∅ 100 97) 101 98) 200 97) 201 98) 202 99.

Lemma strcpy_correct_witness :
  ∃ m', strcpy 3 two_strings 300 100 = Some m' ∧ is_str m' 300 [97; 98] ∧ same_outside two_strings m' 300 3.
Proof.
  apply (strcpy_correct 3 two_strings 300 100 [97; 98]); [by vm_compute|cbn; lia|right; cbn; lia].
Defined.

Lemma strcmp_correct_witness : strcmp 3 two_strings 100 200 = Some (-99) ∧ (-99 = 0 ↔ [97; 98] = [97; 98; 99]).
Proof.
  apply (strcmp_correct 3 two_strings 100 200 [97; 98] [97; 98; 99]); [by vm_compute|by vm_compute|cbn; lia].
Defined.

Lemma strchr_correct_witness : strchr 4 two_strings 200 98 = Some 201.
Proof. apply (strchr_correct 4 two_strings 200 98 [97; 98; 99]); [by vm_compute|cbn; lia|lia]. Defined.

Lemma atoi_correct_witness :
  atoi 5 (wr (wr (wr ∅ 10 52) 11 50) 12 32) 10 = Some 42.
Proof.
  apply (atoi_correct 5 _ 10 [52; 50] [32]); [by vm_compute|repeat constructor; lia| |reflexivity|cbn; lia].
  intros d [= <-]. lia.
Defined.

Lemma umemmove_behaves_witness : rd (umemmove two_strings 101 100 3) 103 = 97.
Proof.
  etransitivity; [apply (umemmove_behaves two_strings 101 100 3 103)|reflexivity]; [|lia].
  unfold two_strings. repeat apply wr_bytes_ok. intros a. unfold rd. rewrite lookup_empty. cbn. lia.
Defined.
