(* ===== verification/Printf.v ===== *)
(** [printf] of user programs ([printf.c]): each character is a call of
    [write]. *)

From stdpp Require Import base gmap list strings.
From Stdlib Require Import ZArith Lia Ascii.
From S2P Require Import Prelude Effects CString Kbd Ulib.
#[local] Open Scope Z_scope.

(** ** The code *)

Definition putc (fd c : Z) : uprog unit := pcall (SysWrite fd [u8 c]);;* PRet tt.

(** The loop over the characters of a string. *)
Fixpoint puts (fd : Z) (s : list Z) : uprog unit :=
  match s with
  | [] => PRet tt
  | c :: s => putc fd c;;* puts fd s
  end.

Definition udigits : list Z := chars "0123456789ABCDEF".

(** The digits in [buf], least first. *)
Fixpoint uint_digits (fuel : nat) (x base : Z) : list Z :=
  match fuel with
  | O => []
  | S fuel =>
      nth (Z.to_nat (x mod base)) udigits 0 ::
      (if x / base =? 0 then [] else uint_digits fuel (x / base) base)
  end.

(** The characters that are printed; 32 turns are enough for a [uint]. *)
Definition uint_chars (xx base : Z) (sgn : bool) : list Z :=
  let neg := sgn && (xx <? 0) in
  let x := if neg then u32 (- xx) else u32 xx in
  reverse (uint_digits 32 x base ++ (if neg then [chr "-"] else [])).

Definition uprintint (fd xx base : Z) (sgn : bool) : uprog unit := puts fd (uint_chars xx base sgn).

(** An argument: a word, or a pointer to a string. *)
Inductive uarg := UWord (v : Z) | UStr (s : list Z).

(** The loop over the format; [pct] says that [state] is ['%']. *)
Fixpoint printf_loop (fd : Z) (fmt : list Z) (pct : bool) (ap : list uarg) : uprog unit :=
  match fmt with
  | [] => PRet tt
  | c :: fmt =>
      let c := u8 c in
      if negb pct then
        if c =? chr "%" then printf_loop fd fmt true ap
        else putc fd c;;* printf_loop fd fmt false ap
      else if c =? chr "d" then
        match ap with
        | UWord v :: ap => uprintint fd (i32 v) 10 true;;* printf_loop fd fmt false ap
        | _ => PStuck
        end
      else if (c =? chr "x") || (c =? chr "p") then
        match ap with
        | UWord v :: ap => uprintint fd (i32 v) 16 false;;* printf_loop fd fmt false ap
        | _ => PStuck
        end
      else if c =? chr "s" then
        match ap with
        | UStr s :: ap => puts fd s;;* printf_loop fd fmt false ap
        | UWord 0 :: ap => puts fd (chars "(null)");;* printf_loop fd fmt false ap
        | _ => PStuck
        end
      else if c =? chr "c" then
        match ap with
        | UWord v :: ap => putc fd v;;* printf_loop fd fmt false ap
        | _ => PStuck
        end
      else if c =? chr "%" then putc fd c;;* printf_loop fd fmt false ap
      else putc fd (chr "%");;* putc fd c;;* printf_loop fd fmt false ap
  end.

Definition printf (fd : Z) (fmt : list Z) (ap : list uarg) : uprog unit := printf_loop fd fmt false ap.

(** ** Specification *)

(** A directive: the character after the percent sign, the arguments, what is
    printed, and the arguments left. *)
Definition directive (c : Z) (ap : list uarg) : option (list Z * list uarg) :=
  match ap with
  | UWord v :: ap' =>
      if c =? chr "d" then Some (uint_chars (i32 v) 10 true, ap')
      else if (c =? chr "x") || (c =? chr "p") then Some (uint_chars (i32 v) 16 false, ap')
      else if c =? chr "c" then Some ([v], ap')
      else if c =? chr "s" then if v =? 0 then Some (chars "(null)", ap') else None
      else Some (if c =? chr "%" then [c] else [chr "%"; c], ap)
  | UStr s :: ap' =>
      if c =? chr "s" then Some (s, ap')
      else if (c =? chr "d") || (c =? chr "x") || (c =? chr "p") || (c =? chr "c") then None
      else Some (if c =? chr "%" then [c] else [chr "%"; c], ap)
  | [] =>
      if (c =? chr "d") || (c =? chr "x") || (c =? chr "p") || (c =? chr "c") || (c =? chr "s") then None
      else Some (if c =? chr "%" then [c] else [chr "%"; c], [])
  end.

(** The text of a format. *)
Fixpoint text (fmt : list Z) (ap : list uarg) : option (list Z) :=
  match fmt with
  | [] => Some []
  | c :: fmt =>
      if c =? chr "%" then
        match fmt with
        | [] => Some []
        | d :: fmt =>
            match directive d ap with
            | Some (cs, ap) => app cs <$> text fmt ap
            | None => None
            end
        end
      else cons c <$> text fmt ap
  end.

(** The run that writes the characters [cs], with the replies [rs]. *)
Definition writes (fd : Z) (cs : list Z) (rs : list reply) : list (sys * reply) :=
  zip (map (λ c, SysWrite fd [u8 c]) cs) rs.

(** ** Lemmas *)

Lemma writes_app fd cs cs' rs rs' :
  length rs = length cs → writes fd (cs ++ cs') (rs ++ rs') = writes fd cs rs ++ writes fd cs' rs'.
Proof. intros H. unfold writes. rewrite map_app. apply zip_with_app. by rewrite length_map. Qed.

Lemma putc_does fd c r : does (putc fd c) [(SysWrite fd [u8 c], r)] (Some tt).
Proof. repeat constructor. Qed.

Lemma puts_does fd cs rs : length rs = length cs → does (puts fd cs) (writes fd cs rs) (Some tt).
Proof.
  revert rs. induction cs as [|c cs IH]; intros [|r rs] Hl; try done; [constructor|]. cbn [puts].
  apply (does_bind _ _ [(SysWrite fd [u8 c], r)] tt); [apply putc_does|]. apply IH. by injection Hl.
Qed.

(** Writing some characters first. *)
Lemma does_writes {A} fd cs cs' rs (p : uprog unit) (q : uprog A) o :
  length rs = length (cs ++ cs') →
  (∀ rs, length rs = length cs → does p (writes fd cs rs) (Some tt)) →
  (∀ rs, length rs = length cs' → does q (writes fd cs' rs) o) →
  does (p;;* q) (writes fd (cs ++ cs') rs) o.
Proof.
  intros Hl Hp Hq. rewrite length_app in Hl. rewrite <- (take_drop (length cs) rs), writes_app by (rewrite length_take; lia).
  eapply does_bind; [apply Hp; rewrite length_take; lia|]. apply Hq. rewrite length_drop. lia.
Qed.

Lemma directive_does fd d fmt ap cs ap' :
  directive d ap = Some (cs, ap') → 0 <= d < 256 →
  ∃ p, printf_loop fd (d :: fmt) true ap = (p;;* printf_loop fd fmt false ap') ∧
    ∀ rs, length rs = length cs → does p (writes fd cs rs) (Some tt).
Proof.
  intros Hd Hr. cbn [printf_loop negb]. rewrite u8_small by done.
  assert (∀ q, (cs, ap') = (if d =? chr "%" then [d] else [chr "%"; d], q) →
    ∃ p, (if d =? chr "%" then putc fd d;;* printf_loop fd fmt false q
          else putc fd (chr "%");;* putc fd d;;* printf_loop fd fmt false q) = (p;;* printf_loop fd fmt false ap') ∧
      ∀ rs, length rs = length cs → does p (writes fd cs rs) (Some tt)) as Hother.
  { intros q [= -> <-]. destruct (d =? chr "%").
    - exists (puts fd [d]). split; [reflexivity|]. intros. by apply puts_does.
    - exists (puts fd [chr "%"; d]). split; [reflexivity|]. intros. by apply puts_does. }
  unfold directive in Hd. destruct ap as [|[v|s] ap].
  - destruct (d =? chr "d"), (d =? chr "x"), (d =? chr "p"), (d =? chr "c"), (d =? chr "s"); try discriminate Hd.
    apply Hother. by injection Hd as <- <-.
  - destruct (d =? chr "d"). { injection Hd as <- <-. eexists. split; [reflexivity|]. apply puts_does. }
    destruct ((d =? chr "x") || (d =? chr "p")). { injection Hd as <- <-. eexists. split; [reflexivity|]. apply puts_does. }
    destruct (Z.eqb_spec d (chr "c")) as [->|_].
    { injection Hd as <- <-. exists (puts fd [v]). split; [reflexivity|]. apply puts_does. }
    destruct (d =? chr "s"). { destruct v; [|discriminate Hd..]. injection Hd as <- <-. eexists. split; [reflexivity|]. apply puts_does. }
    apply Hother. by injection Hd as <- <-.
  - destruct (Z.eqb_spec d (chr "s")) as [->|_]. { injection Hd as <- <-. eexists. split; [reflexivity|]. apply puts_does. }
    destruct (d =? chr "d"), (d =? chr "x"), (d =? chr "p"), (d =? chr "c"); try discriminate Hd.
    apply Hother. by injection Hd as <- <-.
Qed.

Lemma printf_loop_does fd fmt ap cs :
  text fmt ap = Some cs → Forall (λ c, 0 <= c < 256) fmt →
  ∀ rs, length rs = length cs → does (printf_loop fd fmt false ap) (writes fd cs rs) (Some tt).
Proof.
  remember (length fmt) as n eqn:En. revert fmt ap cs En. induction n as [n IH] using lt_wf_ind. intros fmt ap cs -> Ht Hb.
  destruct fmt as [|c fmt]; [injection Ht as <-; intros [|] Hl; [constructor|done]|].
  apply Forall_cons in Hb as [Hc Hb]. cbn [text] in Ht. destruct (c =? chr "%") eqn:Ec.
  - apply Z.eqb_eq in Ec as ->. destruct fmt as [|d fmt]; [injection Ht as <-; intros [|] Hl; [constructor|done]|].
    apply Forall_cons in Hb as [Hd Hb]. destruct (directive d ap) as [[ds ap']|] eqn:Ed; [|discriminate Ht].
    destruct (text fmt ap') as [cs'|] eqn:Et; [|discriminate Ht]. injection Ht as <-. intros rs Hl.
    destruct (directive_does fd d fmt ap ds ap' Ed Hd) as (p & E & Hp).
    change (does (printf_loop fd (d :: fmt) true ap) (writes fd (ds ++ cs') rs) (Some tt)). rewrite E.
    apply does_writes; [done|done|]. apply (IH (length fmt)); [cbn; lia|done|done|done].
  - destruct (text fmt ap) as [cs'|] eqn:Et; [|discriminate Ht]. injection Ht as <-. intros rs Hl.
    cbn [printf_loop negb]. rewrite u8_small, Ec by done. apply (does_writes fd [c] cs' rs); [done|exact (puts_does fd [c])|].
    apply (IH (length fmt)); [cbn; lia|done|done|done].
Qed.

(** *** Numbers *)

Lemma udigits_decimal i : 0 <= i < 10 → nth (Z.to_nat i) udigits 0 = 48 + i.
Proof.
  intros Hi. assert (Forall (λ i : nat, nth i udigits 0 = 48 + Z.of_nat i) (seq 0 10)) as H
    by (by apply (bool_decide_unpack _)).
  rewrite Forall_forall in H. rewrite H; [lia|]. apply elem_of_seq. lia.
Qed.

Lemma uint_digits_decimal fuel x : 0 <= x → Forall (λ d, 48 <= d <= 57) (uint_digits fuel x 10).
Proof.
  revert x. induction fuel as [|fuel IH]; intros x Hx; cbn [uint_digits]; [done|].
  pose proof (Z.mod_pos_bound x 10 ltac:(lia)). constructor; [rewrite udigits_decimal by lia; lia|].
  destruct (x / 10 =? 0); [done|]. apply IH, Z.div_pos; lia.
Qed.

Lemma uint_digits_value fuel x :
  0 <= x < 2 ^ Z.of_nat fuel → (0 < fuel)%nat → digits_value (reverse (uint_digits fuel x 10)) = x.
Proof.
  revert x. induction fuel as [|fuel IH]; intros x Hx Hf; [lia|]. cbn [uint_digits].
  pose proof (Z.mod_pos_bound x 10 ltac:(lia)). pose proof (Z.div_mod x 10 ltac:(lia)).
  rewrite reverse_cons. unfold digits_value. rewrite foldl_app. cbn [foldl]. rewrite udigits_decimal by lia.
  fold (digits_value (reverse (if x / 10 =? 0 then [] else uint_digits fuel (x / 10) 10))).
  destruct (Z.eqb_spec (x / 10) 0) as [E|E]; [cbn; lia|].
  rewrite Nat2Z.inj_succ, Z.pow_succ_r in Hx by lia.
  destruct fuel as [|fuel]; [cbn in Hx; by rewrite Z.div_small in E by lia|].
  rewrite IH; [lia| |lia]. split; [apply Z.div_pos; lia|]. apply Z.div_lt_upper_bound; lia.
Qed.

Lemma uint_digits_length fuel x base (d : nat) :
  2 <= base → (0 < d)%nat → 0 <= x < base ^ Z.of_nat d → (0 < length (uint_digits (S fuel) x base) <= d)%nat.
Proof.
  intros Hb. revert x d. induction fuel as [|fuel IH]; intros x d Hd Hx.
  { cbn. destruct (x / base =? 0); cbn; lia. }
  remember (S fuel) as f. cbn [uint_digits]. destruct (Z.eqb_spec (x / base) 0) as [E|E]; [cbn; lia|].
  cbn [length]. destruct d as [|[|d]]; [lia| |].
  { rewrite Z.pow_1_r, Z.div_small in * by lia. done. }
  subst f. rewrite Nat2Z.inj_succ, Z.pow_succ_r in Hx by lia. specialize (IH (x / base) (S d)).
  assert (x / base < base ^ Z.of_nat (S d)) by (apply Z.div_lt_upper_bound; lia).
  pose proof (Z.div_pos x base ltac:(lia) ltac:(lia)). lia.
Qed.

(** ** Properties *)

(** For a format whose arguments match, [printf] makes one [write] of one
    byte for each character of the formatted text, in order, whatever the
    kernel replies, and returns. *)
Theorem printf_correct (fd : Z) (fmt : list Z) (ap : list uarg) (cs : list Z) (rs : list reply)
    (Htext : text fmt ap = Some cs) (Hfmt : Forall (λ c, 0 <= c < 256) fmt) (Hrs : length rs = length cs) :
  does (printf fd fmt ap) (writes fd cs rs) (Some tt).
Proof. by apply printf_loop_does. Qed.

Lemma uint_chars_sign n :
  - 2 ^ 31 < n < 2 ^ 31 →
  uint_chars n 10 true = (if n <? 0 then [chr "-"] else []) ++ reverse (uint_digits 32 (Z.abs n) 10).
Proof.
  intros Hn. unfold uint_chars. rewrite reverse_app. cbn [andb]. destruct (Z.ltb_spec n 0); rewrite u32_small by lia.
  - by rewrite Z.abs_neq by lia.
  - by rewrite Z.abs_eq by lia.
Qed.

(** The digits of a word, in the two bases that [printf] uses. *)
Lemma word_digits x : 0 <= x < 2 ^ 32 →
  (0 < length (uint_digits 32 x 10) <= 10)%nat ∧ (0 < length (uint_digits 32 x 16) <= 8)%nat.
Proof. intros Hx. split; apply (uint_digits_length 31); lia. Qed.

(** C34: What [printint] prints for [%d] is a minus sign if the number is
    negative, and then digits that [atoi] reads back as its absolute value (the
    least [int] apart, for which [atoi] overflows).  For any argument, the
    characters printed for [%d] are at most 11, and those for [%x] and [%p] at
    most 8, so they fit the 16 bytes of the buffer. *)
Theorem printint_atoi (n : Z) (Hn : - 2 ^ 31 < n < 2 ^ 31) :
  (∃ ds, uint_chars n 10 true = (if n <? 0 then [chr "-"] else []) ++ ds ∧
    ∀ fuel m s rest, is_str m s (ds ++ rest) → (10 < fuel)%nat →
      (∀ d, head rest = Some d → ¬ 48 <= d <= 57) → atoi fuel m s = Some (Z.abs n)) ∧
  ∀ xx, (length (uint_chars xx 10 true) <= 11)%nat ∧ (length (uint_chars xx 16 false) <= 8)%nat.
Proof.
  split.
  - eexists. split; [by apply uint_chars_sign|]. intros fuel m s rest Hs Hf Hrest. set (x := Z.abs n) in *.
    assert (0 <= x < 2 ^ 31) as Hx by lia. rewrite <- (uint_digits_value 32 x) by lia.
    apply (atoi_loop_ok _ _ _ _ 0 rest); [done| |done|lia| |].
    + apply Forall_forall. intros d Hd. rewrite elem_of_reverse in Hd. revert d Hd. apply Forall_forall, uint_digits_decimal. lia.
    + fold (digits_value (reverse (uint_digits 32 x 10))). rewrite uint_digits_value; lia.
    + rewrite length_reverse. pose proof (word_digits x ltac:(lia)). lia.
  - intros xx. unfold uint_chars. rewrite !length_reverse, !length_app. cbn [andb].
    pose proof (word_digits (if xx <? 0 then u32 (- xx) else u32 xx) ltac:(destruct (xx <? 0); apply u32_range)) as [H1 _].
    pose proof (word_digits (u32 xx) ltac:(apply u32_range)) as [_ H2].
    destruct (xx <? 0); cbn [length]; lia.
Qed.

(** ** Witnesses *)

Lemma printf_correct_witness :
  does (printf 1 (chars "%d%%%s") [UWord 0xfffffffb; UStr (chars "ab")])
    (writes 1 (chars "-5%ab") (replicate 5 (Num 1))) (Some tt).
Proof. apply printf_correct; [vm_compute; reflexivity|vm_compute; repeat constructor; discriminate|reflexivity]. Defined.

Lemma printint_atoi_witness :
  atoi 11 (wr (wr ∅ 10 52) 11 50) 10 = Some 42 ∧ (length (uint_chars 0xffffffff 16 false) <= 8)%nat.
Proof.
  destruct (printint_atoi (-42) ltac:(lia)) as [(ds & Hds & H1) H2].
  assert (ds = chars "42") as -> by (vm_compute in Hds; by injection Hds as <-).
  split; [|exact (proj2 (H2 0xffffffff))].
  apply (H1 11%nat (wr (wr ∅ 10 52) 11 50) 10 []); [by vm_compute|lia|done].
Defined.
