(* ===== verification/Userland.v ===== *)
(** The small user programs: [cat], [wc], [echo], [kill], [ln], [mkdir], [rm],
    [ls], [grep], [zombie], [stressfs], [forktest] and [init].

    A program is a tree of system calls ([Ulib]).  [argv] is a list of strings
    without their NULs; the reply to [read] is [Data], or [Num] of a negative
    number.  Loops that wait for the end of a file are bounded by [fuel]. *)

From stdpp Require Import base gmap list strings.
From Stdlib Require Import ZArith Lia Ascii.
From S2P Require Import Prelude Effects CString Kbd Ulib Printf Grep Disk.
#[local] Open Scope Z_scope.

(** A string constant that ends in a newline. *)
Definition line (s : string) : list Z := chars s ++ [newline].

(** ** Programs that go over files *)

(** [for(i = 1; i < argc; i++)] in [cat], [wc] and [grep]: open, treat, close. *)
Fixpoint each_file (msg : string) (body : Z → list Z → uprog unit) (args : list (list Z)) : uprog unit :=
  match args with
  | [] => PExit
  | a :: args =>
      let* fd := pcall (SysOpen a 0) in
      if num fd <? 0 then printf 1 (line msg) [UStr a];;* PExit else
      body (num fd) a;;*
      pcall (SysClose (num fd));;*
      each_file msg body args
  end.

Fixpoint cat (fuel : nat) (fd : Z) : uprog unit :=
  match fuel with
  | O => PStuck
  | S fuel =>
      let* r := pcall (SysRead fd 512) in
      if 0 <? num r then
        let* w := pcall (SysWrite 1 (bytes_of r)) in
        if num w =? num r then cat fuel fd
        else printf 1 (line "cat: write error") [];;* PExit
      else if num r <? 0 then printf 1 (line "cat: read error") [];;* PExit
      else PRet tt
  end.

Definition cat_main (fuel : nat) (argv : list (list Z)) : uprog unit :=
  match argv with
  | _ :: ((_ :: _) as args) => each_file "cat: cannot open %s" (λ fd _, cat fuel fd) args
  | _ => cat fuel 0;;* PExit
  end.

(** [l], [w], [c] and [inword]. *)
Record counts := Counts { c_l : Z; c_w : Z; c_c : Z; c_inword : bool }.

(** [strchr] of the blanks. *)
Definition blank (b : Z) : bool := bool_decide (b ∈ [32; 13; 9; 10; 11]).

(** The loop over the bytes of [buf]. *)
Fixpoint wc_bytes (s : counts) (bs : list Z) : counts :=
  match bs with
  | [] => s
  | b :: bs =>
      let c := i32 (c_c s + 1) in
      let l := if b =? newline then i32 (c_l s + 1) else c_l s in
      let '(w, inword) :=
        if blank b then (c_w s, false)
        else if negb (c_inword s) then (i32 (c_w s + 1), true)
        else (c_w s, c_inword s) in
      wc_bytes (Counts l w c inword) bs
  end.

Fixpoint wc_loop (fuel : nat) (fd : Z) (s : counts) : uprog (counts * Z) :=
  match fuel with
  | O => PStuck
  | S fuel =>
      let* r := pcall (SysRead fd 512) in
      if 0 <? num r then wc_loop fuel fd (wc_bytes s (bytes_of r))
      else PRet (s, num r)
  end.

Definition wc (fuel : nat) (fd : Z) (name : list Z) : uprog unit :=
  let* sn := wc_loop fuel fd (Counts 0 0 0 false) in
  let '(s, n) := sn in
  if n <? 0 then printf 1 (line "wc: read error") [];;* PExit else
  printf 1 (line "%d %d %d %s") [UWord (c_l s); UWord (c_w s); UWord (c_c s); UStr name].

Definition wc_main (fuel : nat) (argv : list (list Z)) : uprog unit :=
  match argv with
  | _ :: ((_ :: _) as args) => each_file "wc: cannot open %s" (wc fuel) args
  | _ => wc fuel 0 [];;* PExit
  end.

(** The inner loop of [grep]: the lines that match are written; what is left
    of the buffer. *)
Fixpoint grep_write (fuel : nat) (re buf : list Z) : uprog (list Z) :=
  match fuel with
  | O => PStuck
  | S fuel =>
      match split_line buf with
      | None => PRet buf
      | Some (l, r) =>
          (if match_ re l then pcall (SysWrite 1 (l ++ [newline]));;* PRet tt else PRet tt);;*
          grep_write fuel re r
      end
  end.

(** [grep], with the [m] bytes [rest] at the start of [buf]. *)
Fixpoint grep_read (fuel : nat) (re rest : list Z) (fd : Z) : uprog unit :=
  match fuel with
  | O => PStuck
  | S fuel =>
      let* r := pcall (SysRead fd (BUFSIZE - Z.of_nat (length rest) - 1)) in
      if 0 <? num r then
        let buf := rest ++ bytes_of r in
        let* remains := grep_write (S (length buf)) re buf in
        grep_read fuel re (if bool_decide (split_line buf = None) then [] else remains) fd
      else PRet tt
  end.

Definition grep_main (fuel : nat) (argv : list (list Z)) : uprog unit :=
  match argv with
  | _ :: pattern :: [] => grep_read fuel pattern [] 0;;* PExit
  | _ :: pattern :: args => each_file "grep: cannot open %s" (λ fd _, grep_read fuel pattern [] fd) args
  | _ => printf 2 (line "usage: grep pattern [file ...]") [];;* PExit
  end.

(** ** Programs that go over their arguments *)

Fixpoint echo_args (args : list (list Z)) : uprog unit :=
  match args with
  | [] => PExit
  | a :: args =>
      printf 1 (chars "%s%s") [UStr a; UStr (match args with [] => [newline] | _ => chars " " end)];;*
      echo_args args
  end.

Definition echo_main (argv : list (list Z)) : uprog unit := echo_args (drop 1 argv).

(** A memory that holds the string [s] at [a]. *)
Fixpoint str_mem (a : Z) (s : list Z) : gmap Z Z :=
  match s with
  | [] => ∅
  | c :: s => wr (str_mem (a + 1) s) a c
  end.

Fixpoint kill_args (args : list (list Z)) : uprog unit :=
  match args with
  | [] => PExit
  | a :: args =>
      match atoi (S (length a)) (str_mem 0 a) 0 with
      | Some pid => pcall (SysKill pid);;* kill_args args
      | None => PStuck
      end
  end.

Definition kill_main (argv : list (list Z)) : uprog unit :=
  match argv with
  | _ :: ((_ :: _) as args) => kill_args args
  | _ => printf 2 (line "usage: kill pid...") [];;* PExit
  end.

Definition ln_main (argv : list (list Z)) : uprog unit :=
  match argv with
  | [_; old; new] =>
      let* r := pcall (SysLink old new) in
      (if num r <? 0 then printf 2 (line "link %s %s: failed") [UStr old; UStr new] else PRet tt);;*
      PExit
  | _ => printf 2 (line "Usage: ln old new") [];;* PExit
  end.

(** The loop of [mkdir] and [rm], which stops at the first failure. *)
Fixpoint each_arg (msg : string) (call : list Z → sys) (args : list (list Z)) : uprog unit :=
  match args with
  | [] => PExit
  | a :: args =>
      let* r := pcall (call a) in
      if num r <? 0 then printf 2 (line msg) [UStr a];;* PExit else each_arg msg call args
  end.

Definition mkdir_main (argv : list (list Z)) : uprog unit :=
  match argv with
  | _ :: ((_ :: _) as args) => each_arg "mkdir: %s failed to create" SysMkdir args
  | _ => printf 2 (line "Usage: mkdir files...") [];;* PExit
  end.

Definition rm_main (argv : list (list Z)) : uprog unit :=
  match argv with
  | _ :: ((_ :: _) as args) => each_arg "rm: %s failed to delete" SysUnlink args
  | _ => printf 2 (line "Usage: rm files...") [];;* PExit
  end.

(** ** [ls] *)

(** The loop of [fmtname]: one more than the index of [p] at its end, when
    [n] is one more than the index at its start. *)
Fixpoint last_slash (path : list Z) (n : nat) : nat :=
  match n with
  | O => O
  | S k => if nth k path 0 =? chr "/" then n else last_slash path k
  end.

Definition fmtname (path : list Z) : list Z :=
  let p := drop (last_slash path (S (length path))) path in
  if DIRSIZ <=? Z.of_nat (length p) then p
  else p ++ replicate (Z.to_nat (DIRSIZ - Z.of_nat (length p))) 32.

(** The name in a directory entry, up to its NUL or its end. *)
Fixpoint until_nul (s : list Z) : list Z :=
  match s with
  | [] => []
  | c :: s => if c =? 0 then [] else c :: until_nul s
  end.

Definition ls_line (name : list Z) (st : stat_t) : uprog unit :=
  printf 1 (line "%s %d %d %d") [UStr (fmtname name); UWord (st_type st); UWord (st_ino st); UWord (st_size st)].

Fixpoint ls_entries (fuel : nat) (fd : Z) (path : list Z) : uprog unit :=
  match fuel with
  | O => PStuck
  | S fuel =>
      let* r := pcall (SysRead fd 16) in
      if num r =? 16 then
        let de := dirent_of (bytes_of r) in
        if de_inum de =? 0 then ls_entries fuel fd path else
        let buf := path ++ chars "/" ++ until_nul (de_name de) in
        let* s := stat buf in
        match s with
        | (n, Some st) =>
            (if n <? 0 then printf 1 (line "ls: cannot stat %s") [UStr buf] else ls_line buf st);;*
            ls_entries fuel fd path
        | (n, None) =>
            if n <? 0 then printf 1 (line "ls: cannot stat %s") [UStr buf];;* ls_entries fuel fd path
            else PStuck
        end
      else PRet tt
  end.

Definition ls (fuel : nat) (path : list Z) : uprog unit :=
  let* fd := pcall (SysOpen path 0) in
  if num fd <? 0 then printf 2 (line "ls: cannot open %s") [UStr path] else
  let* r := pcall (SysFstat (num fd)) in
  match r with
  | Stat st =>
      (if st_type st =? T_FILE then ls_line path st
       else if st_type st =? T_DIR then
         if 512 <? Z.of_nat (length path) + 1 + DIRSIZ + 1 then printf 1 (line "ls: path too long") []
         else ls_entries fuel (num fd) path
       else PRet tt);;*
      pcall (SysClose (num fd));;* PRet tt
  | _ =>
      if num r <? 0 then
        printf 2 (line "ls: cannot stat %s") [UStr path];;* pcall (SysClose (num fd));;* PRet tt
      else PStuck
  end.

Fixpoint ls_args (fuel : nat) (args : list (list Z)) : uprog unit :=
  match args with
  | [] => PExit
  | a :: args => ls fuel a;;* ls_args fuel args
  end.

Definition ls_main (fuel : nat) (argv : list (list Z)) : uprog unit :=
  match argv with
  | _ :: (_ :: _) as args => ls_args fuel args
  | _ => ls fuel (chars ".");;* PExit
  end.

(** ** Programs that fork *)

Definition O_RDONLY : Z := 0x000.
Definition O_WRONLY : Z := 0x001.
Definition O_RDWR : Z := 0x002.
Definition O_CREATE : Z := 0x200.

Definition zombie_main : uprog unit :=
  let* pid := pcall SysFork in
  (if 0 <? num pid then pcall (SysSleep 5);;* PRet tt else PRet tt);;*
  PExit.

(** [for(i = 0; i < n; i++)] around one call. *)
Fixpoint repeat_call (n : nat) (c : sys) : uprog unit :=
  match n with
  | O => PRet tt
  | S n => pcall c;;* repeat_call n c
  end.

(** The loop that forks: the value of [i] at its end. *)
Fixpoint stress_fork (n : nat) (i : Z) : uprog Z :=
  match n with
  | O => PRet i
  | S n =>
      let* pid := pcall SysFork in
      if 0 <? num pid then PRet i else stress_fork n (i + 1)
  end.

Definition stressfs_main : uprog unit :=
  printf 1 (line "stressfs starting") [];;*
  let* i := stress_fork 4 0 in
  printf 1 (line "write %d") [UWord i];;*
  let path := chars "stressfs" ++ [u8 (chr "0" + i)] in
  let* fd := pcall (SysOpen path (Z.lor O_CREATE O_RDWR)) in
  repeat_call 20 (SysWrite (num fd) (replicate 512 (chr "a")));;*
  pcall (SysClose (num fd));;*
  printf 1 (line "read") [];;*
  let* fd := pcall (SysOpen path O_RDONLY) in
  repeat_call 20 (SysRead (num fd) 512);;*
  pcall (SysClose (num fd));;*
  pcall SysWait;;*
  PExit.

(** [printf] of [forktest.c], which writes the format. *)
Definition ft_printf (fd : Z) (s : list Z) : uprog unit := pcall (SysWrite fd s);;* PRet tt.

(** The loop that forks, with [todo] turns to go: the value of [n]. *)
Fixpoint ft_fork (todo : nat) (n : Z) : uprog Z :=
  match todo with
  | O => PRet n
  | S todo =>
      let* pid := pcall SysFork in
      if num pid <? 0 then PRet n
      else if num pid =? 0 then PExit
      else ft_fork todo (n + 1)
  end.

Fixpoint ft_wait (n : nat) : uprog unit :=
  match n with
  | O => PRet tt
  | S n =>
      let* r := pcall SysWait in
      if num r <? 0 then ft_printf 1 (line "wait stopped early");;* PExit else ft_wait n
  end.

Definition NFORKS : nat := 1000.

Definition forktest : uprog unit :=
  ft_printf 1 (line "fork test");;*
  let* n := ft_fork NFORKS 0 in
  if n =? Z.of_nat NFORKS then ft_printf 1 (line "fork claimed to work N times!");;* PExit else
  ft_wait (Z.to_nat n);;*
  let* r := pcall SysWait in
  if negb (num r =? -1) then ft_printf 1 (line "wait got too many");;* PExit else
  ft_printf 1 (line "fork test OK").

Definition forktest_main : uprog unit := forktest;;* PExit.

(** [init]: the loop that waits for the shell, and the loop that starts it. *)
Fixpoint init_wait (fuel : nat) (pid : Z) : uprog unit :=
  match fuel with
  | O => PStuck
  | S fuel =>
      let* wpid := pcall SysWait in
      if (0 <=? num wpid) && negb (num wpid =? pid) then
        printf 1 (line "zombie!") [];;* init_wait fuel pid
      else PRet tt
  end.

Fixpoint init_loop (fuel : nat) : uprog unit :=
  match fuel with
  | O => PStuck
  | S fuel =>
      printf 1 (line "init: starting sh") [];;*
      let* pid := pcall SysFork in
      if num pid <? 0 then printf 1 (line "init: fork failed") [];;* PExit else
      if num pid =? 0 then
        pcall (SysExec (chars "sh") [chars "sh"]);;*
        printf 1 (line "init: exec sh failed") [];;* PExit
      else
        init_wait fuel (num pid);;*
        init_loop fuel
  end.

Definition init_main (fuel : nat) : uprog unit :=
  let* fd := pcall (SysOpen (chars "console") O_RDWR) in
  (if num fd <? 0 then
     pcall (SysMknod (chars "console") 1 1);;*
     pcall (SysOpen (chars "console") O_RDWR);;* PRet tt
   else PRet tt);;*
  pcall (SysDup 0);;*
  pcall (SysDup 0);;*
  init_loop fuel.

(** ** Specification *)

(** The bytes written to [fd] in a run. *)
Definition output (fd : Z) (t : list (sys * reply)) : list Z :=
  mjoin (map (λ cr, match cr.1 with SysWrite fd' bs => if fd' =? fd then bs else [] | _ => [] end) t).

(** A run that prints a text. *)
Definition prints (fd : Z) (fmt : list Z) (ap : list uarg) (t : list (sys * reply)) : Prop :=
  ∃ cs rs, text fmt ap = Some cs ∧ length rs = length cs ∧ t = writes fd cs rs.

(** A chunk that [read] returns before the end of a file. *)
Definition chunk_ok (b : list Z) : Prop := b ≠ [].

(** A file that [cat] reads in chunks. *)
Definition cat_trace (fd : Z) (chunks : list (list Z)) : list (sys * reply) :=
  mjoin (map (λ b, [(SysRead fd 512, Data b); (SysWrite 1 b, Num (Z.of_nat (length b)))]) chunks) ++
  [(SysRead fd 512, Data [])].

(** A file that is opened as [fd], treated with the calls [t], and closed. *)
Record session := Session { se_path : list Z; se_fd : Z; se_trace : list (sys * reply) }.

Definition session_trace (s : session) : list (sys * reply) :=
  (SysOpen (se_path s) 0, Num (se_fd s)) :: se_trace s ++ [(SysClose (se_fd s), Num 0)].

(** Words start where a character that is not blank follows a blank or the
    start. *)
Definition word_starts (prev : Z) (s : list Z) : nat :=
  length (filter (λ ab : Z * Z, blank ab.1 = true ∧ blank ab.2 = false) (zip (prev :: s) s)).

Definition newlines (s : list Z) : nat := length (filter (newline =.) s).

(** ** Lemmas *)

Lemma printf_does fd fmt ap t :
  prints fd fmt ap t → Forall (λ c, 0 <= c < 256) fmt → does (printf fd fmt ap) t (Some tt).
Proof. intros (cs & rs & Ht & Hl & ->) Hf. by apply printf_loop_does. Qed.

Lemma output_app fd t t' : output fd (t ++ t') = output fd t ++ output fd t'.
Proof. unfold output. by rewrite map_app, join_app. Qed.

Lemma output_writes fd cs rs :
  length rs = length cs → Forall (λ c, 0 <= c < 256) cs → output fd (writes fd cs rs) = cs.
Proof.
  revert rs. induction cs as [|c cs IH]; intros [|r rs] Hl Hc; try done.
  apply Forall_cons in Hc as [Hc Hcs]. injection Hl as Hl. unfold output, writes in *. cbn.
  rewrite Z.eqb_refl, u8_small by done. cbn. f_equal. by apply IH.
Qed.

(** The loop over files, when every file can be opened. *)
Lemma each_file_does msg body ss :
  Forall (λ s, 0 <= se_fd s ∧ does (body (se_fd s) (se_path s)) (se_trace s) (Some tt)) ss →
  does (each_file msg body (map se_path ss)) (mjoin (map session_trace ss)) None.
Proof.
  induction ss as [|[path fd t] ss IH]; intros Hs; cbn [map each_file]; [constructor|].
  apply Forall_cons in Hs as [[Hfd Hb] Hs]. cbn [se_path se_fd se_trace] in *.
  change (does (each_file msg body (path :: map se_path ss))
    (((SysOpen path 0, Num fd) :: t ++ [(SysClose fd, Num 0)]) ++ mjoin (map session_trace ss)) None).
  cbn [each_file app]. apply does_call_bind. cbn [num]. destruct (Z.ltb_spec fd 0); [lia|].
  rewrite <- app_assoc. apply (does_bind _ _ t tt); [done|]. cbn [app]. apply does_call_bind. auto.
Qed.

(** A file that cannot be opened ends the program. *)
Lemma each_file_fails msg body path args r t :
  r < 0 → prints 1 (line msg) [UStr path] t → Forall (λ c, 0 <= c < 256) (line msg) →
  does (each_file msg body (path :: args)) ((SysOpen path 0, Num r) :: t) None.
Proof.
  intros Hr Ht Hl. cbn [each_file]. apply does_call_bind. cbn [num]. destruct (Z.ltb_spec r 0); [|lia].
  rewrite <- (app_nil_r t). eapply does_bind; [by apply printf_does|]. constructor.
Qed.

Lemma cat_does fuel fd chunks :
  Forall chunk_ok chunks → (length chunks < fuel)%nat → does (cat fuel fd) (cat_trace fd chunks) (Some tt).
Proof.
  revert fuel. induction chunks as [|b chunks IH]; intros [|fuel] Hc Hf; cbn [length] in Hf; [lia| |lia|].
  - apply does_call_bind. constructor.
  - apply Forall_cons in Hc as [Hb Hc].
    change (cat_trace fd (b :: chunks)) with
      ((SysRead fd 512, Data b) :: (SysWrite 1 b, Num (Z.of_nat (length b))) :: cat_trace fd chunks).
    cbn [cat]. apply does_call_bind. cbn [num bytes_of]. destruct b as [|x b]; [done|].
    destruct (Z.ltb_spec 0 (Z.of_nat (length (x :: b)))) as [_|?]; [|cbn [length] in *; lia].
    apply does_call_bind. cbn [num]. rewrite Z.eqb_refl. apply IH; [done|lia].
Qed.

Lemma cat_output fd chunks : output 1 (cat_trace fd chunks) = mjoin chunks.
Proof.
  induction chunks as [|b chunks IH]; [done|]. change (cat_trace fd (b :: chunks)) with
    ([(SysRead fd 512, Data b); (SysWrite 1 b, Num (Z.of_nat (length b)))] ++ cat_trace fd chunks).
  rewrite output_app, IH. unfold output. cbn. by rewrite app_nil_r.
Qed.

Lemma session_output ss : output 1 (mjoin (map session_trace ss)) = mjoin (map (output 1 ∘ se_trace) ss).
Proof.
  induction ss as [|s ss IH]; [done|]. cbn [map]. change (mjoin (?x :: ?l)) with (x ++ mjoin l).
  rewrite output_app, IH. f_equal. unfold session_trace.
  change ((?a : sys * reply) :: ?l) with ([a] ++ l). rewrite !output_app. cbn. by rewrite app_nil_r.
Qed.

Lemma wc_bytes_app s a b : wc_bytes s (a ++ b) = wc_bytes (wc_bytes s a) b.
Proof.
  revert s. induction a as [|x a IH]; intros s; [done|]. cbn [wc_bytes app].
  destruct (if blank x then _ else _) as [w i]. apply IH.
Qed.

Lemma last_shift (b prev : Z) bs : List.last (b :: bs) prev = List.last bs b.
Proof. revert b. induction bs as [|c bs IH]; intros b; [done|]. cbn in *. destruct bs; [done|]. apply IH. Qed.

Lemma wc_bytes_spec prev s bs :
  c_inword s = negb (blank prev) → 0 <= c_l s <= c_c s → 0 <= c_w s <= c_c s →
  c_c s + Z.of_nat (length bs) < 2 ^ 31 →
  wc_bytes s bs = Counts (c_l s + Z.of_nat (newlines bs)) (c_w s + Z.of_nat (word_starts prev bs))
    (c_c s + Z.of_nat (length bs)) (negb (blank (List.last bs prev))).
Proof.
  revert prev s. induction bs as [|b bs IH]; intros prev [l w c inw] Hi Hl Hw Hc; cbn [c_l c_w c_c c_inword] in *.
  { cbn. rewrite !Z.add_0_r. by subst. }
  cbn [length] in Hc. assert (∀ v, 0 <= v <= c → i32 (v + 1) = v + 1) as Hs by (intros v Hv; apply wraps_small; lia).
  cbn [wc_bytes c_l c_w c_c c_inword]. rewrite !(Hs c), !(Hs w), !(Hs l) by lia.
  assert (newlines (b :: bs) = ((if (b =? newline)%Z then 1 else 0) + newlines bs)%nat) as ->.
  { unfold newlines. rewrite filter_cons. case_decide as E; destruct (Z.eqb_spec b newline); try done; congruence. }
  assert (word_starts prev (b :: bs) =
    ((if blank prev && negb (blank b) then 1 else 0) + word_starts b bs)%nat) as ->.
  { unfold word_starts. cbn [zip zip_with]. rewrite filter_cons. cbn [fst snd].
    case_decide as E; destruct (blank prev), (blank b); naive_solver. }
  rewrite last_shift.
  subst inw. destruct (blank b) eqn:Eb, (blank prev), (b =? newline); cbn [negb andb];
    (rewrite (IH b); [cbn [c_l c_w c_c]; f_equal; cbn [length]; lia| |..]); cbn [c_l c_w c_c c_inword]; try lia; by rewrite Eb.
Qed.

(** The calls of [read] on [fd] that return the chunks, and then nothing. *)
Definition reads_trace (fd : Z) (chunks : list (list Z)) : list (sys * reply) :=
  map (λ b, (SysRead fd 512, Data b)) (chunks ++ [[]]).

Lemma wc_loop_does fuel fd s chunks :
  Forall chunk_ok chunks → (length chunks < fuel)%nat →
  does (wc_loop fuel fd s) (reads_trace fd chunks) (Some (wc_bytes s (mjoin chunks), 0)).
Proof.
  revert fuel s. induction chunks as [|b chunks IH]; intros [|fuel] s Hc Hf; cbn [length] in Hf; [lia| |lia|].
  - apply does_call_bind. constructor.
  - apply Forall_cons in Hc as [Hb Hc]. change (mjoin (b :: chunks)) with (b ++ mjoin chunks).
    change (reads_trace fd (b :: chunks)) with ((SysRead fd 512, Data b) :: reads_trace fd chunks).
    rewrite wc_bytes_app. cbn [wc_loop]. apply does_call_bind. cbn [num bytes_of]. destruct b as [|x b]; [done|].
    destruct (Z.ltb_spec 0 (Z.of_nat (length (x :: b)))) as [_|?]; [|cbn [length] in *; lia]. apply IH; [done|lia].
Qed.

(** The line that [wc] prints for the bytes [s]. *)
Definition wc_prints (name s : list Z) (t : list (sys * reply)) : Prop :=
  prints 1 (line "%d %d %d %s")
    [UWord (Z.of_nat (newlines s)); UWord (Z.of_nat (word_starts 32 s)); UWord (Z.of_nat (length s)); UStr name] t.

Lemma wc_does fuel fd name chunks t :
  Forall chunk_ok chunks → (length chunks < fuel)%nat → Z.of_nat (length (mjoin chunks)) < 2 ^ 31 →
  wc_prints name (mjoin chunks) t →
  does (wc fuel fd name) (reads_trace fd chunks ++ t) (Some tt).
Proof.
  intros Hc Hf Hl Ht. unfold wc. eapply does_bind; [by apply wc_loop_does|].
  rewrite (wc_bytes_spec 32) by (done || cbn; lia). cbn [Z.ltb Z.compare c_l c_w c_c Z.add].
  apply printf_does; [exact Ht|]. by apply (bool_decide_unpack _).
Qed.

(** *** [grep] *)

(** The data that [read] of [fd] returns in a run; and that every call of
    [write] is answered by [w]. *)
Definition inputs (fd : Z) (t : list (sys * reply)) : list (list Z) :=
  omap (λ cr, match cr.1 with SysRead fd' _ => if fd' =? fd then Some (bytes_of cr.2) else None | _ => None end) t.

Definition answers (w : list Z → reply) (t : list (sys * reply)) : Prop :=
  Forall (λ cr, match cr.1 with SysWrite _ bs => cr.2 = w bs | _ => True end) t.

Lemma inputs_app fd t t' : inputs fd (t ++ t') = inputs fd t ++ inputs fd t'.
Proof. apply omap_app. Qed.

Lemma grep_write_does w fd fuel re buf :
  (length buf < fuel)%nat →
  ∃ t, does (grep_write fuel re buf) t (Some (grep_lines fuel re buf).2) ∧
    output 1 t = (grep_lines fuel re buf).1 ∧ inputs fd t = [] ∧ answers w t.
Proof.
  revert buf. induction fuel as [|fuel IH]; intros buf Hf; [lia|]. cbn [grep_write grep_lines].
  destruct (split_line buf) as [[l r]|] eqn:E; [|exists []; repeat constructor].
  apply split_line_Some in E as ->. rewrite length_app in Hf. cbn [length] in Hf.
  destruct (IH r ltac:(lia)) as (t & Hd & Ho & Hi & Ha). destruct (grep_lines fuel re r) as [out rest].
  cbn [fst snd] in *. destruct (match_ re l).
  - exists ((SysWrite 1 (l ++ [newline]), w (l ++ [newline])) :: t). split; [by apply does_call_bind|].
    change ((?a : sys * reply) :: t) with ([a] ++ t). rewrite output_app, inputs_app, Ho, Hi.
    split; [cbn; by rewrite app_nil_r|]. split; [done|]. by constructor.
  - exists t. split; [done|]. split; [done|]. done.
Qed.

Lemma grep_read_does w fuel re rest fd reads :
  Forall chunk_ok reads → (length reads < fuel)%nat →
  ∃ t, does (grep_read fuel re rest fd) t (Some tt) ∧ inputs fd t = reads ++ [[]] ∧ answers w t ∧
    output 1 t = grep_loop re rest reads.
Proof.
  revert fuel rest. induction reads as [|b reads IH]; intros [|fuel] rest Hc Hf; cbn [length] in Hf; [lia| |lia|];
    cbn [grep_read grep_loop].
  - eexists. split; [apply (does_call_bind _ (Data [])); constructor|]. cbn. rewrite Z.eqb_refl.
    split; [done|]. split; [by repeat constructor|done].
  - apply Forall_cons in Hc as [Hb Hc]. rewrite (bool_decide_eq_false_2 (b = [])) by done.
    destruct (grep_write_does w fd (S (length (rest ++ b))) re (rest ++ b)) as (t & Hd & Ho & Hi & Ha); [lia|].
    destruct (grep_lines _ re (rest ++ b)) as [out remains]. cbn [fst snd] in *.
    destruct (IH fuel (if bool_decide (split_line (rest ++ b) = None) then [] else remains) Hc ltac:(lia))
      as (t' & Hd' & Hi' & Ha' & Ho').
    exists ([(SysRead fd (BUFSIZE - Z.of_nat (length rest) - 1), Data b)] ++ t ++ t').
    rewrite !inputs_app, !output_app, Ho, Hi, Hi', Ho'. split.
    + cbn [app]. apply does_call_bind. cbn [num bytes_of].
      destruct (Z.ltb_spec 0 (Z.of_nat (length b))) as [_|?]; [|destruct b; [done|cbn [length] in *; lia]].
      by eapply does_bind.
    + split; [cbn; by rewrite Z.eqb_refl|]. split; [|done]. repeat apply Forall_app_2; [by repeat constructor|done|done].
Qed.

(** *** [echo], [kill], [ls], [forktest] and [init] *)

(** The arguments, separated by blanks, and a newline. *)
Fixpoint words_line (args : list (list Z)) : list Z :=
  match args with
  | [] => []
  | [a] => a ++ [newline]
  | a :: args => a ++ chars " " ++ words_line args
  end.

Lemma two_strings_text a b : text (chars "%s%s") [UStr a; UStr b] = Some (a ++ b).
Proof. rewrite <- (app_nil_r b) at 2. reflexivity. Qed.

Lemma echo_args_does args rs : length rs = length (words_line args) → does (echo_args args) (writes 1 (words_line args) rs) None.
Proof.
  revert rs. induction args as [|a args IH]; intros rs Hl; [destruct rs; [constructor|done]|]. cbn [echo_args].
  assert (words_line (a :: args) = (a ++ match args with [] => [newline] | _ => chars " " end) ++ words_line args) as E
    by (destruct args; cbn [words_line]; [by rewrite app_nil_r|by rewrite <- app_assoc]).
  rewrite E in *. apply does_writes; [done| |apply IH].
  intros rs' Hl'. apply printf_does; [|by apply (bool_decide_unpack _)].
  eexists _, rs'. split; [|split; [exact Hl'|reflexivity]]. apply two_strings_text.
Qed.

Lemma str_mem_ok a s : Forall (λ c, 0 < c < 256) s → is_str (str_mem a s) a s.
Proof.
  assert (∀ s a b, b < a → rd (str_mem a s) b = 0) as Hlow.
  { clear. induction s as [|c s IH]; intros a b Hb; cbn [str_mem]; [done|].
    rewrite rd_wr, decide_False by lia. apply IH. lia. }
  assert (∀ s a b, a + Z.of_nat (length s) <= b → rd (str_mem a s) b = 0) as Hhigh.
  { clear. induction s as [|c s IH]; intros a b Hb; cbn [str_mem]; [done|]. cbn [length] in Hb.
    rewrite rd_wr, decide_False by lia. apply IH. lia. }
  revert a. induction s as [|c s IH]; intros a Hs; [done|]. apply Forall_cons in Hs as [Hc Hs]. cbn [str_mem is_str].
  rewrite rd_wr, decide_True by done. split; [apply u8_small; lia|]. split; [done|].
  eapply is_str_ext; [|by apply IH]. intros x Hx. rewrite rd_wr, decide_False by lia. done.
Qed.

Lemma kill_args_does (args : list (list Z)) r :
  Forall (λ a, Forall (λ d, 48 <= d <= 57) a ∧ digits_value a < 2 ^ 31) args →
  does (kill_args args) (map (λ a, (SysKill (digits_value a), r)) args) None.
Proof.
  induction args as [|a args IH]; intros Ha; [constructor|]. apply Forall_cons in Ha as [[Hd Hv] Ha]. cbn [kill_args map].
  assert (atoi (S (length a)) (str_mem 0 a) 0 = Some (digits_value a)) as ->.
  { apply (atoi_loop_ok _ _ _ _ _ []); try done; [|lia]. rewrite app_nil_r. apply str_mem_ok.
    eapply Forall_impl; [done|]. cbn. lia. }
  apply does_call_bind. auto.
Qed.

Lemma last_slash_name pre name n :
  chr "/" ∉ name → (n <= length name)%nat → last_slash (pre ++ name) (length pre + n) = last_slash (pre ++ name) (length pre).
Proof.
  intros Hn. induction n as [|n IH]; intros Hl; [f_equal; lia|]. rewrite Nat.add_succ_r. cbn [last_slash].
  rewrite app_nth2 by lia. replace (length pre + n - length pre)%nat with n by lia.
  destruct (Z.eqb_spec (nth n name 0) (chr "/")) as [E|_]; [|apply IH; lia].
  destruct Hn. rewrite <- E. apply list_elem_of_In, nth_In. lia.
Qed.

Lemma last_slash_at pre name :
  chr "/" ∉ name → (pre = [] ∨ last pre = Some (chr "/")) →
  last_slash (pre ++ name) (S (length (pre ++ name))) = length pre.
Proof.
  intros Hn Hp. cbn [last_slash]. rewrite nth_overflow by lia. change (0 =? chr "/") with false. cbn iota.
  rewrite length_app, last_slash_name by done. destruct Hp as [->|Hp]; [done|].
  apply last_Some in Hp as [pre' ->]. rewrite length_app, Nat.add_comm. cbn [last_slash length Nat.add].
  by rewrite <- app_assoc, app_nth2, Nat.sub_diag by lia.
Qed.

(** *** Runs of [forktest] and [init] *)

Lemma ft_fork_does todo n pids r :
  Forall (λ pid, 0 < pid) pids → (length pids < todo)%nat → r < 0 →
  does (ft_fork todo n) (map (λ pid, (SysFork, Num pid)) pids ++ [(SysFork, Num r)]) (Some (n + Z.of_nat (length pids))).
Proof.
  intros Hp Hl Hr. revert todo n Hl. induction Hp as [|pid pids Hp Hps IH]; intros [|todo] n Hl; cbn [length] in Hl; [lia| |lia|];
    cbn [map app ft_fork]; apply does_call_bind; cbn [num].
  - destruct (Z.ltb_spec r 0); [|lia]. rewrite Z.add_0_r. constructor.
  - destruct (Z.ltb_spec pid 0); [lia|]. destruct (Z.eqb_spec pid 0); [lia|].
    cbn [length]. rewrite Nat2Z.inj_succ, <- Z.add_1_l, Z.add_assoc. apply IH. lia.
Qed.

Lemma ft_wait_does pids : Forall (λ pid, 0 < pid) pids →
  does (ft_wait (length pids)) (map (λ pid, (SysWait, Num pid)) pids) (Some tt).
Proof.
  induction 1 as [|pid pids Hp Hps IH]; [constructor|]. cbn [length ft_wait map]. apply does_call_bind. cbn [num].
  destruct (Z.ltb_spec pid 0); [lia|done].
Qed.

(** What [init] does for a shell with id [pid]: the zombies [ws] are reaped
    first. *)
Definition zombie_said (t : list (sys * reply)) : Prop := prints 1 (line "zombie!") [] t.

Definition round_trace (pid : Z) (start : list (sys * reply)) (ws : list (Z * list (sys * reply))) : list (sys * reply) :=
  start ++ [(SysFork, Num pid)] ++ mjoin (map (λ wt, (SysWait, Num wt.1) :: wt.2) ws) ++ [(SysWait, Num pid)].

Lemma init_wait_does fuel pid ws :
  0 < pid → Forall (λ wt, 0 < wt.1 ∧ wt.1 ≠ pid ∧ zombie_said wt.2) ws → (length ws < fuel)%nat →
  does (init_wait fuel pid) (mjoin (map (λ wt, (SysWait, Num wt.1) :: wt.2) ws) ++ [(SysWait, Num pid)]) (Some tt).
Proof.
  intros Hp. revert fuel. induction ws as [|[w t] ws IH]; intros [|fuel] Hw Hf; cbn [length] in Hf; [lia| |lia|].
  - cbn [map app init_wait]. apply does_call_bind. cbn [num]. rewrite Z.eqb_refl, andb_false_r. constructor.
  - apply Forall_cons in Hw as [(H1 & H2 & Ht) Hw]. cbn [fst snd] in *. cbn [map].
    change (mjoin (?x :: ?l)) with (x ++ mjoin l). rewrite <- app_assoc. cbn [init_wait app]. apply does_call_bind. cbn [num fst snd].
    destruct (Z.leb_spec 0 w); [|lia]. destruct (Z.eqb_spec w pid); [done|]. cbn [andb negb].
    eapply does_bind; [apply printf_does; [exact Ht|by apply (bool_decide_unpack _)]|]. apply IH; [done|lia].
Qed.

Lemma init_loop_does fuel rounds r t t' :
  Forall (λ '(pid, start, ws), 0 < pid ∧ prints 1 (line "init: starting sh") [] start ∧
    Forall (λ wt, 0 < wt.1 ∧ wt.1 ≠ pid ∧ zombie_said wt.2) ws ∧ (length ws + length rounds < fuel)%nat) rounds →
  (length rounds < fuel)%nat → r < 0 → prints 1 (line "init: starting sh") [] t → prints 1 (line "init: fork failed") [] t' →
  does (init_loop fuel) (mjoin (map (λ '(pid, start, ws), round_trace pid start ws) rounds) ++ t ++ [(SysFork, Num r)] ++ t') None.
Proof.
  intros Hrs Hf Hr Ht Ht'. revert fuel Hrs Hf. induction rounds as [|[[pid start] ws] rounds IH]; intros [|fuel] Hrs Hf;
    cbn [length] in *; [lia| |lia|]; cbn [init_loop map].
  - change (mjoin []) with (@nil (sys * reply)). cbn [app].
    eapply does_bind; [apply printf_does; [exact Ht|by apply (bool_decide_unpack _)]|].
    cbn [app]. apply does_call_bind. cbn [num]. destruct (Z.ltb_spec r 0); [|lia].
    rewrite <- (app_nil_r t'). eapply does_bind; [apply printf_does; [exact Ht'|by apply (bool_decide_unpack _)]|constructor].
  - apply Forall_cons in Hrs as [(Hp & Hs & Hw & Hl) Hrs]. change (mjoin (?x :: ?l)) with (x ++ mjoin l).
    unfold round_trace at 1. rewrite <- !app_assoc.
    eapply does_bind; [apply printf_does; [exact Hs|by apply (bool_decide_unpack _)]|].
    apply does_call_bind. cbn [num]. destruct (Z.ltb_spec pid 0); [lia|]. destruct (Z.eqb_spec pid 0); [lia|].
    rewrite app_assoc. eapply does_bind; [apply init_wait_does; [done|done|lia]|]. apply IH; [|lia].
    eapply Forall_impl; [done|]. intros [[pid' start'] ws'] (? & ? & ? & ?). repeat split; try done. lia.
Qed.

(** ** Properties *)

(** [cat] of files that can be opened and read writes their contents to
    the standard output, in order, however [read] divides them; and exits. *)
Theorem cat_correct (fuel : nat) (name : list Z) (files : list (list Z * Z * list (list Z)))
    (Hfiles : files ≠ []) (Hfd : Forall (λ '(_, fd, chunks), 0 <= fd ∧ Forall chunk_ok chunks ∧ (length chunks < fuel)%nat) files) :
  let t := mjoin (map (λ '(path, fd, chunks), session_trace (Session path fd (cat_trace fd chunks))) files) in
  does (cat_main fuel (name :: map (λ '(path, _, _), path) files)) t None ∧
  output 1 t = mjoin (map (λ '(_, _, chunks), mjoin chunks) files).
Proof.
  set (ss := map (λ '(path, fd, chunks), Session path fd (cat_trace fd chunks)) files). cbn zeta.
  assert (map (λ '(path, fd, chunks), session_trace (Session path fd (cat_trace fd chunks))) files = map session_trace ss) as ->
    by (unfold ss; rewrite map_map; apply map_ext; by intros [[path fd] chunks]).
  assert (map (λ '(path, _, _), path) files = map se_path ss) as ->
    by (unfold ss; rewrite map_map; apply map_ext; by intros [[path fd] chunks]).
  rewrite session_output. split.
  - destruct files as [|f files]; [done|]. unfold cat_main, ss. cbn [map]. apply (each_file_does _ _ (_ :: _)).
    change (Forall (λ s, 0 <= se_fd s ∧ does (cat fuel (se_fd s)) (se_trace s) (Some tt)) ss). unfold ss.
    apply Forall_fmap. eapply Forall_impl; [done|]. intros [[path fd] chunks] (H1 & H2 & H3). split; [done|].
    by apply cat_does.
  - unfold ss. rewrite map_map. f_equal. apply map_ext. intros [[path fd] chunks]. apply cat_output.
Qed.

(** C35: [wc] prints the numbers of newlines, of words and of bytes of its
    input, and its name, however [read] divides the input. *)
Theorem wc_correct (fuel : nat) (fd : Z) (name : list Z) (chunks : list (list Z)) (t : list (sys * reply))
    (Hc : Forall chunk_ok chunks) (Hf : (length chunks < fuel)%nat)
    (Hl : Z.of_nat (length (mjoin chunks)) < 2 ^ 31) (Ht : wc_prints name (mjoin chunks) t) :
  does (wc fuel fd name) (reads_trace fd chunks ++ t) (Some tt).
Proof. by apply wc_does. Qed.

(** The program [grep] on a file: whatever [write] answers, it reads the
    file to its end and writes what the loop over the chunks selects. *)
Theorem grep_program (w : list Z → reply) (fuel : nat) (re : list Z) (fd : Z) (reads : list (list Z))
    (Hc : Forall chunk_ok reads) (Hf : (length reads < fuel)%nat) :
  ∃ t, does (grep_read fuel re [] fd) t (Some tt) ∧ inputs fd t = reads ++ [[]] ∧ answers w t ∧
    output 1 t = grep re reads.
Proof. by apply grep_read_does. Qed.

(** [echo] writes its arguments, separated by blanks, and a newline. *)
Theorem echo_correct (name : list Z) (args : list (list Z)) (rs : list reply) (Hrs : length rs = length (words_line args)) :
  does (echo_main (name :: args)) (writes 1 (words_line args) rs) None.
Proof. by apply echo_args_does. Qed.

(** [kill] sends a kill to the process of every argument. *)
Theorem kill_program (name : list Z) (args : list (list Z)) (r : reply)
    (Hne : args ≠ []) (Hargs : Forall (λ a, Forall (λ d, 48 <= d <= 57) a ∧ digits_value a < 2 ^ 31) args) :
  does (kill_main (name :: args)) (map (λ a, (SysKill (digits_value a), r)) args) None.
Proof. destruct args as [|a args]; [done|]. exact (kill_args_does (a :: args) r Hargs). Qed.

(** [fmtname] is the part of the path after its last slash, with blanks up
    to [DIRSIZ] characters. *)
Theorem fmtname_correct (pre name : list Z) (Hname : chr "/" ∉ name) (Hpre : pre = [] ∨ last pre = Some (chr "/")) :
  fmtname (pre ++ name) = name ++ replicate (14 - length name) 32.
Proof.
  unfold fmtname. rewrite last_slash_at, drop_app_length by done. unfold DIRSIZ.
  destruct (Z.leb_spec 14 (Z.of_nat (length name))).
  - replace (14 - length name)%nat with 0%nat by lia. by rewrite app_nil_r.
  - do 2 f_equal. lia.
Qed.

(** [forktest] accepts a kernel in which some forks succeed, the next
    fails, and the children can be waited for exactly once. *)
Theorem forktest_accepts (pids pids' : list Z) (r : Z) (a b : reply)
    (Hp : Forall (λ pid, 0 < pid) pids) (Hp' : pids' ≡ₚ pids) (Hn : (length pids < 1000)%nat) (Hr : r < 0) :
  does forktest_main
    ([(SysWrite 1 (line "fork test"), a)] ++
     map (λ pid, (SysFork, Num pid)) pids ++ [(SysFork, Num r)] ++
     map (λ pid, (SysWait, Num pid)) pids' ++ [(SysWait, Num (-1))] ++
     [(SysWrite 1 (line "fork test OK"), b)]) None.
Proof.
  assert (Forall (λ pid, 0 < pid) pids') as Hps by (by rewrite Hp').
  unfold forktest_main, forktest. match goal with |- does _ ?t _ => rewrite <- (app_nil_r t) end.
  eapply does_bind; [|constructor]. apply (does_bind _ _ [_] tt); [repeat constructor|].
  rewrite app_assoc. eapply does_bind; [by apply ft_fork_does|]. rewrite Z.add_0_l.
  destruct (Z.eqb_spec (Z.of_nat (length pids)) (Z.of_nat NFORKS)) as [E|_]; [unfold NFORKS in E; lia|].
  rewrite Nat2Z.id, <- Hp'. eapply does_bind; [by apply ft_wait_does|]. apply does_call_bind. cbn [num].
  repeat constructor.
Qed.

(** [init] starts a shell, waits until it ends, reaping the processes that
    end before it, and starts again; it ends only when [fork] fails. *)
Theorem init_correct (fuel : nat) (fd d1 d2 : Z) (rounds : list (Z * list (sys * reply) * list (Z * list (sys * reply))))
    (r : Z) (t t' : list (sys * reply)) (Hfd : 0 <= fd)
    (Hrounds : Forall (λ '(pid, start, ws), 0 < pid ∧ prints 1 (line "init: starting sh") [] start ∧
      Forall (λ wt, 0 < wt.1 ∧ wt.1 ≠ pid ∧ zombie_said wt.2) ws ∧ (length ws + length rounds < fuel)%nat) rounds)
    (Hf : (length rounds < fuel)%nat) (Hr : r < 0)
    (Ht : prints 1 (line "init: starting sh") [] t) (Ht' : prints 1 (line "init: fork failed") [] t') :
  does (init_main fuel)
    ([(SysOpen (chars "console") O_RDWR, Num fd); (SysDup 0, Num d1); (SysDup 0, Num d2)] ++
     mjoin (map (λ '(pid, start, ws), round_trace pid start ws) rounds) ++ t ++ [(SysFork, Num r)] ++ t') None.
Proof.
  unfold init_main. cbn [app]. apply does_call_bind. cbn [num]. destruct (Z.ltb_spec fd 0); [lia|]. cbn [pbind].
  do 2 apply does_call_bind. by apply (init_loop_does fuel rounds r t t').
Qed.

(** ** Witnesses *)

Lemma prints_text fd s rs :
  text (line s) [] = Some (line s) → length rs = length (line s) → prints fd (line s) [] (writes fd (line s) rs).
Proof. intros Ht Hl. by exists (line s), rs. Qed.

Lemma cat_correct_witness :
  let t := session_trace (Session [97] 3 (cat_trace 3 [[1; 2]; [3]])) ++
    session_trace (Session [98] 3 (cat_trace 3 [[4]])) ++ [] in
  does (cat_main 3 [[99]; [97]; [98]]) t None ∧ output 1 t = [1; 2; 3; 4].
Proof.
  apply (cat_correct 3 [99] [([97], 3, [[1; 2]; [3]]); ([98], 3, [[4]])]); [discriminate|].
  repeat apply Forall_cons_2; [..|constructor];
    (split; [lia|split; [repeat (apply Forall_cons_2; [discriminate|]); constructor|cbn; lia]]).
Defined.

Lemma wc_correct_witness :
  does (wc 3 0 []) (reads_trace 0 [chars "ab c"; chars "d" ++ [newline]] ++
    writes 1 (line "1 2 6 ") (replicate 7 (Num 1))) (Some tt).
Proof.
  apply (wc_correct 3 0 [] [chars "ab c"; chars "d" ++ [newline]]).
  - repeat (apply Forall_cons_2; [discriminate|]). constructor.
  - cbn. lia.
  - vm_compute. reflexivity.
  - exists (line "1 2 6 "), (replicate 7 (Num 1)). split; [vm_compute; reflexivity|]. split; reflexivity.
Defined.

Lemma grep_program_witness :
  ∃ t, does (grep_read 3 (chars "^a") [] 0) t (Some tt) ∧
    inputs 0 t = [line "ab"; line "cd"] ++ [[]] ∧ answers (λ bs, Num (Z.of_nat (length bs))) t ∧
    output 1 t = grep (chars "^a") [line "ab"; line "cd"].
Proof.
  apply (grep_program (λ bs, Num (Z.of_nat (length bs))) 3 (chars "^a") 0 [line "ab"; line "cd"]).
  - repeat (apply Forall_cons_2; [discriminate|]). constructor.
  - cbn. lia.
Defined.

Lemma echo_correct_witness : does (echo_main [chars "echo"; chars "hi"]) (writes 1 (line "hi") (replicate 3 (Num 1))) None.
Proof. apply (echo_correct (chars "echo") [chars "hi"]). reflexivity. Defined.

Lemma kill_program_witness : does (kill_main [chars "kill"; chars "12"]) [(SysKill 12, Num 0)] None.
Proof.
  apply (kill_program (chars "kill") [chars "12"] (Num 0)); [discriminate|].
  apply Forall_cons_2; [|constructor]. split; [|reflexivity]. apply (bool_decide_unpack _). reflexivity.
Defined.

Lemma fmtname_correct_witness : fmtname (chars "./cat") = chars "cat           ".
Proof.
  apply (fmtname_correct (chars "./") (chars "cat")); [|right; reflexivity]. apply (bool_decide_unpack _). reflexivity.
Defined.

Lemma forktest_accepts_witness :
  does forktest_main
    [(SysWrite 1 (line "fork test"), Num 10); (SysFork, Num 4); (SysFork, Num 5); (SysFork, Num (-1));
     (SysWait, Num 5); (SysWait, Num 4); (SysWait, Num (-1)); (SysWrite 1 (line "fork test OK"), Num 13)] None.
Proof.
  apply (forktest_accepts [4; 5] [5; 4] (-1) (Num 10) (Num 13)); [repeat constructor|apply perm_swap|cbn; lia|lia].
Defined.

Lemma init_correct_witness :
  let start := writes 1 (line "init: starting sh") (replicate 18 (Num 1)) in
  let failed := writes 1 (line "init: fork failed") (replicate 18 (Num 1)) in
  let zombie := writes 1 (line "zombie!") (replicate 8 (Num 1)) in
  does (init_main 3)
    ([(SysOpen (chars "console") O_RDWR, Num 0); (SysDup 0, Num 1); (SysDup 0, Num 2)] ++
     (round_trace 2 start [(7, zombie)] ++ []) ++ start ++ [(SysFork, Num (-1))] ++ failed) None.
Proof.
  assert (prints 1 (line "init: starting sh") [] (writes 1 (line "init: starting sh") (replicate 18 (Num 1)))) as Hs
    by (by apply prints_text).
  apply (init_correct 3 0 1 2 [(2, writes 1 (line "init: starting sh") (replicate 18 (Num 1)),
      [(7, writes 1 (line "zombie!") (replicate 8 (Num 1)))])] (-1)); [lia| |cbn; lia|lia|exact Hs|].
  - apply Forall_cons_2; [|constructor]. split; [lia|]. split; [exact Hs|]. split; [|cbn; lia].
    apply Forall_cons_2; [|constructor]. split; [cbn; lia|]. split; [discriminate|].
    by apply prints_text.
  - by apply prints_text.
Defined.
