(* ===== verification/Workload.v ===== *)
(** [workload.c] and the functions of [pstat.h]: the program that starts
    processes with different numbers of tickets and writes a table of them.

    [buffer] and [temp_str] are on the stack: their addresses are arguments,
    and so is the memory [m] with what the stack held before.  [ps] in
    [measure] is not initialised, and [getpinfo] does not fill it: its contents
    are an argument. *)

From stdpp Require Import base gmap list strings.
From Stdlib Require Import ZArith Lia Ascii.
From S2P Require Import Prelude Effects CString Kbd State Ulib Printf Userland.
#[local] Open Scope Z_scope.

(** ** [pstat.h] *)

(** One row of the arrays of [struct pstat]. *)
Record pstat_row := Row {
  ps_inuse : Z; ps_tickets : Z; ps_pid : Z; ps_pass : Z; ps_remain : Z; ps_stride : Z; ps_rtime : Z
}.

(** The rows of the arrays, [NPROC] of them in [struct pstat]; the loops over
    them are for any number. *)
Definition pstat := list pstat_row.

Definition getpinfo (a : pstat) : Z * pstat := (0, a).
Definition settickets (n : Z) : Z := 0.

(** ** Numbers *)

Fixpoint itoa_digits (fuel : nat) (m : gmap Z Z) (s i n : Z) : option (gmap Z Z * Z) :=
  match fuel with
  | O => None
  | S fuel =>
      if 0 <? n then itoa_digits fuel (wr m (s + i) (Z.rem n 10 + chr "0")) s (i + 1) (Z.quot n 10)
      else Some (m, i)
  end.

(** [start] and [end_] are indices into [s]. *)
Fixpoint itoa_reverse (fuel : nat) (m : gmap Z Z) (s start end_ : Z) : option (gmap Z Z) :=
  match fuel with
  | O => None
  | S fuel =>
      if start <? end_ then
        let temp := rd m (s + start) in
        let m := wr m (s + start) (rd m (s + end_)) in
        let m := wr m (s + end_) temp in
        itoa_reverse fuel m s (start + 1) (end_ - 1)
      else Some m
  end.

(** 33 turns are enough for the digits of an [int]. *)
Definition itoa (m : gmap Z Z) (n s : Z) : option (gmap Z Z) :=
  if n =? 0 then Some (wr (wr m s (chr "0")) (s + 1) 0) else
  let is_negative := n <? 0 in
  let n := if is_negative then i32 (- n) else n in
  match itoa_digits 33 m s 0 n with
  | None => None
  | Some (m, i) =>
      let '(m, i) := if is_negative then (wr m (s + i) (chr "-"), i + 1) else (m, i) in
      let m := wr m (s + i) 0 in
      itoa_reverse 33 m s 0 (i - 1)
  end.

(** ** The table *)

(** One field: the number in [temp_str], copied to [buffer + offset], and the
    character after it.  [itoa] needs at most 12 bytes. *)
Definition csv_field (m : gmap Z Z) (buffer temp_str offset n sep : Z) : option (gmap Z Z * Z) :=
  match itoa m n temp_str with
  | None => None
  | Some m =>
      match strcpy 13 m (buffer + offset) temp_str with
      | None => None
      | Some m =>
          match ustrlen 13 m temp_str 0 with
          | None => None
          | Some len => let offset := offset + len in Some (wr m (buffer + offset) sep, offset + 1)
          end
      end
  end.

(** The bytes of [n] places from [a]. *)
Definition bytes_from (m : gmap Z Z) (a : Z) (n : nat) : list Z := map (λ i, rd m (a + Z.of_nat i)) (seq 0 n).

Fixpoint csv_fields (m : gmap Z Z) (buffer temp_str offset : Z) (ns : list Z) : option (gmap Z Z * Z) :=
  match ns with
  | [] => Some (m, offset)
  | n :: ns =>
      match csv_field m buffer temp_str offset n (match ns with [] => newline | _ => chr "," end) with
      | None => None
      | Some (m, offset) => csv_fields m buffer temp_str offset ns
      end
  end.

Definition write_csv_line (m : gmap Z Z) (buffer temp_str fd current_time pid tickets pass stride runtime : Z) : uprog unit :=
  match csv_fields m buffer temp_str 0 [current_time; pid; tickets; pass; stride; runtime] with
  | None => PStuck
  | Some (m, offset) =>
      let m := wr m (buffer + offset) 0 in
      pcall (SysWrite fd (bytes_from m buffer (Z.to_nat offset)));;* PRet tt
  end.

(** ** The processes *)

Section Workload.
Context (m : gmap Z Z) (buffer temp_str : Z).

(** The loop over the rows of [ps]. *)
Fixpoint measure_rows (fd curr_time : Z) (ps : pstat) : uprog unit :=
  match ps with
  | [] => PRet tt
  | p :: ps =>
      (if negb (ps_inuse p =? 0) then
         printf 1 (chars "%d" ++ [tab] ++ chars "%d" ++ [tab] ++ chars "%d" ++ [tab] ++ chars "%d" ++ [tab] ++ line "%d")
           [UWord (ps_pid p); UWord (ps_tickets p); UWord (ps_pass p); UWord (ps_stride p); UWord (ps_rtime p)];;*
         write_csv_line m buffer temp_str fd curr_time (ps_pid p) (ps_tickets p) (ps_pass p) (ps_stride p) (ps_rtime p)
       else PRet tt);;*
      measure_rows fd curr_time ps
  end.

Fixpoint measure (counter : nat) (start_time fd : Z) (ps : pstat) : uprog unit :=
  match counter with
  | O => PRet tt
  | S counter =>
      let '(r, ps) := getpinfo ps in
      if negb (r =? 0) then printf 1 (line "Failed to get process info") [];;* PExit else
      let* up := pcall SysUptime in
      let curr_time := i32 (num up - start_time) in
      printf 1 ([newline] ++ line "Process statistics at time %d ticks:") [UWord curr_time];;*
      printf 1 (chars "PID" ++ [tab] ++ chars "Tickets" ++ [tab] ++ chars "Pass" ++ [tab] ++ chars "Stride" ++ [tab] ++ line "Runtime") [];;*
      measure_rows fd curr_time ps;;*
      pcall (SysSleep 50);;*
      measure counter start_time fd ps
  end.

(** The busy loops. *)
Fixpoint busy (duration : nat) (body : uprog unit) : uprog unit :=
  match duration with
  | O => PRet tt
  | S duration => body;;* busy duration body
  end.

Definition long_running_task (duration : nat) : uprog unit := busy duration (busy duration (PRet tt)).

Definition INITIAL_PROCESSES : nat := 10.
Definition ADDITIONAL_PROCESSES : nat := 6.
Definition TOTAL_PROCESSES : nat := INITIAL_PROCESSES + ADDITIONAL_PROCESSES.
Definition WORKLOAD_TIME : nat := 10.

(** [n] values, each made from the one before it. *)
Fixpoint successive (n : nat) (f : Z → Z) (v : Z) : list Z :=
  match n with
  | O => []
  | S n => v :: successive n f (f v)
  end.

Definition ticket_values : list Z :=
  successive INITIAL_PROCESSES (λ v, i32 (v * 2)) 1 ++
  successive ADDITIONAL_PROCESSES (λ v, Z.quot v 4) 128.

(** The loop that starts one process for each of [tickets]. *)
Fixpoint start_processes (tickets : list Z) : uprog unit :=
  match tickets with
  | [] => PRet tt
  | v :: tickets =>
      let* pid := pcall SysFork in
      if num pid <? 0 then printf 1 (line "Fork failed") [];;* PExit
      else if num pid =? 0 then
        let _ := settickets v in
        long_running_task WORKLOAD_TIME;;*
        PExit
      else start_processes tickets
  end.

Fixpoint print_tickets (i : Z) (tickets : list Z) : uprog unit :=
  match tickets with
  | [] => PRet tt
  | v :: tickets => printf 1 (line "%d : %d") [UWord i; UWord v];;* print_tickets (i + 1) tickets
  end.

(** [stride] says which scheduler is built; the [Makefile] defines [RR] or
    [STRIDE]. *)
Definition workload_main (stride : bool) (ps1 ps2 : pstat) : uprog unit :=
  printf 1 (line "STARTING MAIN") [];;*
  printf 1 (line (if stride then "macro = STRIDE" else "macro = RR")) [];;*
  let* r := pcall (SysOpen (chars (if stride then "stride_process_stats.csv" else "rr_process_stats.csv"))
    (Z.lor O_CREATE O_WRONLY)) in
  let fd := num r in
  if fd <? 0 then printf 1 (line "Failed to open file for writing") [];;* PExit else
  pcall (SysWrite fd (line "Time,PID,Tickets,Pass,Stride,Runtime"));;*
  printf 1 (line "tickets are:") [];;*
  print_tickets 0 ticket_values;;*
  printf 1 (line "Starting initial %d processes.") [UWord (Z.of_nat INITIAL_PROCESSES)];;*
  start_processes (take INITIAL_PROCESSES ticket_values);;*
  let* start_time := pcall SysUptime in
  pcall (SysSleep 100);;*
  measure 20 (num start_time) fd ps1;;*
  printf 1 (line "Adding additional %d processes with different tickets.") [UWord (Z.of_nat ADDITIONAL_PROCESSES)];;*
  start_processes (drop INITIAL_PROCESSES ticket_values);;*
  measure 20 (num start_time) fd ps2;;*
  printf 1 (line "Done measuring.") [];;*
  (if 0 <=? fd then pcall (SysClose fd);;* PRet tt else PRet tt);;*
  repeat_call TOTAL_PROCESSES SysWait;;*
  printf 1 (line "All child processes have completed.") [];;*
  PExit.

End Workload.

(** ** Lemmas *)

(** The bytes [l] at [a]. *)
Fixpoint bytes_at (m : gmap Z Z) (a : Z) (l : list Z) : Prop :=
  match l with
  | [] => True
  | c :: l => rd m a = c ∧ bytes_at m (a + 1) l
  end.

Lemma bytes_at_ext m m' a l :
  (∀ x, a <= x < a + Z.of_nat (length l) → rd m' x = rd m x) → bytes_at m a l → bytes_at m' a l.
Proof.
  revert a. induction l as [|c l IH]; intros a E; cbn; [done|]. cbn [length] in E.
  intros [H1 H2]. rewrite E by lia. split; [done|]. apply IH; [|done]. intros x Hx. apply E. lia.
Qed.

Lemma bytes_at_app m a l l' : bytes_at m a (l ++ l') ↔ bytes_at m a l ∧ bytes_at m (a + Z.of_nat (length l)) l'.
Proof.
  revert a. induction l as [|c l IH]; intros a; cbn [app bytes_at length]; [rewrite Z.add_0_r; tauto|].
  rewrite IH. replace (a + 1 + Z.of_nat (length l)) with (a + Z.of_nat (S (length l))) by lia. tauto.
Qed.

Lemma bytes_at_str m a l :
  Forall (λ c, 0 < c < 256) l → bytes_at m a l → rd m (a + Z.of_nat (length l)) = 0 → is_str m a l.
Proof.
  intros Hl. revert a. induction Hl as [|c l Hc Hl IH]; intros a; cbn; [by rewrite Z.add_0_r|].
  intros [H1 H2] H0. split; [done|]. split; [done|]. apply IH; [done|].
  by replace (a + 1 + Z.of_nat (length l)) with (a + Z.of_nat (S (length l))) by lia.
Qed.

Lemma str_bytes_at m a l : is_str m a l → bytes_at m a l.
Proof. revert a. induction l as [|c l IH]; intros a; cbn; [done|]. intros (H1 & _ & H). auto. Qed.

Lemma bytes_from_at m a l : bytes_at m a l → bytes_from m a (length l) = l.
Proof.
  unfold bytes_from. revert a. induction l as [|c l IH]; intros a; [done|]. intros [H1 H2]. cbn [length seq map].
  rewrite Z.add_0_r, H1. f_equal. rewrite <- (IH (a + 1) H2) at 2. rewrite <- seq_shift, map_map. apply map_ext.
  intros i. f_equal. lia.
Qed.

Lemma wr_outside m a v b n : b <= a < b + n → same_outside m (wr m a v) b n.
Proof. intros H x Hx. by rewrite rd_wr, decide_False by lia. Qed.

Lemma itoa_digits_ok f m s i n :
  0 < n < 2 ^ Z.of_nat f →
  let ds := uint_digits f n 10 in
  ∃ m', itoa_digits (S f) m s i n = Some (m', i + Z.of_nat (length ds)) ∧
    bytes_at m' (s + i) ds ∧ same_outside m m' (s + i) (Z.of_nat (length ds)).
Proof.
  revert m i n. induction f as [|f IH]; intros m i n Hn; [cbn in Hn; lia|]. cbn zeta.
  remember (S f) as f1. cbn [itoa_digits]. destruct (Z.ltb_spec 0 n); [|lia]. subst f1. cbn [uint_digits].
  rewrite Z.rem_mod_nonneg, Z.quot_div_nonneg by lia. pose proof (Z.mod_pos_bound n 10 ltac:(lia)).
  rewrite udigits_decimal by lia. change (chr "0") with 48.
  assert (u8 (n mod 10 + 48) = 48 + n mod 10) as Eu by (rewrite u8_small; lia).
  destruct (Z.eqb_spec (n / 10) 0) as [E|E].
  - rewrite E. eexists. split; [destruct f; reflexivity|]. cbn. rewrite rd_wr, decide_True, Eu by done.
    split; [done|]. apply wr_outside. lia.
  - rewrite Nat2Z.inj_succ, Z.pow_succ_r in Hn by lia. pose proof (Z.div_mod n 10 ltac:(lia)).
    pose proof (Z.div_pos n 10 ltac:(lia) ltac:(lia)).
    destruct (IH (wr m (s + i) (n mod 10 + 48)) (i + 1) (n / 10)) as (m' & -> & Hb & Ho); [lia|].
    exists m'. split; [do 2 f_equal; cbn [length]; lia|]. rewrite !Z.add_assoc in *. split.
    + cbn [bytes_at]. split; [|done]. rewrite Ho, rd_wr, decide_True, Eu by (done || lia). done.
    + intros x Hx. cbn [length] in Hx. rewrite Ho by lia. by rewrite rd_wr, decide_False by lia.
Qed.

Lemma itoa_reverse_ok fuel m s start end_ l :
  bytes_at m (s + start) l → Z.of_nat (length l) = end_ - start + 1 → (length l < fuel)%nat → Forall (λ c, 0 <= c < 256) l →
  ∃ m', itoa_reverse fuel m s start end_ = Some m' ∧ bytes_at m' (s + start) (reverse l) ∧
    same_outside m m' (s + start) (Z.of_nat (length l)).
Proof.
  revert fuel m start end_. induction l as [l IH] using (induction_ltof1 _ length). unfold ltof in IH.
  intros [|fuel] m start end_ Hb Hl Hf Hm; [lia|]. cbn [itoa_reverse].
  destruct l as [|x l]; [destruct (Z.ltb_spec start end_); [cbn in Hl; lia|]; by exists m|].
  destruct l as [|y mid _] using rev_ind; [destruct (Z.ltb_spec start end_); [cbn in Hl; lia|]; by exists m|].
  destruct (Z.ltb_spec start end_); [|cbn [length] in Hl; rewrite length_app in Hl; cbn [length] in Hl; lia].
  cbn [length bytes_at] in *. rewrite length_app in *. cbn [length] in *. destruct Hb as [Hx Hb].
  apply bytes_at_app in Hb as [Hmid [Hy _]].
  replace (s + start + 1 + Z.of_nat (length mid)) with (s + end_) in Hy by lia.
  apply Forall_cons in Hm as [Hbx Hm]. apply Forall_app in Hm as [Hm [Hby _]%Forall_cons]. rewrite Hx, Hy.
  set (m1 := wr (wr m (s + start) y) (s + end_) x).
  destruct (IH mid ltac:(lia) fuel m1 (start + 1) (end_ - 1))
    as (m' & -> & Hb' & Ho).
  { rewrite Z.add_assoc. eapply bytes_at_ext; [|done]. intros a Ha. unfold m1. by rewrite !rd_wr, !decide_False by lia. }
  { lia. }
  { lia. }
  { done. }
  exists m'. split; [done|]. rewrite reverse_cons, reverse_app, <- app_assoc. cbn [app].
  rewrite Z.add_assoc in *.
  split; [|intros a Ha; rewrite Ho by lia; unfold m1; by rewrite !rd_wr, !decide_False by lia].
  change (reverse [y]) with [y]. cbn [app bytes_at]. split.
  - rewrite Ho by lia. unfold m1. rewrite rd_wr, decide_False, rd_wr, decide_True by (done || lia). by apply u8_small.
  - apply bytes_at_app. split; [done|]. split; [|done]. rewrite length_reverse.
    replace (s + start + 1 + Z.of_nat (length mid)) with (s + end_) by lia. rewrite Ho by lia.
    unfold m1. rewrite rd_wr, decide_True by done. by apply u8_small.
Qed.

(** [printf] and [itoa] write the same digits. *)
Lemma uint_chars_small n :
  - 2 ^ 31 < n < 2 ^ 31 → n ≠ 0 →
  uint_chars n 10 true = reverse (uint_digits 32 (Z.abs n) 10 ++ (if n <? 0 then [chr "-"] else [])).
Proof.
  intros Hn H0. unfold uint_chars. cbn [andb]. destruct (Z.ltb_spec n 0).
  - rewrite u32_small by lia. by replace (- n) with (Z.abs n) by lia.
  - rewrite u32_small by lia. by replace (Z.abs n) with n by lia.
Qed.

Lemma uint_chars_length n : (0 < length (uint_chars n 10 true) <= 11)%nat.
Proof.
  unfold uint_chars. rewrite length_reverse, length_app.
  assert (∀ x, 0 <= x < 2 ^ 32 → (0 < length (uint_digits 32 x 10) <= 10)%nat) as H
    by (intros x Hx; apply (uint_digits_length 31); [lia..|cbn; lia]).
  destruct (true && (n <? 0)); cbn [length]; [specialize (H (u32 (- n)) (u32_range _))|specialize (H (u32 n) (u32_range _))]; lia.
Qed.

Lemma uint_chars_nonzero n : Forall (λ c, 0 < c < 256) (uint_chars n 10 true).
Proof.
  unfold uint_chars. apply Forall_reverse, Forall_app_2; [|destruct (true && (n <? 0)); repeat constructor].
  eapply Forall_impl; [apply uint_digits_decimal; destruct (true && (n <? 0)); apply u32_range|]. cbn. lia.
Qed.

Lemma itoa_ok m n s :
  - 2 ^ 31 < n < 2 ^ 31 →
  ∃ m', itoa m n s = Some m' ∧ is_str m' s (uint_chars n 10 true) ∧
    same_outside m m' s (Z.of_nat (length (uint_chars n 10 true)) + 1).
Proof.
  intros Hn. unfold itoa. destruct (Z.eqb_spec n 0) as [->|H0].
  { eexists. split; [done|]. change (uint_chars 0 10 true) with [48]. split.
    - cbn [is_str]. rewrite !rd_wr, (decide_False (P := s + 1 = s)), !decide_True by lia. done.
    - intros x Hx. cbn in Hx. by rewrite !rd_wr, !decide_False by lia. }
  assert ((if n <? 0 then i32 (- n) else n) = Z.abs n) as ->
    by (destruct (Z.ltb_spec n 0); [rewrite i32_small by lia|]; lia).
  pose proof (uint_chars_nonzero n) as Hnz. rewrite uint_chars_small in * by done.
  destruct (itoa_digits_ok 32 m s 0 (Z.abs n)) as (m1 & -> & Hb & Ho); [cbn; lia|].
  set (ds := uint_digits 32 (Z.abs n) 10) in *. rewrite Z.add_0_r, Z.add_0_l in *.
  rewrite length_reverse. set (l := ds ++ (if n <? 0 then [chr "-"] else [])) in *.
  assert (∃ m2, (if n <? 0 then (wr m1 (s + Z.of_nat (length ds)) (chr "-"), Z.of_nat (length ds) + 1)
      else (m1, Z.of_nat (length ds))) = (m2, Z.of_nat (length l)) ∧ bytes_at m2 s l ∧
      same_outside m m2 s (Z.of_nat (length l))) as (m2 & -> & Hb2 & Ho2).
  { unfold l. rewrite length_app. destruct (n <? 0); cbn [length].
    - eexists. split; [f_equal; lia|]. split.
      + apply bytes_at_app. split; [|by cbn; rewrite rd_wr, decide_True].
        eapply bytes_at_ext; [|done]. intros x Hx. by rewrite rd_wr, decide_False by lia.
      + intros x Hx. rewrite rd_wr, decide_False by lia. apply Ho. lia.
    - eexists. rewrite Nat.add_0_r, app_nil_r. done. }
  rewrite Forall_reverse in Hnz.
  destruct (itoa_reverse_ok 33 (wr m2 (s + Z.of_nat (length l)) 0) s 0 (Z.of_nat (length l) - 1) l) as (m3 & -> & Hb3 & Ho3).
  { rewrite Z.add_0_r. eapply bytes_at_ext; [|done]. intros x Hx. by rewrite rd_wr, decide_False by lia. }
  { lia. }
  { pose proof (uint_chars_length n) as Hl. rewrite uint_chars_small, length_reverse in Hl by done. fold ds l in Hl. lia. }
  { eapply Forall_impl; [done|]. cbn. lia. }
  rewrite Z.add_0_r in *. exists m3. split; [done|]. split.
  - apply bytes_at_str; [by apply Forall_reverse|done|]. rewrite length_reverse, Ho3, rd_wr, decide_True by lia. done.
  - intros x Hx. rewrite Ho3, rd_wr, decide_False by lia. apply Ho2. lia.
Qed.

Lemma ustrlen_ok fuel m s n l :
  is_str m (s + n) l → (length l < fuel)%nat → 0 <= n → n + Z.of_nat (length l) < 2 ^ 31 →
  ustrlen fuel m s n = Some (n + Z.of_nat (length l)).
Proof.
  revert fuel n. induction l as [|c l IH]; intros [|fuel] n Hs Hf Hn Hl; cbn [length is_str ustrlen] in *; [lia| |lia|].
  - rewrite Hs. cbn. f_equal. lia.
  - destruct Hs as (-> & Hc & Hs). destruct (Z.eqb_spec c 0); [lia|]. rewrite i32_small by lia.
    rewrite IH; [f_equal; lia| |lia..]. by rewrite Z.add_assoc.
Qed.

(** Two regions do not overlap. *)
Definition apart (a n b k : Z) : Prop := a + n <= b ∨ b + k <= a.

(** Memory is the same but for the stack variables. *)
Definition same_but_stack (m m' : gmap Z Z) (buffer temp_str : Z) : Prop :=
  ∀ x, ¬ (buffer <= x < buffer + 256) → ¬ (temp_str <= x < temp_str + 12) → rd m' x = rd m x.

Lemma csv_field_ok m buffer temp_str cur n sep :
  apart buffer 256 temp_str 12 → - 2 ^ 31 < n < 2 ^ 31 → 0 <= sep < 256 →
  Z.of_nat (length cur) + 12 <= 256 → bytes_at m buffer cur →
  ∃ m', csv_field m buffer temp_str (Z.of_nat (length cur)) n sep =
      Some (m', Z.of_nat (length (cur ++ uint_chars n 10 true ++ [sep]))) ∧
    bytes_at m' buffer (cur ++ uint_chars n 10 true ++ [sep]) ∧ same_but_stack m m' buffer temp_str.
Proof.
  intros Hap Hn Hsep Hlen Hcur. unfold csv_field. pose proof (uint_chars_length n) as Hl.
  destruct (itoa_ok m n temp_str Hn) as (m1 & -> & Hs1 & Ho1). set (d := uint_chars n 10 true) in *.
  destruct (strcpy_ok 13 m1 (buffer + Z.of_nat (length cur)) temp_str d Hs1) as (m2 & -> & Hs2 & Ho2); [lia| |].
  { destruct Hap; lia. }
  assert (is_str m2 temp_str d) as Hs3.
  { eapply is_str_ext; [|exact Hs1]. intros x Hx. apply Ho2. destruct Hap; lia. }
  rewrite (ustrlen_ok 13 m2 temp_str 0 d) by (rewrite ?Z.add_0_r; done || lia). rewrite Z.add_0_l, !length_app. cbn [length].
  eexists. split; [do 2 f_equal; lia|]. split.
  - rewrite !bytes_at_app. split; [|split].
    + eapply bytes_at_ext; [|exact Hcur]. intros x Hx. rewrite rd_wr, decide_False, Ho2, Ho1 by (destruct Hap; lia). done.
    + eapply bytes_at_ext; [|by apply str_bytes_at]. intros x Hx. by rewrite rd_wr, decide_False by lia.
    + rewrite Z.add_assoc. cbn [bytes_at]. rewrite rd_wr, decide_True by done. split; [by apply u8_small|done].
  - intros x Hb Ht. rewrite rd_wr, decide_False, Ho2, Ho1 by lia. done.
Qed.

(** The numbers, separated by commas, and a newline. *)
Fixpoint csv_text (ns : list Z) : list Z :=
  match ns with
  | [] => []
  | n :: ns => uint_chars n 10 true ++ [match ns with [] => newline | _ => chr "," end] ++ csv_text ns
  end.

Lemma csv_fields_ok m buffer temp_str cur ns :
  apart buffer 256 temp_str 12 → Forall (λ n, - 2 ^ 31 < n < 2 ^ 31) ns →
  Z.of_nat (length cur) + 12 * Z.of_nat (length ns) <= 256 → bytes_at m buffer cur →
  ∃ m', csv_fields m buffer temp_str (Z.of_nat (length cur)) ns = Some (m', Z.of_nat (length (cur ++ csv_text ns))) ∧
    bytes_at m' buffer (cur ++ csv_text ns) ∧ same_but_stack m m' buffer temp_str.
Proof.
  intros Hap Hns. revert m cur. induction Hns as [|n ns Hn Hns IH]; intros m cur Hlen Hcur; cbn [csv_fields csv_text].
  { rewrite app_nil_r. by exists m. }
  set (sep := match ns with [] => newline | _ => chr "," end). cbn [length] in Hlen.
  assert (0 <= sep < 256) as Hsep by (unfold sep; by destruct ns).
  destruct (csv_field_ok m buffer temp_str cur n sep) as (m1 & -> & Hb1 & Ho1); [done|done|done|lia|done|].
  destruct (IH m1 (cur ++ uint_chars n 10 true ++ [sep])) as (m2 & -> & Hb2 & Ho2); [|done|].
  { rewrite !length_app. cbn [length]. pose proof (uint_chars_length n). lia. }
  rewrite <- !app_assoc in *. exists m2. split; [done|]. split; [done|]. intros x ? ?. by rewrite Ho2, Ho1.
Qed.

Lemma csv_text_length ns : (length (csv_text ns) <= 12 * length ns)%nat.
Proof.
  induction ns as [|n ns IH]; cbn [csv_text length]; [lia|]. rewrite !length_app. cbn [length].
  pose proof (uint_chars_length n). lia.
Qed.

Lemma write_csv_line_does m buffer temp_str fd current_time pid tickets pass stride runtime r :
  apart buffer 256 temp_str 12 →
  Forall (λ n, - 2 ^ 31 < n < 2 ^ 31) [current_time; pid; tickets; pass; stride; runtime] →
  does (write_csv_line m buffer temp_str fd current_time pid tickets pass stride runtime)
    [(SysWrite fd (csv_text [current_time; pid; tickets; pass; stride; runtime]), r)] (Some tt).
Proof.
  intros Hap Hns. unfold write_csv_line. set (ns := [current_time; pid; tickets; pass; stride; runtime]) in *.
  destruct (csv_fields_ok m buffer temp_str [] ns Hap Hns) as (m' & E & Hb & _); [cbn; lia|done|].
  change (Z.of_nat (length [])) with 0 in E. rewrite E, Nat2Z.id. cbn [app] in *.
  rewrite bytes_from_at; [repeat constructor|]. eapply bytes_at_ext; [|exact Hb]. intros x Hx.
  by rewrite rd_wr, decide_False by lia.
Qed.

(** The run that prints the rows in use and writes their lines. *)
Fixpoint rows_run (fd time : Z) (ps : pstat) (t : list (sys * reply)) : Prop :=
  match ps with
  | [] => t = []
  | p :: ps =>
      if ps_inuse p =? 0 then rows_run fd time ps t else
      ∃ t1 r t2,
        prints 1 (chars "%d" ++ [tab] ++ chars "%d" ++ [tab] ++ chars "%d" ++ [tab] ++ chars "%d" ++ [tab] ++ line "%d")
          [UWord (ps_pid p); UWord (ps_tickets p); UWord (ps_pass p); UWord (ps_stride p); UWord (ps_rtime p)] t1 ∧
        t = t1 ++ [(SysWrite fd (csv_text [time; ps_pid p; ps_tickets p; ps_pass p; ps_stride p; ps_rtime p]), r)] ++ t2 ∧
        rows_run fd time ps t2
  end.

Definition small (n : Z) : Prop := - 2 ^ 31 < n < 2 ^ 31.

Definition row_ok (p : pstat_row) : Prop :=
  Forall small [ps_pid p; ps_tickets p; ps_pass p; ps_stride p; ps_rtime p].

(** One turn of [measure], at the time [up]. *)
Definition turn_run (start_time fd : Z) (ps : pstat) (t : list (sys * reply)) : Prop :=
  ∃ up t1 t2 t3 r, small (up - start_time) ∧
    prints 1 ([newline] ++ line "Process statistics at time %d ticks:") [UWord (up - start_time)] t1 ∧
    prints 1 (chars "PID" ++ [tab] ++ chars "Tickets" ++ [tab] ++ chars "Pass" ++ [tab] ++ chars "Stride" ++ [tab] ++ line "Runtime") [] t2 ∧
    rows_run fd (up - start_time) ps t3 ∧
    t = [(SysUptime, Num up)] ++ t1 ++ t2 ++ t3 ++ [(SysSleep 50, r)].

Lemma measure_rows_does m buffer temp_str fd time ps t :
  apart buffer 256 temp_str 12 → small time → Forall row_ok ps → rows_run fd time ps t →
  does (measure_rows m buffer temp_str fd time ps) t (Some tt).
Proof.
  intros Hap Htime Hps. revert t. induction Hps as [|p ps Hp Hps IH]; intros t; cbn [rows_run measure_rows].
  { intros ->. constructor. }
  destruct (ps_inuse p =? 0); cbn [negb]; [intros Ht; by apply IH|]. intros (t1 & r & t2 & Ht1 & -> & Ht2).
  rewrite (app_assoc t1). eapply does_bind; [|by apply IH]. eapply does_bind.
  - apply printf_does; [exact Ht1|]. by apply (bool_decide_unpack _).
  - apply write_csv_line_does; [done|]. constructor; [exact Htime|exact Hp].
Qed.

Lemma measure_does m buffer temp_str start_time fd ps turns :
  apart buffer 256 temp_str 12 → Forall row_ok ps → Forall (turn_run start_time fd ps) turns →
  does (measure m buffer temp_str (length turns) start_time fd ps) (mjoin turns) (Some tt).
Proof.
  intros Hap Hps. induction 1 as [|t turns (up & t1 & t2 & t3 & r & Hs & Ht1 & Ht2 & Ht3 & ->) Hts IH]; [apply does_ret|].
  change (mjoin (?x :: ?l)) with (x ++ mjoin l). rewrite <- !app_assoc. cbn [length measure getpinfo Z.eqb negb].
  apply does_call_bind. cbn [num]. rewrite i32_small by (unfold small in Hs; lia).
  eapply does_bind; [apply printf_does; [exact Ht1|by apply (bool_decide_unpack _)]|].
  eapply does_bind; [apply printf_does; [exact Ht2|by apply (bool_decide_unpack _)]|].
  eapply does_bind; [by apply measure_rows_does|]. by apply does_call_bind.
Qed.

(** ** Properties *)

(** [itoa] writes the characters that [printf] prints for the number, with
    a NUL, into 12 bytes; but for the least [int] it writes only the sign. *)
Theorem itoa_correct (m : gmap Z Z) (n s : Z) (Hn : - 2 ^ 31 <= n < 2 ^ 31) :
  ∃ m', itoa m n s = Some m' ∧ same_outside m m' s 12 ∧
    is_str m' s (if n =? - 2 ^ 31 then chars "-" else uint_chars n 10 true).
Proof.
  destruct (Z.eqb_spec n (- 2 ^ 31)) as [->|Hne].
  - exists (wr (wr m (s + 0) 45) (s + (0 + 1)) 0). split; [reflexivity|]. split.
    + intros x Hx. by rewrite !rd_wr, !decide_False by lia.
    + change (chars "-") with [45]. cbn [is_str]. rewrite !rd_wr, (decide_False (P := s + (0 + 1) = s)), !decide_True by lia. done.
  - destruct (itoa_ok m n s) as (m' & E & Hs & Ho); [lia|]. exists m'. split; [done|]. split; [|done].
    pose proof (uint_chars_length n). intros x Hx. apply Ho. lia.
Qed.

(** [write_csv_line] writes its numbers, separated by commas, with one
    call of [write]; the line takes at most 72 of the 256 bytes of the buffer. *)
Theorem csv_line_correct (m : gmap Z Z) (buffer temp_str fd current_time pid tickets pass stride runtime : Z) (r : reply)
    (Hap : apart buffer 256 temp_str 12)
    (Hns : Forall small [current_time; pid; tickets; pass; stride; runtime]) :
  let cs := csv_text [current_time; pid; tickets; pass; stride; runtime] in
  does (write_csv_line m buffer temp_str fd current_time pid tickets pass stride runtime) [(SysWrite fd cs, r)] (Some tt) ∧
  (length cs <= 72)%nat.
Proof.
  split; [by apply write_csv_line_does|].
  apply (csv_text_length [current_time; pid; tickets; pass; stride; runtime]).
Qed.

(** C36: [measure] prints, in every turn, the rows that [ps] held when it was
    called: nothing that the kernel knows about its processes reaches the
    table. *)
Theorem measure_prints_stack (m : gmap Z Z) (buffer temp_str start_time fd : Z) (ps : pstat) (turns : list (list (sys * reply)))
    (Hap : apart buffer 256 temp_str 12) (Hps : Forall row_ok ps) (Hturns : Forall (turn_run start_time fd ps) turns) :
  does (measure m buffer temp_str (length turns) start_time fd ps) (mjoin turns) (Some tt).
Proof. by apply measure_does. Qed.

(** The tickets of the processes, as the code computes them; the process
    that [workload] starts for each of them makes no system call but [exit]. *)
Theorem workload_tickets (v : Z) (vs : list Z) :
  ticket_values = [1; 2; 4; 8; 16; 32; 64; 128; 256; 512; 128; 32; 8; 2; 0; 0] ∧
  does (start_processes (v :: vs)) [(SysFork, Num 0)] None.
Proof. split; [reflexivity|]. apply does_call_bind. cbn [num Z.ltb Z.compare Z.eqb settickets]. constructor. Qed.

(** ** Witnesses *)

Lemma itoa_correct_witness :
  ∃ m', itoa ∅ (-120) 10 = Some m' ∧ same_outside ∅ m' 10 12 ∧ is_str m' 10 (chars "-120").
Proof. apply (itoa_correct ∅ (-120) 10). lia. Defined.

Lemma csv_line_correct_witness :
  does (write_csv_line ∅ 1000 2000 3 50 2 8 0 (-1) 7) [(SysWrite 3 (line "50,2,8,0,-1,7"), Num 14)] (Some tt) ∧
  (length (line "50,2,8,0,-1,7") <= 72)%nat.
Proof.
  apply (csv_line_correct ∅ 1000 2000 3 50 2 8 0 (-1) 7 (Num 14)); [left; lia|].
  repeat (apply Forall_cons_2; [split; reflexivity|]). constructor.
Defined.

Lemma prints_as fd fmt ap cs rs :
  bool_decide (text fmt ap = Some cs ∧ length rs = length cs) = true → prints fd fmt ap (writes fd cs rs).
Proof. intros [H1 H2]%bool_decide_eq_true. by exists cs, rs. Qed.

(** What [measure] prints at the time 50, and for the process with id 2. *)
Definition head_run : list (sys * reply) :=
  writes 1 ([newline] ++ line "Process statistics at time 50 ticks:") (replicate 38 (Num 1)).
Definition title_run : list (sys * reply) :=
  writes 1 (chars "PID" ++ [tab] ++ chars "Tickets" ++ [tab] ++ chars "Pass" ++ [tab] ++ chars "Stride" ++ [tab] ++ line "Runtime")
    (replicate 32 (Num 1)).
Definition row_run : list (sys * reply) :=
  writes 1 (chars "2" ++ [tab] ++ chars "8" ++ [tab] ++ chars "0" ++ [tab] ++ chars "5" ++ [tab] ++ line "7")
    (replicate 10 (Num 1)).

Lemma measure_prints_stack_witness :
  does (measure ∅ 1000 2000 1 10 3 [Row 0 9 9 9 9 9 9; Row 1 8 2 0 0 5 7])
    (mjoin [[(SysUptime, Num 60)] ++ head_run ++ title_run ++
       (row_run ++ [(SysWrite 3 (line "50,2,8,0,5,7"), Num 13)] ++ []) ++ [(SysSleep 50, Num 0)]]) (Some tt).
Proof.
  apply (measure_prints_stack ∅ 1000 2000 10 3 _ [_]).
  - left. lia.
  - apply Forall_cons_2; [|apply Forall_cons_2; [|constructor]];
      (repeat (apply Forall_cons_2; [split; reflexivity|])); constructor.
  - apply Forall_cons_2; [|constructor].
    exists 60, head_run, title_run, (row_run ++ [(SysWrite 3 (line "50,2,8,0,5,7"), Num 13)] ++ []), (Num 0).
    split; [split; reflexivity|]. split; [apply prints_as; vm_compute; reflexivity|].
    split; [apply prints_as; vm_compute; reflexivity|]. split; [|reflexivity].
    exists row_run, (Num 13), []. split; [apply prints_as; vm_compute; reflexivity|]. split; reflexivity.
Defined.
