(* ===== verification/Sh.v ===== *)
(** The shell, [sh.c]: its parser, and the system calls it makes for a
    command.

    The line is the list of its bytes before the terminating NUL, and a
    pointer into it is the rest of the line from there. *)

From Stdlib Require Import ZArith Lia Ascii.
From stdpp Require Import base list strings.
From S2P Require Import Prelude Kbd.
#[local] Open Scope Z_scope.

(** ** Commands *)

Definition MAXARGS : nat := 10.

(** A counted string: a pointer to its start and one past its end. *)
Notation token := (list Z * list Z)%type.

(** The nodes of the tree.  The functions that make them call [malloc] and do
    not look at a null result; here there is memory for every node. *)
Inductive cmd :=
| Exec (argv : list token)
| Redir (c : cmd) (file : token) (mode fd : Z)
| Pipe (left right : cmd)
| Lst (left right : cmd)
| Back (c : cmd).

(** What a parsing function returns: a value, the message of [panic], or that
    the model ran out of fuel. *)
Inductive res (A : Type) := Ok (a : A) | Err (msg : string) | Fuel.
Arguments Ok {A}.
Arguments Err {A}.
Arguments Fuel {A}.

Definition rbind {A B} (m : res A) (f : A → res B) : res B :=
  match m with Ok a => f a | Err msg => Err msg | Fuel => Fuel end.
Notation "'do!' x ':=' m 'in' k" := (rbind m (λ x, k))
  (at level 100, x pattern, m at level 90, k at level 100, right associativity).

(** ** Tokens *)

Definition whitespace : list Z := [chr " "; tab; 13; newline; 11].
Definition symbols : list Z := chars "<|>&;()".

(** [strchr(set, c)] for a set without NULs. *)
Definition in_set (set : list Z) (c : Z) : bool := existsb (Z.eqb c) set.
Arguments in_set : simpl never.

Fixpoint skip_ws (s : list Z) : list Z :=
  match s with
  | c :: t => if in_set whitespace c then skip_ws t else s
  | [] => []
  end.

Fixpoint skip_word (s : list Z) : list Z :=
  match s with
  | c :: t => if negb (in_set whitespace c) && negb (in_set symbols c) then skip_word t else s
  | [] => []
  end.

(** The kind of the token, its text, and the rest of the line. *)
Definition gettoken (s : list Z) : Z * token * list Z :=
  let q := skip_ws s in
  let '(ret, e) :=
    match q with
    | [] => (0, q)
    | c :: t =>
        if in_set (chars "|();&<") c then (c, t)
        else if c =? chr ">" then
          match t with
          | c2 :: t2 => if c2 =? chr ">" then (chr "+", t2) else (c, t)
          | [] => (c, t)
          end
        else (chr "a", skip_word q)
    end in
  (ret, (q, e), skip_ws e).

(** [peek] moves the pointer past white space. *)
Definition peek (s toks : list Z) : bool * list Z :=
  let s := skip_ws s in
  (match s with c :: _ => in_set toks c | [] => false end, s).

(** ** The parser *)

Definition O_RDONLY : Z := 0.
Definition O_WRONLY : Z := 1.
Definition O_CREATE : Z := 0x200.

(** The redirections [parseredirs] wraps around a command, first one
    innermost: file, mode and descriptor. *)
Notation redir := (token * Z * Z)%type.

Definition wrap (c : cmd) (rs : list redir) : cmd :=
  fold_left (λ c '(file, mode, fd), Redir c file mode fd) rs c.

Definition redir_of (tok : Z) (file : token) : list redir :=
  if tok =? chr "<" then [(file, O_RDONLY, 0)]
  else if (tok =? chr ">") || (tok =? chr "+") then [(file, Z.lor O_WRONLY O_CREATE, 1)]
  else [].

Fixpoint parseredirs (fuel : nat) (s : list Z) : res (list redir * list Z) :=
  match fuel with
  | O => Fuel
  | S fuel =>
      let '(p, s) := peek s (chars "<>") in
      if negb p then Ok ([], s) else
      let '(tok, _, s) := gettoken s in
      let '(k, file, s) := gettoken s in
      if negb (k =? chr "a") then Err "missing file for redirection" else
      do! (rs, s) := parseredirs fuel s in
      Ok (redir_of tok file ++ rs, s)
  end.

(** The loop of [parseexec]: the arguments, the redirections among them, and
    the rest.  The node of the command is shared with the redirections
    already around it, so its arguments appear inside them. *)
Fixpoint parseargs (fuel argc : nat) (s : list Z) : res (list token * list redir * list Z) :=
  match fuel with
  | O => Fuel
  | S fuel =>
      let '(p, s) := peek s (chars "|)&;") in
      if p then Ok ([], [], s) else
      let '(tok, word, s) := gettoken s in
      if tok =? 0 then Ok ([], [], s) else
      if negb (tok =? chr "a") then Err "syntax" else
      if (MAXARGS <=? S argc)%nat then Err "too many args" else
      do! (rs, s) := parseredirs (S (length s)) s in
      do! (ws, rs', s) := parseargs fuel (S argc) s in
      Ok (word :: ws, rs ++ rs', s)
  end.

(** The loop over [&] in [parseline]. *)
Fixpoint parseback (fuel : nat) (c : cmd) (s : list Z) : res (cmd * list Z) :=
  match fuel with
  | O => Fuel
  | S fuel =>
      let '(p, s) := peek s (chars "&") in
      if negb p then Ok (c, s) else
      let '(_, _, s) := gettoken s in
      parseback fuel (Back c) s
  end.

Fixpoint parseline (fuel : nat) (s : list Z) : res (cmd * list Z) :=
  match fuel with
  | O => Fuel
  | S fuel =>
      do! (c, s) := parsepipe fuel s in
      do! (c, s) := parseback (S (length s)) c s in
      let '(p, s) := peek s (chars ";") in
      if negb p then Ok (c, s) else
      let '(_, _, s) := gettoken s in
      do! (r, s) := parseline fuel s in
      Ok (Lst c r, s)
  end
with parsepipe (fuel : nat) (s : list Z) : res (cmd * list Z) :=
  match fuel with
  | O => Fuel
  | S fuel =>
      do! (c, s) := parseexec fuel s in
      let '(p, s) := peek s (chars "|") in
      if negb p then Ok (c, s) else
      let '(_, _, s) := gettoken s in
      do! (r, s) := parsepipe fuel s in
      Ok (Pipe c r, s)
  end
with parseexec (fuel : nat) (s : list Z) : res (cmd * list Z) :=
  match fuel with
  | O => Fuel
  | S fuel =>
      let '(p, s) := peek s (chars "(") in
      if p then parseblock fuel s else
      do! (rs, s) := parseredirs (S (length s)) s in
      do! (ws, rs', s) := parseargs (S (length s)) 0 s in
      Ok (wrap (Exec ws) (rs ++ rs'), s)
  end
with parseblock (fuel : nat) (s : list Z) : res (cmd * list Z) :=
  match fuel with
  | O => Fuel
  | S fuel =>
      let '(p, s) := peek s (chars "(") in
      if negb p then Err "parseblock" else
      let '(_, _, s) := gettoken s in
      do! (c, s) := parseline fuel s in
      let '(p, s) := peek s (chars ")") in
      if negb p then Err "syntax - missing )" else
      let '(_, _, s) := gettoken s in
      do! (rs, s) := parseredirs (S (length s)) s in
      Ok (wrap c rs, s)
  end.

(** [parsecmd] before [nulterminate]: the command, or what is left over.  Each
    call of the four functions above uses one unit of fuel, and at most four
    of them start at one byte. *)
Definition parse (s : list Z) : res (cmd + list Z) :=
  do! (c, s) := parseline (4 * length s + 4) s in
  let '(_, s) := peek s [] in
  Ok (if bool_decide (s = []) then inl c else inr s).

(** The positions at which [nulterminate] stores a NUL, in order: one past
    the end of every string. *)
Fixpoint nul_ends (c : cmd) : list (list Z) :=
  match c with
  | Exec argv => snd <$> argv
  | Redir c file _ _ => nul_ends c ++ [snd file]
  | Pipe l r | Lst l r => nul_ends l ++ nul_ends r
  | Back c => nul_ends c
  end.

(** The buffer of [n] bytes and its NUL, after the stores. *)
Definition nulterminate (buf : list Z) (c : cmd) : list Z :=
  foldl (λ b e, <[(length buf - length e)%nat:=0]> b) (buf ++ [0]) (nul_ends c).

(** The command and the buffer, or what is left over. *)
Definition parsecmd (s : list Z) : res (cmd * list Z + list Z) :=
  do! r := parse s in
  Ok (match r with inl c => inl (c, nulterminate s c) | inr l => inr l end).

(** The string a pointer [q] points to in a buffer of [n + 1] bytes. *)
Fixpoint cstr (b : list Z) : list Z :=
  match b with [] => [] | c :: b => if c =? 0 then [] else c :: cstr b end.
Definition string_at (n : nat) (b : list Z) (q : list Z) : list Z := cstr (drop (n - length q) b).

(** ** Running a command *)

(** The system calls of the shell.  [Fork] returns in both processes. *)
Inductive sys :=
| SExec (path : list Z) (argv : list (list Z)) | SOpen (path : list Z) (mode : Z) | SClose (fd : Z)
| SDup (fd : Z) | SPipe | SFork | SWait | SPrint (fd : Z) (fmt : string) (arg : list Z) | SChdir (path : list Z)
| SRead.

(** A program: a call and what follows for each result, until [exit].  The
    results of [SPipe] are both descriptors, that of [SRead] the line. *)
Inductive answer := Num (n : Z) | Fds (p0 p1 : Z) | Line (l : list Z).
Inductive prog := Exit | Call (c : sys) (k : answer → prog).

Definition num (a : answer) : Z := match a with Num n => n | _ => 0 end.
(** A call whose result is not looked at. *)
Definition call (c : sys) (k : prog) : prog := Call c (λ _, k).

Definition sh_panic (msg : string) : prog := call (SPrint 2 msg []) Exit.

Definition fork1 (k : Z → prog) : prog :=
  Call SFork (λ r, if num r =? -1 then sh_panic "fork" else k (num r)).

(** The strings of the command after [nulterminate]. *)
Fixpoint runcmd (str : list Z → list Z) (c : cmd) : prog :=
  match c with
  | Exec [] => Exit
  | Exec ((q, _) :: _ as argv) =>
      call (SExec (str q) ((λ t, str (fst t)) <$> argv))
        (call (SPrint 2 "exec %s failed" (str q)) Exit)
  | Redir c file mode fd =>
      call (SClose fd)
        (Call (SOpen (str (fst file)) mode) (λ r,
          if num r <? 0 then call (SPrint 2 "open %s failed" (str (fst file))) Exit
          else runcmd str c))
  | Lst l r =>
      fork1 (λ pid, if pid =? 0 then runcmd str l else call SWait (runcmd str r))
  | Pipe l r =>
      Call SPipe (λ a,
        match a with
        | Fds p0 p1 =>
            fork1 (λ pid,
              if pid =? 0 then
                call (SClose 1) (call (SDup p1) (call (SClose p0) (call (SClose p1) (runcmd str l))))
              else
                fork1 (λ pid,
                  if pid =? 0 then
                    call (SClose 0) (call (SDup p0) (call (SClose p0) (call (SClose p1) (runcmd str r))))
                  else
                    call (SClose p0) (call (SClose p1) (call SWait (call SWait Exit)))))
        | _ => sh_panic "pipe"
        end)
  | Back c => fork1 (λ pid, if pid =? 0 then runcmd str c else Exit)
  end.

(** [getcmd] and the body of the main loop.  [Line] is what [gets] left in the
    buffer of 100 bytes. *)
Fixpoint sh_loop (turns : nat) : prog :=
  match turns with
  | O => Exit
  | S turns =>
      call (SPrint 2 "$ " []) (Call SRead (λ a,
        match a with
        | Line [] => Exit
        | Line buf =>
            if bool_decide (take 3 buf = chars "cd ") then
              let dir := drop 3 (removelast buf) in
              Call (SChdir dir) (λ r,
                if num r <? 0 then call (SPrint 2 "cannot cd %s" dir) (sh_loop turns) else sh_loop turns)
            else
              fork1 (λ pid,
                if pid =? 0 then
                  match parsecmd buf with
                  | Ok (inl (c, b)) => runcmd (string_at (length buf) b) c
                  | Ok (inr l) => call (SPrint 2 "leftovers: %s" l) (sh_panic "syntax")
                  | Err msg => sh_panic msg
                  | Fuel => Exit
                  end
                else call SWait (sh_loop turns))
        | _ => Exit
        end))
  end.

(** [main]: three descriptors are open before the first command. *)
Definition O_RDWR : Z := 2.
Fixpoint sh_open (n turns : nat) : prog :=
  match n with
  | O => Exit
  | S n =>
      Call (SOpen (chars "console") O_RDWR) (λ r,
        if num r <? 0 then sh_loop turns
        else if 3 <=? num r then call (SClose (num r)) (sh_loop turns)
        else sh_open n turns)
  end.

(** ** Termination *)

Lemma length_skip_ws s : (length (skip_ws s) <= length s)%nat.
Proof. induction s as [|c s IH]; cbn [skip_ws length]; [done|]. case_match; cbn [length]; lia. Qed.

Lemma length_skip_word s : (length (skip_word s) <= length s)%nat.
Proof. induction s as [|c s IH]; cbn [skip_word length]; [done|]. case_match; cbn [length]; lia. Qed.

Lemma skip_ws_head s c t : skip_ws s = c :: t → in_set whitespace c = false.
Proof.
  induction s as [|c' s IH]; cbn [skip_ws]; [done|]. destruct (in_set whitespace c') eqn:E; [done|]. by intros [= <- <-].
Qed.

(** A character that starts no other token is part of a word. *)
Lemma word_char c :
  in_set (chars "|();&<") c = false → c ≠ chr ">" → in_set symbols c = false.
Proof.
  intros H Hc. unfold in_set, symbols in *. cbn in *. repeat rewrite orb_false_iff in *.
  rewrite (proj2 (Z.eqb_neq c _) Hc). tauto.
Qed.

Lemma gettoken_length s r t s' :
  gettoken s = (r, t, s') →
  (length s' <= length s)%nat ∧ (skip_ws s ≠ [] → (length s' < length s)%nat).
Proof.
  unfold gettoken. pose proof (length_skip_ws s) as Hs.
  destruct (skip_ws s) as [|c q] eqn:E.
  - intros [= <- <- <-]. cbn. split; [lia|done].
  - pose proof (skip_ws_head _ _ _ E) as Hw. cbn [length] in Hs.
    assert (∀ e, (length e <= length q)%nat → (length (skip_ws e) < length s)%nat) as He.
    { intros e ?. pose proof (length_skip_ws e). lia. }
    destruct (in_set (chars "|();&<") c) eqn:E1; [intros [= <- <- <-]; split; [|intros _]; specialize (He q); lia|].
    destruct (Z.eqb_spec c (chr ">")) as [->|Hc].
    + destruct q as [|c2 q2]; [intros [= <- <- <-]; split; [|intros _]; specialize (He []); cbn in *; lia|].
      destruct (c2 =? chr ">"); intros [= <- <- <-]; split; try intros _.
      1-2: specialize (He q2); cbn in *; lia.
      1-2: specialize (He (c2 :: q2)); cbn in *; lia.
    + intros [= <- <- <-]. cbn [skip_word]. rewrite Hw, (word_char c E1 Hc). cbn [negb andb].
      pose proof (length_skip_word q). specialize (He (skip_word q)). split; [|intros _]; lia.
Qed.

Lemma peek_spec s toks p s' :
  peek s toks = (p, s') → s' = skip_ws s ∧ (length s' <= length s)%nat ∧ (p = true → skip_ws s' ≠ []).
Proof.
  unfold peek. intros [= <- <-]. split_and!; [done|apply length_skip_ws|].
  destruct (skip_ws s) as [|c t] eqn:E; [done|]. intros _. cbn. by rewrite (skip_ws_head _ _ _ E).
Qed.

(** A token behind a successful [peek] is not empty. *)
Lemma peek_gettoken s toks s1 r t s2 :
  peek s toks = (true, s1) → gettoken s1 = (r, t, s2) → (length s2 < length s)%nat.
Proof.
  intros (_ & H1 & H2)%peek_spec [_ H3]%gettoken_length. specialize (H3 (H2 eq_refl)). lia.
Qed.

(** A result that is not [Fuel], with a rest no longer than [n]. *)
Definition consumes {A} (n : nat) (r : res (A * list Z)) : Prop :=
  match r with Ok (_, s) => (length s <= n)%nat | Err _ => True | Fuel => False end.

Lemma consumes_bind {A B} n n' (m : res (A * list Z)) (f : A * list Z → res (B * list Z)) :
  consumes n m → (∀ a s, (length s <= n)%nat → consumes n' (f (a, s))) → consumes n' (rbind m f).
Proof. destruct m as [[a s]| |]; cbn; auto. Qed.

Lemma consumes_mono {A} n n' (r : res (A * list Z)) : (n <= n')%nat → consumes n r → consumes n' r.
Proof. destruct r as [[a s]| |]; cbn; [lia|done|done]. Qed.

Lemma parseredirs_total fuel s : (length s < fuel)%nat → consumes (length s) (parseredirs fuel s).
Proof.
  revert s. induction fuel as [|fuel IH]; intros s Hf; [lia|]. cbn [parseredirs].
  destruct (peek s _) as [p s1] eqn:Ep. pose proof (peek_spec _ _ _ _ Ep) as (_ & H1 & _).
  destruct p; cbn [negb]; [|done]. destruct (gettoken s1) as [[tok t] s2] eqn:E2.
  pose proof (peek_gettoken _ _ _ _ _ _ Ep E2) as H2.
  destruct (gettoken s2) as [[k file] s3] eqn:E3. apply gettoken_length in E3 as [H3 _].
  destruct (negb _); [done|]. eapply consumes_bind; [apply IH; lia|]. cbn. lia.
Qed.

Lemma parseargs_total fuel argc s :
  (length s < fuel)%nat → consumes (length s) (parseargs fuel argc s).
Proof.
  revert argc s. induction fuel as [|fuel IH]; intros argc s Hf; [lia|]. cbn [parseargs].
  destruct (peek s _) as [p s1] eqn:Ep. pose proof (peek_spec _ _ _ _ Ep) as (Es1 & H1 & _).
  destruct p; [done|]. destruct (gettoken s1) as [[tok word] s2] eqn:E2.
  pose proof (gettoken_length _ _ _ _ E2) as [H2 H2'].
  destruct (Z.eqb_spec tok 0) as [|Ht]; [cbn; lia|]. destruct (negb _); [done|]. destruct (_ <=? _)%nat; [done|].
  assert (length s2 < length s)%nat as Hlt.
  { assert (skip_ws s1 ≠ []) as Hne by (intros E; unfold gettoken in E2; rewrite E in E2; congruence).
    specialize (H2' Hne). lia. }
  eapply consumes_bind; [apply parseredirs_total; lia|]. intros rs s3 H3.
  eapply consumes_bind; [eapply consumes_mono, (IH (S argc) s3); [reflexivity|lia]|]. intros [ws rs'] s4 H4. cbn. lia.
Qed.

Lemma parseback_total fuel c s : (length s < fuel)%nat → consumes (length s) (parseback fuel c s).
Proof.
  revert c s. induction fuel as [|fuel IH]; intros c s Hf; [lia|]. cbn [parseback].
  destruct (peek s _) as [p s1] eqn:Ep. pose proof (peek_spec _ _ _ _ Ep) as (_ & H1 & _).
  destruct p; cbn [negb]; [|done]. destruct (gettoken s1) as [[tok t] s2] eqn:E2.
  pose proof (peek_gettoken _ _ _ _ _ _ Ep E2) as H2. eapply consumes_mono, IH; lia.
Qed.

Lemma parser_total fuel :
  (∀ s, (4 * length s + 3 < fuel)%nat → consumes (length s) (parseline fuel s)) ∧
  (∀ s, (4 * length s + 2 < fuel)%nat → consumes (length s) (parsepipe fuel s)) ∧
  (∀ s, (4 * length s + 1 < fuel)%nat → consumes (length s) (parseexec fuel s)) ∧
  (∀ s, (4 * length s < fuel)%nat → consumes (length s) (parseblock fuel s)).
Proof.
  induction fuel as [|fuel (IHl & IHp & IHe & IHb)]; [split_and!; intros; lia|].
  split_and!; intros s Hf; cbn [parseline parsepipe parseexec parseblock].
  - eapply consumes_bind; [apply IHp; lia|]. intros c s1 H1.
    eapply consumes_bind; [eapply consumes_mono, parseback_total; [exact H1|lia]|]. intros c' s2 H2.
    destruct (peek s2 _) as [p s3] eqn:Ep. pose proof (peek_spec _ _ _ _ Ep) as (_ & H3 & _).
    destruct p; cbn [negb]; [|cbn; lia]. destruct (gettoken s3) as [[tok t] s4] eqn:E4.
    pose proof (peek_gettoken _ _ _ _ _ _ Ep E4) as H4.
    eapply consumes_bind; [apply IHl; lia|]. cbn. intros _ s5 H5. lia.
  - eapply consumes_bind; [apply IHe; lia|]. intros c s1 H1.
    destruct (peek s1 _) as [p s3] eqn:Ep. pose proof (peek_spec _ _ _ _ Ep) as (_ & H3 & _).
    destruct p; cbn [negb]; [|cbn; lia]. destruct (gettoken s3) as [[tok t] s4] eqn:E4.
    pose proof (peek_gettoken _ _ _ _ _ _ Ep E4) as H4.
    eapply consumes_bind; [apply IHp; lia|]. cbn. intros _ s5 H5. lia.
  - destruct (peek s _) as [p s1] eqn:Ep. pose proof (peek_spec _ _ _ _ Ep) as (_ & H1 & _).
    destruct p; [eapply consumes_mono, IHb; lia|].
    eapply consumes_bind; [apply parseredirs_total; lia|]. intros rs s2 H2.
    eapply consumes_bind; [eapply consumes_mono, parseargs_total; [reflexivity|lia]|].
    intros [ws rs'] s3 H3. cbn. lia.
  - destruct (peek s _) as [p s1] eqn:Ep. pose proof (peek_spec _ _ _ _ Ep) as (_ & H1 & _).
    destruct p; cbn [negb]; [|done]. destruct (gettoken s1) as [[tok t] s2] eqn:E2.
    pose proof (peek_gettoken _ _ _ _ _ _ Ep E2) as H2.
    eapply consumes_bind; [apply IHl; lia|]. intros c s3 H3.
    destruct (peek s3 _) as [p' s4] eqn:Ep'. pose proof (peek_spec _ _ _ _ Ep') as (_ & H4 & _).
    destruct p'; cbn [negb]; [|done]. destruct (gettoken s4) as [[tok' t'] s5] eqn:E5.
    pose proof (peek_gettoken _ _ _ _ _ _ Ep' E5) as H5.
    eapply consumes_bind; [apply parseredirs_total; lia|]. cbn. lia.
Qed.

(** C32: The shell's parser terminates on every line: [parsecmd] finds a command
    or stops with a message, and never recurses without consuming input. *)
Theorem parse_terminates (s : list Z) :
  (∃ c b, parsecmd s = Ok (inl (c, b))) ∨ (∃ l, parsecmd s = Ok (inr l)) ∨ (∃ msg, parsecmd s = Err msg).
Proof.
  unfold parsecmd, parse. destruct (parser_total (4 * length s + 4)) as (H & _).
  specialize (H s ltac:(lia)). destruct (parseline _ s) as [[c s1]|msg|]; cbn in *; [|eauto|done].
  case_bool_decide; eauto.
Qed.

(** ** The strings of a command *)

Definition wordch (c : Z) : bool := negb (in_set whitespace c) && negb (in_set symbols c).

(** A word of the line: not empty, and it ends where it has to. *)
Definition word_in (s : list Z) (t : token) : Prop :=
  ∃ pre w, s = pre ++ w ++ t.2 ∧ t.1 = w ++ t.2 ∧ w ≠ [] ∧ Forall (λ c, wordch c = true) w ∧
    match t.2 with [] => True | c :: _ => wordch c = false end.

Fixpoint tokens (c : cmd) : list token :=
  match c with
  | Exec argv => argv
  | Redir c file _ _ => tokens c ++ [file]
  | Pipe l r | Lst l r => tokens l ++ tokens r
  | Back c => tokens c
  end.

Lemma word_in_suffix s s' t : s' `suffix_of` s → word_in s' t → word_in s t.
Proof.
  intros [k ->] (pre & w & -> & H). exists (k ++ pre), w. by rewrite <- app_assoc.
Qed.

Lemma suffix_skip_ws s : skip_ws s `suffix_of` s.
Proof.
  induction s as [|c s IH]; cbn [skip_ws]; [done|]. case_match; [by apply suffix_cons_r|done].
Qed.

Lemma skip_word_spec s : ∃ w, s = w ++ skip_word s ∧ Forall (λ c, wordch c = true) w ∧
  match skip_word s with [] => True | c :: _ => wordch c = false end.
Proof.
  induction s as [|c s IH]; cbn [skip_word]; [by exists []|].
  fold (wordch c). destruct (wordch c) eqn:E; [|by exists []].
  destruct IH as (w & H1 & H2 & H3). exists (c :: w). cbn. rewrite <- H1. split_and!; [done|by constructor|done].
Qed.

Lemma gettoken_suffix s r t s' : gettoken s = (r, t, s') → s' `suffix_of` s.
Proof.
  unfold gettoken. intros H. assert (∃ e, s' = skip_ws e ∧ e `suffix_of` skip_ws s) as (e & -> & He).
  { destruct (skip_ws s) as [|c q]; [injection H as <- <- <-; by exists []|].
    destruct (in_set _ c); [injection H as <- <- <-; eexists; split; [done|by apply suffix_cons_r]|].
    destruct (c =? chr ">").
    - destruct q as [|c2 q2]; [|destruct (c2 =? chr ">")]; injection H as <- <- <-;
        [exists []|exists q2|exists (c2 :: q2)]; (split; [done|]); repeat (reflexivity || apply suffix_cons_r).
    - injection H as <- <- <-. eexists; split; [done|]. destruct (skip_word_spec (c :: q)) as (w & E & _).
      by exists w. }
  etransitivity; [apply suffix_skip_ws|]. etransitivity; [exact He|apply suffix_skip_ws].
Qed.

Lemma gettoken_word s t s' : gettoken s = (chr "a", t, s') → word_in s t.
Proof.
  unfold gettoken. intros H. destruct (suffix_skip_ws s) as [k Hk].
  destruct (skip_ws s) as [|c q] eqn:E; [done|]. pose proof (skip_ws_head _ _ _ E) as Hw.
  destruct (in_set _ c) eqn:E1; [injection H as -> _ _; done|].
  destruct (Z.eqb_spec c (chr ">")) as [->|Hc].
  { destruct q as [|c2 q2]; [done|]. by destruct (c2 =? chr ">"). }
  destruct (skip_word_spec (c :: q)) as (w & Eq & Hall & Hend).
  remember (skip_word (c :: q)) as e eqn:Ee. injection H as <- <-.
  exists k, w. cbn [fst snd]. split_and!; [by rewrite <- Eq|exact Eq| |done|done].
  intros ->. cbn [skip_word] in Ee. rewrite Hw, (word_char c E1 Hc) in Ee. cbn in Ee, Eq.
  pose proof (length_skip_word q). rewrite <- Ee, <- Eq in H. cbn in H. lia.
Qed.

Lemma peek_suffix s toks p s' : peek s toks = (p, s') → s' `suffix_of` s.
Proof. unfold peek. intros [= _ <-]. apply suffix_skip_ws. Qed.

(** A successful result is of kind [P] and its rest is a rest of [s]. *)
Definition yields {A} (s : list Z) (P : A → Prop) (r : res (A * list Z)) : Prop :=
  match r with Ok (a, s') => s' `suffix_of` s ∧ P a | _ => True end.

Lemma yields_bind {A B} s (P : A → Prop) (Q : B → Prop) m (f : A * list Z → res (B * list Z)) :
  yields s P m → (∀ a s', s' `suffix_of` s → P a → yields s Q (f (a, s'))) → yields s Q (rbind m f).
Proof. destruct m as [[a s']| |]; cbn; [|done|done]. intros [H1 H2] Hf. by apply Hf. Qed.

Lemma yields_suffix {A} s s' (P Q : A → Prop) r :
  s' `suffix_of` s → (∀ a, P a → Q a) → yields s' P r → yields s Q r.
Proof.
  intros Hs HPQ. destruct r as [[a s1]| |]; cbn; [|done|done]. intros [H1 H2].
  split; [by etransitivity|by apply HPQ].
Qed.

Definition words (s : list Z) (ts : list token) : Prop := Forall (word_in s) ts.
Definition rfile (r : redir) : token := r.1.1.

Lemma words_suffix s s' ts : s' `suffix_of` s → words s' ts → words s ts.
Proof. intros Hs H. eapply Forall_impl; [exact H|]. intros t. by apply word_in_suffix. Qed.

Lemma tokens_wrap c rs : tokens (wrap c rs) = tokens c ++ (rfile <$> rs).
Proof.
  unfold wrap. revert c. induction rs as [|[[f m] d] rs IH]; intros c; cbn; [by rewrite app_nil_r|].
  rewrite IH. cbn [tokens]. by rewrite <- app_assoc.
Qed.

Lemma parseredirs_words fuel s : yields s (λ rs, words s (rfile <$> rs)) (parseredirs fuel s).
Proof.
  revert s. induction fuel as [|fuel IH]; intros s; [done|]. cbn [parseredirs].
  destruct (peek s _) as [p s1] eqn:Ep. pose proof (peek_suffix _ _ _ _ Ep) as H1.
  destruct p; cbn [negb]; [|cbn; split; [done|constructor]].
  destruct (gettoken s1) as [[tok t] s2] eqn:E2. pose proof (gettoken_suffix _ _ _ _ E2) as H2.
  destruct (gettoken s2) as [[k file] s3] eqn:E3. pose proof (gettoken_suffix _ _ _ _ E3) as H3.
  destruct (Z.eqb_spec k (chr "a")) as [->|]; cbn [negb]; [|done].
  assert (s2 `suffix_of` s) as H2s by (by etransitivity).
  assert (s3 `suffix_of` s) as H3s by (by etransitivity).
  eapply yields_bind; [eapply yields_suffix; [exact H3s| |apply IH]; intros a; by apply words_suffix|].
  intros rs s' Hs Hrs. cbn. split; [done|]. unfold words. rewrite fmap_app, Forall_app. split; [|done].
  unfold redir_of. repeat case_match; repeat constructor;
    (eapply word_in_suffix; [exact H2s|]; by apply gettoken_word in E3).
Qed.

Lemma parseargs_words fuel argc s :
  yields s (λ a, words s a.1 ∧ words s (rfile <$> a.2)) (parseargs fuel argc s).
Proof.
  revert argc s. induction fuel as [|fuel IH]; intros argc s; [done|]. cbn [parseargs].
  destruct (peek s _) as [p s1] eqn:Ep. pose proof (peek_suffix _ _ _ _ Ep) as H1.
  destruct p; [cbn; split; [done|split; constructor]|].
  destruct (gettoken s1) as [[tok word] s2] eqn:E2. pose proof (gettoken_suffix _ _ _ _ E2) as H2.
  assert (s2 `suffix_of` s) as H2s by (by etransitivity).
  destruct (tok =? 0); [cbn; split; [done|split; constructor]|].
  destruct (Z.eqb_spec tok (chr "a")) as [->|]; cbn [negb]; [|done]. destruct (_ <=? _)%nat; [done|].
  eapply yields_bind; [eapply yields_suffix; [exact H2s| |apply parseredirs_words]; intros a; by apply words_suffix|].
  intros rs s3 H3 Hrs.
  eapply (yields_bind _ (λ a, words s a.1 ∧ words s (rfile <$> a.2)));
    [eapply yields_suffix; [exact H3| |apply IH]|].
  { intros [ws rs'] [Hw Hr]. exact (conj (words_suffix _ _ _ H3 Hw) (words_suffix _ _ _ H3 Hr)). }
  intros [ws rs'] s4 H4 [Hw Hr]. cbn in Hw, Hr |- *. split_and!; [done| |].
  - constructor; [|done]. eapply word_in_suffix; [exact H1|]. by apply gettoken_word in E2.
  - unfold words. rewrite fmap_app. by apply Forall_app.
Qed.

Lemma parseback_words fuel c s0 s :
  s `suffix_of` s0 → words s0 (tokens c) → yields s0 (λ c, words s0 (tokens c)) (parseback fuel c s).
Proof.
  revert c s. induction fuel as [|fuel IH]; intros c s Hs Hc; [done|]. cbn [parseback].
  destruct (peek s _) as [p s1] eqn:Ep. pose proof (peek_suffix _ _ _ _ Ep) as H1.
  destruct p; cbn [negb]; [|cbn; split; [by etransitivity|done]].
  destruct (gettoken s1) as [[tok t] s2] eqn:E2. pose proof (gettoken_suffix _ _ _ _ E2) as H2.
  apply IH; [|done]. etransitivity; [exact H2|]. by etransitivity.
Qed.

Lemma parser_words fuel :
  (∀ s, yields s (λ c, words s (tokens c)) (parseline fuel s)) ∧
  (∀ s, yields s (λ c, words s (tokens c)) (parsepipe fuel s)) ∧
  (∀ s, yields s (λ c, words s (tokens c)) (parseexec fuel s)) ∧
  (∀ s, yields s (λ c, words s (tokens c)) (parseblock fuel s)).
Proof.
  assert (∀ s s' r, s' `suffix_of` s → yields s' (λ c, words s' (tokens c)) r →
    yields s (λ c, words s (tokens c)) r) as Hup.
  { intros s s' r Hs. apply yields_suffix; [done|]. intros c. by apply words_suffix. }
  assert (∀ s s' f, s' `suffix_of` s → yields s (λ rs, words s (rfile <$> rs)) (parseredirs f s')) as Hred.
  { intros s s' f Hs. eapply yields_suffix; [exact Hs| |apply parseredirs_words]. intros a. by apply words_suffix. }
  induction fuel as [|fuel (IHl & IHp & IHe & IHb)]; [by split_and!|].
  split_and!; intros s; cbn [parseline parsepipe parseexec parseblock].
  - eapply yields_bind; [apply IHp|]. intros c s1 H1 Hc. cbn beta in Hc.
    eapply yields_bind; [by apply parseback_words|]. intros c' s2 H2 Hc'. cbn beta in Hc'.
    destruct (peek s2 _) as [p s3] eqn:Ep. pose proof (peek_suffix _ _ _ _ Ep) as H3.
    destruct p; cbn [negb]; [|cbn; split; [by etransitivity|done]].
    destruct (gettoken s3) as [[tok t] s4] eqn:E4. pose proof (gettoken_suffix _ _ _ _ E4) as H4.
    eapply yields_bind; [eapply Hup, IHl; by do 2 (etransitivity; [eassumption|])|]. intros r s5 H5 Hr.
    cbn. split; [done|]. by apply Forall_app.
  - eapply yields_bind; [apply IHe|]. intros c s2 H2 Hc. cbn beta in Hc.
    destruct (peek s2 _) as [p s3] eqn:Ep. pose proof (peek_suffix _ _ _ _ Ep) as H3.
    destruct p; cbn [negb]; [|cbn; split; [by etransitivity|done]].
    destruct (gettoken s3) as [[tok t] s4] eqn:E4. pose proof (gettoken_suffix _ _ _ _ E4) as H4.
    eapply yields_bind; [eapply Hup, IHp; by do 2 (etransitivity; [eassumption|])|]. intros r s5 H5 Hr.
    cbn. split; [done|]. by apply Forall_app.
  - destruct (peek s _) as [p s1] eqn:Ep. pose proof (peek_suffix _ _ _ _ Ep) as H1.
    destruct p; [by eapply Hup, IHb|].
    eapply yields_bind; [by apply Hred|]. intros rs s2 H2 Hrs. cbn beta in Hrs.
    eapply (yields_bind _ (λ a, words s a.1 ∧ words s (rfile <$> a.2)));
      [eapply yields_suffix; [exact H2| |apply parseargs_words]|].
    { intros a [Hw Hr]. exact (conj (words_suffix _ _ _ H2 Hw) (words_suffix _ _ _ H2 Hr)). }
    intros [ws rs'] s3 H3 [Hw Hr]. cbn [fst snd] in *. cbn. split; [done|]. unfold words.
    rewrite tokens_wrap, fmap_app, !Forall_app. by split_and!.
  - destruct (peek s _) as [p s1] eqn:Ep. pose proof (peek_suffix _ _ _ _ Ep) as H1.
    destruct p; cbn [negb]; [|done]. destruct (gettoken s1) as [[tok t] s2] eqn:E2.
    pose proof (gettoken_suffix _ _ _ _ E2) as H2.
    eapply yields_bind; [eapply Hup, IHl; by etransitivity|]. intros c s3 H3 Hc. cbn beta in Hc.
    destruct (peek s3 _) as [p' s4] eqn:Ep'. pose proof (peek_suffix _ _ _ _ Ep') as H4.
    destruct p'; cbn [negb]; [|done]. destruct (gettoken s4) as [[tok' t'] s5] eqn:E5.
    pose proof (gettoken_suffix _ _ _ _ E5) as H5.
    eapply yields_bind; [apply Hred; by do 2 (etransitivity; [eassumption|])|]. intros rs s6 H6 Hrs.
    cbn. split; [done|]. unfold words. rewrite tokens_wrap, Forall_app. by split.
Qed.

(** The text of a token. *)
Definition text (t : token) : list Z := take (length t.1 - length t.2) t.1.

Lemma nul_ends_tokens c : nul_ends c = snd <$> tokens c.
Proof. induction c; cbn [nul_ends tokens]; rewrite ?fmap_app; cbn; congruence. Qed.

(** Stores at other places do not change the buffer there. *)
Lemma nul_stores_other n (b : list Z) (es : list (list Z)) i :
  (∀ e, e ∈ es → (n - length e)%nat ≠ i) → foldl (λ b e, <[(n - length e)%nat:=0]> b) b es !! i = b !! i.
Proof.
  revert b. induction es as [|e es IH]; intros b H; cbn; [done|]. rewrite IH.
  - apply list_lookup_insert_ne. apply H. by constructor.
  - intros e' He'. apply H. by constructor.
Qed.

Lemma nul_stores_at n (b : list Z) (es : list (list Z)) i :
  i ∈ (λ e, (n - length e)%nat) <$> es → (i < length b)%nat →
  foldl (λ b e, <[(n - length e)%nat:=0]> b) b es !! i = Some 0.
Proof.
  revert b. induction es as [|e es IH]; intros b Hi Hb; [by apply elem_of_nil in Hi|]. cbn.
  destruct (decide (i ∈ (λ e, (n - length e)%nat) <$> es)) as [Hin|Hni]; [apply IH; [done|by rewrite length_insert]|].
  apply elem_of_cons in Hi as [->|]; [|done]. rewrite nul_stores_other; [by apply list_lookup_insert_eq|].
  intros x Hx Ex. apply Hni. rewrite <- Ex. by apply (list_elem_of_fmap_2 (λ e, (n - length e)%nat)).
Qed.

Lemma cstr_spec w rest : 0 ∉ w → cstr (w ++ 0 :: rest) = w.
Proof.
  induction w as [|c w IH]; intros H; cbn; [done|]. apply not_elem_of_cons in H as [Hc H].
  destruct (Z.eqb_spec c 0); [congruence|]. by rewrite IH.
Qed.

(** C24: After [parsecmd] every argument and file name of the command is a
    NUL-terminated string with exactly the text of its word: the NULs that
    [nulterminate] stores never fall into another word. *)
Theorem parsecmd_strings (s : list Z) (c : cmd) (b : list Z) :
  0 ∉ s → parsecmd s = Ok (inl (c, b)) →
  Forall (λ t, string_at (length s) b t.1 = text t ∧ text t ≠ [] ∧
    Forall (λ ch, wordch ch = true) (text t)) (tokens c).
Proof.
  intros Hz H. assert (words s (tokens c)) as Hw.
  { unfold parsecmd, parse in H. pose proof (proj1 (parser_words (4 * length s + 4)) s) as Hp.
    destruct (parseline _ s) as [[c' s1]| |]; [|done|done]. cbn in H, Hp.
    case_bool_decide; [|done]. injection H as <- _. apply Hp. }
  assert (b = nulterminate s c) as ->.
  { unfold parsecmd in H. destruct (parse s) as [[c'|]| |]; cbn in H; [|done..]. by injection H as <- <-. }
  apply Forall_forall. intros [q e] Ht. unfold words in Hw. rewrite Forall_forall in Hw.
  destruct (Hw _ Ht) as (pre & w & Es & Eq & Hne & Hall & Hend). cbn [fst snd] in *. subst q.
  assert (text (w ++ e, e) = w) as Et.
  { unfold text. cbn [fst snd]. rewrite length_app. replace (_ + _ - _)%nat with (length w) by lia.
    by rewrite take_app_length. }
  rewrite Et. split_and!; [|done..]. unfold string_at, nulterminate. rewrite nul_ends_tokens.
  set (B := foldl _ _ _). assert (length s = length pre + length w + length e)%nat as Hls.
  { rewrite Es, !length_app. lia. }
  rewrite length_app. replace (length s - (length w + length e))%nat with (length pre) by lia.
  assert (∀ i ch, w !! i = Some ch → B !! (length pre + i)%nat = Some ch) as HB.
  { intros i ch Hi. pose proof (lookup_lt_Some _ _ _ Hi) as Hlt.
    assert (s !! (length pre + i)%nat = Some ch) as Hsi.
    { rewrite Es, lookup_app_r, lookup_app_l by lia. by replace (length pre + i - length pre)%nat with i by lia. }
    unfold B. rewrite nul_stores_other; [rewrite lookup_app_l by lia; done|].
    intros e' He' Ep. apply list_elem_of_fmap in He' as ([q' e''] & -> & Ht'). cbn [snd] in Ep.
    destruct (Hw _ Ht') as (pre' & w' & Es' & _ & _ & _ & Hend'). cbn [fst snd] in *.
    assert (s !! (length pre + i)%nat = e'' !! 0%nat) as Hs'.
    { rewrite <- Ep, Es', app_assoc, lookup_app_r by (rewrite !length_app; lia). f_equal. rewrite !length_app. lia. }
    rewrite Hsi in Hs'. destruct e'' as [|ch' e'']; [done|]. injection Hs' as <-.
    rewrite Forall_lookup in Hall. rewrite (Hall i ch Hi) in Hend'. done. }
  assert (B !! (length pre + length w)%nat = Some 0) as HB0.
  { replace (length pre + length w)%nat with (length s - length e)%nat by lia. apply nul_stores_at.
    - apply list_elem_of_fmap. exists e. split; [done|]. apply list_elem_of_fmap. by exists (w ++ e, e).
    - rewrite length_app. cbn. lia. }
  assert (drop (length pre) B = w ++ 0 :: drop (S (length pre + length w)) B) as ->.
  { rewrite <- (drop_S _ _ _ HB0). rewrite <- drop_drop.
    rewrite <- (take_drop (length w) (drop (length pre) B)) at 1. f_equal.
    apply list_eq. intros i. destruct (decide (i < length w)%nat) as [Hi|Hi].
    - rewrite lookup_take_lt, lookup_drop by done. apply lookup_lt_is_Some in Hi as [ch Hch].
      by rewrite (HB i ch Hch).
    - rewrite lookup_take_ge, lookup_ge_None_2 by lia. done. }
  apply cstr_spec. intros Hin. apply Hz. rewrite Es. apply elem_of_app. right. apply elem_of_app. by left.
Qed.

Lemma parsecmd_strings_witness :
  ∃ c b, parsecmd (chars "cat <in |wc") = Ok (inl (c, b)) ∧ (text <$> tokens c) = [chars "cat"; chars "in"; chars "wc"] ∧
    Forall (λ t, string_at 11 b t.1 = text t ∧ text t ≠ [] ∧ Forall (λ ch, wordch ch = true) (text t)) (tokens c).
Proof.
  destruct (parsecmd (chars "cat <in |wc")) as [[[c b]|]| |] eqn:E; [|by vm_compute in E..].
  exists c, b. split; [done|]. split; [by vm_compute in E; injection E as <- <-|].
  apply (parsecmd_strings (chars "cat <in |wc")); [|done]. by apply (bool_decide_unpack _).
Defined.
